(* ===== verification/_CoqProject ===== *)
-Q . S2P
Prelude.v
CppString.v
HttpRequest.v
MuduoBuffer.v
HttpContext.v
HttpContextFacts.v
HttpParser.v
HttpResponse.v
Router.v
Middleware.v
Session.v
Ssl.v
SslFacts.v
HttpServer.v
HttpServerFacts.v
AiGame.v
AiBoard.v
AiSearch.v
AiGameFacts.v
FirstGame.v
Thread.v
Timer.v
TimerFacts.v
Fiber.v
FiberPool.v
FiberFacts.v
Scheduler.v
SchedulerFacts.v
Workers.v
WorkersFacts.v
FdManager.v
IOManager.v
IOManagerFacts.v
WorkersTheorems.v
Hook.v
HookFacts.v
DbPool.v
DbPoolFacts.v
Gomoku.v
GomokuFacts.v
GomokuTheorems.v
Overlap.v
Site.v
SiteFacts.v
EpollServer.v
LibeventServer.v
FiberServer.v
