(* ===== verification/Prelude.v ===== *)
(** * Verification library for the ChompaPlus workplace repository

    The repository holds an HTTP server with a Gomoku game on top of it
    ([src/HttpServer/]), a library of fibers with an I/O scheduler and hooked
    system calls ([src/co-pro/corotinue-fiber-pool/]) and three small servers
    that try it, epoll and libevent. The first two do not call each other. Below, [HTTP/] and [WebAPP/] are under [src/HttpServer/], and
    [fiber.cpp] and the like under [src/co-pro/corotinue-fiber-pool/].

    ** How C++ is modelled

    A call is a program [prog E S A] (this file): from a state it returns,
    throws an [E], or halts with a [fault] (a failed assertion, undefined
    behaviour, [std::terminate], a loop without end), and the state reached is
    kept in every case. Integers are in [Z], with the wrap-around of their type
    written out where the code can reach it. Strings are lists of characters
    ([CppString.v], which also has [stoi], [to_string] and the order of
    [std::map]). A [shared_ptr] to an object that is shared or changed through
    several pointers is an index into a heap (sessions, timers, fibers,
    descriptor contexts, database connections). The clock, the random engines
    and the system are sequences of answers or states of an interface. Code that
    is not in the repository is a type class: its operations, and in a second
    class (named with [Laws]) the documented behaviour the theorems rely on,
    with a concrete instance for the witnesses:
    [MuduoBuffer] (the buffer of muduo), [OpenSSL], [StdSort] ([std::sort]),
    [Kernel], [Epoll], [Libc] and [Sockets] (system calls), [Libevent],
    [SqlDriver] (the MySQL connector) and [Json] (nlohmann). Interfaces of the code itself are classes
    too: [SessionStorage], [Database], and the virtual functions of [Scheduler].

    ** The HTTP server

    Data from the network enters at [onMessage], which runs the parser on the
    buffer of the connection; a complete request goes through the middlewares to
    the router, whose handler fills the response that is sent back.
    - [HttpRequest.v]: [HTTP/{include,src}/http/HttpRequest]; [MuduoBuffer.v]:
      the receive buffer.
    - [HttpContext.v]: [HttpContext], the incremental parser, one round of its
      loop being [parse_step]. [HttpContextFacts.v] and [HttpParser.v]: parsing
      inverts rendering, does not depend on how the input was cut, ends, keeps
      the context well formed. [parse_loop] runs on fuel, one round more than
      there are unread characters; [parse_terminates] shows that this is enough
      (and that in state [kGotAll] nothing is).
    - [HttpResponse.v]: the response and its text, read back by a client.
    - [Router.v]: [Router]; [route] refines the history of registrations. The
      regular expressions are those [convertToRegex] makes of plain paths.
    - [Middleware.v]: [MiddlewareChain] and [CorsMiddleware].
    - [Session.v]: [Session], [SessionStorage], [MemorySessionStorage] and
      [SessionManager]: what [getSession] returns, and the cookie's round trip.
    - [Ssl.v], [SslFacts.v]: [SslConfig], [SslContext], [SslConnection]: the
      handshake, which sends nothing, and the bytewise [send].
    - [HttpServer.v], [HttpServerFacts.v]: [HttpServer], the object and the
      callbacks of a connection: one request from the
      wire to the answer, the onion of middlewares, and that with TLS no message
      is handled ([onMessage] has fuel for the depth of calls between it and the
      TLS connection; without TLS it uses none).

    ** The game and its server

    - [AiGame.v]: [WebAPP/Gomoku/{include,src}/AiGame]: the board, the moves and
      the search of the computer. [AiBoard.v]: the evaluation stays in [int];
      [AiSearch.v]: alpha-beta on the shared board is plain minimax, and what
      [getBestMove] chooses; [AiGameFacts.v]: the invariant of every game.
    - [FirstGame.v]: [src/HttpServer/AiGame.cpp], the version of the game before,
      as far as it differs: its search against minimax, and where it fails.
    - [DbPool.v], [DbPoolFacts.v]: [DbConnection], [DbConnectionPool] and
      [MySqlUtil]; no connection is lost or lent twice.
    - [Gomoku.v]: [GomokuServer], all its handlers and [FileUtil].
      [GomokuFacts.v]: the rules by which handlers are proved, one per construct,
      and each handler's invariant; [GomokuTheorems.v]: every reachable server
      answers every request, a request changes its own user's game only, and
      what a login, a move and a logout with a bad body do. They are proved
      against [Database] and composed with the router, the middlewares, the
      sessions, the game and, by an instance, the pool of connections.
    - [Overlap.v]: the handler of a move cut in two, with requests of other
      threads in between.
    - [Site.v], [SiteFacts.v]: [main] and the running server: connections that
      come, send anything in any pieces, and go, over one application. What every
      connection can rely on, and what any of them can do to all.

    ** The fibers

    A thread of the scheduler takes tasks from a queue and runs them on fibers
    of its pool; with an empty queue it runs the idle fiber, which in the I/O
    manager waits for events and timers and queues what they wake. The hooked
    calls register an event and suspend their fiber.
    - [Thread.v]: [thread.{h,cpp}]: the maker of a thread and the thread, which
      interleave statement by statement; the constructor returns once the thread
      has started.
    - [Timer.v], [TimerFacts.v]: [timer.{h,cpp}]: the order of the set, the
      timers a turn hands out (its loop has fuel; the number of timers is enough
      unless the clock jumped back, when no fuel is).
    - [Fiber.v], [FiberPool.v], [FiberFacts.v]: [fiber.{h,cpp}] and
      [fiberpool.{h,cpp}]: the run of a callback on a fiber, the pool's
      invariant.
    - [Scheduler.v], [SchedulerFacts.v]: [scheduler.{h,cpp}], with the virtual
      [tickle] and [stopping] as a class: [stop] executes the queue as a
      first-in first-out interpreter would ([run] has fuel for its rounds, and
      [stop_drains] shows that enough of it ends); a task that pauses is lost.
    - [Workers.v], [WorkersFacts.v], [WorkersTheorems.v]: the threads of a
      scheduler, which interleave round by round, with tasks from outside and
      [stop]: what no schedule can break, and that all of them can leave. They
      are proved for every class derived from [Scheduler] that keeps its contract,
      as the I/O manager does.
    - [FdManager.v]: [fd_manager.{h,cpp}] implements a map.
    - [IOManager.v], [IOManagerFacts.v]: [ioscheduler.{h,cpp}], an instance of
      the scheduler's class: contexts, pending count and [epoll] agree in every
      reachable state, a reported event is served, a cancelled one asserts.
    - [Hook.v], [HookFacts.v]: [hook.{h,cpp}]: [hook_init], [do_io] on every
      branch, what [fcntl] shows of O_NONBLOCK, what [close] leaves.

    ** The demonstrations

    - [FiberServer.v]: [main.cpp] of the fibers, over the hooked calls and the I/O
      manager: a connection from [accept] to [close]. Each round of its reader
      takes fuel: as many rounds as [recv] says that it would block are enough.
    - [EpollServer.v]: [co-pro/epoll/main.cpp], whose loop is a step relation:
      nothing leaks, and what each turn answers.
    - [LibeventServer.v]: [co-pro/libevent/main.cpp], the same for its events.

    ** Not modelled

    Operations under one lock, and whole request handlers, are single steps:
    threads that interleave inside them are not modelled, except in the pool of
    connections, whose steps are those between two locks, in the start of a
    thread, in the rounds of the scheduler's threads, and in the handler of a
    move. A data race is not told apart from some order of the steps. The callback
    of a condition timer is an argument of the hooked call that makes it. What is
    printed or logged is left out, and allocation does not fail. [JsonUtils.h]
    only includes a library that is not in the repository, and the C and C++
    files under the [CMakeFiles] directories were generated by CMake to identify
    a compiler. *)

From stdpp Require Export base gmap strings list list_numbers fin_maps sorting.
From Stdlib Require Export ZArith Lia Ascii.

#[global] Set Default Goal Selector "!".

(** ** Machine integers *)

(** The C++ conversions to [uint64_t], [uint32_t], [int64_t] and [int], as
    wrap-around functions on [Z]. *)
Definition wrap_u64 (z : Z) : Z := (z `mod` 2 ^ 64)%Z.
Definition wrap_u32 (z : Z) : Z := (z `mod` 2 ^ 32)%Z.
Definition wrap_i64 (z : Z) : Z := ((z + 2 ^ 63) `mod` 2 ^ 64 - 2 ^ 63)%Z.
Definition wrap_i32 (z : Z) : Z := ((z + 2 ^ 31) `mod` 2 ^ 32 - 2 ^ 31)%Z.

(** [std::numeric_limits<int>::min()] and [max()]. *)
Definition int_min : Z := (- 2 ^ 31)%Z.
Definition int_max : Z := (2 ^ 31 - 1)%Z.

(** The all-ones [uint64_t], written [~0ull] or [(uint64_t)-1] in the code. *)
Definition u64_max : Z := (2 ^ 64 - 1)%Z.

(** ** Outcomes of a C++ call

    A call returns, throws an exception of type [E], or never gives control
    back: a failed [assert], an access the language leaves undefined, an
    exception that leaves the function a thread or a context started with
    ([std::terminate]), or a loop that goes on past the rounds allowed for it. *)
Inductive fault :=
| AssertFailed
| UndefinedBehaviour
| Terminated
| Diverged.

Inductive outcome (E A : Type) :=
| Ret (a : A)
| Throw (e : E)
| Halt (w : fault).
Arguments Ret {E A} a.
Arguments Throw {E A} e.
Arguments Halt {E A} w.

(** Programs over a state [S]: the state reached is kept on every outcome, as
    C++ does not roll back on a throw. *)
Definition prog (E S A : Type) : Type := S -> outcome E A * S.

#[global] Instance prog_ret {E S} : MRet (prog E S) := fun A a s => (Ret a, s).
#[global] Instance prog_bind {E S} : MBind (prog E S) := fun A B f m s =>
  match m s with
  | (Ret a, s') => f a s'
  | (Throw e, s') => (Throw e, s')
  | (Halt w, s') => (Halt w, s')
  end.

Definition get {E S} : prog E S S := fun s => (Ret s, s).
Definition gets {E S A} (f : S -> A) : prog E S A := fun s => (Ret (f s), s).
Definition put {E S} (s' : S) : prog E S unit := fun _ => (Ret tt, s').
Definition modify {E S} (f : S -> S) : prog E S unit := fun s => (Ret tt, f s).
Definition throw {E S A} (e : E) : prog E S A := fun s => (Throw e, s).
Definition halt {E S A} (w : fault) : prog E S A := fun s => (Halt w, s).

(** [assert(b)] with assertions enabled, as in every build the repository has. *)
Definition assert {E S} (b : bool) : prog E S unit :=
  if b then mret tt else halt AssertFailed.

(** [try { m } catch (E e) { h(e) }]. *)
Definition catch {E S A} (m : prog E S A) (h : E -> prog E S A) : prog E S A := fun s =>
  match m s with
  | (Throw e, s') => h e s'
  | r => r
  end.

(** A program on a part [T] of the state, run on the whole of it. *)
Definition zoom {E S T A} (view : S -> T) (put_back : T -> S -> S) (m : prog E T A) : prog E S A :=
  fun s => let '(r, t) := m (view s) in (r, put_back t s).

(** The exceptions of the standard hierarchy the code throws or catches. *)
Inductive std_exception :=
| InvalidArgument (what : string)
| OutOfRange (what : string)
| OtherException (what : string).

#[export] Instance fault_eq_dec : EqDecision fault.
Proof. solve_decision. Defined.
#[export] Instance std_exception_eq_dec : EqDecision std_exception.
Proof. solve_decision. Defined.
#[export] Instance outcome_eq_dec {E A} `{EqDecision E, EqDecision A} : EqDecision (outcome E A).
Proof. solve_decision. Defined.

Definition what (e : std_exception) : string :=
  match e with
  | InvalidArgument w | OutOfRange w | OtherException w => w
  end.

(** ** Reflexive transitive closure of a step relation *)
Inductive star {S : Type} (step : S -> S -> Prop) : S -> S -> Prop :=
| star_refl s : star step s s
| star_step s1 s2 s3 : step s1 s2 -> star step s2 s3 -> star step s1 s3.

(** Position of the first element satisfying [P], the length when there is none. *)
Fixpoint find_index {A} (P : A -> bool) (l : list A) : nat :=
  match l with
  | [] => 0
  | x :: l' => if P x then 0 else S (find_index P l')
  end.

(** ** Tactics and hint databases *)

(** Split every conjunction of the goal, then try arithmetic. *)
Ltac split_lia := repeat split; try lia.

(** Case on the first [match] of the goal or of hypothesis [H]. *)
Ltac case_goal :=
  match goal with
  | |- context [match ?x with _ => _ end] => destruct x eqn:?
  end.

(** Run a program symbolically as far as its control flow is known. *)
Ltac prog_unfold :=
  unfold mbind, mret, prog_bind, prog_ret, get, gets, put, modify, throw, halt, assert.
Ltac prog_simpl := repeat (progress (prog_unfold; simpl)).

(** A closed decidable proposition, by evaluation. *)
Ltac solve_closed := apply (bool_decide_unpack _); by vm_compute.

Create HintDb cpp discriminated.
Create HintDb bounds discriminated.

(** ** Monad laws *)

Lemma prog_bind_ret {E S A B} (a : A) (f : A -> prog E S B) s :
  (mret a ≫= f) s = f a s.
Proof. done. Qed.

Lemma prog_bind_assoc {E S A B C} (m : prog E S A) (f : A -> prog E S B)
    (g : B -> prog E S C) s :
  ((m ≫= f) ≫= g) s = (m ≫= λ a, f a ≫= g) s.
Proof. unfold mbind, prog_bind. by destruct (m s) as [[] ?]. Qed.

Lemma bind_run {E S A B} (m : prog E S A) (f : A -> prog E S B) s a s' :
  m s = (Ret a, s') -> (m ≫= f) s = f a s'.
Proof. unfold mbind, prog_bind. by intros ->. Qed.

Lemma bind_throw {E S A B} (m : prog E S A) (f : A -> prog E S B) s e s' :
  m s = (Throw e, s') -> (m ≫= f) s = (Throw e, s').
Proof. unfold mbind, prog_bind. by intros ->. Qed.

Lemma bind_halt {E S A B} (m : prog E S A) (f : A -> prog E S B) s w s' :
  m s = (Halt w, s') -> (m ≫= f) s = (Halt w, s').
Proof. unfold mbind, prog_bind. by intros ->. Qed.

Lemma bind_congr {E S A B} (m : prog E S A) (f g : A -> prog E S B) s :
  (∀ a s, f a s = g a s) -> (m ≫= f) s = (m ≫= g) s.
Proof. intros Hfg. unfold mbind, prog_bind. destruct (m s) as [[] ?]; auto. Qed.

Lemma catch_ret {E S A} (m : prog E S A) h s a s' :
  m s = (Ret a, s') -> catch m h s = (Ret a, s').
Proof. unfold catch. by intros ->. Qed.

Lemma catch_throw {E S A} (m : prog E S A) h s e s' :
  m s = (Throw e, s') -> catch m h s = h e s'.
Proof. unfold catch. by intros ->. Qed.

Lemma catch_congr {E S A} (m1 m2 : prog E S A) (h1 h2 : E -> prog E S A) s :
  m1 s = m2 s -> (∀ e s', h1 e s' = h2 e s') -> catch m1 h1 s = catch m2 h2 s.
Proof. intros Hm Hh. unfold catch. rewrite Hm. by destruct (m2 s) as [[] ?]. Qed.

(** When the handler itself never throws, neither does the whole. *)
Lemma catch_no_throw {E S A} (m : prog E S A) (h : E -> prog E S A) s e :
  (∀ e' s', (h e' s').1 ≠ Throw e) -> (catch m h s).1 ≠ Throw e.
Proof. intros Hh. unfold catch. by destruct (m s) as [[] ?]. Qed.

Lemma zoom_run {E S T A} view (put_back : T -> S -> S) (m : prog E T A) s r t :
  m (view s) = (r, t) -> zoom view put_back m s = (r, put_back t s).
Proof. unfold zoom. by intros ->. Qed.

(** A program that returns, with what holds of its answer and final state. *)
Definition returns {E S A} (m : prog E S A) (s : S) (Q : A -> S -> Prop) : Prop :=
  ∃ a s', m s = (Ret a, s') ∧ Q a s'.

Lemma returns_ret {E S A} (a : A) s (Q : A -> S -> Prop) : Q a s -> returns (E:=E) (mret a) s Q.
Proof. intros ?. by exists a, s. Qed.

Lemma returns_bind {E S A B} (m : prog E S A) (f : A -> prog E S B) s Q :
  returns m s (λ a s', returns (f a) s' Q) -> returns (m ≫= f) s Q.
Proof.
  intros (a & s' & Hm & b & s'' & Hf & HQ). exists b, s''. split; [|done].
  by rewrite (bind_run _ _ _ _ _ Hm).
Qed.

Lemma returns_mono {E S A} (m : prog E S A) s (Q Q' : A -> S -> Prop) :
  returns m s Q -> (∀ a s', Q a s' -> Q' a s') -> returns m s Q'.
Proof. intros (a & s' & ? & ?) HQ. exists a, s'. eauto. Qed.

Lemma returns_run {E S A} (m : prog E S A) s a s' (Q : A -> S -> Prop) :
  m s = (Ret a, s') -> Q a s' -> returns m s Q.
Proof. intros ? ?. by exists a, s'. Qed.

Lemma returns_zoom {E S T A} view (put_back : T -> S -> S) (m : prog E T A) s (Q : A -> S -> Prop) :
  returns m (view s) (λ a t, Q a (put_back t s)) -> returns (zoom view put_back m) s Q.
Proof. intros (a & t & Hm & HQ). exists a, (put_back t s). split; [by apply zoom_run|done]. Qed.

Lemma returns_modify {E S} (f : S -> S) s (Q : unit -> S -> Prop) :
  Q tt (f s) -> returns (E:=E) (modify f) s Q.
Proof. intros ?. by exists tt, (f s). Qed.

Lemma returns_gets {E S A} (f : S -> A) s (Q : A -> S -> Prop) :
  Q (f s) s -> returns (E:=E) (gets f) s Q.
Proof. intros ?. by exists (f s), s. Qed.

Lemma returns_assert {E S} (b : bool) (s : S) (Q : unit -> S -> Prop) :
  b = true -> Q tt s -> returns (E:=E) (assert b) s Q.
Proof. intros -> ?. by exists tt, s. Qed.

(** ** Wrap-around *)

Lemma wrap_u64_small z : (0 <= z < 2 ^ 64)%Z -> wrap_u64 z = z.
Proof. intros ?. by apply Z.mod_small. Qed.

Lemma wrap_u32_small z : (0 <= z < 2 ^ 32)%Z -> wrap_u32 z = z.
Proof. intros ?. by apply Z.mod_small. Qed.

Lemma wrap_i64_small z : (- 2 ^ 63 <= z < 2 ^ 63)%Z -> wrap_i64 z = z.
Proof. intros ?. unfold wrap_i64. rewrite Z.mod_small; lia. Qed.

Lemma wrap_i32_small z : (int_min <= z <= int_max)%Z -> wrap_i32 z = z.
Proof. unfold int_min, int_max, wrap_i32. intros ?. rewrite Z.mod_small; lia. Qed.

Lemma wrap_u64_bounds z : (0 <= wrap_u64 z < 2 ^ 64)%Z.
Proof. apply Z.mod_pos_bound. lia. Qed.

Lemma wrap_u32_bounds z : (0 <= wrap_u32 z < 2 ^ 32)%Z.
Proof. apply Z.mod_pos_bound. lia. Qed.

#[export] Hint Resolve wrap_u64_bounds wrap_u32_bounds : bounds.

(** ** Reachability *)

Lemma star_one {S} (step : S -> S -> Prop) s1 s2 : step s1 s2 -> star step s1 s2.
Proof. intros ?. by eapply star_step; [|apply star_refl]. Qed.

Lemma star_trans {S} (step : S -> S -> Prop) s1 s2 s3 :
  star step s1 s2 -> star step s2 s3 -> star step s1 s3.
Proof. induction 1; eauto using star_step. Qed.

(** An invariant of every step is an invariant of every reachable state. *)
Lemma star_invariant {S} (step : S -> S -> Prop) (I : S -> Prop) :
  (forall s s', step s s' -> I s -> I s') ->
  forall s s', star step s s' -> I s -> I s'.
Proof. intros Hstep s s'. induction 1; eauto. Qed.

#[export] Hint Resolve star_one star_refl : cpp.

(** ** [find_index] *)

Section find_index.
Context {A : Type} (P : A -> bool).
Implicit Types l : list A.

Lemma find_index_le l : find_index P l ≤ length l.
Proof. induction l as [|x l IH]; simpl; [lia|]. destruct (P x); lia. Qed.

Lemma find_index_app_l l1 l2 :
  find_index P l1 < length l1 -> find_index P (l1 ++ l2) = find_index P l1.
Proof.
  induction l1 as [|x l1 IH]; simpl; [lia|].
  destruct (P x); [done|]. intros ?. rewrite IH; lia.
Qed.

Lemma find_index_none l : Forall (λ x, P x = false) l -> find_index P l = length l.
Proof. induction 1 as [|x l Hx _ IH]; simpl; [done|]. rewrite Hx. lia. Qed.

Lemma find_index_hit l1 x l2 :
  Forall (λ x, P x = false) l1 -> P x = true ->
  find_index P (l1 ++ x :: l2) = length l1.
Proof.
  induction 1 as [|y l1 Hy _ IH]; intros Hx; simpl; [by rewrite Hx|].
  by rewrite Hy, IH.
Qed.

Lemma find_index_before l : Forall (λ x, P x = false) (take (find_index P l) l).
Proof.
  induction l as [|x l IH]; simpl; [constructor|].
  destruct (P x) eqn:?; simpl; by constructor.
Qed.

Lemma find_index_lookup l :
  find_index P l < length l -> ∃ x, l !! find_index P l = Some x ∧ P x = true.
Proof.
  induction l as [|x l IH]; simpl; [lia|].
  destruct (P x) eqn:?; simpl; [by eauto|]. intros ?. apply IH. lia.
Qed.

(** A list splits at the first hit. *)
Lemma find_index_split l :
  find_index P l < length l ->
  ∃ x, l = take (find_index P l) l ++ x :: drop (S (find_index P l)) l ∧ P x = true.
Proof.
  intros Hlt. destruct (find_index_lookup l Hlt) as (x & Hx & HP).
  exists x. split; [|done]. symmetry. by apply take_drop_middle.
Qed.

End find_index.

#[export] Hint Resolve find_index_le : bounds.

(** ** Updating a list in place *)

Lemma list_alter_insert {A} (f : A -> A) (l : list A) i x :
  l !! i = Some x -> alter f i l = <[i := f x]> l.
Proof.
  revert i. induction l as [|y l IH]; intros [|i] Hi; simplify_eq/=; [done|].
  f_equal. by apply IH.
Qed.
