(* ===== verification/CppString.v ===== *)
(** * The C++ standard library on characters and strings

    [std::string] as the list of its characters, with the members and
    algorithms the sources call: [std::find], [std::string::find], [substr],
    [isspace], [std::stoi], [std::to_string], and the iteration order of
    [std::map<std::string, _>]. Positions are [nat]; [std::string::npos] is [None]. *)

From S2P Require Export Prelude.

Abbreviation bytes := (list ascii).

(** A string literal of the source. *)
Definition lit (s : string) : bytes := String.list_ascii_of_string s.
Arguments lit s%_string.

Definition CR : ascii := ascii_of_nat 13.
Definition LF : ascii := ascii_of_nat 10.
Definition crlf : bytes := [CR; LF].

(** ** Searching *)

(** [std::find(first, last, c) - first] over the range holding [s]. *)
Definition find_char (c : ascii) (s : bytes) : nat := find_index (Ascii.eqb c) s.

(** [s.find(c, pos)]. *)
Definition str_find (c : ascii) (pos : nat) (s : bytes) : option nat :=
  let i := find_char c (drop pos s) in
  if decide (i < length (drop pos s)) then Some (pos + i) else None.

(** [s] starts with [p]. *)
Definition starts_with (p s : bytes) : bool := bool_decide (p = take (length p) s).

(** [s.find(p)] for a string [p]: the first position where [p] occurs. *)
Fixpoint str_find_str (p s : bytes) : option nat :=
  if starts_with p s then Some 0 else
  match s with
  | [] => None
  | _ :: s' => S <$> str_find_str p s'
  end.

(** [s.substr(pos, n)] and [s.substr(pos)], for [pos <= s.size()]. *)
Definition substr (s : bytes) (pos n : nat) : bytes := take n (drop pos s).
Definition substr_from (s : bytes) (pos : nat) : bytes := drop pos s.

(** Offset of the first CR LF pair. *)
Fixpoint find_crlf (s : bytes) : option nat :=
  match s with
  | [] => None
  | c :: s' =>
      if starts_with crlf s then Some 0 else S <$> find_crlf s'
  end.

(** [isspace] in the C locale. *)
Definition isspace (c : ascii) : bool :=
  let n := nat_of_ascii c in
  bool_decide (n = 32) || (bool_decide (9 ≤ n) && bool_decide (n ≤ 13)).

(** Drop leading and trailing white space. *)
Definition skip_spaces (s : bytes) : bytes := drop (find_index (λ c, negb (isspace c)) s) s.
Definition trim_end (s : bytes) : bytes := reverse (skip_spaces (reverse s)).

(** ** Numbers *)

Definition is_digit (c : ascii) : bool :=
  let n := nat_of_ascii c in bool_decide (48 ≤ n) && bool_decide (n ≤ 57).
Definition digit_val (c : ascii) : Z := (Z.of_nat (nat_of_ascii c) - 48)%Z.
Definition digit_char (d : Z) : ascii := ascii_of_nat (Z.to_nat (d + 48)).

Definition digits_val (ds : bytes) : Z :=
  fold_left (λ acc c, (10 * acc + digit_val c)%Z) ds 0%Z.

(** [std::stoi]: white space, a sign, the longest run of digits. *)
Definition stoi_unsigned (neg : bool) (s : bytes) : outcome std_exception Z :=
  let ds := take (find_index (λ c, negb (is_digit c)) s) s in
  if decide (ds = []) then Throw (InvalidArgument "stoi")
  else
    let v := if neg then (- digits_val ds)%Z else digits_val ds in
    if decide (int_min <= v <= int_max)%Z then Ret v else Throw (OutOfRange "stoi").

Definition stoi (s : bytes) : outcome std_exception Z :=
  match skip_spaces s with
  | c :: s' =>
      if Ascii.eqb c "-"%char then stoi_unsigned true s'
      else if Ascii.eqb c "+"%char then stoi_unsigned false s'
      else stoi_unsigned false (c :: s')
  | [] => stoi_unsigned false []
  end.

(** Decimal digits of [n], most significant first. *)
Fixpoint digits_of (fuel : nat) (n : Z) : bytes :=
  match fuel with
  | 0 => []
  | S fuel =>
      if decide (n < 10)%Z then [digit_char n]
      else digits_of fuel (n `div` 10)%Z ++ [digit_char (n `mod` 10)%Z]
  end.

(** [std::to_string] on an integer. *)
Definition to_string (n : Z) : bytes :=
  if decide (n < 0)%Z then "-"%char :: digits_of (S (Z.to_nat (Z.log2 (- n)))) (- n)%Z
  else digits_of (S (Z.to_nat (Z.log2 n))) n.

(** ** The order of [std::map<std::string, _>]: [std::less] on strings, which
    compares characters as unsigned. *)
Fixpoint bytes_leb (s t : bytes) : bool :=
  match s, t with
  | [], _ => true
  | _ :: _, [] => false
  | a :: s', b :: t' =>
      if decide (nat_of_ascii a < nat_of_ascii b) then true
      else if decide (nat_of_ascii b < nat_of_ascii a) then false
      else bytes_leb s' t'
  end.

Definition bytes_le (s t : bytes) : Prop := bytes_leb s t = true.
Definition entry_le {A} (e1 e2 : bytes * A) : Prop := bytes_le e1.1 e2.1.

#[export] Instance bytes_le_dec : RelDecision bytes_le.
Proof. intros s t. unfold bytes_le. apply _. Defined.

#[export] Instance entry_le_dec {A} : RelDecision (@entry_le A).
Proof. intros s t. unfold entry_le. apply _. Defined.

(** The entries of a [std::map] in iteration order. *)
Definition map_items {A} (m : gmap bytes A) : list (bytes * A) :=
  merge_sort entry_le (map_to_list m).

(** ** Searching: lemmas *)

Lemma ascii_eqb_spec c d : reflect (c = d) (Ascii.eqb c d).
Proof. apply Ascii.eqb_spec. Qed.

Lemma find_char_le c s : find_char c s ≤ length s.
Proof. apply find_index_le. Qed.

Lemma find_char_none c s : c ∉ s -> find_char c s = length s.
Proof.
  intros Hc. apply find_index_none, Forall_forall. intros d Hd.
  destruct (ascii_eqb_spec c d); naive_solver.
Qed.

Lemma find_char_hit c s1 s2 : c ∉ s1 -> find_char c (s1 ++ c :: s2) = length s1.
Proof.
  intros Hc. apply find_index_hit.
  - apply Forall_forall. intros d Hd. destruct (ascii_eqb_spec c d); naive_solver.
  - by destruct (ascii_eqb_spec c c).
Qed.

Lemma find_char_before c s : c ∉ take (find_char c s) s.
Proof.
  intros Hc. pose proof (find_index_before (Ascii.eqb c) s) as HF.
  rewrite Forall_forall in HF. specialize (HF _ Hc).
  by destruct (ascii_eqb_spec c c).
Qed.

Lemma find_char_split c s :
  find_char c s < length s ->
  s = take (find_char c s) s ++ c :: drop (S (find_char c s)) s.
Proof.
  intros Hlt. destruct (find_index_split (Ascii.eqb c) s Hlt) as (d & Hs & Hd).
  by destruct (ascii_eqb_spec c d); subst.
Qed.

Lemma find_char_in c s : c ∈ s -> find_char c s < length s.
Proof.
  intros (s1 & s2 & -> & Hc)%list_elem_of_split_l.
  rewrite find_char_hit by done. rewrite length_app. simpl. lia.
Qed.

Lemma str_find_none c pos s : str_find c pos s = None <-> c ∉ drop pos s.
Proof.
  unfold str_find. case_decide as Hd.
  - split; [done|]. intros Hc. rewrite find_char_none in Hd by done. lia.
  - split; [|done]. intros _ Hc. by apply Hd, find_char_in.
Qed.

Lemma str_find_some c pos s i :
  str_find c pos s = Some i ->
  pos ≤ i ∧ i < length s ∧ s !! i = Some c ∧ c ∉ substr s pos (i - pos).
Proof.
  unfold str_find, substr. case_decide as Hd; [|done]. intros [= <-].
  rewrite length_drop in Hd.
  destruct (find_index_lookup (Ascii.eqb c) (drop pos s)) as (d & Hl & Heq).
  { by rewrite length_drop. }
  destruct (ascii_eqb_spec c d); [subst d|done]. rewrite lookup_drop in Hl.
  split_and!; [lia|lia|done|].
  replace (pos + find_char c (drop pos s) - pos) with (find_char c (drop pos s)) by lia.
  apply find_char_before.
Qed.

(** ** [find_crlf] *)

Lemma starts_with_spec p s : starts_with p s = true <-> ∃ r, s = p ++ r.
Proof.
  unfold starts_with. rewrite bool_decide_eq_true. split.
  - intros Hp. exists (drop (length p) s). rewrite Hp at 1. by rewrite take_drop.
  - intros [r ->]. by rewrite take_app_length.
Qed.

Lemma starts_with_app p s r : starts_with p s = true -> starts_with p (s ++ r) = true.
Proof. rewrite !starts_with_spec. intros [t ->]. exists (t ++ r). by rewrite app_assoc. Qed.

Lemma find_crlf_spec s i :
  find_crlf s = Some i -> ∃ r, s = take i s ++ crlf ++ r.
Proof.
  revert i. induction s as [|c s IH]; intros i; simpl; [done|].
  destruct (starts_with crlf (c :: s)) eqn:Hs.
  - intros [= <-]. apply starts_with_spec in Hs as [r Hr]. by exists r.
  - rewrite fmap_Some. intros (j & Hj & ->). destruct (IH j Hj) as [r Hr].
    exists r. simpl. by f_equal.
Qed.

Lemma find_crlf_bound s i : find_crlf s = Some i -> i + 2 ≤ length s.
Proof.
  intros (r & Hr)%find_crlf_spec. pose proof (f_equal length Hr) as Hl.
  rewrite !length_app, length_take in Hl. simpl in Hl. lia.
Qed.

Lemma find_crlf_app_l s r i : find_crlf s = Some i -> find_crlf (s ++ r) = Some i.
Proof.
  revert i. induction s as [|c s IH]; intros i; simpl; [done|].
  destruct (starts_with crlf (c :: s)) eqn:Hs.
  - intros [= <-]. by rewrite (starts_with_app _ (c :: s) r Hs : starts_with _ (c :: s ++ r) = _).
  - rewrite fmap_Some. intros (j & Hj & ->). pose proof (find_crlf_bound s j Hj).
    assert (starts_with crlf (c :: s ++ r) = false) as ->; [|by rewrite (IH _ Hj)].
    rewrite <- Hs. unfold starts_with. destruct s as [|d s]; simpl in *; [lia|done].
Qed.

(** A line without CR ends at the CR LF that follows it. *)
Lemma find_crlf_line l r : CR ∉ l -> find_crlf (l ++ crlf ++ r) = Some (length l).
Proof.
  induction l as [|c l IH]; intros Hc; simpl; [done|].
  rewrite not_elem_of_cons in Hc. destruct Hc as [Hc Hl].
  assert (starts_with crlf (c :: l ++ crlf ++ r) = false) as Hs.
  { unfold starts_with. rewrite bool_decide_eq_false. simpl. by intros [= ? ?]. }
  simpl in Hs. rewrite Hs. simpl in IH. by rewrite IH.
Qed.

Lemma find_crlf_none_no_lf l : LF ∉ l -> find_crlf l = None.
Proof.
  intros Hl. destruct (find_crlf l) as [i|] eqn:Hi; [|done].
  apply find_crlf_spec in Hi as [r Hr]. exfalso. apply Hl. rewrite Hr. set_solver.
Qed.

(** ** White space *)

Lemma skip_spaces_head s :
  match skip_spaces s with [] => True | c :: _ => isspace c = false end.
Proof.
  unfold skip_spaces. set (P := λ c, negb (isspace c)).
  destruct (decide (find_index P s < length s)) as [Hlt|Hge].
  - destruct (find_index_lookup P s Hlt) as (c & Hc & HP).
    rewrite (drop_S _ _ _ Hc). by apply negb_true_iff.
  - rewrite drop_ge; [done|lia].
Qed.

Lemma skip_spaces_id s :
  match s with [] => True | c :: _ => isspace c = false end -> skip_spaces s = s.
Proof. destruct s as [|c s]; [done|]. unfold skip_spaces. simpl. by intros ->. Qed.

Lemma trim_end_id s c : isspace c = false -> trim_end (s ++ [c]) = s ++ [c].
Proof.
  intros Hc. unfold trim_end. rewrite skip_spaces_id, reverse_involutive; [done|].
  by rewrite reverse_snoc.
Qed.

(** ** Decimal round trip *)

Lemma digit_char_nat d : (0 <= d < 10)%Z -> nat_of_ascii (digit_char d) = Z.to_nat (d + 48).
Proof. intros ?. apply nat_ascii_embedding. lia. Qed.

Lemma digit_char_is_digit d : (0 <= d < 10)%Z -> is_digit (digit_char d) = true.
Proof.
  intros ?. unfold is_digit. rewrite digit_char_nat by done.
  rewrite andb_true_iff, !bool_decide_eq_true. lia.
Qed.

Lemma digit_val_char d : (0 <= d < 10)%Z -> digit_val (digit_char d) = d.
Proof. intros ?. unfold digit_val. rewrite digit_char_nat; lia. Qed.

Lemma is_digit_not_space c : is_digit c = true -> isspace c = false.
Proof.
  unfold is_digit, isspace. rewrite andb_true_iff, !bool_decide_eq_true. intros ?.
  rewrite orb_false_iff, andb_false_iff, !bool_decide_eq_false. lia.
Qed.

Lemma is_digit_not_sign c : is_digit c = true -> Ascii.eqb c "-"%char = false ∧ Ascii.eqb c "+"%char = false.
Proof.
  intros Hc. split.
  - destruct (ascii_eqb_spec c "-"%char); [by subst|done].
  - destruct (ascii_eqb_spec c "+"%char); [by subst|done].
Qed.

Lemma digits_val_snoc ds c : digits_val (ds ++ [c]) = (10 * digits_val ds + digit_val c)%Z.
Proof. unfold digits_val. by rewrite fold_left_app. Qed.

(** [log2 n + 1] rounds are enough: each division by ten halves [n] at least. *)
Lemma digits_of_spec fuel n :
  (0 <= n < 2 ^ Z.of_nat fuel)%Z ->
  digits_val (digits_of fuel n) = n ∧ Forall (λ c, is_digit c = true) (digits_of fuel n) ∧
  (0 < fuel → digits_of fuel n ≠ []).
Proof.
  revert n. induction fuel as [|fuel IH]; intros n Hn.
  { assert (n = 0)%Z as -> by (simpl in Hn; lia). split_and!; [done|constructor|lia]. }
  simpl. case_decide as Hlt.
  - split_and!; [|constructor; [apply digit_char_is_digit; lia|constructor]|done].
    unfold digits_val. simpl. by rewrite digit_val_char by lia.
  - pose proof (Z.mod_pos_bound n 10). pose proof (Z.div_mod n 10).
    rewrite Nat2Z.inj_succ, Z.pow_succ_r in Hn by lia.
    destruct (IH (n `div` 10)%Z) as (Hv & Hf & _).
    { split; [apply Z.div_pos; lia|]. apply Z.div_lt_upper_bound; lia. }
    rewrite digits_val_snoc, Hv, digit_val_char by lia. split_and!; [lia| |].
    + apply Forall_app. split; [done|]. constructor; [apply digit_char_is_digit; lia|constructor].
    + intros _ Hnil. by apply app_eq_nil in Hnil as [_ ?].
Qed.

Lemma digits_of_log n :
  (0 <= n)%Z -> let ds := digits_of (S (Z.to_nat (Z.log2 n))) n in
  digits_val ds = n ∧ Forall (λ c, is_digit c = true) ds ∧ ds ≠ [].
Proof.
  intros Hn ds. destruct (digits_of_spec (S (Z.to_nat (Z.log2 n))) n) as (?&?&?).
  - destruct (decide (n = 0)%Z) as [->|]; [done|].
    pose proof (Z.log2_spec n). pose proof (Z.log2_nonneg n).
    rewrite Nat2Z.inj_succ, Z2Nat.id by done. lia.
  - split_and!; [done..|]. auto with lia.
Qed.

(** [std::stoi] of a run of digits, of a run followed by other text, and of a
    negated run. *)
Lemma take_digits ds r :
  Forall (λ c, is_digit c = true) ds ->
  match r with [] => True | c :: _ => is_digit c = false end ->
  take (find_index (λ c, negb (is_digit c)) (ds ++ r)) (ds ++ r) = ds.
Proof.
  intros Hds Hr. destruct r as [|c r].
  - rewrite app_nil_r, find_index_none, take_ge; [done|done|].
    eapply Forall_impl; [done|]. simpl. by intros ? ->.
  - rewrite find_index_hit; [by rewrite take_app_length| |by rewrite Hr].
    eapply Forall_impl; [done|]. simpl. by intros ? ->.
Qed.

Lemma stoi_digits ds r :
  ds ≠ [] -> Forall (λ c, is_digit c = true) ds ->
  match r with [] => True | c :: _ => is_digit c = false end ->
  stoi (ds ++ r) =
    if decide (int_min <= digits_val ds <= int_max)%Z then Ret (digits_val ds)
    else Throw (OutOfRange "stoi").
Proof.
  intros Hne Hds Hr. unfold stoi.
  assert (skip_spaces (ds ++ r) = ds ++ r) as ->.
  { apply skip_spaces_id. destruct ds as [|c ds]; [done|]. simpl.
    apply is_digit_not_space. by apply Forall_cons in Hds as [? _]. }
  assert (∃ c ds', ds = c :: ds' ∧ is_digit c = true) as (c & ds' & Heq & Hc).
  { destruct ds as [|c ds']; [done|]. apply Forall_cons in Hds as [? _]. eauto. }
  apply is_digit_not_sign in Hc as [Hm Hp].
  rewrite Heq. simpl. rewrite Hm, Hp.
  change (c :: ds' ++ r) with ((c :: ds') ++ r). rewrite <- Heq.
  unfold stoi_unsigned. rewrite take_digits by done. by rewrite decide_False by done.
Qed.

Lemma stoi_neg_digits ds :
  ds ≠ [] -> Forall (λ c, is_digit c = true) ds ->
  stoi ("-"%char :: ds) =
    if decide (int_min <= - digits_val ds <= int_max)%Z then Ret (- digits_val ds)%Z
    else Throw (OutOfRange "stoi").
Proof.
  intros Hne Hds. unfold stoi. rewrite skip_spaces_id by done. simpl.
  pose proof (take_digits ds [] Hds I) as Ht. rewrite app_nil_r in Ht.
  unfold stoi_unsigned. rewrite Ht. by rewrite decide_False by done.
Qed.

(** [std::stoi] inverts [std::to_string] on every [int]. *)
Lemma stoi_to_string n : (int_min <= n <= int_max)%Z -> stoi (to_string n) = Ret n.
Proof.
  intros Hn. unfold to_string. case_decide as Hs.
  - destruct (digits_of_log (- n)) as (Hv & Hf & Hne); [lia|].
    rewrite stoi_neg_digits, Hv by done. rewrite Z.opp_involutive.
    by rewrite decide_True by done.
  - destruct (digits_of_log n) as (Hv & Hf & Hne); [lia|].
    pose proof (stoi_digits _ [] Hne Hf I) as Hst. rewrite app_nil_r in Hst.
    by rewrite Hst, Hv, decide_True by done.
Qed.

Lemma to_string_ne n : to_string n ≠ [].
Proof.
  unfold to_string. case_decide; [done|]. by destruct (digits_of_log n) as (_&_&?); [lia|].
Qed.

(** ** Order and iteration of a [std::map] *)

#[export] Instance bytes_le_total : Total bytes_le.
Proof.
  unfold bytes_le. intros s. induction s as [|a s IH]; intros [|b t]; simpl; auto.
  repeat case_decide; auto; lia.
Qed.

#[export] Instance bytes_le_trans : Transitive bytes_le.
Proof.
  unfold bytes_le. intros s. induction s as [|a s IH]; intros [|b t] [|c u]; simpl; auto; try done.
  repeat case_decide; auto; try lia; try done. apply IH.
Qed.

#[export] Instance bytes_le_antisymm : AntiSymm (=) bytes_le.
Proof.
  unfold bytes_le. intros s. induction s as [|a s IH]; intros [|b t]; simpl; try done.
  repeat case_decide; try done; try lia. intros ??. f_equal; [|by apply IH].
  rewrite <- (ascii_nat_embedding a), <- (ascii_nat_embedding b). f_equal. lia.
Qed.

#[export] Instance entry_le_total {A} : Total (@entry_le A).
Proof. intros [s x] [t y]. apply bytes_le_total. Qed.

#[export] Instance entry_le_trans {A} : Transitive (@entry_le A).
Proof. intros [s x] [t y] [u z]. unfold entry_le. simpl. apply bytes_le_trans. Qed.

Lemma map_items_perm {A} (m : gmap bytes A) : map_items m ≡ₚ map_to_list m.
Proof. apply merge_sort_Permutation. Qed.

Lemma map_items_sorted {A} (m : gmap bytes A) : Sorted entry_le (map_items m).
Proof. apply Sorted_merge_sort. apply _. Qed.

Lemma elem_of_map_items {A} (m : gmap bytes A) k v : (k, v) ∈ map_items m <-> m !! k = Some v.
Proof. rewrite map_items_perm. apply elem_of_map_to_list. Qed.

Lemma map_items_NoDup {A} (m : gmap bytes A) : NoDup (map_items m).*1.
Proof. rewrite map_items_perm. apply NoDup_fst_map_to_list. Qed.

#[export] Hint Resolve find_char_le find_crlf_bound : bounds.
