(* ===== verification/HttpRequest.v ===== *)
(** * [http::HttpRequest]

    The parsed request: [HTTP/include/http/HttpRequest.h] and
    [HTTP/src/http/HttpRequest.cpp]. A [(start, end)] pointer pair into the
    receive buffer is the list of characters it delimits; the pointers the
    parser passes are never null. *)

From S2P Require Export CppString.

(** [HttpRequest::Method]. *)
Inductive Method :=
| kInvalid
| kGet
| kPost
| kDelete
| kPut
| kHead
| kOptions.

#[export] Instance Method_eq_dec : EqDecision Method.
Proof. solve_decision. Defined.

(** [muduo::Timestamp]: a value the sources only copy, default constructed or
    handed over by the network library. *)
Inductive Timestamp :=
| default_timestamp
| received_at (t : Z).

Record HttpRequest := mkHttpRequest {
  method_ : Method;
  version_ : bytes;
  path_ : bytes;
  pathParameters_ : gmap bytes bytes;
  queryParameters_ : gmap bytes bytes;
  headers_ : gmap bytes bytes;
  contentLength_ : Z;
  content_ : bytes;
  receiveTime_ : Timestamp
}.

(** The default constructor. *)
Definition new_request : HttpRequest :=
  mkHttpRequest kInvalid (lit "Unknow") [] ∅ ∅ ∅ 0 [] default_timestamp.

(** ** Field updates *)

Definition set_method_ (m : Method) (r : HttpRequest) : HttpRequest :=
  mkHttpRequest m r.(version_) r.(path_) r.(pathParameters_) r.(queryParameters_)
    r.(headers_) r.(contentLength_) r.(content_) r.(receiveTime_).
Definition setVersion (v : bytes) (r : HttpRequest) : HttpRequest :=
  mkHttpRequest r.(method_) v r.(path_) r.(pathParameters_) r.(queryParameters_)
    r.(headers_) r.(contentLength_) r.(content_) r.(receiveTime_).
Definition setPath (p : bytes) (r : HttpRequest) : HttpRequest :=
  mkHttpRequest r.(method_) r.(version_) p r.(pathParameters_) r.(queryParameters_)
    r.(headers_) r.(contentLength_) r.(content_) r.(receiveTime_).
Definition set_queryParameters_ (q : gmap bytes bytes) (r : HttpRequest) : HttpRequest :=
  mkHttpRequest r.(method_) r.(version_) r.(path_) r.(pathParameters_) q
    r.(headers_) r.(contentLength_) r.(content_) r.(receiveTime_).
Definition set_headers_ (h : gmap bytes bytes) (r : HttpRequest) : HttpRequest :=
  mkHttpRequest r.(method_) r.(version_) r.(path_) r.(pathParameters_) r.(queryParameters_)
    h r.(contentLength_) r.(content_) r.(receiveTime_).
Definition setContentLength (n : Z) (r : HttpRequest) : HttpRequest :=
  mkHttpRequest r.(method_) r.(version_) r.(path_) r.(pathParameters_) r.(queryParameters_)
    r.(headers_) n r.(content_) r.(receiveTime_).
Definition setBody (b : bytes) (r : HttpRequest) : HttpRequest :=
  mkHttpRequest r.(method_) r.(version_) r.(path_) r.(pathParameters_) r.(queryParameters_)
    r.(headers_) r.(contentLength_) b r.(receiveTime_).
Definition setReceiveTime (t : Timestamp) (r : HttpRequest) : HttpRequest :=
  mkHttpRequest r.(method_) r.(version_) r.(path_) r.(pathParameters_) r.(queryParameters_)
    r.(headers_) r.(contentLength_) r.(content_) t.
Definition setPathParameters (k v : bytes) (r : HttpRequest) : HttpRequest :=
  mkHttpRequest r.(method_) r.(version_) r.(path_) (<[k:=v]> r.(pathParameters_))
    r.(queryParameters_) r.(headers_) r.(contentLength_) r.(content_) r.(receiveTime_).

(** [setBody(start, end)]: an empty range leaves the body as it is. *)
Definition setBody_range (b : bytes) (r : HttpRequest) : HttpRequest :=
  match b with [] => r | _ => setBody b r end.

(** ** Methods *)

(** The branches of [setMethod] on the method name. *)
Definition method_of_name (m : bytes) : Method :=
  if decide (m = lit "GET") then kGet
  else if decide (m = lit "POST") then kPost
  else if decide (m = lit "HEAD") then kHead
  else if decide (m = lit "PUT") then kPut
  else if decide (m = lit "DELETE") then kDelete
  else kInvalid.

Definition setMethod (m : bytes) : prog std_exception HttpRequest bool :=
  r ← get;
  assert (bool_decide (r.(method_) = kInvalid));;
  let k := method_of_name m in
  put (set_method_ k r);;
  mret (bool_decide (k ≠ kInvalid)).

(** [find] then [it->second], the empty string when the key is absent; the
    body of [getHeader], [getPathParameters] and [getQueryParameters]. *)
Definition find_or_empty (k : bytes) (m : gmap bytes bytes) : bytes := default [] (m !! k).

Definition getHeader (k : bytes) (r : HttpRequest) : bytes := find_or_empty k r.(headers_).
Definition getPathParameters (k : bytes) (r : HttpRequest) : bytes :=
  find_or_empty k r.(pathParameters_).
Definition getQueryParameters (k : bytes) (r : HttpRequest) : bytes :=
  find_or_empty k r.(queryParameters_).

(** [addHeader(start, colon, end)], [line] being the range and [colon] the
    offset of the colon in it. *)
Definition addHeader (line : bytes) (colon : nat) (r : HttpRequest) : HttpRequest :=
  let field := take colon line in
  let value := trim_end (skip_spaces (drop (S colon) line)) in
  set_headers_ (<[field := value]> r.(headers_)) r.

(** One [key=value] pair of the query string; a pair without [=] is dropped. *)
Definition add_query_pair (pair : bytes) (q : gmap bytes bytes) : gmap bytes bytes :=
  match str_find "="%char 0 pair with
  | Some eqPos => <[substr pair 0 eqPos := substr_from pair (eqPos + 1)]> q
  | None => q
  end.

(** The [while] over [argStr.find('&', prev)]. [None] is running out of fuel. *)
Fixpoint query_loop (fuel : nat) (argStr : bytes) (prev : nat) (q : gmap bytes bytes)
  : option (nat * gmap bytes bytes) :=
  match fuel with
  | 0 => None
  | S fuel =>
      match str_find "&"%char prev argStr with
      | Some pos =>
          query_loop fuel argStr (pos + 1) (add_query_pair (substr argStr prev (pos - prev)) q)
      | None => Some (prev, q)
      end
  end.

Definition setQueryPathParameters (argStr : bytes) (r : HttpRequest) : HttpRequest :=
  match argStr with
  | [] => r
  | _ =>
      match query_loop (S (length argStr)) argStr 0 r.(queryParameters_) with
      | Some (prev, q) => set_queryParameters_ (add_query_pair (substr_from argStr prev) q) r
      | None => r
      end
  end.

(** [swap]: the members it lists, and those it leaves in place. *)
Definition swap (this that : HttpRequest) : HttpRequest * HttpRequest :=
  (mkHttpRequest that.(method_) that.(version_) that.(path_) that.(pathParameters_)
     that.(queryParameters_) that.(headers_) this.(contentLength_) this.(content_)
     that.(receiveTime_),
   mkHttpRequest this.(method_) this.(version_) this.(path_) this.(pathParameters_)
     this.(queryParameters_) this.(headers_) that.(contentLength_) that.(content_)
     this.(receiveTime_)).

(** ** Specification of the query string: split on [&], later pairs win. *)
Fixpoint split_on (c : ascii) (s : bytes) : list bytes :=
  match s with
  | [] => [[]]
  | x :: s' =>
      if Ascii.eqb c x then [] :: split_on c s'
      else match split_on c s' with
           | [] => [[x]]
           | h :: t => (x :: h) :: t
           end
  end.

Definition query_spec (argStr : bytes) (q : gmap bytes bytes) : gmap bytes bytes :=
  fold_left (λ q p, add_query_pair p q) (split_on "&"%char argStr) q.

(** A query string written from its pairs. *)
Fixpoint render_query (kvs : list (bytes * bytes)) : bytes :=
  match kvs with
  | [] => []
  | [(k, v)] => k ++ "="%char :: v
  | (k, v) :: kvs' => k ++ "="%char :: v ++ "&"%char :: render_query kvs'
  end.

(** ** Lemmas *)

Lemma split_on_ne c s : split_on c s ≠ [].
Proof. induction s as [|x s IH]; simpl; [done|]. repeat case_match; done. Qed.

Lemma split_on_none c s : c ∉ s -> split_on c s = [s].
Proof.
  induction s as [|x s IH]; intros Hc; simpl; [done|].
  rewrite not_elem_of_cons in Hc. destruct Hc as [Hx Hs].
  destruct (ascii_eqb_spec c x); [done|]. by rewrite IH.
Qed.

Lemma split_on_hit c s1 s2 : c ∉ s1 -> split_on c (s1 ++ c :: s2) = s1 :: split_on c s2.
Proof.
  induction s1 as [|x s IH]; intros Hc; simpl.
  - by destruct (ascii_eqb_spec c c).
  - rewrite not_elem_of_cons in Hc. destruct Hc as [Hx Hs].
    destruct (ascii_eqb_spec c x); [done|]. by rewrite IH.
Qed.

(** The loop, started at [prev], folds over the fields of the rest. *)
Lemma query_loop_spec fuel argStr prev q :
  length (drop prev argStr) < fuel -> prev ≤ length argStr ->
  ∃ prev' q', query_loop fuel argStr prev q = Some (prev', q') ∧ prev' ≤ length argStr ∧
    add_query_pair (substr_from argStr prev') q' = query_spec (drop prev argStr) q.
Proof.
  revert prev q. induction fuel as [|fuel IH]; intros prev q Hf Hp; simpl; [lia|].
  destruct (str_find "&"%char prev argStr) as [pos|] eqn:Hfind.
  - apply str_find_some in Hfind as (Hle & Hlt & Hc & Hbefore).
    rewrite length_drop in Hf.
    destruct (IH (pos + 1) (add_query_pair (substr argStr prev (pos - prev)) q))
      as (prev' & q' & -> & Hle' & Hq); [rewrite length_drop; lia|lia|].
    exists prev', q'. split_and!; [done|done|]. rewrite Hq. unfold query_spec.
    assert (drop prev argStr =
      substr argStr prev (pos - prev) ++ "&"%char :: drop (pos + 1) argStr) as ->.
    { unfold substr. rewrite <- (take_drop (pos - prev) (drop prev argStr)) at 1. f_equal.
      rewrite drop_drop. replace (prev + (pos - prev)) with pos by lia.
      rewrite (drop_S _ _ _ Hc). by rewrite Nat.add_1_r. }
    by rewrite split_on_hit.
  - apply str_find_none in Hfind. exists prev, q. split_and!; [done..|].
    unfold query_spec. by rewrite split_on_none.
Qed.

(** The query string of the code is the specification, on every input. *)
Lemma setQueryPathParameters_eq argStr r :
  argStr ≠ [] ->
  setQueryPathParameters argStr r =
    set_queryParameters_ (query_spec argStr r.(queryParameters_)) r.
Proof.
  intros Hne. unfold setQueryPathParameters. destruct argStr as [|c s]; [done|].
  destruct (query_loop_spec (S (length (c :: s))) (c :: s) 0 r.(queryParameters_))
    as (prev & q & -> & _ & Hq); [rewrite drop_0; lia|lia|]. by rewrite Hq.
Qed.

Lemma add_query_pair_eq k v q :
  "="%char ∉ k -> add_query_pair (k ++ "="%char :: v) q = <[k := v]> q.
Proof.
  intros Hk. unfold add_query_pair, str_find. rewrite drop_0, find_char_hit by done.
  rewrite decide_True by (rewrite length_app; simpl; lia).
  unfold substr, substr_from. rewrite Nat.add_0_l, drop_0, take_app_length.
  f_equal. rewrite drop_app_ge by lia. by replace (_ - _) with 1 by lia.
Qed.

Lemma render_query_spec kvs q :
  kvs ≠ [] ->
  Forall (λ kv, ("="%char ∉ kv.1) ∧ ("&"%char ∉ kv.1) ∧ ("&"%char ∉ kv.2)) kvs ->
  query_spec (render_query kvs) q = fold_left (λ q kv, <[kv.1 := kv.2]> q) kvs q.
Proof.
  revert q. induction kvs as [|[k v] kvs IH]; intros q Hne Hf; [done|].
  apply Forall_cons in Hf as [(Hk & Hka & Hva) Hf]. simpl in Hk, Hka, Hva.
  unfold query_spec. destruct kvs as [|kv kvs].
  - simpl. rewrite split_on_none; [simpl; by rewrite add_query_pair_eq|].
    rewrite elem_of_app, elem_of_cons. naive_solver.
  - change (render_query ((k, v) :: kv :: kvs))
      with (k ++ "="%char :: v ++ "&"%char :: render_query (kv :: kvs)).
    rewrite (app_comm_cons v), (app_assoc k), split_on_hit.
    + simpl fold_left at 1. rewrite add_query_pair_eq by done. by apply IH.
    + rewrite elem_of_app, elem_of_cons. naive_solver.
Qed.

Lemma method_of_name_not_options m : method_of_name m ≠ kOptions.
Proof. unfold method_of_name. by repeat case_decide. Qed.

Lemma getHeader_addHeader line colon r :
  getHeader (take colon line) (addHeader line colon r) =
    trim_end (skip_spaces (drop (S colon) line)).
Proof. unfold getHeader, find_or_empty, addHeader. simpl. by rewrite lookup_insert_eq. Qed.

Lemma getHeader_addHeader_ne k line colon r :
  k ≠ take colon line -> getHeader k (addHeader line colon r) = getHeader k r.
Proof. intros ?. unfold getHeader, find_or_empty, addHeader. simpl. by rewrite lookup_insert_ne. Qed.
