(* ===== verification/MuduoBuffer.v ===== *)
(** * The network library's receive buffer

    [muduo::net::Buffer] is not part of the repository. The parser is written
    against this interface, whose laws are the documented behaviour of the
    members it calls. Pointers into the buffer are offsets from [peek()]. *)

From S2P Require Export CppString.

Class MuduoBuffer (B : Type) := {
  (** the characters of [[peek(), peek() + readableBytes())] *)
  readable : B -> bytes;
  (** [findCRLF() - peek()], [None] for a null result *)
  findCRLF : B -> option nat;
  (** [retrieve(n)], and [retrieveUntil(peek() + n)] *)
  retrieve : nat -> B -> B;
  (** [append(s)] *)
  append : bytes -> B -> B
}.

Class MuduoBufferLaws (B : Type) `{MuduoBuffer B} : Prop := {
  findCRLF_readable (b : B) : findCRLF b = find_crlf (readable b);
  readable_retrieve (n : nat) (b : B) :
    n ≤ length (readable b) -> readable (retrieve n b) = drop n (readable b);
  readable_append (s : bytes) (b : B) : readable (append s b) = readable b ++ s
}.

(** The plain list of unread characters satisfies the laws. *)
#[export] Instance bytes_buffer : MuduoBuffer bytes := {|
  readable b := b;
  findCRLF b := find_crlf b;
  retrieve n b := drop n b;
  append s b := b ++ s
|}.

#[export] Instance bytes_buffer_laws : MuduoBufferLaws bytes.
Proof. by split. Qed.

(** Two buffers are equivalent when they hold the same unread characters. *)
Section equivalence.
Context {B : Type} `{MuduoBufferLaws B}.

#[export] Instance buffer_equiv : Equiv B := λ b1 b2, readable b1 = readable b2.

#[export] Instance buffer_equivalence : Equivalence (≡@{B}).
Proof. split; repeat intro; unfold equiv, buffer_equiv in *; congruence. Qed.

#[export] Instance readable_proper : Proper ((≡@{B}) ==> (=)) readable.
Proof. by intros b1 b2 Hb. Qed.

#[export] Instance findCRLF_proper : Proper ((≡@{B}) ==> (=)) findCRLF.
Proof. intros b1 b2 Hb. by rewrite !findCRLF_readable, Hb. Qed.

#[export] Instance append_proper s : Proper ((≡@{B}) ==> (≡@{B})) (append s).
Proof. intros b1 b2 Hb. unfold equiv, buffer_equiv in *. by rewrite !readable_append, Hb. Qed.

Lemma retrieve_equiv n (b1 b2 : B) :
  n ≤ length (readable b1) -> b1 ≡ b2 -> retrieve n b1 ≡ retrieve n b2.
Proof.
  unfold equiv, buffer_equiv. intros Hn Hb. by rewrite !readable_retrieve, Hb by congruence.
Qed.

Lemma retrieve_append n s (b : B) :
  n ≤ length (readable b) -> retrieve n (append s b) ≡ append s (retrieve n b).
Proof.
  intros Hn. unfold equiv, buffer_equiv.
  rewrite readable_retrieve, !readable_append, readable_retrieve by
    (rewrite ?readable_append, ?length_app; lia).
  by rewrite drop_app_le.
Qed.

Lemma append_app s t (b : B) : append t (append s b) ≡ append (s ++ t) b.
Proof. unfold equiv, buffer_equiv. by rewrite !readable_append, app_assoc. Qed.

End equivalence.
