(* ===== verification/HttpContext.v ===== *)
(** * [http::HttpContext]: the incremental request parser

    [HTTP/include/http/HttpContext.h] and [HTTP/src/http/HttpContext.cpp]. One
    round of the [while (hasMore)] loop of [parseRequest] is [parse_step];
    [parse_loop] runs rounds with fuel, [None] meaning that the fuel ran out. *)

From S2P Require Export HttpRequest MuduoBuffer.

(** [HttpContext::HttpRequestParseState]. *)
Inductive HttpRequestParseState :=
| kExpectRequestLine
| kExpectHeaders
| kExpectBody
| kGotAll.

#[export] Instance HttpRequestParseState_eq_dec : EqDecision HttpRequestParseState.
Proof. solve_decision. Defined.

Record HttpContext := mkHttpContext {
  state_ : HttpRequestParseState;
  request_ : HttpRequest
}.

(** [HttpContext()], [gotAll()] and [reset()]. *)
Definition new_context : HttpContext := mkHttpContext kExpectRequestLine new_request.
Definition gotAll (c : HttpContext) : bool := bool_decide (c.(state_) = kGotAll).
Definition reset (c : HttpContext) : HttpContext :=
  mkHttpContext kExpectRequestLine (swap c.(request_) new_request).1.

(** The part of [processRequestLine] between the two spaces: path and query.
    [start], [space] and [end_] are offsets in [line]. *)
Definition processTarget (line : bytes) (start space end_ : nat) : prog std_exception HttpRequest unit :=
  let argumentStart := start + find_char "?"%char (substr line start (space - start)) in
  if decide (argumentStart ≠ end_ ∧ argumentStart < space) then
    modify (setPath (substr line start (argumentStart - start)));;
    modify (setQueryPathParameters (substr line (argumentStart + 1) (space - (argumentStart + 1))))
  else modify (setPath (substr line start (space - start))).

(** The part after the second space: the version. *)
Definition processVersion (line : bytes) (start end_ : nat) : prog std_exception HttpRequest bool :=
  if decide (end_ - start = 8 ∧ substr line start 7 = lit "HTTP/1.") then
    match line !! (end_ - 1) with
    | Some c =>
        if Ascii.eqb c "1"%char then modify (setVersion (lit "HTTP/1.1"));; mret true
        else if Ascii.eqb c "0"%char then modify (setVersion (lit "HTTP/1.0"));; mret true
        else mret false
    | None => mret false
    end
  else mret false.

(** [processRequestLine(start, end)] on the characters of the range. *)
Definition processRequestLine (line : bytes) : prog std_exception HttpRequest bool :=
  let end_ := length line in
  let space := find_char " "%char line in
  if decide (space = end_) then mret false else
  known ← setMethod (take space line);
  if negb known then mret false else
  let start := S space in
  let space := start + find_char " "%char (drop start line) in
  if decide (space = end_) then mret false else
  processTarget line start space end_;;
  processVersion line (S space) end_.

Section parser.
Context {B : Type} `{MuduoBuffer B}.

(** What one round of the loop decides: go round again, or return [ok]. *)
Inductive verdict :=
| More
| Done (ok : bool).

#[export] Instance verdict_eq_dec : EqDecision verdict.
Proof. solve_decision. Defined.

Abbreviation parser_state := (HttpContext * B)%type.
Abbreviation parser A := (prog std_exception (HttpContext * B) A).

Definition on_request {A} (m : prog std_exception HttpRequest A) : parser A := λ '(c, b),
  match m c.(request_) with (o, r) => (o, (mkHttpContext c.(state_) r, b)) end.

Definition set_state_ (s : HttpRequestParseState) : parser unit :=
  modify (λ '(c, b), (mkHttpContext s c.(request_), b)).

Definition buf_retrieve (n : nat) : parser unit := modify (λ '(c, b), (c, retrieve n b)).

(** A value or an exception of the standard library. *)
Definition lift_outcome {A} (o : outcome std_exception A) : parser A := λ σ, (o, σ).

(** [state_ == kExpectRequestLine]. *)
Definition step_request_line (receiveTime : Timestamp) : parser verdict :=
  '(c, b) ← get;
  match findCRLF b with
  | Some crlf =>
      ok ← on_request (processRequestLine (take crlf (readable b)));
      if (ok : bool) then
        on_request (modify (setReceiveTime receiveTime));;
        buf_retrieve (crlf + 2);;
        set_state_ kExpectHeaders;;
        mret More
      else mret (Done false)
  | None => mret (Done true)
  end.

(** The empty line that ends the headers: is a body expected? *)
Definition end_of_headers : parser verdict :=
  '(c, b) ← get;
  if decide (c.(request_).(method_) = kPost ∨ c.(request_).(method_) = kPut) then
    let contentLength := getHeader (lit "Content-Length") c.(request_) in
    if decide (contentLength ≠ []) then
      n ← lift_outcome (stoi contentLength);
      on_request (modify (setContentLength (wrap_u64 n)));;
      if decide (0 < wrap_u64 n)%Z then set_state_ kExpectBody;; mret More
      else set_state_ kGotAll;; mret (Done true)
    else mret (Done false)
  else set_state_ kGotAll;; mret (Done true).

(** [state_ == kExpectHeaders]. *)
Definition step_headers : parser verdict :=
  '(c, b) ← get;
  match findCRLF b with
  | Some crlf =>
      let line := take crlf (readable b) in
      let colon := find_char ":"%char line in
      v ← (if decide (colon < crlf) then on_request (modify (addHeader line colon));; mret More
           else if decide (crlf = 0) then end_of_headers
           else mret (Done false));
      buf_retrieve (crlf + 2);;
      mret v
  | None => mret (Done true)
  end.

(** [state_ == kExpectBody]. *)
Definition step_body : parser verdict :=
  '(c, b) ← get;
  let n := c.(request_).(contentLength_) in
  if decide (Z.of_nat (length (readable b)) < n)%Z then mret (Done true)
  else
    on_request (modify (setBody (take (Z.to_nat n) (readable b))));;
    buf_retrieve (Z.to_nat n);;
    set_state_ kGotAll;;
    mret (Done true).

(** One round. In state [kGotAll] no branch applies and the loop goes round
    with nothing changed. *)
Definition parse_step (receiveTime : Timestamp) : parser verdict :=
  '(c, _) ← get;
  match c.(state_) with
  | kExpectRequestLine => step_request_line receiveTime
  | kExpectHeaders => step_headers
  | kExpectBody => step_body
  | kGotAll => mret More
  end.

Fixpoint parse_loop (fuel : nat) (receiveTime : Timestamp) (σ : parser_state)
  : option (outcome std_exception bool * parser_state) :=
  match fuel with
  | 0 => None
  | S fuel =>
      match parse_step receiveTime σ with
      | (Ret More, σ') => parse_loop fuel receiveTime σ'
      | (Ret (Done ok), σ') => Some (Ret ok, σ')
      | (Throw e, σ') => Some (Throw e, σ')
      | (Halt w, σ') => Some (Halt w, σ')
      end
  end.

(** Every round that goes on consumes input, so this fuel is enough from any
    state but [kGotAll]; see [parseRequest_total]. *)
Definition parse_fuel (σ : parser_state) : nat := S (length (readable σ.2)).

Definition parseRequest (receiveTime : Timestamp) (σ : parser_state)
  : option (outcome std_exception bool * parser_state) :=
  parse_loop (parse_fuel σ) receiveTime σ.

(** Input arriving in pieces: each piece is appended and parsed; parsing stops
    at the first piece that completes the request, fails or throws, and the
    pieces after it stay in the buffer. *)
Fixpoint feed (receiveTime : Timestamp) (σ : parser_state) (chunks : list bytes)
  : option (outcome std_exception bool * parser_state) :=
  match chunks with
  | [] => Some (Ret true, σ)
  | s :: chunks =>
      match parseRequest receiveTime (σ.1, append s σ.2) with
      | Some (Ret true, σ') =>
          if gotAll σ'.1 then Some (Ret true, (σ'.1, append (concat chunks) σ'.2))
          else feed receiveTime σ' chunks
      | Some (o, σ') => Some (o, (σ'.1, append (concat chunks) σ'.2))
      | None => None
      end
  end.

End parser.
