(* ===== verification/HttpContextFacts.v ===== *)
(** * The request parser: termination, fragmentation, round trip

    [round] is the parser round over plain characters; [parse_step_round] shows
    that the buffer-level code computes it. The theorems on [parseRequest]
    follow from facts on [round]. *)

From S2P Require Export HttpContext.

(** ** The round over plain characters *)

(** The decision at the empty line. *)
Definition headers_done (c : HttpContext) : outcome std_exception verdict * HttpContext :=
  let r := c.(request_) in
  if decide (r.(method_) = kPost ∨ r.(method_) = kPut) then
    let cl := getHeader (lit "Content-Length") r in
    if decide (cl ≠ []) then
      match stoi cl with
      | Ret n =>
          let r' := setContentLength (wrap_u64 n) r in
          if decide (0 < wrap_u64 n)%Z then (Ret More, mkHttpContext kExpectBody r')
          else (Ret (Done true), mkHttpContext kGotAll r')
      | Throw e => (Throw e, c)
      | Halt w => (Halt w, c)
      end
    else (Ret (Done false), c)
  else (Ret (Done true), mkHttpContext kGotAll r).

(** Outcome, new context and number of characters retrieved, [None] when
    [retrieve] is not called. *)
Definition round (t : Timestamp) (c : HttpContext) (l : bytes)
  : outcome std_exception verdict * HttpContext * option nat :=
  let r := c.(request_) in
  match c.(state_) with
  | kExpectRequestLine =>
      match find_crlf l with
      | Some i =>
          match processRequestLine (take i l) r with
          | (Ret true, r') => (Ret More, mkHttpContext kExpectHeaders (setReceiveTime t r'), Some (i + 2))
          | (Ret false, r') => (Ret (Done false), mkHttpContext kExpectRequestLine r', None)
          | (Throw e, r') => (Throw e, mkHttpContext kExpectRequestLine r', None)
          | (Halt w, r') => (Halt w, mkHttpContext kExpectRequestLine r', None)
          end
      | None => (Ret (Done true), c, None)
      end
  | kExpectHeaders =>
      match find_crlf l with
      | Some i =>
          let line := take i l in
          let colon := find_char ":"%char line in
          if decide (colon < i) then
            (Ret More, mkHttpContext kExpectHeaders (addHeader line colon r), Some (i + 2))
          else if decide (i = 0) then
            match headers_done c with
            | (Ret v, c') => (Ret v, c', Some (i + 2))
            | (o, c') => (o, c', None)
            end
          else (Ret (Done false), c, Some (i + 2))
      | None => (Ret (Done true), c, None)
      end
  | kExpectBody =>
      let n := r.(contentLength_) in
      if decide (Z.of_nat (length l) < n)%Z then (Ret (Done true), c, None)
      else (Ret (Done true), mkHttpContext kGotAll (setBody (take (Z.to_nat n) l) r), Some (Z.to_nat n))
  | kGotAll => (Ret More, c, None)
  end.

Definition consume {B} `{MuduoBuffer B} (n : option nat) (b : B) : B :=
  match n with None => b | Some n => retrieve n b end.
Definition consumed (n : option nat) : nat := default 0 n.

(** The parser waits for input: it returned [true] without completing. *)
Definition waiting (o : outcome std_exception verdict) (c : HttpContext) : Prop :=
  o = Ret (Done true) ∧ c.(state_) ≠ kGotAll.

(** Two loop results that differ only in how the buffer represents its
    unread characters. *)
Definition same_result {B} `{MuduoBuffer B}
    (x y : option (outcome std_exception bool * (HttpContext * B))) : Prop :=
  match x, y with
  | Some (o1, (c1, b1)), Some (o2, (c2, b2)) => o1 = o2 ∧ c1 = c2 ∧ readable b1 = readable b2
  | None, None => True
  | _, _ => False
  end.

(** ** Facts on [round] *)

Lemma headers_done_state c o c' :
  headers_done c = (o, c') ->
  (o = Ret (Done true) ∧ c'.(state_) = kGotAll) ∨
  (o = Ret More ∧ c'.(state_) = kExpectBody) ∨
  (c' = c ∧ o ≠ Ret More ∧ o ≠ Ret (Done true)).
Proof.
  unfold headers_done. repeat (case_decide || case_match); intros [= <- <-]; simpl; auto;
    right; right; split_and!; congruence.
Qed.


Lemma round_bound t c l o c' n : round t c l = (o, c', n) -> consumed n ≤ length l.
Proof.
  unfold round. destruct c.(state_).
  3:{ case_decide; intros [= <- <- <-]; simpl; lia. }
  3:{ intros [= <- <- <-]. simpl. lia. }
  all: destruct (find_crlf l) as [i|] eqn:Hi; [apply find_crlf_bound in Hi|];
    intros; repeat case_match; simplify_eq/=; lia.
Qed.

(** Once the parser has decided something, later input does not change it. *)
Lemma round_append t c l s o c' n :
  round t c l = (o, c', n) -> ¬ waiting o c' -> round t c (l ++ s) = (o, c', n).
Proof.
  unfold round, waiting. destruct c.(state_) eqn:Hst.
  - destruct (find_crlf l) as [i|] eqn:Hi.
    + pose proof (find_crlf_bound _ _ Hi). rewrite (find_crlf_app_l _ _ _ Hi).
      by rewrite take_app_le by lia.
    + intros [= <- <- <-] Hw. exfalso. apply Hw. rewrite Hst. done.
  - destruct (find_crlf l) as [i|] eqn:Hi.
    + pose proof (find_crlf_bound _ _ Hi). rewrite (find_crlf_app_l _ _ _ Hi).
      by rewrite take_app_le by lia.
    + intros [= <- <- <-] Hw. exfalso. apply Hw. rewrite Hst. done.
  - case_decide as Hd; intros [= <- <- <-] Hw.
    + exfalso. apply Hw. rewrite Hst. done.
    + rewrite decide_False by (rewrite length_app; lia). by rewrite take_app_le by lia.
  - done.
Qed.

(** While it waits, the context is untouched and nothing is consumed. *)
Lemma round_waiting t c l o c' n :
  round t c l = (o, c', n) -> waiting o c' -> c' = c ∧ n = None.
Proof.
  unfold round, waiting. intros Hr [-> Hst]. revert Hr. destruct c.(state_) eqn:Hc.
  - intros; repeat case_match; by simplify_eq.
  - destruct (find_crlf l) as [i|]; [|intros [=]; by subst].
    repeat case_decide; [done| |done].
    destruct (headers_done c) as [o2 c2] eqn:Hd. apply headers_done_state in Hd.
    destruct o2; intros [=]; subst; naive_solver.
  - case_decide; intros [=]; subst; [done|]. by destruct Hst.
  - done.
Qed.

(** A round that goes on consumes at least two characters. *)
Lemma round_more t c l c' n :
  round t c l = (Ret More, c', n) -> c.(state_) ≠ kGotAll ->
  2 ≤ consumed n ∧ c'.(state_) ≠ kGotAll.
Proof.
  unfold round. intros Hr Hst. revert Hr. destruct c.(state_) eqn:Hc; try done.
  - intros; repeat case_match; simplify_eq/=; (split; [lia|done]).
  - destruct (find_crlf l) as [i|]; [|done].
    repeat case_decide; try done; [intros [=]; subst; split; [simpl; lia|done]|].
    destruct (headers_done c) as [o2 c2] eqn:Hd. apply headers_done_state in Hd.
    destruct o2; intros [=]; subst. split; [simpl; lia|].
    destruct Hd as [[? ?]|[[? ->]|(? & ? & ?)]]; congruence.
  - case_decide; done.
Qed.

Section facts.
Context {B : Type} `{MuduoBufferLaws B}.
Implicit Types (b : B) (c : HttpContext) (t : Timestamp).

#[export] Instance same_result_equivalence : Equivalence (@same_result B _).
Proof.
  unfold same_result. split.
  - by intros [[o [c b]]|].
  - intros [[o [c b]]|] [[o' [c' b']]|]; intuition congruence.
  - intros [[o [c b]]|] [[o' [c' b']]|] [[o'' [c'' b'']]|]; intuition congruence.
Qed.

(** The buffer-level round is [round] on the unread characters. *)
Lemma parse_step_round t c b :
  parse_step t (c, b) =
    match round t c (readable b) with (o, c', n) => (o, (c', consume n b)) end.
Proof.
  unfold parse_step, round, consume. destruct c as [st r]. prog_simpl.
  destruct st; simpl.
  - unfold step_request_line, on_request. prog_simpl. rewrite findCRLF_readable.
    destruct (find_crlf (readable b)) as [i|]; [|done]. simpl.
    destruct (processRequestLine (take i (readable b)) r) as [[[]| |] r']; simpl; try done.
  - unfold step_headers. prog_simpl. rewrite findCRLF_readable.
    destruct (find_crlf (readable b)) as [i|]; [|done]. simpl. rewrite (Nat.add_comm i 2).
    case_decide; [done|]. case_decide; [|done].
    unfold end_of_headers, headers_done. prog_simpl.
    case_decide; [|done]. case_decide; [|done]. unfold lift_outcome.
    destruct (stoi _); simpl; [|done..]. by case_decide.
  - unfold step_body. prog_simpl. case_decide; [done|]. simpl. done.
  - done.
Qed.

Lemma readable_consume n b :
  consumed n ≤ length (readable b) -> readable (consume n b) = drop (consumed n) (readable b).
Proof. unfold consumed. intros. destruct n; simpl in *; [by rewrite readable_retrieve|done]. Qed.

(** The loop depends on the buffer only through its unread characters. *)
Lemma parse_loop_same fuel t c b1 b2 :
  readable b1 = readable b2 ->
  same_result (parse_loop fuel t (c, b1)) (parse_loop fuel t (c, b2)).
Proof.
  revert c b1 b2. induction fuel as [|fuel IH]; intros c b1 b2 Hb; simpl; [done|].
  rewrite !parse_step_round, <- Hb. destruct (round t c (readable b1)) as [[o c'] n] eqn:Hr.
  apply round_bound in Hr.
  assert (readable (consume n b1) = readable (consume n b2)) as Hc.
  { by rewrite !readable_consume by congruence; rewrite Hb. }
  destruct o as [[|ok]|e|w]; simpl; try done. by apply IH.
Qed.

Lemma parse_loop_mono fuel fuel' t σ r :
  parse_loop fuel t σ = Some r -> fuel ≤ fuel' -> parse_loop fuel' t σ = Some r.
Proof.
  revert fuel' σ. induction fuel as [|fuel IH]; intros [|fuel'] σ; simpl; try done; try lia.
  destruct (parse_step t σ) as [[[|ok]|e|w] σ']; auto with lia.
Qed.

(** Enough fuel: from a state other than [kGotAll] the loop ends within as
    many rounds as there are unread characters, plus one. *)
Lemma parse_loop_total fuel t c b :
  length (readable b) < fuel -> c.(state_) ≠ kGotAll -> is_Some (parse_loop fuel t (c, b)).
Proof.
  revert c b. induction fuel as [|fuel IH]; intros c b Hf Hc; simpl; [lia|].
  rewrite parse_step_round. destruct (round t c (readable b)) as [[o c'] n] eqn:Hr.
  destruct o as [[|ok]|e|w]; simpl; eauto.
  pose proof (round_bound _ _ _ _ _ _ Hr). apply round_more in Hr as [? ?]; [|done].
  apply IH; [|done]. rewrite readable_consume, length_drop by done. lia.
Qed.

Lemma parse_loop_parseRequest fuel t σ :
  σ.1.(state_) ≠ kGotAll -> length (readable σ.2) < fuel ->
  parse_loop fuel t σ = parseRequest t σ.
Proof.
  intros Hc Hf. destruct σ as [c b]. unfold parseRequest, parse_fuel. simpl in Hc, Hf.
  change (readable (c, b).2) with (readable b).
  destruct (parse_loop_total (S (length (readable b))) t c b) as [r Hr]; [lia|done|].
  rewrite Hr. eapply parse_loop_mono; [exact Hr|lia].
Qed.

(** ** Fragmentation *)

(** The rounds from a piece of input are the first rounds from the whole. *)
Lemma parse_loop_append fuel t c b s o c' b' :
  parse_loop fuel t (c, b) = Some (o, (c', b')) -> c.(state_) ≠ kGotAll ->
  if bool_decide (o = Ret true ∧ c'.(state_) ≠ kGotAll) then
    same_result (parseRequest t (c, append s b)) (parseRequest t (c', append s b'))
  else same_result (parseRequest t (c, append s b)) (Some (o, (c', append s b'))).
Proof.
  revert c b. induction fuel as [|fuel IH]; intros c b; simpl; [done|].
  rewrite parse_step_round. destruct (round t c (readable b)) as [[o1 c1] n] eqn:Hr.
  intros Hl Hc. pose proof (round_bound _ _ _ _ _ _ Hr) as Hn.
  destruct (decide (o1 = Ret (Done true) ∧ c1.(state_) ≠ kGotAll)) as [Hw|Hw].
  { destruct (round_waiting _ _ _ _ _ _ Hr Hw) as [-> ->]. destruct Hw as [-> Hw].
    injection Hl as <- <- <-. rewrite bool_decide_true by done. simpl.
    by apply parse_loop_same. }
  pose proof (round_append t c (readable b) s _ _ _ Hr Hw) as Hrs.
  assert (readable (consume n (append s b)) = readable (append s (consume n b))) as Hcons.
  { rewrite readable_consume, !readable_append, readable_consume by
      (rewrite ?readable_append, ?length_app; lia). by rewrite drop_app_le. }
  assert (same_result (parseRequest t (c, append s b))
            (match o1 with
             | Ret More => parseRequest t (c1, append s (consume n b))
             | Ret (Done ok) => Some (Ret ok, (c1, append s (consume n b)))
             | Throw e => Some (Throw e, (c1, append s (consume n b)))
             | Halt w => Some (Halt w, (c1, append s (consume n b)))
             end)) as Hfirst.
  { unfold parseRequest at 1, parse_fuel. cbn [parse_loop snd]. rewrite parse_step_round.
    rewrite readable_append, Hrs. destruct o1 as [[|ok]|e|w]; simpl; try done.
    apply round_more in Hr as [Hn2 Hc1]; [|done].
    rewrite <- (parse_loop_parseRequest (length (readable b ++ s))); [|done|].
    - by apply parse_loop_same.
    - simpl. rewrite readable_append, readable_consume, !length_app, length_drop by lia.
      pose proof Hn. lia. }
  destruct o1 as [[|ok]|e|w].
  - apply round_more in Hr as [Hn2 Hc1]; [|done]. specialize (IH _ _ Hl Hc1).
    by case_match; etrans.
  - injection Hl as <- <- <-. rewrite bool_decide_false; [done|].
    intros [[= ->] ?]. by apply Hw.
  - injection Hl as <- <- <-. rewrite bool_decide_false; [done|]. by intros [[=] ?].
  - injection Hl as <- <- <-. rewrite bool_decide_false; [done|]. by intros [[=] ?].
Qed.

Lemma parseRequest_is_some t c b :
  c.(state_) ≠ kGotAll -> ∃ o c' b', parseRequest t (c, b) = Some (o, (c', b')).
Proof.
  intros Hc. destruct (parse_loop_total (parse_fuel (c, b)) t c b) as [[o [c' b']] Hr];
    [unfold parse_fuel; simpl; lia|done|]. by exists o, c', b'.
Qed.

Lemma feed_one t c b s : same_result (feed t (c, b) [s]) (parseRequest t (c, append s b)).
Proof.
  simpl. destruct (parseRequest t (c, append s b)) as [[[ok|e|w] [c' b']]|]; simpl; try done.
  - destruct ok; [destruct (gotAll c')|]; simpl; by rewrite ?readable_append, ?app_nil_r.
  - by rewrite readable_append, app_nil_r.
  - by rewrite readable_append, app_nil_r.
Qed.

Lemma parseRequest_append_assoc t c b s1 s2 :
  same_result (parseRequest t (c, append s2 (append s1 b)))
    (parseRequest t (c, append (s1 ++ s2) b)).
Proof.
  unfold parseRequest, parse_fuel. cbn [snd].
  replace (readable (append s2 (append s1 b))) with (readable (append (s1 ++ s2) b))
    by (by rewrite !readable_append, app_assoc).
  apply parse_loop_same. by rewrite !readable_append, app_assoc.
Qed.

(** Feeding pieces is feeding their concatenation. *)
Lemma feed_concat_aux t c b s chunks :
  c.(state_) ≠ kGotAll ->
  same_result (feed t (c, b) (s :: chunks)) (parseRequest t (c, append (concat (s :: chunks)) b)).
Proof.
  revert c b s. induction chunks as [|s2 chunks IH]; intros c b s Hc.
  { rewrite feed_one. simpl. by rewrite app_nil_r. }
  cbn [concat]. rewrite <- parseRequest_append_assoc.
  destruct (parseRequest_is_some t c (append s b) Hc) as (o & c' & b' & Hp).
  pose proof (parse_loop_append _ _ _ _ (concat (s2 :: chunks)) _ _ _ Hp Hc) as Ha.
  cbn [feed fst snd]. rewrite Hp.
  destruct (decide (o = Ret true)) as [->|Ho].
  2:{ rewrite bool_decide_false in Ha by (by intros [? _]). rewrite Ha.
      by destruct o as [[]|e|w]. }
  unfold gotAll. cbn [fst]. destruct (decide (c'.(state_) = kGotAll)) as [Hg|Hg].
  - rewrite bool_decide_true by done. rewrite bool_decide_false in Ha by naive_solver.
    by rewrite Ha.
  - rewrite bool_decide_false by done. rewrite bool_decide_true in Ha by done.
    rewrite Ha. by apply IH.
Qed.

(** ** Runs of rounds *)

(** A round that goes on, over plain characters. *)
Definition more_step (t : Timestamp) (x y : HttpContext * bytes) : Prop :=
  ∃ n, round t x.1 x.2 = (Ret More, y.1, n) ∧ y.2 = drop (consumed n) x.2.

(** A run of such rounds followed by a deciding one is a call of the parser. *)
Lemma more_steps_parse t x y o c' n b :
  star (more_step t) x y -> round t y.1 y.2 = (o, c', n) -> o ≠ Ret More ->
  readable b = x.2 -> x.1.(state_) ≠ kGotAll ->
  ∃ b', readable b' = drop (consumed n) y.2 ∧
    parseRequest t (x.1, b) =
      match o with
      | Ret (Done ok) => Some (Ret ok, (c', b'))
      | Ret More => None
      | Throw e => Some (Throw e, (c', b'))
      | Halt w => Some (Halt w, (c', b'))
      end.
Proof.
  intros Hs Hr Ho. revert b. induction Hs as [[c l]|[c l] [c1 l1] z (m & Hm & Hl) Hs IH]; intros b Hb Hc.
  - simpl in *. exists (consume n b). split.
    { rewrite readable_consume; rewrite Hb; [done|]. by eapply round_bound. }
    unfold parseRequest, parse_fuel. cbn [parse_loop]. rewrite parse_step_round, Hb, Hr.
    by destruct o as [[]| |].
  - simpl in *. subst l1. pose proof (round_bound _ _ _ _ _ _ Hm) as Hn.
    destruct (round_more _ _ _ _ _ Hm Hc) as [Hn2 Hc1].
    assert (readable (consume m b) = drop (consumed m) l) as Hb'.
    { rewrite readable_consume; by rewrite Hb. }
    destruct (IH Hr (consume m b) Hb' Hc1) as (b' & Hrb & Hp).
    exists b'. split; [done|]. rewrite <- Hp. unfold parseRequest at 1, parse_fuel.
    cbn [parse_loop snd]. rewrite parse_step_round, Hb, Hm.
    apply parse_loop_parseRequest; [done|]. simpl. rewrite Hb', length_drop. lia.
Qed.

End facts.
