(* ===== verification/HttpParser.v ===== *)
(** * What the request parser promises

    Properties of [HttpContext::parseRequest] as a whole: it ends, it does not
    depend on how the input was cut into pieces, it inverts the rendering of a
    request, it takes exactly the announced body, and what a reset or a failed
    request line leave behind. *)

From S2P Require Export HttpContextFacts.

(** ** A request as it is written on the wire *)

Definition method_name (m : Method) : bytes :=
  match m with
  | kGet => lit "GET"
  | kPost => lit "POST"
  | kHead => lit "HEAD"
  | kPut => lit "PUT"
  | kDelete => lit "DELETE"
  | kOptions => lit "OPTIONS"
  | kInvalid => []
  end.

(** A method the parser knows, and whether it carries a body. *)
Definition known_method (m : Method) : bool := bool_decide (method_of_name (method_name m) = m ∧ m ≠ kInvalid).
Definition has_body (m : Method) : bool := bool_decide (m = kPost ∨ m = kPut).

Record wire_request := mkWire {
  w_method : Method;
  w_path : bytes;
  w_query : list (bytes * bytes);
  w_version_1_1 : bool;
  w_headers : list (bytes * bytes);
  w_body : bytes
}.

Definition w_version (w : wire_request) : bytes :=
  if w.(w_version_1_1) then lit "HTTP/1.1" else lit "HTTP/1.0".

Definition w_target (w : wire_request) : bytes :=
  match w.(w_query) with
  | [] => w.(w_path)
  | q => w.(w_path) ++ "?"%char :: render_query q
  end.

(** The headers sent: a method with a body announces its length. *)
Definition w_all_headers (w : wire_request) : list (bytes * bytes) :=
  if has_body w.(w_method)
  then w.(w_headers) ++ [(lit "Content-Length", to_string (Z.of_nat (length w.(w_body))))]
  else w.(w_headers).

Definition render_header (kv : bytes * bytes) : bytes := kv.1 ++ ":"%char :: " "%char :: kv.2.
Definition render_headers (hs : list (bytes * bytes)) : bytes :=
  concat ((λ kv, render_header kv ++ crlf) <$> hs).

Definition request_line (w : wire_request) : bytes :=
  method_name w.(w_method) ++ " "%char :: w_target w ++ " "%char :: w_version w.

Definition render_request (w : wire_request) : bytes :=
  request_line w ++ crlf ++ render_headers (w_all_headers w) ++ crlf ++
  (if has_body w.(w_method) then w.(w_body) else []).

(** The request object it stands for, when the parser starts from the object
    [r]: members the parser does not write keep their values. *)
Definition header_map (hs : list (bytes * bytes)) (m : gmap bytes bytes) : gmap bytes bytes :=
  fold_left (λ m kv, <[kv.1 := kv.2]> m) hs m.

Definition expected_from (t : Timestamp) (w : wire_request) (r : HttpRequest) : HttpRequest :=
  {| method_ := w.(w_method);
     version_ := w_version w;
     path_ := w.(w_path);
     pathParameters_ := r.(pathParameters_);
     queryParameters_ := fold_left (λ m kv, <[kv.1 := kv.2]> m) w.(w_query) r.(queryParameters_);
     headers_ := header_map (w_all_headers w) r.(headers_);
     contentLength_ :=
       if has_body w.(w_method) then Z.of_nat (length w.(w_body)) else r.(contentLength_);
     content_ :=
       if has_body w.(w_method) && bool_decide (w.(w_body) ≠ []) then w.(w_body) else r.(content_);
     receiveTime_ := t |}.

Definition expected_request (t : Timestamp) (w : wire_request) : HttpRequest :=
  expected_from t w new_request.

(** No space at either end. *)
Definition trimmed (s : bytes) : Prop :=
  match s with [] => True | c :: _ => isspace c = false end ∧
  match last s with None => True | Some c => isspace c = false end.

Definition header_ok (kv : bytes * bytes) : Prop :=
  (":"%char ∉ kv.1) ∧ (CR ∉ kv.1) ∧ (CR ∉ kv.2) ∧ trimmed kv.2.

Definition query_ok (kv : bytes * bytes) : Prop :=
  ("="%char ∉ kv.1) ∧ ("&"%char ∉ kv.1) ∧ ("&"%char ∉ kv.2) ∧
  (" "%char ∉ kv.1) ∧ (" "%char ∉ kv.2) ∧ (CR ∉ kv.1) ∧ (CR ∉ kv.2).

Record wire_ok (w : wire_request) : Prop := {
  wire_method : known_method w.(w_method) = true;
  wire_path : (" "%char ∉ w.(w_path)) ∧ ("?"%char ∉ w.(w_path)) ∧ (CR ∉ w.(w_path));
  wire_query : Forall query_ok w.(w_query);
  wire_headers : Forall header_ok w.(w_headers);
  wire_body : (Z.of_nat (length w.(w_body)) <= int_max)%Z
}.

(** Well-formed contexts: past the request line the method and version are
    known ones; the body is as long as announced once everything has arrived. *)
Definition request_known (r : HttpRequest) : Prop :=
  r.(method_) ∈ [kGet; kPost; kHead; kPut; kDelete] ∧
  r.(version_) ∈ [lit "HTTP/1.1"; lit "HTTP/1.0"].

Definition context_ok (c : HttpContext) : Prop :=
  let r := c.(request_) in
  match c.(state_) with
  | kExpectRequestLine => r.(contentLength_) = 0%Z ∧ r.(content_) = []
  | kExpectHeaders => request_known r ∧ r.(contentLength_) = 0%Z ∧ r.(content_) = []
  | kExpectBody =>
      request_known r ∧ has_body r.(method_) = true ∧
      (0 < r.(contentLength_) < 2 ^ 64)%Z ∧ r.(content_) = []
  | kGotAll => request_known r ∧ Z.of_nat (length r.(content_)) = r.(contentLength_)
  end.

(** A concrete POST used by the witnesses. *)
Definition sample_post : wire_request :=
  mkWire kPost (lit "/aiBot/move") [(lit "k", lit "v")] true
    [(lit "Host", lit "localhost:8080"); (lit "Content-Type", lit "application/json")]
    (lit "{x:1,y:2}").

(** ** Lines *)

Lemma trim_end_trimmed s : trimmed s -> trim_end s = s.
Proof.
  intros [_ Hl]. destruct (last s) as [c|] eqn:Hc.
  - apply last_Some in Hc as [s' ->]. by apply trim_end_id.
  - apply last_None in Hc as ->. done.
Qed.

Lemma addHeader_render kv r :
  header_ok kv ->
  addHeader (render_header kv) (find_char ":"%char (render_header kv)) r =
    set_headers_ (<[kv.1 := kv.2]> r.(headers_)) r.
Proof.
  destruct kv as [k v]. intros (Hk & _ & _ & Ht). unfold addHeader, render_header. simpl in *.
  rewrite find_char_hit, take_app_length by done. f_equal. f_equal.
  rewrite drop_app_ge by lia. replace (S (length k) - length k) with 1 by lia. simpl.
  destruct Ht as [Hh Hl]. unfold skip_spaces. simpl.
  assert (drop (find_index (λ c, negb (isspace c)) v) v = v) as ->.
  { apply (skip_spaces_id v Hh). }
  by apply trim_end_trimmed.
Qed.

Lemma render_header_no_cr kv : header_ok kv -> CR ∉ render_header kv.
Proof.
  intros (_ & H1 & H2 & _). unfold render_header.
  rewrite elem_of_app, !elem_of_cons. intros [?|[?|[?|?]]]; done.
Qed.

Lemma render_query_chars c kvs :
  c ≠ "="%char -> c ≠ "&"%char -> Forall (λ kv : bytes * bytes, (c ∉ kv.1) ∧ (c ∉ kv.2)) kvs ->
  c ∉ render_query kvs.
Proof.
  intros He Ha. induction 1 as [|[k v] kvs [Hk Hv] _ IH]; simpl in *; [set_solver|].
  destruct kvs; rewrite !elem_of_app, !elem_of_cons, ?elem_of_app, ?elem_of_cons;
    intuition congruence.
Qed.

Lemma known_method_name m :
  known_method m = true -> method_of_name (method_name m) = m ∧ m ≠ kInvalid ∧
    (" "%char ∉ method_name m) ∧ (CR ∉ method_name m).
Proof.
  unfold known_method. rewrite bool_decide_eq_true. intros [Hm Hi]. split_and!; try done.
  all: destruct m; try done; solve_closed.
Qed.

(** Two fields separated by a character absent from the first. *)
Lemma drop_field (c : ascii) s1 s2 : drop (S (length s1)) (s1 ++ c :: s2) = s2.
Proof. rewrite drop_app_ge by lia. by replace (S (length s1) - length s1) with 1 by lia. Qed.

(** The query part of the target, none when there are no pairs. *)
Definition set_target (w : wire_request) (r : HttpRequest) : HttpRequest :=
  set_queryParameters_ (fold_left (λ m kv, <[kv.1 := kv.2]> m) w.(w_query) r.(queryParameters_))
    (setPath w.(w_path) r).

Lemma w_target_chars w c :
  c ≠ "="%char -> c ≠ "&"%char -> c ≠ "?"%char -> c ∉ w.(w_path) ->
  Forall (λ kv : bytes * bytes, (c ∉ kv.1) ∧ (c ∉ kv.2)) w.(w_query) -> c ∉ w_target w.
Proof.
  intros He Ha Hq Hp Hf. unfold w_target. destruct (w_query w) as [|kv kvs]; [done|].
  rewrite elem_of_app, elem_of_cons. intros [?|[?|Hr]]; [done..|]. revert Hr.
  by apply render_query_chars.
Qed.

Lemma wire_ok_target w : wire_ok w -> (" "%char ∉ w_target w) ∧ (CR ∉ w_target w).
Proof.
  intros [_ (H1 & H2 & H3) Hq _ _]. split; apply w_target_chars; try done.
  all: eapply Forall_impl; [exact Hq|]; unfold query_ok; naive_solver.
Qed.

Lemma substr_field line s f r : drop s line = f ++ r -> substr line s (s + length f - s) = f.
Proof.
  intros Hd. unfold substr. rewrite Hd.
  replace (s + length f - s) with (length f) by lia. by rewrite take_app_length.
Qed.

Lemma processTarget_plain line s tg suffix e r :
  drop s line = tg ++ suffix -> ("?"%char ∉ tg) ->
  processTarget line s (s + length tg) e r = (Ret tt, setPath tg r).
Proof.
  intros Hd Hq. unfold processTarget. rewrite (substr_field _ _ _ _ Hd).
  rewrite find_char_none by done. by rewrite decide_False by lia.
Qed.

Lemma processTarget_query line s p q suffix e r :
  drop s line = (p ++ "?"%char :: q) ++ suffix -> ("?"%char ∉ p) ->
  s + length (p ++ "?"%char :: q) < e ->
  processTarget line s (s + length (p ++ "?"%char :: q)) e r =
    (Ret tt, setQueryPathParameters q (setPath p r)).
Proof.
  intros Hd Hq He. unfold processTarget. rewrite (substr_field _ _ _ _ Hd).
  rewrite find_char_hit by done.
  rewrite length_app, length_cons in *. rewrite decide_True by lia. prog_simpl.
  rewrite <- app_assoc in Hd. rewrite (substr_field _ _ _ _ Hd). do 2 f_equal.
  assert (drop (s + length p + 1) line = q ++ suffix) as Hd2.
  { replace (s + length p + 1) with (s + S (length p)) by lia.
    rewrite <- drop_drop, Hd. apply drop_field. }
  unfold substr. rewrite Hd2.
  replace (s + _ - _) with (length q) by lia. by rewrite take_app_length.
Qed.

Lemma render_query_ne kvs : kvs ≠ [] -> render_query kvs ≠ [].
Proof. destruct kvs as [|[k v] [|kv kvs]]; [done|..]; intros _; simpl; by destruct k. Qed.

Lemma processTarget_ok line s w suffix e r :
  wire_ok w -> drop s line = w_target w ++ suffix -> s + length (w_target w) < e ->
  processTarget line s (s + length (w_target w)) e r = (Ret tt, set_target w r).
Proof.
  intros Hw Hd He. destruct (wire_path w Hw) as (_ & Hq & _).
  unfold set_target. unfold w_target in *. destruct (w_query w) as [|kv kvs] eqn:Hkv.
  - rewrite (processTarget_plain _ _ _ _ _ _ Hd) by done. by destruct r.
  - rewrite (processTarget_query _ _ _ _ _ _ _ Hd) by done.
    rewrite setQueryPathParameters_eq by (by apply render_query_ne).
    rewrite render_query_spec; [done|done|]. rewrite <- Hkv.
    eapply Forall_impl; [apply (wire_query w Hw)|]. unfold query_ok. naive_solver.
Qed.

Lemma processVersion_ok line s w e r :
  drop s line = w_version w -> e = s + 8 -> length line = e ->
  processVersion line s e r = (Ret true, setVersion (w_version w) r).
Proof.
  intros Hd -> Hl. unfold processVersion, substr. rewrite Hd.
  assert (line !! (s + 8 - 1) = w_version w !! 7) as ->.
  { rewrite <- Hd, lookup_drop. f_equal. lia. }
  rewrite decide_True by (split; [lia|unfold w_version; by case_match]).
  unfold w_version. by destruct (w_version_1_1 w).
Qed.

(** The request line of a well-formed request is accepted and recorded. *)
Lemma processRequestLine_ok w r :
  wire_ok w -> r.(method_) = kInvalid ->
  processRequestLine (request_line w) r =
    (Ret true, setVersion (w_version w) (set_target w (set_method_ w.(w_method) r))).
Proof.
  intros Hw Hr. destruct (wire_ok_target w Hw) as [Ht _].
  destruct (known_method_name _ (wire_method w Hw)) as (Hn & Hi & Hsp & _).
  assert (length (w_version w) = 8) as Hv by (unfold w_version; by case_match).
  unfold processRequestLine. set (line := request_line w).
  set (nm := method_name (w_method w)) in *. set (tg := w_target w) in *.
  assert (line = nm ++ " "%char :: tg ++ " "%char :: w_version w) as Hline by done.
  assert (find_char " "%char line = length nm) as -> by by apply find_char_hit.
  assert (take (length nm) line = nm) as -> by by rewrite Hline, take_app_length.
  assert (drop (S (length nm)) line = tg ++ " "%char :: w_version w) as Hd1 by apply drop_field.
  assert (length line = length nm + length tg + 10) as Hlen.
  { rewrite Hline, !length_app, !length_cons, length_app, length_cons, Hv. lia. }
  rewrite decide_False by lia. unfold setMethod. prog_simpl. rewrite Hr. simpl. rewrite Hn.
  rewrite (bool_decide_true (w_method w ≠ kInvalid)) by done. simpl.
  rewrite Hd1, (find_char_hit _ tg (w_version w)) by done. rewrite decide_False by lia.
  change (S (length nm + length tg)) with (S (length nm) + length tg).
  unfold tg at 1. erewrite processTarget_ok by (eauto; fold tg; lia). fold tg.
  apply processVersion_ok; [|lia..].
  rewrite <- Nat.add_succ_r, <- drop_drop, Hd1. apply drop_field.
Qed.

(** ** The rounds of a rendered request *)

Lemma drop_line (l rest : bytes) : drop (length l + 2) (l ++ crlf ++ rest) = rest.
Proof. rewrite drop_app_ge by lia. by replace (length l + 2 - length l) with 2 by lia. Qed.

Lemma more_step_request_line t w r rest :
  wire_ok w -> r.(method_) = kInvalid ->
  more_step t (mkHttpContext kExpectRequestLine r, request_line w ++ crlf ++ rest)
    (mkHttpContext kExpectHeaders
       (setReceiveTime t (setVersion (w_version w) (set_target w (set_method_ w.(w_method) r)))),
     rest).
Proof.
  intros Hw Hr. exists (Some (length (request_line w) + 2)). split; [|symmetry; apply drop_line].
  unfold round. cbn [fst snd state_ request_ new_context].
  rewrite find_crlf_line, take_app_length, processRequestLine_ok; [done|done|done|].
  destruct (known_method_name _ (wire_method w Hw)) as (_ & _ & _ & Hc).
  destruct (wire_ok_target w Hw) as [_ Ht]. unfold request_line.
  rewrite elem_of_app, elem_of_cons, elem_of_app, elem_of_cons.
  intros [?|[?|[?|[?|Hv]]]]; [done..|]. revert Hv. unfold w_version.
  destruct (w_version_1_1 w); solve_closed.
Qed.

Lemma more_step_header t kv r rest :
  header_ok kv ->
  more_step t (mkHttpContext kExpectHeaders r, (render_header kv ++ crlf) ++ rest)
    (mkHttpContext kExpectHeaders (set_headers_ (<[kv.1 := kv.2]> r.(headers_)) r), rest).
Proof.
  intros Hkv. exists (Some (length (render_header kv) + 2)). rewrite <- app_assoc.
  split; [|symmetry; apply drop_line].
  unfold round. cbn [fst snd state_ request_].
  rewrite find_crlf_line, take_app_length by (by apply render_header_no_cr).
  rewrite decide_True.
  - by rewrite addHeader_render.
  - apply find_char_in. unfold render_header. set_solver.
Qed.

Lemma more_steps_headers t hs r rest :
  Forall header_ok hs ->
  star (more_step t) (mkHttpContext kExpectHeaders r, render_headers hs ++ rest)
    (mkHttpContext kExpectHeaders (set_headers_ (header_map hs r.(headers_)) r), rest).
Proof.
  intros Hf. revert r. induction Hf as [|kv hs Hkv _ IH]; intros r.
  - destruct r. apply star_refl.
  - unfold render_headers. cbn [fmap list_fmap concat]. rewrite <- app_assoc.
    eapply star_step; [by apply more_step_header|].
    specialize (IH (set_headers_ (<[kv.1 := kv.2]> r.(headers_)) r)). by destruct r.
Qed.

Lemma round_blank_line t r rest :
  round t (mkHttpContext kExpectHeaders r) (crlf ++ rest) =
    match headers_done (mkHttpContext kExpectHeaders r) with
    | (Ret v, c') => (Ret v, c', Some 2)
    | (o, c') => (o, c', None)
    end.
Proof. done. Qed.

Lemma round_body_complete t st body rest r :
  st = kExpectBody -> r.(contentLength_) = Z.of_nat (length body) ->
  round t (mkHttpContext st r) (body ++ rest) =
    (Ret (Done true), mkHttpContext kGotAll (setBody body r), Some (length body)).
Proof.
  intros -> Hn. unfold round. cbn [state_ request_]. rewrite Hn.
  rewrite decide_False by (rewrite length_app; lia). by rewrite Nat2Z.id, take_app_length.
Qed.

Lemma header_map_last hs k v m : header_map (hs ++ [(k, v)]) m !! k = Some v.
Proof. unfold header_map. rewrite fold_left_app. simpl. by rewrite lookup_insert_eq. Qed.

(** The outcome at the empty line of a request that carries a body. *)
Lemma headers_done_body r n :
  r.(method_) = kPost ∨ r.(method_) = kPut -> (0 <= n <= int_max)%Z ->
  r.(headers_) !! lit "Content-Length" = Some (to_string n) ->
  headers_done (mkHttpContext kExpectHeaders r) =
    if decide (0 < n)%Z then (Ret More, mkHttpContext kExpectBody (setContentLength n r))
    else (Ret (Done true), mkHttpContext kGotAll (setContentLength n r)).
Proof.
  intros Hm Hn Hl. unfold headers_done. cbn [request_]. rewrite decide_True by done.
  unfold getHeader, find_or_empty. rewrite Hl. cbn [default from_option id].
  rewrite decide_True by apply to_string_ne.
  rewrite stoi_to_string by (unfold int_min, int_max in *; lia).
  by rewrite wrap_u64_small by (unfold int_max in Hn; lia).
Qed.

Lemma wire_ok_all_headers w : wire_ok w -> Forall header_ok (w_all_headers w).
Proof.
  intros Hw. unfold w_all_headers. destruct (has_body _); [|apply Hw].
  apply Forall_app. split; [apply Hw|]. constructor; [|constructor].
  set (n := Z.of_nat (length (w_body w))).
  destruct (digits_of_log n ltac:(lia)) as (_ & Hd & Hne).
  assert (to_string n = digits_of (S (Z.to_nat (Z.log2 n))) n) as Hs.
  { unfold to_string. by rewrite decide_False by lia. }
  assert (Forall (λ c, isspace c = false) (to_string n)) as Hnsp.
  { rewrite Hs. eapply Forall_impl; [exact Hd|]. apply is_digit_not_space. }
  unfold header_ok, trimmed. cbn [fst snd]. split_and!.
  - solve_closed.
  - solve_closed.
  - rewrite Forall_forall in Hnsp. intros Hc. by apply Hnsp in Hc.
  - destruct (to_string n); [done|]. by apply Forall_cons in Hnsp as [? _].
  - destruct (last (to_string n)) as [c|] eqn:Hc; [|done].
    apply last_Some_elem_of in Hc. rewrite Forall_forall in Hnsp. by apply Hnsp.
Qed.

(** ** After a rejected request line *)

(** Rounds never go back to the request line. *)
Lemma round_more_headers t c l c' n :
  round t c l = (Ret More, c', n) -> c.(state_) ≠ kGotAll -> c'.(state_) ≠ kExpectRequestLine.
Proof.
  unfold round. intros Hr Hst. revert Hr. destruct c.(state_) eqn:Hc; try done.
  - intros; repeat case_match; by simplify_eq/=.
  - destruct (find_crlf l) as [i|]; [|done].
    repeat case_decide; try done; [by intros [=]; subst|].
    destruct (headers_done c) as [o2 c2] eqn:Hd. apply headers_done_state in Hd.
    destruct o2; intros [=]; subst.
    destruct Hd as [[? ?]|[[? ->]|(? & ? & ?)]]; congruence.
  - by case_decide.
Qed.

Lemma round_stays_past_line t c l o c' n :
  round t c l = (o, c', n) -> c.(state_) ≠ kExpectRequestLine -> c'.(state_) ≠ kExpectRequestLine.
Proof.
  unfold round. intros Hr Hst. revert Hr. destruct c.(state_) eqn:Hc; try done.
  - destruct (find_crlf l) as [i|]; [|intros [=]; congruence].
    repeat case_decide; try (intros [=]; subst; simpl; congruence).
    destruct (headers_done c) as [o2 c2] eqn:Hd. apply headers_done_state in Hd.
    destruct o2; intros [=]; subst;
      destruct Hd as [[? ?]|[[? ?]|(-> & ? & ?)]]; congruence.
  - case_decide; intros [=]; subst; simpl; congruence.
  - intros [=]; subst. congruence.
Qed.

(** The assertion of [setMethod] on a context that already has a method. *)
Lemma processRequestLine_asserts line r :
  " "%char ∈ line -> r.(method_) ≠ kInvalid -> processRequestLine line r = (Halt AssertFailed, r).
Proof.
  intros Hsp Hm. unfold processRequestLine. pose proof (find_char_in _ _ Hsp).
  rewrite decide_False by lia. unfold setMethod. prog_simpl.
  by rewrite bool_decide_false.
Qed.

(** A method is only ever set from a line that has a space. *)
Lemma processRequestLine_method line r o r' :
  processRequestLine line r = (o, r') -> r'.(method_) ≠ kInvalid -> r.(method_) = kInvalid ->
  " "%char ∈ line.
Proof.
  unfold processRequestLine. intros Hp Hm Hr.
  destruct (decide (" "%char ∈ line)) as [|Hsp]; [done|].
  rewrite find_char_none, decide_True in Hp by done.
  injection Hp as <- <-. done.
Qed.

Lemma round_rejected_line t c l c' n :
  round t c l = (Ret (Done false), c', n) -> c.(state_) = kExpectRequestLine ->
  c.(request_).(method_) = kInvalid -> c'.(request_).(method_) ≠ kInvalid ->
  n = None ∧ ∃ i, find_crlf l = Some i ∧ " "%char ∈ take i l.
Proof.
  unfold round. intros Hr Hc Hk Hm. revert Hr. rewrite Hc.
  destruct (find_crlf l) as [i|] eqn:Hi; [|done].
  destruct (processRequestLine (take i l) (request_ c)) as [[[]|e|w] r] eqn:Hp; try done.
  intros [= <- <-]. split; [done|]. exists i. split; [done|].
  by eapply processRequestLine_method.
Qed.

Lemma parse_loop_past_line {B} `{MuduoBufferLaws B} fuel t c (b : B) o c' b' :
  parse_loop fuel t (c, b) = Some (o, (c', b')) ->
  c.(state_) ≠ kExpectRequestLine -> c'.(state_) ≠ kExpectRequestLine.
Proof.
  revert c b. induction fuel as [|fuel IH]; intros c b; simpl; [done|].
  rewrite parse_step_round. destruct (round t c (readable b)) as [[o1 c1] n] eqn:Hr.
  intros Hl Hc. pose proof (round_stays_past_line _ _ _ _ _ _ Hr Hc).
  destruct o1 as [[|ok]|e|w]; [eauto|by injection Hl as <- <- <-..].
Qed.

(** ** The context invariant *)

Lemma method_of_name_in m :
  method_of_name m ≠ kInvalid -> method_of_name m ∈ [kGet; kPost; kHead; kPut; kDelete].
Proof. unfold method_of_name. repeat case_decide; intros ?; try done; set_solver. Qed.

Lemma setQueryPathParameters_frame q r :
  ∃ q', setQueryPathParameters q r = set_queryParameters_ q' r.
Proof.
  destruct q as [|c q].
  - exists r.(queryParameters_). by destruct r.
  - rewrite setQueryPathParameters_eq by done. eauto.
Qed.

Lemma processTarget_frame line s e1 e2 r :
  ∃ p q, processTarget line s e1 e2 r = (Ret tt, set_queryParameters_ q (setPath p r)).
Proof.
  unfold processTarget. case_decide; prog_simpl.
  - edestruct setQueryPathParameters_frame as [q ->]. eauto.
  - by exists (substr line s (e1 - s)), r.(queryParameters_).
Qed.

Lemma processVersion_frame line s e r o r' :
  processVersion line s e r = (o, r') ->
  (r' = r ∧ o = Ret false) ∨
  (o = Ret true ∧ ∃ v, v ∈ [lit "HTTP/1.1"; lit "HTTP/1.0"] ∧ r' = setVersion v r).
Proof.
  unfold processVersion. case_decide; prog_simpl; [|intros [= <- <-]; auto].
  destruct (line !! _) as [c|]; [|intros [= <- <-]; auto].
  repeat case_match; intros [= <- <-]; auto; right; split; try done; eexists; (split; [|done]);
    set_solver.
Qed.

(** What a request line can change, and what is known when it is accepted. *)
Lemma processRequestLine_frame line r o r' :
  processRequestLine line r = (o, r') ->
  r'.(contentLength_) = r.(contentLength_) ∧ r'.(content_) = r.(content_) ∧
  (o = Ret true → request_known r').
Proof.
  unfold processRequestLine. case_decide; [intros [= <- <-]; done|].
  unfold setMethod. prog_simpl. case_bool_decide; prog_simpl; [|intros [= <- <-]; done].
  case_bool_decide as Hk; prog_simpl; [|intros [= <- <-]; done].
  case_decide; [intros [= <- <-]; done|].
  edestruct processTarget_frame as (p & q & ->). intros Hv.
  apply processVersion_frame in Hv as [[-> ->]|(-> & v & Hv & ->)]; [done|].
  split_and!; [done..|]. intros _. split; [by apply method_of_name_in|done].
Qed.

Lemma headers_done_ok c o c' :
  headers_done c = (o, c') -> c.(state_) = kExpectHeaders -> context_ok c -> context_ok c'.
Proof.
  unfold headers_done, context_ok. intros Hd Hst Hok. rewrite Hst in Hok.
  destruct Hok as (Hk & Hn & Hc). revert Hd. case_decide as Hm.
  2:{ intros [= <- <-]. simpl. rewrite Hn, Hc. done. }
  case_decide; [|intros [= <- <-]; by rewrite Hst].
  destruct (stoi _) as [n|e|w]; [|intros [= <- <-]; by rewrite Hst..].
  pose proof (wrap_u64_bounds n).
  case_decide as Hpos; intros [= <- <-]; simpl; (split; [done|]).
  - split_and!; [by apply bool_decide_true|lia|lia|done].
  - rewrite Hc. simpl. lia.
Qed.

Lemma round_context_ok t c l o c' n : round t c l = (o, c', n) -> context_ok c -> context_ok c'.
Proof.
  unfold round. intros Hr Hok. revert Hr. destruct (state_ c) eqn:Hst.
  - unfold context_ok in Hok. rewrite Hst in Hok. destruct Hok as [Hn Hc].
    destruct (find_crlf l) as [i|]; [|intros [= <- <- <-]; unfold context_ok; by rewrite Hst].
    destruct (processRequestLine _ _) as [o1 r] eqn:Hp.
    apply processRequestLine_frame in Hp as (Hn' & Hc' & Hk).
    destruct o1 as [[]|e|w]; intros [= <- <- <-]; unfold context_ok; simpl;
      rewrite Hn', Hc'; auto.
  - destruct (find_crlf l) as [i|]; [|by intros [= <- <- <-]].
    repeat case_decide; [| |by intros [= <- <- <-]].
    + unfold context_ok in Hok. rewrite Hst in Hok. intros [= <- <- <-]. done.
    + destruct (headers_done c) as [o2 c2] eqn:Hd.
      pose proof (headers_done_ok _ _ _ Hd Hst Hok). by destruct o2; intros [= <- <- <-].
  - case_decide as Hd; intros [= <- <- <-]; [done|].
    unfold context_ok in *. rewrite Hst in Hok. destruct Hok as (? & ? & Hn & ?). simpl.
    split; [done|]. rewrite length_take. lia.
  - by intros [= <- <- <-].
Qed.

Section promises.
Context {B : Type} `{MuduoBufferLaws B}.

(** Parsing a rendered request, started from any request object without a
    method. *)
Lemma parse_render_from (t : Timestamp) (w : wire_request) (r : HttpRequest) (rest : bytes) (b : B) :
  wire_ok w -> r.(method_) = kInvalid -> readable b = render_request w ++ rest ->
  ∃ b', parseRequest t (mkHttpContext kExpectRequestLine r, b) =
          Some (Ret true, (mkHttpContext kGotAll (expected_from t w r), b')) ∧
        readable b' = rest.
Proof.
  intros Hw Hr Hb. unfold render_request in Hb. rewrite <- !app_assoc in Hb.
  set (body := if has_body (w_method w) then w_body w else []) in *.
  set (c0 := mkHttpContext kExpectRequestLine r).
  set (r0 := setReceiveTime t (setVersion (w_version w) (set_target w (set_method_ w.(w_method) r)))).
  set (r1 := set_headers_ (header_map (w_all_headers w) r.(headers_)) r0).
  assert (star (more_step t) (c0, readable b)
    (mkHttpContext kExpectHeaders r1, crlf ++ body ++ rest)) as Hsteps.
  { rewrite Hb. eapply star_step; [by apply more_step_request_line|].
    apply more_steps_headers. by apply wire_ok_all_headers. }
  pose proof (round_blank_line t r1 (body ++ rest)) as Hround.
  destruct (has_body (w_method w)) eqn:Hhb; subst body.
  - pose proof Hhb as Hm. unfold has_body in Hm. rewrite bool_decide_eq_true in Hm.
    rewrite (headers_done_body r1 (Z.of_nat (length (w_body w)))) in Hround; [|done| |].
    2:{ pose proof (wire_body w Hw). lia. }
    2:{ unfold r1, w_all_headers. rewrite Hhb. apply header_map_last. }
    case_decide as Hpos.
    + assert (star (more_step t) (c0, readable b)
        (mkHttpContext kExpectBody (setContentLength (Z.of_nat (length (w_body w))) r1),
         w_body w ++ rest)) as Hsteps2.
      { eapply star_trans; [exact Hsteps|]. apply star_one. eexists. split; [exact Hround|done]. }
      pose proof (round_body_complete t _ (w_body w) rest
        (setContentLength (Z.of_nat (length (w_body w))) r1) eq_refl eq_refl) as Hround2.
      edestruct (more_steps_parse t) as (b' & Hrb & Hp);
        [exact Hsteps2|exact Hround2|done|done|done|].
      exists b'. split; [|rewrite Hrb; apply drop_app_length].
      cbn [fst] in Hp. rewrite Hp. do 3 f_equal. unfold expected_from. rewrite Hhb.
      by rewrite bool_decide_true by (intros Hnil; rewrite Hnil in Hpos; simpl in Hpos; lia).
    + edestruct (more_steps_parse t) as (b' & Hrb & Hp); [exact Hsteps|exact Hround|done|done|done|].
      destruct (w_body w) as [|? ?] eqn:Hbody; [|simpl in Hpos; lia].
      exists b'. split; [|done]. cbn [fst] in Hp. rewrite Hp. do 3 f_equal. unfold expected_from.
      by rewrite Hhb, Hbody.
  - assert (headers_done (mkHttpContext kExpectHeaders r1) =
      (Ret (Done true), mkHttpContext kGotAll r1)) as Hdone.
    { unfold headers_done. rewrite decide_False; [done|].
      unfold has_body in Hhb. by rewrite bool_decide_eq_false in Hhb. }
    rewrite Hdone in Hround.
    edestruct (more_steps_parse t) as (b' & Hrb & Hp); [exact Hsteps|exact Hround|done|done|done|].
    exists b'. split; [|done]. cbn [fst] in Hp. rewrite Hp. do 3 f_equal.
    unfold expected_from. by rewrite Hhb.
Qed.

(** C2. Rendering a well-formed request and parsing it gives the request back:
    method, version, path, query parameters, headers, body and its length; the
    parser answers [true] in state [kGotAll] and leaves exactly the characters
    that follow the request in the buffer. *)
Theorem parse_render (t : Timestamp) (w : wire_request) (rest : bytes) (b : B) :
  wire_ok w -> readable b = render_request w ++ rest ->
  ∃ b', parseRequest t (new_context, b) =
          Some (Ret true, (mkHttpContext kGotAll (expected_request t w), b')) ∧
        readable b' = rest.
Proof. intros Hw Hb. by apply parse_render_from. Qed.

(** C3. Parsing does not depend on how TCP cut the input into pieces: feeding
    the pieces one by one, until the request is complete or rejected, ends
    with the same answer, the same context and the same unread characters as
    one call on their concatenation. *)
Theorem feed_concat (t : Timestamp) (c : HttpContext) (b : B) (chunks : list bytes) :
  c.(state_) ≠ kGotAll -> chunks ≠ [] ->
  same_result (feed t (c, b) chunks) (parseRequest t (c, append (concat chunks) b)).
Proof. intros Hc Hne. destruct chunks as [|s chunks]; [done|]. by apply feed_concat_aux. Qed.

(** C4. From every state but [kGotAll] the parsing loop ends, whatever the
    input, within one round per unread character and one more; called in state
    [kGotAll] it never ends. *)
Theorem parse_terminates (t : Timestamp) (c : HttpContext) (b : B) :
  if bool_decide (c.(state_) = kGotAll) then ∀ fuel, parse_loop fuel t (c, b) = None
  else is_Some (parse_loop (S (length (readable b))) t (c, b)).
Proof.
  case_bool_decide as Hc.
  - induction fuel as [|fuel IH]; [done|]. simpl. rewrite parse_step_round.
    unfold round. by rewrite Hc.
  - apply parse_loop_total; [lia|done].
Qed.

(** Reusing a context after [reset] for the next request on the connection:
    [swap] leaves the body and its length in place, so a request without a
    body, or with an empty one, shows the previous request's body; all its
    other members are its own. *)
Theorem reset_keeps_body (t : Timestamp) (w : wire_request) (prev : HttpRequest)
    (rest : bytes) (b : B) :
  wire_ok w -> readable b = render_request w ++ rest ->
  ∃ r b', parseRequest t (reset (mkHttpContext kGotAll prev), b) =
            Some (Ret true, (mkHttpContext kGotAll r, b')) ∧
    (if has_body w.(w_method) && bool_decide (w.(w_body) ≠ [])
     then r = expected_request t w
     else r.(content_) = prev.(content_) ∧
          setBody [] (setContentLength 0 r) = setBody [] (setContentLength 0 (expected_request t w))).
Proof.
  intros Hw Hb. edestruct (parse_render_from t w) as (b' & Hp & _); [done| |exact Hb|].
  { instantiate (1 := (reset (mkHttpContext kGotAll prev)).(request_)). done. }
  eexists _, b'. split; [exact Hp|]. unfold expected_request, expected_from.
  destruct (has_body (w_method w)); simpl; [|done].
  by destruct (bool_decide (w_body w ≠ [])).
Qed.

(** A request line that is rejected after its method was recognised (a bad
    version, say) stays in the buffer with the method already set: whatever
    arrives next on the connection, the next call fails the assertion in
    [setMethod]. *)
Theorem rejected_line_asserts (t : Timestamp) (c c' : HttpContext) (b b' : B) (s : bytes) :
  c.(state_) = kExpectRequestLine -> c.(request_).(method_) = kInvalid ->
  parseRequest t (c, b) = Some (Ret false, (c', b')) ->
  c'.(state_) = kExpectRequestLine -> c'.(request_).(method_) ≠ kInvalid ->
  ∃ b'', parseRequest t (c', append s b') = Some (Halt AssertFailed, (c', b'')).
Proof.
  intros Hc Hk Hp Hc' Hm. unfold parseRequest, parse_fuel in Hp. cbn [parse_loop snd] in Hp.
  rewrite parse_step_round in Hp.
  destruct (round t c (readable b)) as [[o c1] n] eqn:Hr.
  destruct o as [[|ok]|e|w]; try done.
  { exfalso. apply (parse_loop_past_line _ _ _ _ _ _ _ Hp); [|done].
    eapply round_more_headers; [exact Hr|]. by rewrite Hc. }
  injection Hp as -> -> <-.
  destruct (round_rejected_line _ _ _ _ _ Hr Hc Hk Hm) as (-> & i & Hi & Hline).
  exists (append s b). unfold parseRequest, parse_fuel. cbn [parse_loop snd].
  rewrite parse_step_round. cbn [consume].
  assert (round t c' (readable (append s b)) = (Halt AssertFailed, c', None)) as ->; [|done].
  rewrite readable_append. unfold round. rewrite Hc', (find_crlf_app_l _ _ _ Hi).
  pose proof (find_crlf_bound _ _ Hi). rewrite take_app_le by lia.
  destruct c' as [st r]. simpl in *. subst st.
  by rewrite (processRequestLine_asserts _ r Hline Hm).
Qed.

(** C5. The parser keeps its context well formed on every outcome, errors
    included. A completed request has one of the five known methods, version
    1.0 or 1.1, and a body of exactly the recorded length; no request ever has
    method [kOptions]. *)
Theorem parse_context_ok (t : Timestamp) (c c' : HttpContext) (b b' : B)
    (o : outcome std_exception bool) :
  context_ok c -> parseRequest t (c, b) = Some (o, (c', b')) -> context_ok c'.
Proof.
  unfold parseRequest. generalize (parse_fuel (c, b)) as fuel. intros fuel. revert c b.
  induction fuel as [|fuel IH]; intros c b Hok; simpl; [done|].
  rewrite parse_step_round. destruct (round t c (readable b)) as [[o1 c1] n] eqn:Hr.
  apply round_context_ok in Hr; [|done].
  destruct o1 as [[|ok]|e|w]; [by apply IH|by intros [= <- <- <-]..].
Qed.

(** A negative Content-Length is converted to [uint64_t] and asks for
    [2^64 - n] characters: the parser then answers [true], waiting for more, on
    every input shorter than that, and the request never completes. *)
Theorem negative_length_waits (t : Timestamp) (r : HttpRequest) (n : Z) (b : B) (s : bytes) :
  has_body r.(method_) = true -> (0 < n <= 2 ^ 31)%Z ->
  r.(headers_) !! lit "Content-Length" = Some (to_string (- n)) ->
  readable b = crlf ++ s -> (Z.of_nat (length s) < 2 ^ 64 - n)%Z ->
  ∃ b', parseRequest t (mkHttpContext kExpectHeaders r, b) =
    Some (Ret true, (mkHttpContext kExpectBody (setContentLength (2 ^ 64 - n) r), b')).
Proof.
  intros Hm Hn Hl Hb Hs. unfold has_body in Hm. rewrite bool_decide_eq_true in Hm.
  assert (headers_done (mkHttpContext kExpectHeaders r) =
    (Ret More, mkHttpContext kExpectBody (setContentLength (2 ^ 64 - n) r))) as Hd.
  { unfold headers_done. cbn [request_]. rewrite decide_True by done.
    unfold getHeader, find_or_empty. rewrite Hl. cbn [default from_option id].
    rewrite decide_True by apply to_string_ne.
    rewrite stoi_to_string by (unfold int_min, int_max; lia).
    assert (wrap_u64 (- n) = 2 ^ 64 - n)%Z as ->.
    { unfold wrap_u64. rewrite Z.mod_opp_l_nz; rewrite ?Z.mod_small; lia. }
    by rewrite decide_True by lia. }
  pose proof (round_blank_line t r s) as Hr. rewrite Hd in Hr.
  edestruct (more_steps_parse t (mkHttpContext kExpectHeaders r, readable b)
    (mkHttpContext kExpectBody (setContentLength (2 ^ 64 - n) r), s)) as (b' & _ & Hp).
  - apply star_one. exists (Some 2). rewrite Hb. done.
  - unfold round. cbn -[Z.of_nat Z.lt]. rewrite decide_True by exact Hs. done.
  - done.
  - done.
  - done.
  - eexists. exact Hp.
Qed.

End promises.

(** ** Witnesses *)

Lemma sample_post_ok : wire_ok sample_post.
Proof.
  split; simpl.
  - by vm_compute.
  - split_and!; solve_closed.
  - repeat constructor; simpl; solve_closed.
  - repeat constructor; simpl; try solve_closed.
  - vm_compute. done.
Defined.

Lemma parse_render_witness :
  ∃ b', parseRequest default_timestamp (new_context, render_request sample_post ++ lit "GET") =
          Some (Ret true, (mkHttpContext kGotAll (expected_request default_timestamp sample_post), b')) ∧
        readable b' = lit "GET".
Proof. apply (parse_render (B:=bytes)); [exact sample_post_ok|reflexivity]. Defined.

Lemma feed_concat_witness :
  same_result (feed (B:=bytes) default_timestamp (new_context, []) [lit "GET / HT"; lit "TP/1.1"; crlf ++ crlf])
    (parseRequest default_timestamp (new_context, append (lit "GET / HTTP/1.1" ++ crlf ++ crlf) [])).
Proof.
  apply (feed_concat (B:=bytes) default_timestamp new_context []
    [lit "GET / HT"; lit "TP/1.1"; crlf ++ crlf]); done.
Defined.

Lemma parse_terminates_witness :
  is_Some (parse_loop (B:=bytes) 9 default_timestamp (new_context, lit "GET / HT")) ∧
  ∀ fuel, parse_loop (B:=bytes) fuel default_timestamp (mkHttpContext kGotAll new_request, []) = None.
Proof.
  split.
  - exact (parse_terminates (B:=bytes) default_timestamp new_context (lit "GET / HT")).
  - exact (parse_terminates (B:=bytes) default_timestamp (mkHttpContext kGotAll new_request) []).
Defined.

(** A GET after the sample POST, on the same connection. *)
Definition sample_get : wire_request := mkWire kGet (lit "/menu") [] true [] [].

Lemma sample_get_ok : wire_ok sample_get.
Proof.
  split; simpl; [by vm_compute| |constructor|constructor|by vm_compute].
  split_and!; solve_closed.
Defined.

Lemma reset_keeps_body_witness :
  ∃ r b', parseRequest (B:=bytes) default_timestamp
      (reset (mkHttpContext kGotAll (expected_request default_timestamp sample_post)),
       render_request sample_get) = Some (Ret true, (mkHttpContext kGotAll r, b')) ∧
    r.(content_) = lit "{x:1,y:2}".
Proof.
  destruct (reset_keeps_body (B:=bytes) default_timestamp sample_get
    (expected_request default_timestamp sample_post) [] (render_request sample_get))
    as (r & b' & Hp & Hc & _); [exact sample_get_ok|by rewrite app_nil_r|].
  exists r, b'. split; [exact Hp|]. rewrite Hc. reflexivity.
Defined.

Lemma rejected_line_asserts_witness :
  ∃ c' b', parseRequest (B:=bytes) default_timestamp (new_context, lit "GET / HTTP/2.0" ++ crlf) =
             Some (Ret false, (c', b')) ∧
    ∃ b'', parseRequest default_timestamp (c', append (lit "Host: x") b') =
             Some (Halt AssertFailed, (c', b'')).
Proof.
  eexists _, _. split; [vm_compute; reflexivity|].
  eapply (rejected_line_asserts (B:=bytes) default_timestamp new_context _
    (lit "GET / HTTP/2.0" ++ crlf)); [done|done|vm_compute; reflexivity|done|done].
Defined.

Lemma parse_context_ok_witness :
  ∃ o c' b', parseRequest (B:=bytes) default_timestamp (new_context, render_request sample_post) =
               Some (o, (c', b')) ∧ context_ok c'.
Proof.
  eexists _, _, _. split; [vm_compute; reflexivity|].
  eapply (parse_context_ok (B:=bytes) default_timestamp new_context _ (render_request sample_post));
    [done|vm_compute; reflexivity].
Defined.

Lemma negative_length_waits_witness :
  let r := set_headers_ {[lit "Content-Length" := lit "-1"]} (set_method_ kPost new_request) in
  ∃ b', parseRequest (B:=bytes) default_timestamp (mkHttpContext kExpectHeaders r, crlf ++ lit "body") =
    Some (Ret true, (mkHttpContext kExpectBody (setContentLength (2 ^ 64 - 1) r), b')).
Proof.
  intros r. eapply (negative_length_waits (B:=bytes) default_timestamp r 1 _ (lit "body"));
    [reflexivity|lia|reflexivity|reflexivity|vm_compute; reflexivity].
Defined.
