(* ===== verification/HttpResponse.v ===== *)
(** * [http::HttpResponse]

    [HTTP/include/http/HttpResponse.h] and [HTTP/src/http/HttpResponse.cpp]:
    the response under construction and its text on the wire. *)

From S2P Require Export HttpRequest MuduoBuffer.

(** [HttpResponse::HttpStatusCode] and the value of each enumerator. *)
Inductive HttpStatusCode :=
| kUnknow
| k200Ok
| k204NoContent
| k301MovedPermanently
| k400BadRequest
| k401Unauthorized
| k403Forbidden
| k404NotFound
| k409Conflict
| k500InternalServerError.

#[export] Instance HttpStatusCode_eq_dec : EqDecision HttpStatusCode.
Proof. solve_decision. Defined.

Definition status_value (c : HttpStatusCode) : Z :=
  match c with
  | kUnknow => 0
  | k200Ok => 200
  | k204NoContent => 204
  | k301MovedPermanently => 301
  | k400BadRequest => 400
  | k401Unauthorized => 401
  | k403Forbidden => 403
  | k404NotFound => 404
  | k409Conflict => 409
  | k500InternalServerError => 500
  end%Z.

(** The members; [isFile_] is never read or written. *)
Record HttpResponse := mkHttpResponse {
  statusCode_ : HttpStatusCode;
  statusMessage_ : bytes;
  httpVersion_ : bytes;
  resp_headers_ : gmap bytes bytes;
  body_ : bytes;
  closeConnection_ : bool
}.

(** [HttpResponse(bool close = true)]. *)
Definition new_response (close : bool) : HttpResponse :=
  mkHttpResponse kUnknow [] [] ∅ [] close.

Module Response.

Definition setVersion (v : bytes) (r : HttpResponse) : HttpResponse :=
  mkHttpResponse r.(statusCode_) r.(statusMessage_) v r.(resp_headers_) r.(body_) r.(closeConnection_).
Definition setStatusCode (c : HttpStatusCode) (r : HttpResponse) : HttpResponse :=
  mkHttpResponse c r.(statusMessage_) r.(httpVersion_) r.(resp_headers_) r.(body_) r.(closeConnection_).
Definition setStatusMessage (m : bytes) (r : HttpResponse) : HttpResponse :=
  mkHttpResponse r.(statusCode_) m r.(httpVersion_) r.(resp_headers_) r.(body_) r.(closeConnection_).
Definition setCloseConnection (on : bool) (r : HttpResponse) : HttpResponse :=
  mkHttpResponse r.(statusCode_) r.(statusMessage_) r.(httpVersion_) r.(resp_headers_) r.(body_) on.
Definition addHeader (k v : bytes) (r : HttpResponse) : HttpResponse :=
  mkHttpResponse r.(statusCode_) r.(statusMessage_) r.(httpVersion_)
    (<[k := v]> r.(resp_headers_)) r.(body_) r.(closeConnection_).
Definition setContentLength (length : Z) (r : HttpResponse) : HttpResponse :=
  addHeader (lit "Content-Length") (to_string length) r.
Definition setContentType (t : bytes) (r : HttpResponse) : HttpResponse :=
  addHeader (lit "Content-Type") t r.
Definition setBody (b : bytes) (r : HttpResponse) : HttpResponse :=
  mkHttpResponse r.(statusCode_) r.(statusMessage_) r.(httpVersion_) r.(resp_headers_) b r.(closeConnection_).
Definition setStatusLine (c : HttpStatusCode) (m v : bytes) (r : HttpResponse) : HttpResponse :=
  setStatusMessage m (setStatusCode c (setVersion v r)).

End Response.

(** The characters before the first NUL: what [c_str()] shows to C functions. *)
Definition c_str (s : bytes) : bytes := take (find_char (ascii_of_nat 0) s) s.

(** [snprintf(buf, 32, "%s %d", httpVersion_.c_str(), statusCode_)]: at most 31
    characters reach [buf]. *)
Definition status_buf (r : HttpResponse) : bytes :=
  take 31 (c_str r.(httpVersion_) ++ " "%char :: to_string (status_value r.(statusCode_))).

Definition connection_line (close : bool) : bytes :=
  if close then lit "Connection: close" ++ crlf else lit "Connection: Keep-Alive" ++ crlf.

(** [key ": " value CR LF] *)
Definition header_line (e : bytes * bytes) : bytes := e.1 ++ lit ": " ++ e.2 ++ crlf.

(** What [appendToBuffer] writes. *)
Definition response_bytes (r : HttpResponse) : bytes :=
  status_buf r ++ r.(statusMessage_) ++ crlf ++
  connection_line r.(closeConnection_) ++
  concat (map header_line (map_items r.(resp_headers_))) ++ crlf ++
  r.(body_).

(** [appendToBuffer], call by call. *)
Definition appendToBuffer {B : Type} `{MuduoBuffer B} (r : HttpResponse) (output : B) : B :=
  let output := append (status_buf r) output in
  let output := append r.(statusMessage_) output in
  let output := append crlf output in
  let output := append (connection_line r.(closeConnection_)) output in
  let output := fold_left
    (λ out (e : bytes * bytes), append crlf (append e.2 (append (lit ": ") (append e.1 out))))
    (map_items r.(resp_headers_)) output in
  let output := append crlf output in
  append r.(body_) output.

(** [getContentLength()]. *)
Definition getContentLength (r : HttpResponse) : nat :=
  let line := length r.(httpVersion_) + 1 + length r.(statusMessage_) + 1 + 4 + 1 in
  let headers := fold_left (λ len (e : bytes * bytes), len + (length e.1 + 1 + length e.2 + 1))
    (map_items r.(resp_headers_)) line in
  headers + length r.(body_).

(** ** A client's reading of the response

    The lines up to the first empty one, and what follows it. *)
Fixpoint read_head (fuel : nat) (s : bytes) : option (list bytes * bytes) :=
  match fuel with
  | 0 => None
  | S fuel =>
      match find_crlf s with
      | None => None
      | Some 0 => Some ([], drop 2 s)
      | Some i =>
          match read_head fuel (drop (i + 2) s) with
          | Some (ls, rest) => Some (take i s :: ls, rest)
          | None => None
          end
      end
  end.

(** The fields of a response that keep it on its lines: no CR in any of them,
    no colon in a header name, and values without outer blanks. *)
Definition clean_value (v : bytes) : Prop := trim_end (skip_spaces v) = v.

Definition well_formed_response (r : HttpResponse) : Prop :=
  CR ∉ r.(httpVersion_) ∧ CR ∉ r.(statusMessage_) ∧
  map_Forall (λ k v, (":"%char ∉ k) ∧ (CR ∉ k) ∧ (CR ∉ v) ∧ clean_value v) r.(resp_headers_).

#[export] Instance well_formed_response_dec r : Decision (well_formed_response r).
Proof. unfold well_formed_response, clean_value. apply _. Defined.

(** Reading header lines the way the request parser does. *)
Definition read_headers (ls : list bytes) : gmap bytes bytes :=
  headers_ (fold_left (λ q l, addHeader l (find_char ":"%char l) q) ls new_request).

Definition connection_value (close : bool) : bytes :=
  if close then lit "close" else lit "Keep-Alive".

(** ** Lemmas *)

Section append.
Context {B : Type} `{MuduoBufferLaws B}.

Lemma readable_append_headers (l : list (bytes * bytes)) (b : B) :
  readable (fold_left (λ out e, append crlf (append e.2 (append (lit ": ") (append e.1 out)))) l b)
    = readable b ++ concat (map header_line l).
Proof.
  revert b. induction l as [|e l IH]; intros b; simpl; [by rewrite app_nil_r|].
  rewrite IH, !readable_append. unfold header_line. by rewrite <- !app_assoc.
Qed.

Lemma appendToBuffer_eq r (b : B) : readable (appendToBuffer r b) = readable b ++ response_bytes r.
Proof.
  unfold appendToBuffer, response_bytes.
  rewrite !readable_append, readable_append_headers, !readable_append.
  by rewrite <- !app_assoc.
Qed.

End append.

(** One line, then the rest. *)
Lemma read_head_line fuel l s :
  l ≠ [] -> CR ∉ l ->
  read_head (S fuel) (l ++ crlf ++ s) =
    match read_head fuel s with
    | Some (ls, rest) => Some (l :: ls, rest)
    | None => None
    end.
Proof.
  intros Hl Hcr. cbn [read_head]. rewrite find_crlf_line by done.
  destruct l as [|c l']; [done|]. cbn [length].
  replace (drop (S (length l') + 2) _) with s
    by (change (S (length l')) with (length (c :: l')); by rewrite <- drop_drop, drop_app_length).
  change (S (length l')) with (length (c :: l')). by rewrite take_app_length.
Qed.

Lemma read_head_lines fuel (ls : list bytes) body :
  Forall (λ l, l ≠ [] ∧ (CR ∉ l)) ls -> length ls < fuel ->
  read_head fuel (concat (map (λ l, l ++ crlf) ls) ++ crlf ++ body) = Some (ls, body).
Proof.
  intros Hls. revert fuel. induction Hls as [|l ls [Hl Hcr] _ IH]; intros fuel Hf; simpl.
  - destruct fuel as [|fuel]; [lia|]. done.
  - destruct fuel as [|fuel]; [simpl in Hf; lia|]. rewrite <- !app_assoc.
    rewrite read_head_line by done. rewrite IH; [done|]. simpl in Hf. lia.
Qed.

Lemma c_str_id s : ascii_of_nat 0 ∉ s -> c_str s = s.
Proof. intros ?. unfold c_str. rewrite find_char_none by done. by rewrite firstn_all. Qed.

Lemma c_str_sub c s : c ∈ c_str s -> c ∈ s.
Proof. unfold c_str. intros (i & Hi & _)%elem_of_take. by eapply list_elem_of_lookup_2. Qed.

(** The header lines of a well-formed response read back to its headers. *)
Lemma addHeader_line k v r :
  ":"%char ∉ k -> clean_value v ->
  addHeader (k ++ lit ": " ++ v) (find_char ":"%char (k ++ lit ": " ++ v)) r
    = set_headers_ (<[k := v]> r.(headers_)) r.
Proof.
  intros Hk Hv. change (k ++ lit ": " ++ v) with (k ++ ":"%char :: " "%char :: v).
  rewrite find_char_hit by done. unfold addHeader. rewrite take_app_length.
  replace (drop (S (length k)) _) with (" "%char :: v)
    by (by rewrite (cons_middle ":"%char), app_assoc, drop_app_length' by (rewrite length_app; simpl; lia)).
  change (skip_spaces (" "%char :: v)) with (skip_spaces v). by rewrite Hv.
Qed.

Lemma read_headers_lines (l : list (bytes * bytes)) (r : HttpRequest) :
  Forall (λ e, (":"%char ∉ e.1) ∧ clean_value e.2) l ->
  headers_ (fold_left (λ q l, addHeader l (find_char ":"%char l) q)
    (map (λ e, e.1 ++ lit ": " ++ e.2) l) r)
  = fold_left (λ m e, <[e.1 := e.2]> m) l r.(headers_).
Proof.
  intros Hl. revert r. induction Hl as [|[k v] l [Hk Hv] _ IH]; intros r; [done|].
  cbn [map fold_left fst snd] in *. by rewrite addHeader_line, IH by done.
Qed.

(** Inserting the entries of a map, in any order, rebuilds the map. *)
Lemma fold_insert_items (l : list (bytes * bytes)) (m0 : gmap bytes bytes) :
  NoDup l.*1 ->
  fold_left (λ m e, <[e.1 := e.2]> m) l m0 = list_to_map l ∪ m0.
Proof.
  revert m0. induction l as [|[k v] l IH]; intros m0 Hnd; cbn [fold_left fst snd].
  - simpl. by rewrite (left_id_L ∅ (∪)).
  - apply NoDup_cons in Hnd as [Hk Hnd]. rewrite IH by done. cbn [list_to_map].
    apply map_eq. intros i. rewrite !lookup_union. simpl.
    destruct (decide (i = k)) as [->|Hne].
    + rewrite !lookup_insert_eq, not_elem_of_list_to_map_1 by done.
      by destruct (m0 !! k).
    + by rewrite !lookup_insert_ne.
Qed.

Lemma map_items_to_map {A} (m : gmap bytes A) : list_to_map (map_items m) = m.
Proof.
  rewrite <- (list_to_map_to_list m) at 2. apply list_to_map_proper;
    [apply map_items_NoDup|apply map_items_perm].
Qed.

Lemma status_text c : to_string (status_value c) =
  match c with
  | kUnknow => lit "0"
  | k200Ok => lit "200"
  | k204NoContent => lit "204"
  | k301MovedPermanently => lit "301"
  | k400BadRequest => lit "400"
  | k401Unauthorized => lit "401"
  | k403Forbidden => lit "403"
  | k404NotFound => lit "404"
  | k409Conflict => lit "409"
  | k500InternalServerError => lit "500"
  end.
Proof. destruct c; by vm_compute. Qed.

Lemma status_text_no_CR c : CR ∉ to_string (status_value c).
Proof. rewrite status_text. by destruct c; apply (bool_decide_unpack _); vm_compute. Qed.

Lemma status_buf_no_CR r : CR ∉ r.(httpVersion_) -> CR ∉ status_buf r.
Proof.
  intros Hv Hin. unfold status_buf in Hin.
  apply elem_of_take in Hin as (i & Hi & _). apply list_elem_of_lookup_2 in Hi.
  apply elem_of_app in Hi as [Hi|Hi]; [by apply Hv, c_str_sub|].
  apply elem_of_cons in Hi as [?|Hi]; [done|]. by apply status_text_no_CR in Hi.
Qed.

Lemma status_buf_ne r : status_buf r ≠ [].
Proof. unfold status_buf. by destruct (c_str _). Qed.

Lemma header_lines_crlf (l : list (bytes * bytes)) :
  concat (map header_line l) =
  concat (map (λ l, l ++ crlf) (map (λ e, e.1 ++ lit ": " ++ e.2) l)).
Proof.
  rewrite map_map. f_equal. apply map_ext. intros e. unfold header_line.
  by rewrite <- !app_assoc.
Qed.

Lemma length_lines (ls : list bytes) : length ls ≤ length (concat (map (λ l, l ++ crlf) ls)).
Proof. induction ls as [|l ls IH]; simpl; [lia|]. rewrite !length_app. simpl. lia. Qed.

(** The lines of the head, in order. *)
Definition response_lines (r : HttpResponse) : list bytes :=
  (status_buf r ++ r.(statusMessage_)) ::
  (lit "Connection: " ++ connection_value r.(closeConnection_)) ::
  map (λ e, e.1 ++ lit ": " ++ e.2) (map_items r.(resp_headers_)).

Lemma response_bytes_lines r :
  response_bytes r = concat (map (λ l, l ++ crlf) (response_lines r)) ++ crlf ++ r.(body_).
Proof.
  unfold response_bytes, response_lines. cbn [map concat].
  rewrite header_lines_crlf, <- !app_assoc. do 3 f_equal.
  unfold connection_line, connection_value. by destruct (closeConnection_ r).
Qed.

Lemma response_lines_clean r :
  well_formed_response r -> Forall (λ l, l ≠ [] ∧ (CR ∉ l)) (response_lines r).
Proof.
  intros (Hv & Hm & Hh). unfold response_lines.
  repeat apply Forall_cons_2.
  - split; [pose proof (status_buf_ne r); by destruct (status_buf r)|].
    rewrite elem_of_app. intros [?|?]; [by eapply status_buf_no_CR|done].
  - split; [done|]. by destruct (closeConnection_ r); apply (bool_decide_unpack _); vm_compute.
  - apply Forall_map, Forall_forall. intros [k v] Hin%elem_of_map_items.
    destruct (Hh k v Hin) as (_ & Hk & Hvv & _). cbn [fst snd]. split; [by destruct k|].
    rewrite !elem_of_app. intros [?|[Hc|?]]; [done| |done].
    by revert Hc; apply (bool_decide_unpack _); vm_compute.
Qed.

Lemma read_response_lines r :
  well_formed_response r ->
  read_head (S (length (response_bytes r))) (response_bytes r)
    = Some (response_lines r, r.(body_)).
Proof.
  intros Hwf. rewrite response_bytes_lines at 2. apply read_head_lines.
  - by apply response_lines_clean.
  - rewrite response_bytes_lines, length_app. pose proof (length_lines (response_lines r)). lia.
Qed.

Lemma read_headers_response r :
  well_formed_response r ->
  read_headers (tail (response_lines r)) =
    r.(resp_headers_) ∪ {[ lit "Connection" := connection_value r.(closeConnection_) ]}.
Proof.
  intros (_ & _ & Hh). unfold read_headers, response_lines. cbn [tail].
  change (lit "Connection: " ++ ?v) with (lit "Connection" ++ lit ": " ++ v).
  cbn [fold_left]. rewrite addHeader_line.
  - rewrite read_headers_lines.
    + cbn [headers_ set_headers_ new_request].
      by rewrite fold_insert_items, map_items_to_map, insert_empty by apply map_items_NoDup.
    + apply Forall_forall. intros [k v] Hin%elem_of_map_items. by destruct (Hh k v Hin) as (? & _ & _ & ?).
  - by apply (bool_decide_unpack _); vm_compute.
  - by destruct (closeConnection_ r); vm_compute.
Qed.

(** C19. A client that reads the text [appendToBuffer] appends gets back the
    response: for header fields without CR, the head splits into exactly the
    status line, the connection line and one line per header, those lines parse
    to the headers that were set (a [Connection] header set by a handler wins
    over the generated one), and what follows the empty line is the body. The
    status line is the version, a space, the code and then the message with no
    space between, as long as version and code fit the 32 character buffer. *)
Theorem response_roundtrip {B : Type} `{MuduoBufferLaws B} (r : HttpResponse) (output : B) :
  well_formed_response r ->
  ∃ text, readable (appendToBuffer r output) = readable output ++ text ∧
    read_head (S (length text)) text = Some (response_lines r, r.(body_)) ∧
    read_headers (tail (response_lines r)) =
      r.(resp_headers_) ∪ {[ lit "Connection" := connection_value r.(closeConnection_) ]} ∧
    (ascii_of_nat 0 ∉ r.(httpVersion_) -> length r.(httpVersion_) ≤ 27 ->
      head (response_lines r) =
        Some (r.(httpVersion_) ++ " "%char :: to_string (status_value r.(statusCode_))
              ++ r.(statusMessage_))).
Proof.
  intros Hwf. exists (response_bytes r).
  split_and!; [apply appendToBuffer_eq|by apply read_response_lines|by apply read_headers_response|].
  intros Hnul Hlen. unfold response_lines, status_buf. cbn [head]. f_equal.
  rewrite c_str_id by done. rewrite take_ge; [by rewrite <- app_assoc|].
  rewrite length_app, status_text. destruct (statusCode_ r); simpl; lia.
Qed.

Definition sample_response : HttpResponse :=
  Response.setBody (lit "{}")
    (Response.setContentLength 2 (Response.setContentType (lit "application/json")
      (Response.setStatusLine k200Ok (lit "OK") (lit "HTTP/1.1") (new_response false)))).

Lemma response_roundtrip_witness :
  well_formed_response sample_response ∧
  head (response_lines sample_response) = Some (lit "HTTP/1.1 200OK") ∧
  ∃ text, readable (appendToBuffer sample_response []) = text ∧
    read_head (S (length text)) text = Some (response_lines sample_response, lit "{}").
Proof.
  assert (well_formed_response sample_response) as Hwf
    by (apply (bool_decide_unpack _); by vm_compute).
  split; [exact Hwf|].
  destruct (response_roundtrip (B := bytes) sample_response [] Hwf) as (text & Ht1 & Ht2 & _ & Ht4).
  split.
  - rewrite Ht4; [by vm_compute|by apply (bool_decide_unpack _); vm_compute|apply (bool_decide_unpack _); by vm_compute].
  - exists text. split; [exact Ht1|exact Ht2].
Defined.
