(* ===== verification/Router.v ===== *)
(** * [http::router::Router]

    [HTTP/include/router/Router.h] and [HTTP/src/router/Router.cpp]: the two
    static tables, the two lists of dynamic routes, and [route]. Handlers and
    callbacks are programs over the application's state [W] and the response
    they fill; the pointers registered are not null. *)

From S2P Require Export HttpResponse.

(** What a handler or a middleware may throw: a response (the preflight
    answer of the CORS middleware) or a standard exception. *)
Inductive thrown :=
| ThrownResponse (r : HttpResponse)
| ThrownStd (e : std_exception).

(** A void callback on a request and the response it fills. *)
Abbreviation handler W := (HttpRequest -> prog thrown (W * HttpResponse) unit).

#[export] Instance Method_countable : Countable Method.
Proof.
  refine (inj_countable'
    (λ m, match m with kInvalid => 0 | kGet => 1 | kPost => 2 | kDelete => 3
                  | kPut => 4 | kHead => 5 | kOptions => 6 end)
    (λ n, match n with 0 => kInvalid | 1 => kGet | 2 => kPost | 3 => kDelete
                  | 4 => kPut | 5 => kHead | _ => kOptions end) _).
  by intros [].
Defined.

(** ** The regular expressions of dynamic routes

    [std::regex] is modelled on the patterns [convertToRegex] makes of plain
    paths: literal characters and the group "([^/]+)". *)
Inductive re_item :=
| RChar (c : ascii)
| RSegment.

Abbreviation pattern := (list re_item).

#[export] Instance re_item_eq_dec : EqDecision re_item.
Proof. solve_decision. Defined.

Definition segment_text : bytes := lit "([^/]+)".

(** The characters with a meaning of their own in an ECMAScript pattern. *)
Definition is_meta (c : ascii) : bool := bool_decide (c ∈ lit "^$\.*+?()[]{}|").

(** [std::regex_replace(path, std::regex("/:([^/]+)"), "/([^/]+)")]: scanning
    from the left, "/:" and the run of characters other than "/" after it
    become "/([^/]+)". [skip] is set while the scan is inside a match. *)
Fixpoint replace_params (skip : bool) (path : bytes) : bytes :=
  match path with
  | [] => []
  | c :: path' =>
      if skip && negb (Ascii.eqb c "/"%char) then replace_params true path'
      else match Ascii.eqb c "/"%char, path' with
           | true, ":"%char :: d :: _ =>
               if Ascii.eqb d "/"%char then c :: replace_params false path'
               else c :: segment_text ++ replace_params true path'
           | _, _ => c :: replace_params false path'
           end
  end.

(** [std::regex(text)] on the patterns of the model, [None] outside them. *)
Fixpoint compile_items (fuel : nat) (text : bytes) : option pattern :=
  match fuel with
  | 0 => None
  | S fuel =>
      match text with
      | [] => Some []
      | c :: text' =>
          if starts_with segment_text text then
            (cons RSegment) <$> compile_items fuel (drop 7 text)
          else if is_meta c then None
          else (cons (RChar c)) <$> compile_items fuel text'
      end
  end.

(** A leading "^" holds at the start, where [regex_match] always begins. *)
Definition compile (text : bytes) : option pattern :=
  match text with
  | "^"%char :: text' => compile_items (S (length text')) text'
  | _ => compile_items (S (length text)) text
  end.

Definition convertToRegex (path : bytes) : option pattern :=
  compile (lit "^" ++ replace_params false path).

(** Length of the run of characters other than "/" at the front. *)
Definition segment_run (s : bytes) : nat := find_char "/"%char s.

Fixpoint first_some {A B} (f : A -> option B) (l : list A) : option B :=
  match l with
  | [] => None
  | x :: l' => match f x with Some y => Some y | None => first_some f l' end
  end.

(** [std::regex_match(s, match, p)]: the whole of [s] must match; the groups
    are tried from the longest, and the result is [match[1], match[2], ...]. *)
Fixpoint regex_match (p : pattern) (s : bytes) : option (list bytes) :=
  match p with
  | [] => match s with [] => Some [] | _ => None end
  | RChar c :: p' =>
      match s with
      | d :: s' => if Ascii.eqb c d then regex_match p' s' else None
      | [] => None
      end
  | RSegment :: p' =>
      first_some (λ n, (cons (take n s)) <$> regex_match p' (drop n s))
        (reverse (seq 1 (segment_run s)))
  end.

(** [extractPathParameters]: "param1", "param2", ... *)
Definition extractPathParameters (groups : list bytes) (req : HttpRequest) : HttpRequest :=
  (fold_left (λ '(i, r) g,
     (S i, setPathParameters (lit "param" ++ to_string (Z.of_nat i)) g r)) groups (1, req)).2.

(** ** The router *)
Section router.
Context {W : Type}.

Record Route := mkRoute {
  route_method : Method;
  pathRegex_ : pattern;
  route_handler : handler W
}.

Record Router := mkRouter {
  handlers_ : gmap (Method * bytes) (handler W);
  callbacks_ : gmap (Method * bytes) (handler W);
  regexHandlers_ : list Route;
  regexCallbacks_ : list Route
}.

Definition new_router : Router := mkRouter ∅ ∅ [] [].

Definition registerHandler (m : Method) (path : bytes) (h : handler W) (rt : Router) : Router :=
  mkRouter (<[(m, path) := h]> rt.(handlers_)) rt.(callbacks_) rt.(regexHandlers_) rt.(regexCallbacks_).
Definition registerCallBack (m : Method) (path : bytes) (h : handler W) (rt : Router) : Router :=
  mkRouter rt.(handlers_) (<[(m, path) := h]> rt.(callbacks_)) rt.(regexHandlers_) rt.(regexCallbacks_).

(** [None] when the path is outside the modelled patterns. *)
Definition addRegexHandler (m : Method) (path : bytes) (h : handler W) (rt : Router) : option Router :=
  p ← convertToRegex path;
  Some (mkRouter rt.(handlers_) rt.(callbacks_) (rt.(regexHandlers_) ++ [mkRoute m p h])
          rt.(regexCallbacks_)).
Definition addRegexCallback (m : Method) (path : bytes) (h : handler W) (rt : Router) : option Router :=
  p ← convertToRegex path;
  Some (mkRouter rt.(handlers_) rt.(callbacks_) rt.(regexHandlers_)
          (rt.(regexCallbacks_) ++ [mkRoute m p h])).

(** The body of the two loops of [route]. *)
Fixpoint route_regex (routes : list Route) (req : HttpRequest)
  : option (prog thrown (W * HttpResponse) unit) :=
  match routes with
  | [] => None
  | rt :: routes' =>
      if decide (rt.(route_method) = req.(method_)) then
        match regex_match rt.(pathRegex_) req.(path_) with
        | Some groups => Some (rt.(route_handler) (extractPathParameters groups req))
        | None => route_regex routes' req
        end
      else route_regex routes' req
  end.

Definition route (rt : Router) (req : HttpRequest) : prog thrown (W * HttpResponse) bool :=
  let key := (req.(method_), req.(path_)) in
  match rt.(handlers_) !! key with
  | Some h => h req;; mret true
  | None =>
  match rt.(callbacks_) !! key with
  | Some h => h req;; mret true
  | None =>
  match route_regex rt.(regexHandlers_) req with
  | Some run => run;; mret true
  | None =>
  match route_regex rt.(regexCallbacks_) req with
  | Some run => run;; mret true
  | None => mret false
  end end end end.

(** ** Specification: the history of registrations *)

Inductive registration :=
| StaticHandler (m : Method) (path : bytes) (h : handler W)
| StaticCallback (m : Method) (path : bytes) (h : handler W)
| DynamicHandler (m : Method) (path : bytes) (h : handler W)
| DynamicCallback (m : Method) (path : bytes) (h : handler W).

Definition register (rt : Router) (g : registration) : option Router :=
  match g with
  | StaticHandler m p h => Some (registerHandler m p h rt)
  | StaticCallback m p h => Some (registerCallBack m p h rt)
  | DynamicHandler m p h => addRegexHandler m p h rt
  | DynamicCallback m p h => addRegexCallback m p h rt
  end.

Fixpoint register_all (rt : Router) (gs : list registration) : option Router :=
  match gs with
  | [] => Some rt
  | g :: gs' => rt' ← register rt g; register_all rt' gs'
  end.

(** A path "/a/:x/b" by its segments: a segment ":x" is a parameter, and takes
    any non-empty segment; any other must be equal. The segment before the
    first "/" is never a parameter. *)
Fixpoint match_segments (pats segs : list bytes) : option (list bytes) :=
  match pats, segs with
  | [], [] => Some []
  | pat :: pats', seg :: segs' =>
      match pat with
      | ":"%char :: _ :: _ =>
          match seg with
          | [] => None
          | _ => (cons seg) <$> match_segments pats' segs'
          end
      | _ => if decide (pat = seg) then match_segments pats' segs' else None
      end
  | _, _ => None
  end.

Definition match_path (pat path : bytes) : option (list bytes) :=
  match split_on "/"%char pat, split_on "/"%char path with
  | p0 :: pats, s0 :: segs => if decide (p0 = s0) then match_segments pats segs else None
  | _, _ => None
  end.

(** Paths whose segments, the parameters apart, have no metacharacter. *)
Definition plain_segment (pat : bytes) : bool :=
  match pat with ":"%char :: _ :: _ => true | _ => forallb (λ c, negb (is_meta c)) pat end.
Definition plain_path (pat : bytes) : bool :=
  match split_on "/"%char pat with
  | p0 :: pats => forallb (λ c, negb (is_meta c)) p0 && forallb plain_segment pats
  | [] => false
  end.

Definition static_handler (key : Method * bytes) (g : registration) : option (handler W) :=
  match g with StaticHandler m p h => if decide ((m, p) = key) then Some h else None | _ => None end.
Definition static_callback (key : Method * bytes) (g : registration) : option (handler W) :=
  match g with StaticCallback m p h => if decide ((m, p) = key) then Some h else None | _ => None end.

Definition dynamic_hit (req : HttpRequest) (m : Method) (pat : bytes) (h : handler W)
  : option (prog thrown (W * HttpResponse) unit) :=
  if decide (m = req.(method_)) then
    (λ groups, h (extractPathParameters groups req)) <$> match_path pat req.(path_)
  else None.
Definition dynamic_handler (req : HttpRequest) (g : registration) :=
  match g with DynamicHandler m p h => dynamic_hit req m p h | _ => None end.
Definition dynamic_callback (req : HttpRequest) (g : registration) :=
  match g with DynamicCallback m p h => dynamic_hit req m p h | _ => None end.

Definition plain_registration (g : registration) : bool :=
  match g with
  | StaticHandler _ _ _ | StaticCallback _ _ _ => true
  | DynamicHandler _ p _ | DynamicCallback _ p _ => plain_path p
  end.

(** What the history says the request runs: the last static handler of its key,
    else the last static callback, else the first dynamic handler whose
    segments match, else the first such callback. *)
Definition route_spec (gs : list registration) (req : HttpRequest)
  : option (prog thrown (W * HttpResponse) unit) :=
  let key := (req.(method_), req.(path_)) in
  match first_some (static_handler key) (reverse gs) with
  | Some h => Some (h req)
  | None =>
  match first_some (static_callback key) (reverse gs) with
  | Some h => Some (h req)
  | None =>
  match first_some (dynamic_handler req) gs with
  | Some run => Some run
  | None => first_some (dynamic_callback req) gs
  end end end.

End router.

Arguments Route : clear implicits.
Arguments Router : clear implicits.
Arguments registration : clear implicits.

(** ** Dynamic routes: the regular expression matches by segments *)

(** The text and the items of a segment. *)
Definition segment_pattern (pat : bytes) : bytes :=
  match pat with ":"%char :: _ :: _ => segment_text | _ => pat end.
Definition segment_items (pat : bytes) : pattern :=
  match pat with ":"%char :: _ :: _ => [RSegment] | _ => map RChar pat end.

Definition tail_text (pats : list bytes) : bytes :=
  concat (map (λ p, "/"%char :: segment_pattern p) pats).
Definition tail_items (pats : list bytes) : pattern :=
  concat (map (λ p, RChar "/"%char :: segment_items p) pats).

Lemma split_on_cases c s :
  ∃ seg, (c ∉ seg) ∧ (s = seg ∧ split_on c s = [seg] ∨
    ∃ s', s = seg ++ c :: s' ∧ split_on c s = seg :: split_on c s').
Proof.
  destruct (decide (c ∈ s)) as [Hin|Hout].
  - apply list_elem_of_split_l in Hin as (s1 & s2 & -> & Hs1). exists s1. split; [done|].
    right. exists s2. by rewrite split_on_hit.
  - exists s. split; [done|]. left. by rewrite split_on_none.
Qed.

(** The segment after a "/" decides what the scan writes there. *)
Lemma segment_after_slash path p pats :
  split_on "/"%char path = p :: pats ->
  replace_params false ("/"%char :: path) =
    match p with
    | ":"%char :: _ :: _ => "/"%char :: segment_text ++ replace_params true path
    | _ => "/"%char :: replace_params false path
    end.
Proof.
  destruct path as [|a [|b t]]; intros Hs.
  - cbn in Hs. by simplify_eq.
  - cbn [split_on] in Hs. destruct (ascii_eqb_spec "/"%char a) as [<-|Ha]; simplify_eq; [done|].
    cbn. by repeat case_match.
  - cbn [split_on] in Hs. destruct (split_on "/"%char t) as [|q qs] eqn:Ht;
      [by apply split_on_ne in Ht|].
    destruct (ascii_eqb_spec "/"%char a) as [<-|Ha]; simplify_eq; [done|].
    destruct (ascii_eqb_spec "/"%char b) as [<-|Hb]; simplify_eq.
    + cbn. by repeat case_match.
    + assert (Ascii.eqb b "/"%char = false) as Hb' by by destruct (ascii_eqb_spec b "/"%char).
      cbn -[Ascii.eqb segment_text]. rewrite Hb'. by repeat case_match.
Qed.

Lemma replace_params_text path :
  replace_params false path =
    default [] (head (split_on "/"%char path)) ++ tail_text (tail (split_on "/"%char path)) ∧
  replace_params true path = tail_text (tail (split_on "/"%char path)).
Proof.
  induction path as [|c path [IHf IHt]]; [done|].
  destruct (split_on "/"%char path) as [|p pats] eqn:Hs; [by apply split_on_ne in Hs|].
  cbn [split_on]. rewrite Hs. cbn [head tail default] in *.
  destruct (ascii_eqb_spec "/"%char c) as [<-|Hne]; cbn [head tail default].
  - assert (replace_params true ("/"%char :: path) = replace_params false ("/"%char :: path))
      as -> by done.
    rewrite (segment_after_slash path p pats) by done. rewrite IHf, IHt.
    change (tail_text (p :: pats)) with (("/"%char :: segment_pattern p) ++ tail_text pats).
    split; unfold segment_pattern; repeat case_match; by simplify_eq.
  - assert (Ascii.eqb c "/"%char = false) as Hc by by destruct (ascii_eqb_spec c "/"%char).
    cbn [replace_params]. rewrite Hc. cbn [andb negb]. by rewrite IHf, IHt.
Qed.

Lemma convertToRegex_text path p pats :
  split_on "/"%char path = p :: pats ->
  convertToRegex path =
    compile_items (S (length (p ++ tail_text pats))) (p ++ tail_text pats).
Proof.
  intros Hs. unfold convertToRegex, compile.
  destruct (replace_params_text path) as [Ht _]. rewrite Hs in Ht. cbn [head tail default] in Ht.
  by rewrite Ht.
Qed.

(** *** Compiling *)

Lemma compile_items_mono f f' t p :
  compile_items f t = Some p -> f ≤ f' -> compile_items f' t = Some p.
Proof.
  revert f' t p. induction f as [|f IH]; intros f' t p Hc Hle; [done|].
  destruct f' as [|f']; [lia|]. cbn [compile_items] in *.
  destruct t as [|c t]; [done|]. destruct (starts_with segment_text (c :: t)).
  - apply fmap_Some in Hc as (q & Hq & ->). by rewrite (IH f' _ q) by (done || lia).
  - destruct (is_meta c); [done|]. apply fmap_Some in Hc as (q & Hq & ->).
    by rewrite (IH f' _ q) by (done || lia).
Qed.

Lemma starts_with_segment_plain c t : is_meta c = false -> starts_with segment_text (c :: t) = false.
Proof.
  intros Hc. destruct (starts_with segment_text (c :: t)) eqn:Hs; [|done].
  apply starts_with_spec in Hs as [r Hr]. change segment_text with ("("%char :: drop 1 segment_text) in Hr.
  cbn [app] in Hr. injection Hr as -> _. by vm_compute in Hc.
Qed.

Lemma compile_items_char f c t :
  is_meta c = false -> compile_items (S f) (c :: t) = cons (RChar c) <$> compile_items f t.
Proof. intros Hc. cbn [compile_items]. by rewrite starts_with_segment_plain, Hc. Qed.

Lemma compile_plain l f t p :
  forallb (λ c, negb (is_meta c)) l = true -> compile_items f t = Some p ->
  compile_items (length l + f) (l ++ t) = Some (map RChar l ++ p).
Proof.
  induction l as [|c l IH]; [done|]. intros [Hc Hl]%andb_true_iff Ht.
  apply negb_true_iff in Hc. cbn [length Nat.add app map].
  by rewrite compile_items_char, IH.
Qed.

Lemma compile_segment f f' t p :
  compile_items f t = Some p -> f ≤ f' ->
  compile_items (S f') (segment_text ++ t) = Some (RSegment :: p).
Proof.
  intros Ht Hf. change (segment_text ++ t) with ("("%char :: drop 1 segment_text ++ t).
  cbn [compile_items].
  assert (starts_with segment_text ("("%char :: drop 1 segment_text ++ t) = true) as ->
    by (apply starts_with_spec; by exists t).
  apply fmap_Some. exists p. split; [|done]. by eapply compile_items_mono.
Qed.

Lemma plain_segment_cases pat :
  plain_segment pat = true ->
  segment_pattern pat = segment_text ∧ segment_items pat = [RSegment] ∨
  segment_pattern pat = pat ∧ segment_items pat = map RChar pat ∧
    forallb (λ c, negb (is_meta c)) pat = true.
Proof.
  unfold plain_segment, segment_pattern, segment_items. intros Hp.
  repeat case_match; simplify_eq; auto.
Qed.

Lemma compile_tail pats :
  forallb plain_segment pats = true ->
  compile_items (S (length (tail_text pats))) (tail_text pats) = Some (tail_items pats).
Proof.
  induction pats as [|pat pats IH]; [done|]. intros [Hp Hps]%andb_true_iff. specialize (IH Hps).
  change (tail_text (pat :: pats)) with ("/"%char :: (segment_pattern pat ++ tail_text pats)).
  change (tail_items (pat :: pats)) with (RChar "/"%char :: (segment_items pat ++ tail_items pats)).
  cbn [length]. rewrite compile_items_char by done.
  apply fmap_Some. exists (segment_items pat ++ tail_items pats). split; [|done].
  rewrite length_app.
  destruct (plain_segment_cases pat Hp) as [[-> ->]|(-> & -> & Hplain)].
  - change (length segment_text) with 7.
    eapply compile_segment; [exact IH|lia].
  - eapply compile_items_mono; [by apply compile_plain|lia].
Qed.

Lemma convertToRegex_plain path p pats :
  split_on "/"%char path = p :: pats -> plain_path path = true ->
  convertToRegex path = Some (map RChar p ++ tail_items pats).
Proof.
  intros Hs Hp. rewrite (convertToRegex_text _ p pats) by done.
  unfold plain_path in Hp. rewrite Hs in Hp. apply andb_true_iff in Hp as [Hp Hps].
  rewrite length_app, <- Nat.add_succ_r. apply compile_plain; [done|]. by apply compile_tail.
Qed.

(** *** Matching *)

Lemma tail_items_no_slash pats c s : "/"%char ≠ c -> regex_match (tail_items pats) (c :: s) = None.
Proof. 
  intros Hc. destruct pats as [|p pats]; [done|].
  change (tail_items (p :: pats)) with (RChar "/"%char :: (segment_items p ++ tail_items pats)).
  cbn [regex_match]. by destruct (ascii_eqb_spec "/"%char c).
Qed.

(** [rest] is empty or starts with "/". *)
Definition at_boundary (rest : bytes) : Prop := rest = [] ∨ ∃ s, rest = "/"%char :: s.

Lemma regex_match_literal pat pats seg rest :
  ("/"%char ∉ pat) -> ("/"%char ∉ seg) -> at_boundary rest ->
  regex_match (map RChar pat ++ tail_items pats) (seg ++ rest) =
    if decide (pat = seg) then regex_match (tail_items pats) rest else None.
Proof.
  intros Hpat Hseg Hrest. revert seg Hseg. induction pat as [|c pat IH]; intros [|d seg] Hseg.
  - by rewrite decide_True.
  - rewrite decide_False by done. apply tail_items_no_slash.
    rewrite not_elem_of_cons in Hseg. by destruct Hseg.
  - rewrite decide_False by done. rewrite not_elem_of_cons in Hpat. destruct Hpat as [Hc _].
    destruct Hrest as [->|[s ->]]; cbn [map app regex_match]; [done|].
    by destruct (ascii_eqb_spec c "/"%char) as [->|].
  - rewrite not_elem_of_cons in Hpat, Hseg. destruct Hpat as [_ Hpat], Hseg as [_ Hseg].
    cbn [map app regex_match]. destruct (ascii_eqb_spec c d) as [->|Hcd].
    + rewrite (IH Hpat seg Hseg). by destruct (decide (pat = seg)), (decide (d :: pat = d :: seg)); simplify_eq.
    + by destruct (decide (c :: pat = d :: seg)); simplify_eq.
Qed.

Lemma first_some_none {A B} (f : A -> option B) l :
  (∀ x, x ∈ l -> f x = None) -> first_some f l = None.
Proof.
  induction l as [|x l IH]; intros Hf; [done|]. cbn.
  rewrite (Hf x) by apply list_elem_of_here. apply IH. intros y Hy. by apply Hf, list_elem_of_further.
Qed.

Lemma regex_match_segment pats seg rest :
  ("/"%char ∉ seg) -> at_boundary rest ->
  regex_match (RSegment :: tail_items pats) (seg ++ rest) =
    match seg with
    | [] => None
    | _ => cons seg <$> regex_match (tail_items pats) rest
    end.
Proof.
  intros Hseg Hrest. cbn [regex_match].
  assert (segment_run (seg ++ rest) = length seg) as ->.
  { unfold segment_run. destruct Hrest as [->|[s ->]]; [|by apply find_char_hit].
    rewrite app_nil_r. by apply find_char_none. }
  destruct (decide (seg = [])) as [->|Hne]; [done|].
  assert (∃ n, length seg = S n) as [n Hn] by (destruct seg; [done|by eexists]).
  rewrite Hn, seq_S, reverse_app. cbn [reverse app rev_append].
  change (reverse [1 + n]) with [S n]. cbn [app first_some].
  change (1 + n) with (S n). rewrite <- Hn, take_app_length, drop_app_length.
  destruct (regex_match (tail_items pats) rest) as [gs|] eqn:Hm.
  - cbn. by destruct seg.
  - cbn [fmap option_fmap option_map]. rewrite first_some_none; [by destruct seg|].
    intros k Hk%elem_of_reverse%elem_of_seq.
    destruct (seg !! k) as [c|] eqn:Hc; [|apply lookup_ge_None in Hc; lia].
    rewrite drop_app_le, (drop_S seg c) by (done || lia). cbn [app].
    rewrite tail_items_no_slash; [done|].
    intros <-. by apply Hseg; eapply list_elem_of_lookup_2.
Qed.

Lemma regex_match_tail pats rest :
  Forall (λ p, "/"%char ∉ p) pats -> at_boundary rest ->
  regex_match (tail_items pats) rest = match_segments pats (tail (split_on "/"%char rest)).
Proof.
  intros Hpats. revert rest. induction Hpats as [|pat pats Hpat Hpats IH]; intros rest Hrest.
  - destruct Hrest as [->|[s ->]]; [done|]. cbn.
    destruct (split_on "/"%char s) eqn:Hs; [by apply split_on_ne in Hs|done].
  - change (tail_items (pat :: pats)) with (RChar "/"%char :: (segment_items pat ++ tail_items pats)).
    destruct Hrest as [->|[s ->]]; [done|].
    change (split_on "/"%char ("/"%char :: s)) with ([] :: split_on "/"%char s).
    cbn [tail regex_match]. change (Ascii.eqb "/"%char "/"%char) with true. cbn match.
    destruct (split_on_cases "/"%char s) as (seg & Hseg & Hcase).
    assert (∃ rest, at_boundary rest ∧ s = seg ++ rest ∧
      split_on "/"%char s = seg :: tail (split_on "/"%char rest)) as (rest & Hb & Hs & Hsp).
    { destruct Hcase as [[-> Hsp]|(s' & -> & Hsp)].
      - exists []. split_and!; [by left|by rewrite app_nil_r|done].
      - exists ("/"%char :: s'). split_and!; [by right; eexists|done|done]. }
    rewrite Hsp, Hs. cbn [match_segments]. rewrite <- (IH rest Hb).
    assert (match pat with ":"%char :: _ :: _ =>
        regex_match (RSegment :: tail_items pats) (seg ++ rest) =
          match seg with [] => None | _ => cons seg <$> regex_match (tail_items pats) rest end
      | _ => regex_match (map RChar pat ++ tail_items pats) (seg ++ rest) =
          if decide (pat = seg) then regex_match (tail_items pats) rest else None
      end) as Hmain.
    { pose proof (regex_match_literal pat pats seg rest Hpat Hseg Hb).
      pose proof (regex_match_segment pats seg rest Hseg Hb). by repeat case_match. }
    unfold segment_items. by repeat case_match; simplify_eq.
Qed.

(** The compiled expression matches exactly the paths with matching segments,
    and its groups are the segments in the parameters' places. *)
Lemma regex_match_path pat path :
  plain_path pat = true ->
  ∃ p, convertToRegex pat = Some p ∧ regex_match p path = match_path pat path.
Proof.
  intros Hp. destruct (split_on "/"%char pat) as [|p0 pats] eqn:Hs; [by apply split_on_ne in Hs|].
  exists (map RChar p0 ++ tail_items pats). split; [by apply convertToRegex_plain|].
  unfold match_path. rewrite Hs.
  assert (Forall (λ p, "/"%char ∉ p) (p0 :: pats)) as [Hp0 Hpats]%Forall_cons.
  { rewrite <- Hs. clear Hs Hp. induction pat as [|c pat IH]; cbn [split_on].
    - by repeat constructor; apply not_elem_of_nil.
    - destruct (ascii_eqb_spec "/"%char c) as [<-|Hc]; [by constructor; [apply not_elem_of_nil|]|].
      destruct (split_on "/"%char pat) as [|h t] eqn:Hsp; [by apply split_on_ne in Hsp|].
      apply Forall_cons in IH as [Hh Ht]. constructor; [|done]. by apply not_elem_of_cons. }
  destruct (split_on_cases "/"%char path) as (seg & Hseg & [[-> Hsp]|(s' & -> & Hsp)]);
    rewrite Hsp.
  - rewrite <- (app_nil_r seg) at 1. rewrite regex_match_literal by (done || by left).
    by rewrite regex_match_tail by (done || by left).
  - rewrite regex_match_literal by (done || by right; eexists).
    rewrite regex_match_tail by (done || by right; eexists).
    change (split_on "/"%char ("/"%char :: s')) with ([] :: split_on "/"%char s'). done.
Qed.

(** ** Registration histories *)
Section history.
Context {W : Type}.
Implicit Types (rt : Router W) (g : registration W) (gs : list (registration W)).

Lemma first_some_app {A B} (f : A -> option B) l1 l2 :
  first_some f (l1 ++ l2) = match first_some f l1 with Some y => Some y | None => first_some f l2 end.
Proof. induction l1 as [|x l1 IH]; cbn; [done|]. by destruct (f x). Qed.

Lemma route_regex_snoc (l : list (Route W)) r req :
  route_regex (l ++ [r]) req =
    match route_regex l req with Some run => Some run | None => route_regex [r] req end.
Proof.
  induction l as [|r' l IH]; [done|]. cbn [app route_regex]. rewrite IH.
  destruct (decide (route_method r' = method_ req)); [|done].
  by destruct (regex_match (pathRegex_ r') (path_ req)).
Qed.

Lemma route_regex_one (m : Method) pat p (h : handler W) req :
  convertToRegex pat = Some p -> plain_path pat = true ->
  route_regex [mkRoute m p h] req = dynamic_hit req m pat h.
Proof.
  intros Hc Hp. destruct (regex_match_path pat req.(path_) Hp) as (p' & Hc' & Hm).
  rewrite Hc in Hc'. simplify_eq. unfold dynamic_hit. cbn. case_decide; [|done].
  rewrite Hm. by destruct (match_path pat req.(path_)).
Qed.

(** One registration: it succeeds, and each table changes by that entry. *)
Lemma register_tables rt g :
  plain_registration g = true ->
  ∃ rt', register rt g = Some rt' ∧
    (∀ key, rt'.(handlers_) !! key =
       match static_handler key g with Some h => Some h | None => rt.(handlers_) !! key end) ∧
    (∀ key, rt'.(callbacks_) !! key =
       match static_callback key g with Some h => Some h | None => rt.(callbacks_) !! key end) ∧
    (∀ req, route_regex rt'.(regexHandlers_) req =
       match route_regex rt.(regexHandlers_) req with Some x => Some x | None => dynamic_handler req g end) ∧
    (∀ req, route_regex rt'.(regexCallbacks_) req =
       match route_regex rt.(regexCallbacks_) req with Some x => Some x | None => dynamic_callback req g end).
Proof.
  assert (∀ o : option (prog thrown (W * HttpResponse) unit),
    o = match o with Some x => Some x | None => None end) as Hid by by intros [].
  destruct g as [m p h|m p h|m p h|m p h]; intros Hg; cbn [plain_registration register] in *;
    unfold static_handler, static_callback, dynamic_handler, dynamic_callback.
  1-2: eexists; split; [reflexivity|]; cbn; split_and!; intros; auto;
    case_decide as Hk; [subst key; by rewrite lookup_insert_eq|by rewrite lookup_insert_ne].
  1-2: destruct (regex_match_path p [] Hg) as (re & Hc & _);
    unfold addRegexHandler, addRegexCallback; rewrite Hc; eexists; split; [reflexivity|];
    cbn [handlers_ callbacks_ regexHandlers_ regexCallbacks_]; split_and!; intros; auto;
    rewrite route_regex_snoc; by rewrite (route_regex_one m p re h req Hc Hg).
Qed.

Lemma register_all_tables gs rt :
  forallb plain_registration gs = true ->
  ∃ rt', register_all rt gs = Some rt' ∧
    (∀ key, rt'.(handlers_) !! key =
       match first_some (static_handler key) (reverse gs) with
       | Some h => Some h | None => rt.(handlers_) !! key end) ∧
    (∀ key, rt'.(callbacks_) !! key =
       match first_some (static_callback key) (reverse gs) with
       | Some h => Some h | None => rt.(callbacks_) !! key end) ∧
    (∀ req, route_regex rt'.(regexHandlers_) req =
       match route_regex rt.(regexHandlers_) req with
       | Some x => Some x | None => first_some (dynamic_handler req) gs end) ∧
    (∀ req, route_regex rt'.(regexCallbacks_) req =
       match route_regex rt.(regexCallbacks_) req with
       | Some x => Some x | None => first_some (dynamic_callback req) gs end).
Proof.
  revert rt. induction gs as [|g gs IH]; intros rt Hgs.
  - exists rt. split_and!; [done..|intros req; by destruct (route_regex _ req)|].
    intros req. by destruct (route_regex _ req).
  - cbn [forallb] in Hgs. apply andb_true_iff in Hgs as [Hg Hgs].
    destruct (register_tables rt g Hg) as (rt1 & Hr & H1 & H2 & H3 & H4).
    destruct (IH rt1 Hgs) as (rt2 & Hr2 & K1 & K2 & K3 & K4). exists rt2.
    cbn [register_all]. rewrite Hr. rewrite reverse_cons. split_and!; [exact Hr2|..].
    + intros key. rewrite K1, H1, first_some_app. cbn [first_some]. by repeat case_match; simplify_eq.
    + intros key. rewrite K2, H2, first_some_app. cbn [first_some]. by repeat case_match; simplify_eq.
    + intros req. rewrite K3, H3. cbn [first_some]. by repeat case_match; simplify_eq.
    + intros req. rewrite K4, H4. cbn [first_some]. by repeat case_match; simplify_eq.
Qed.

End history.

(** C15. [route] refines the history of registrations, for paths without regex
    metacharacters: registering succeeds, and a request runs the handler
    registered last for its method and path, else the callback registered last
    for them, else the first dynamic handler, else the first dynamic callback
    of its method whose segments match (literal segments equal, each ":x"
    taking one non-empty segment, passed on as "param1", "param2", ...); with
    no match nothing runs and [route] returns false. *)
Theorem route_refines_history {W} (gs : list (registration W)) (req : HttpRequest) σ :
  forallb plain_registration gs = true ->
  ∃ rt, register_all new_router gs = Some rt ∧
    route rt req σ =
      match route_spec gs req with
      | Some run => (run;; mret true) σ
      | None => (Ret false, σ)
      end.
Proof.
  intros Hgs. destruct (register_all_tables gs new_router Hgs) as (rt & Hr & H1 & H2 & H3 & H4).
  exists rt. split; [done|]. unfold route, route_spec. rewrite H1, H2, H3, H4.
  cbn [handlers_ callbacks_ regexHandlers_ regexCallbacks_ new_router route_regex].
  rewrite !lookup_empty. by repeat case_match; simplify_eq.
Qed.

(** Two dynamic routes and a static one: "/post/7" takes the first dynamic
    route, with its parameter. *)
Definition note (tag : bytes) : handler bytes := λ req,
  modify (λ '(_, r), (tag ++ getPathParameters (lit "param1") req, r)).
Definition sample_routes : list (registration bytes) :=
  [DynamicHandler kGet (lit "/post/:id") (note (lit "post "));
   DynamicHandler kGet (lit "/:kind/7") (note (lit "kind "));
   StaticHandler kGet (lit "/post") (note (lit "index"))].
Definition get_request (path : bytes) : HttpRequest :=
  setPath path (set_method_ kGet new_request).

Lemma route_refines_history_witness :
  forallb plain_registration sample_routes = true ∧
  ∃ rt, register_all new_router sample_routes = Some rt ∧
    (route rt (get_request (lit "/post/7")) ([], new_response true)).2.1 = lit "post 7" ∧
    (route rt (get_request (lit "/post/7")) ([], new_response true)).1 = Ret true.
Proof.
  assert (forallb plain_registration sample_routes = true) as Hs by by vm_compute.
  split; [exact Hs|].
  destruct (route_refines_history sample_routes (get_request (lit "/post/7"))
    ([], new_response true) Hs) as (rt & Hr & He).
  exists rt. split; [exact Hr|]. rewrite He. split; by vm_compute.
Defined.
