(* ===== verification/Middleware.v ===== *)
(** * Middleware chain and CORS

    [HTTP/include/middlerWare/] and [HTTP/src/middleware/]: the chain run
    around the router, and the CORS middleware. A middleware is a pair of
    programs; an empty [shared_ptr] in the chain is [None]. *)

From S2P Require Export Router.

(** [middleware::Middleware]: the two virtual members. *)
Record Middleware (W : Type) := mkMiddleware {
  before : prog thrown (W * HttpRequest) unit;
  after : prog thrown (W * HttpResponse) unit
}.
Arguments mkMiddleware {W}.
Arguments before {W}.
Arguments after {W}.

Section chain.
Context {W : Type}.

(** [MiddlewareChain::middlewares_]. *)
Abbreviation MiddlewareChain := (list (option (Middleware W))).

Definition addMiddleware (m : option (Middleware W)) (chain : MiddlewareChain) : MiddlewareChain :=
  chain ++ [m].

(** [processBefore]: in order; a null element is dereferenced. *)
Fixpoint processBefore (chain : MiddlewareChain) : prog thrown (W * HttpRequest) unit :=
  match chain with
  | [] => mret tt
  | None :: _ => halt UndefinedBehaviour
  | Some m :: chain' => m.(before);; processBefore chain'
  end.

(** The loop of [processAfter] over the reversed chain. *)
Fixpoint after_loop (chain : MiddlewareChain) : prog thrown (W * HttpResponse) unit :=
  match chain with
  | [] => mret tt
  | None :: chain' => after_loop chain'
  | Some m :: chain' => m.(after);; after_loop chain'
  end.

(** [processAfter]: standard exceptions are caught and logged; a thrown
    response is not one of them. *)
Definition processAfter (chain : MiddlewareChain) : prog thrown (W * HttpResponse) unit :=
  catch (after_loop (reverse chain)) (λ e,
    match e with
    | ThrownStd _ => mret tt
    | ThrownResponse r => throw (ThrownResponse r)
    end).

End chain.

(** ** CORS *)

(** [middleware::CorsConfig]. *)
Record CorsConfig := mkCorsConfig {
  allowedOrigins : list bytes;
  allowedMethod : list bytes;
  allowedHeaders : list bytes;
  allowCredentials : bool;
  maxAge : Z
}.

Definition defaultConfig : CorsConfig :=
  mkCorsConfig [lit "*"]
    [lit "GET"; lit "POST"; lit "PUT"; lit "DELETE"; lit "OPTIONS"]
    [lit "Content-Type"; lit "Authorization"] false 3600.

(** [join(strings, delimiter)]: the stream after the [i]-th round. *)
Definition join (strings : list bytes) (delimiter : bytes) : bytes :=
  (fold_left (λ '(i, res) s, (S i, (if decide (0 < i) then res ++ delimiter else res) ++ s))
     strings (0, [])).2.

Section cors.
Variable config_ : CorsConfig.

Definition isOrigrinAllowed (origin : bytes) : bool :=
  bool_decide (config_.(allowedOrigins) = []) ||
  bool_decide (lit "*" ∈ config_.(allowedOrigins)) ||
  bool_decide (origin ∈ config_.(allowedOrigins)).

Definition addCorsHeaders (resp : HttpResponse) (origin : bytes) : HttpResponse :=
  let resp := Response.addHeader (lit "Access-Control-Allow-Origin") origin resp in
  let resp := if config_.(allowCredentials)
    then Response.addHeader (lit "Access-Control-Allow-Credentials") (lit "true") resp else resp in
  let resp := match config_.(allowedMethod) with [] => resp | _ =>
    Response.addHeader (lit "Access-Control-Allow-Methods") (join config_.(allowedMethod) (lit ", ")) resp end in
  let resp := match config_.(allowedHeaders) with [] => resp | _ =>
    Response.addHeader (lit "Access-Control-Allow-Headers") (join config_.(allowedHeaders) (lit ", ")) resp end in
  Response.addHeader (lit "Access-Control-Max-Age") (to_string config_.(maxAge)) resp.

Definition handlePrefightRequest (req : HttpRequest) (resp : HttpResponse) : HttpResponse :=
  let origin := getHeader (lit "Origin") req in
  if negb (isOrigrinAllowed origin) then Response.setStatusCode k403Forbidden resp
  else Response.setStatusCode k204NoContent (addCorsHeaders resp origin).

Definition cors_before {W} : prog thrown (W * HttpRequest) unit :=
  '(_, req) ← get;
  if decide (req.(method_) = kOptions) then
    throw (ThrownResponse (handlePrefightRequest req (new_response true)))
  else mret tt.

Definition cors_after {W} : prog thrown (W * HttpResponse) unit :=
  match config_.(allowedOrigins) with
  | [] => mret tt
  | first :: _ =>
      modify (λ '(w, resp), (w,
        addCorsHeaders resp (if decide (lit "*" ∈ config_.(allowedOrigins)) then lit "*" else first)))
  end.

Definition CorsMiddleware {W} : Middleware W := mkMiddleware cors_before cors_after.

End cors.

(** ** Lemmas *)

Section chain_lemmas.
Context {W : Type}.
Implicit Types c chain : list (option (Middleware W)).

Lemma processBefore_app c1 c2 σ :
  processBefore (c1 ++ c2) σ = (processBefore c1;; processBefore c2) σ.
Proof.
  revert σ. induction c1 as [|[m|] c1 IH]; intros σ; [done| |done]. cbn.
  unfold mbind, prog_bind. destruct (before m σ) as [[] σ']; [|done..]. apply IH.
Qed.

Lemma after_loop_app c1 c2 σ : after_loop (c1 ++ c2) σ = (after_loop c1;; after_loop c2) σ.
Proof.
  revert σ. induction c1 as [|[m|] c1 IH]; intros σ; [done| |apply IH]. cbn.
  unfold mbind, prog_bind. destruct (after m σ) as [[] σ']; [|done..]. apply IH.
Qed.

(** A standard exception never leaves [processAfter]. *)
Lemma processAfter_no_std chain σ e : (processAfter chain σ).1 ≠ Throw (ThrownStd e).
Proof.
  unfold processAfter, catch. destruct (after_loop (reverse chain) σ) as [[|[]|] σ']; done.
Qed.

End chain_lemmas.

(** [join] puts the delimiter between the strings. *)
Fixpoint join_spec (strings : list bytes) (d : bytes) : bytes :=
  match strings with
  | [] => []
  | [s] => s
  | s :: ss => s ++ d ++ join_spec ss d
  end.

Lemma join_fold ss d i res :
  0 < i ->
  (fold_left (λ '(i, res) s, (S i, (if decide (0 < i) then res ++ d else res) ++ s)) ss (i, res)).2
    = res ++ match ss with [] => [] | _ => d ++ join_spec ss d end.
Proof.
  revert i res. induction ss as [|s ss IH]; intros i res Hi; cbn [fold_left].
  - by rewrite app_nil_r.
  - rewrite decide_True, IH by lia. rewrite <- !app_assoc. do 2 f_equal. cbn [join_spec].
    destruct ss; [by rewrite app_nil_r|done].
Qed.

Lemma join_eq ss d : join ss d = join_spec ss d.
Proof.
  destruct ss as [|s ss]; [done|]. unfold join. cbn [fold_left]. rewrite decide_False by lia.
  rewrite join_fold by lia. cbn [join_spec app]. destruct ss; [by rewrite app_nil_r|done].
Qed.
