(* ===== verification/Session.v ===== *)
(** * Sessions

    [HTTP/include/session/] and [HTTP/src/session/]. Sessions are shared
    objects: [shared_ptr<Session>] is an index into a heap, and the storage,
    the manager and the handlers reach the same object through it. The system
    clock and the random engine are sequences of answers, consumed in order;
    a [system_clock] time is a number of nanoseconds. *)

From S2P Require Export HttpResponse.

(** [session::Session]; [sessionManager_] is null or the one manager. *)
Record Session := mkSession {
  sessionId_ : bytes;
  data_ : gmap bytes bytes;
  expiryTime_ : Z;
  maxAge_ : Z;
  sessionManager_ : bool
}.

#[export] Instance Session_eq_dec : EqDecision Session.
Proof. solve_decision. Defined.

(** [std::chrono::seconds(n)] as a [system_clock] duration. *)
Definition seconds (n : Z) : Z := (n * 10 ^ 9)%Z.

(** The state the session code works on, [S] being the storage. *)
Record World (S : Type) := mkWorld {
  heap : list Session;
  storage_ : S;
  clock : nat -> Z;
  clock_reads : nat;
  rng_ : nat -> fin 16;
  draws : nat
}.
Arguments mkWorld {S}.
Arguments heap {S}.
Arguments storage_ {S}.
Arguments clock {S}.
Arguments clock_reads {S}.
Arguments rng_ {S}.
Arguments draws {S}.

Abbreviation session_ptr := nat.
Abbreviation session_prog S A := (prog std_exception (World S) A).

Section world.
Context {S : Type}.
Implicit Types w : World S.

Definition set_heap (h : list Session) w : World S :=
  mkWorld h w.(storage_) w.(clock) w.(clock_reads) w.(rng_) w.(draws).
Definition set_storage (st : S) w : World S :=
  mkWorld w.(heap) st w.(clock) w.(clock_reads) w.(rng_) w.(draws).
Definition tick w : World S :=
  mkWorld w.(heap) w.(storage_) w.(clock) (w.(clock_reads) + 1) w.(rng_) w.(draws).
Definition use_draw w : World S :=
  mkWorld w.(heap) w.(storage_) w.(clock) w.(clock_reads) w.(rng_) (w.(draws) + 1).

(** The next answer of [system_clock::now()], and of [dist(rng_)]. *)
Definition time w : Z := w.(clock) w.(clock_reads).

Definition now : session_prog S Z := t ← gets time; modify tick;; mret t.
Definition draw : session_prog S (fin 16) := d ← gets (λ w, w.(rng_) w.(draws)); modify use_draw;; mret d.

(** [p->...]: a pointer that was never made is dereferenced. *)
Definition deref (p : session_ptr) : session_prog S Session :=
  h ← gets heap;
  match h !! p with Some s => mret s | None => halt UndefinedBehaviour end.
Definition assign (p : session_ptr) (f : Session -> Session) : session_prog S unit :=
  modify (λ w, set_heap (alter f p w.(heap)) w).

(** ** [Session] *)

Definition isExpired (p : session_ptr) : session_prog S bool :=
  s ← deref p;
  t ← now;
  mret (bool_decide (s.(expiryTime_) < t)%Z).

Definition refresh (p : session_ptr) : session_prog S unit :=
  s ← deref p;
  t ← now;
  assign p (λ s, mkSession s.(sessionId_) s.(data_) (t + seconds s.(maxAge_)) s.(maxAge_) s.(sessionManager_)).

Definition setManager (p : session_ptr) (manager : bool) : session_prog S unit :=
  assign p (λ s, mkSession s.(sessionId_) s.(data_) s.(expiryTime_) s.(maxAge_) manager).

(** [std::make_shared<Session>(id, manager, maxAge)]. *)
Definition make_session (id : bytes) (manager : bool) (maxAge : Z) : session_prog S session_ptr :=
  h ← gets heap;
  modify (set_heap (h ++ [mkSession id ∅ 0 maxAge manager]));;
  refresh (length h);;
  mret (length h).

Definition getValue (p : session_ptr) (key : bytes) : session_prog S bytes :=
  s ← deref p;
  mret (find_or_empty key s.(data_)).

Definition remove_value (p : session_ptr) (key : bytes) : session_prog S unit :=
  s ← deref p;
  assign p (λ s, mkSession s.(sessionId_) (delete key s.(data_)) s.(expiryTime_) s.(maxAge_) s.(sessionManager_)).

Definition clear (p : session_ptr) : session_prog S unit :=
  s ← deref p;
  assign p (λ s, mkSession s.(sessionId_) ∅ s.(expiryTime_) s.(maxAge_) s.(sessionManager_)).

End world.

(** ** [SessionStorage]: the interface, and its laws

    [stored st id] is the session a storage holds under [id]. *)
Class SessionStorage (S : Type) := {
  save : session_ptr -> session_prog S unit;
  load : bytes -> session_prog S (option session_ptr);
  remove : bytes -> session_prog S unit;
  stored : S -> bytes -> option session_ptr
}.

Class SessionStorageLaws (S : Type) `{SessionStorage S} : Prop := {
  save_stored p w s : w.(heap) !! p = Some s ->
    ∃ st, save p w = (Ret tt, set_storage st w) ∧
      ∀ id, stored st id = if decide (id = s.(sessionId_)) then Some p else stored w.(storage_) id;
  load_absent id w : stored w.(storage_) id = None -> load id w = (Ret None, w);
  load_present id w p s : stored w.(storage_) id = Some p -> w.(heap) !! p = Some s ->
    (time w <= s.(expiryTime_))%Z -> load id w = (Ret (Some p), tick w);
  load_expired id w p s : stored w.(storage_) id = Some p -> w.(heap) !! p = Some s ->
    (s.(expiryTime_) < time w)%Z ->
    ∃ st, load id w = (Ret None, set_storage st (tick w)) ∧
      ∀ id', stored st id' = if decide (id' = id) then None else stored w.(storage_) id';
  remove_present id w p : stored w.(storage_) id = Some p ->
    ∃ st, remove id w = (Ret tt, set_storage st w) ∧
      ∀ id', stored st id' = if decide (id' = id) then None else stored w.(storage_) id'
}.

(** ** [MemorySessionStorage] *)

(** [sessions_]. *)
Abbreviation MemorySessionStorage := (gmap bytes session_ptr).

Module Memory.

Definition save (p : session_ptr) : session_prog MemorySessionStorage unit :=
  s ← deref p;
  modify (λ w, set_storage (<[s.(sessionId_) := p]> w.(storage_)) w).

Definition load (id : bytes) : session_prog MemorySessionStorage (option session_ptr) :=
  sessions ← gets storage_;
  match sessions !! id with
  | Some p =>
      e ← isExpired p;
      if negb e then mret (Some p)
      else modify (λ w, set_storage (delete id w.(storage_)) w);; mret None
  | None => mret None
  end.

(** [erase] of the end iterator, when the id is absent. *)
Definition remove (id : bytes) : session_prog MemorySessionStorage unit :=
  sessions ← gets storage_;
  match sessions !! id with
  | Some _ => modify (λ w, set_storage (delete id w.(storage_)) w)
  | None => halt UndefinedBehaviour
  end.

End Memory.

#[export] Instance memory_storage : SessionStorage MemorySessionStorage := {|
  save := Memory.save;
  load := Memory.load;
  remove := Memory.remove;
  stored st id := st !! id
|}.

(** ** [SessionManager] *)
Section manager.
Context {S : Type} `{SessionStorage S}.

(** [ss << std::hex << d]. *)
Definition hex_char (d : fin 16) : ascii :=
  let n := fin_to_nat d in
  if decide (n < 10) then ascii_of_nat (48 + n) else ascii_of_nat (87 + n).

(** The rounds [i, ..., 31] of the loop of [generateSessionId]. *)
Fixpoint id_loop (rounds : nat) (ss : bytes) : session_prog S bytes :=
  match rounds with
  | 0 => mret ss
  | Datatypes.S rounds => d ← draw; id_loop rounds (ss ++ [hex_char d])
  end.

(** [for (int i = 1; i < 32; ++i)]. *)
Definition generateSessionId : session_prog S bytes := id_loop (32 - 1) [].

Definition getSessionIdFromCookie (req : HttpRequest) : bytes :=
  let cookie := getHeader (lit "Cookie") req in
  match cookie with
  | [] => []
  | _ =>
      match str_find_str (lit "sessionId=") cookie with
      | Some pos =>
          let pos := pos + 10 in
          match str_find ";"%char pos cookie with
          | Some end_ => substr cookie pos (end_ - pos)
          | None => substr_from cookie pos
          end
      | None => []
      end
  end.

Definition setSessionCookie (id : bytes) (resp : HttpResponse) : HttpResponse :=
  Response.addHeader (lit "Set-Cookie") (lit "sessionId=" ++ id ++ lit "; Path=/; HttpOnly") resp.

(** [if (!sessionId.empty()) session = storage_->load(sessionId);] *)
Definition load_named (sessionId : bytes) : session_prog S (option session_ptr) :=
  match sessionId with [] => mret None | _ => load sessionId end.

(** [!session || session->isExpired()]. *)
Definition needs_new (session : option session_ptr) : session_prog S bool :=
  match session with None => mret true | Some p => isExpired p end.

(** [getSession(req, resp)]; the response is returned with its new header. *)
Definition getSession (req : HttpRequest) (resp : HttpResponse)
  : session_prog S (session_ptr * HttpResponse) :=
  session ← load_named (getSessionIdFromCookie req);
  fresh ← needs_new session;
  '(p, resp) ← (match session, fresh with
    | Some p, false => setManager p true;; mret (p, resp)
    | _, _ =>
        id ← generateSessionId;
        p ← make_session id true 3600;
        mret (p, setSessionCookie id resp)
    end);
  refresh p;;
  save p;;
  mret (p, resp).

Definition destroySession (id : bytes) : session_prog S unit := remove id.
Definition updateSessionId (p : session_ptr) : session_prog S unit := save p.

(** [Session::setValue]: the manager saves the session again. *)
Definition setValue (p : session_ptr) (key value : bytes) : session_prog S unit :=
  s ← deref p;
  assign p (λ s, mkSession s.(sessionId_) (<[key := value]> s.(data_)) s.(expiryTime_) s.(maxAge_) s.(sessionManager_));;
  if s.(sessionManager_) then updateSessionId p else mret tt.

End manager.

(** ** Specification of [getSession] *)
Section spec.
Context {S : Type} `{SessionStorage S}.
Implicit Types w : World S.

(** Every stored pointer is a session that carries the id it is stored under. *)
Definition storage_ok w : Prop :=
  ∀ id p, stored w.(storage_) id = Some p ->
    ∃ s, w.(heap) !! p = Some s ∧ s.(sessionId_) = id.

(** The session the request names, if it is stored and alive at the next two
    readings of the clock. *)
Definition cookie_session (req : HttpRequest) w : option session_ptr :=
  match getSessionIdFromCookie req with
  | [] => None
  | id =>
      p ← stored w.(storage_) id;
      s ← w.(heap) !! p;
      if decide (time w <= s.(expiryTime_) ∧ time (tick w) <= s.(expiryTime_))%Z then Some p else None
  end.

(** The id the next draws make. *)
Definition next_id w : bytes := map (λ i, hex_char (w.(rng_) (w.(draws) + i))) (seq 0 31).

Definition is_hex (c : ascii) : bool := bool_decide (c ∈ lit "0123456789abcdef").

(** The last reading of the clock. *)
Definition last_time w : Z := w.(clock) (w.(clock_reads) - 1).

End spec.

(** ** Lemmas: one per operation *)
Section run.
Context {S : Type} `{SessionStorage S}.
Implicit Types w : World S.

Lemma deref_run p w s : w.(heap) !! p = Some s -> deref p w = (Ret s, w).
Proof. intros Hs. unfold deref, gets, mbind, prog_bind. by rewrite Hs. Qed.

Lemma isExpired_run p w s :
  w.(heap) !! p = Some s ->
  isExpired p w = (Ret (bool_decide (s.(expiryTime_) < time w)%Z), tick w).
Proof. intros Hs. unfold isExpired, mbind, prog_bind. by rewrite (deref_run _ _ _ Hs). Qed.

Lemma refresh_run p w s :
  w.(heap) !! p = Some s ->
  refresh p w = (Ret tt, set_heap (<[p := mkSession s.(sessionId_) s.(data_)
    (time w + seconds s.(maxAge_)) s.(maxAge_) s.(sessionManager_)]> w.(heap)) (tick w)).
Proof.
  intros Hs. unfold refresh, mbind, prog_bind. rewrite (deref_run _ _ _ Hs). cbn.
  unfold assign, modify. f_equal. unfold set_heap. cbn. f_equal. by rewrite (list_alter_insert _ _ _ _ Hs).
Qed.

Lemma setManager_run p w s b :
  w.(heap) !! p = Some s ->
  setManager p b w = (Ret tt, set_heap (<[p := mkSession s.(sessionId_) s.(data_)
    s.(expiryTime_) s.(maxAge_) b]> w.(heap)) w).
Proof.
  intros Hs. unfold setManager, assign, modify. f_equal. unfold set_heap. f_equal.
  by rewrite (list_alter_insert _ _ _ _ Hs).
Qed.

Lemma make_session_run id b a w :
  make_session id b a w = (Ret (length w.(heap)),
    set_heap (w.(heap) ++ [mkSession id ∅ (time w + seconds a) a b]) (tick w)).
Proof.
  unfold make_session, mbind, prog_bind, gets, modify. cbn [mret prog_ret].
  erewrite refresh_run by (cbn [set_heap heap]; by rewrite lookup_app_r, Nat.sub_diag).
  cbn. unfold set_heap. cbn. do 2 f_equal.
  by rewrite insert_app_r_alt, Nat.sub_diag by done.
Qed.

Definition use_draws (n : nat) w : World S :=
  mkWorld w.(heap) w.(storage_) w.(clock) w.(clock_reads) w.(rng_) (w.(draws) + n).

Lemma id_loop_run n ss w :
  id_loop n ss w = (Ret (ss ++ map (λ i, hex_char (w.(rng_) (w.(draws) + i))) (seq 0 n)),
                    use_draws n w).
Proof.
  revert ss w. induction n as [|n IH]; intros ss w.
  - cbn. rewrite app_nil_r. unfold use_draws. rewrite Nat.add_0_r. by destruct w.
  - cbn [id_loop]. unfold draw, mbind, prog_bind, gets, modify, mret, prog_ret. rewrite IH. cbn.
    rewrite <- app_assoc, Nat.add_0_r. unfold use_draws, use_draw. cbn.
    rewrite <- (seq_shift n 0), map_map, <- Nat.add_assoc. do 4 f_equal. apply map_ext.
    intros i. do 2 f_equal. lia.
Qed.

Lemma generateSessionId_run w : generateSessionId w = (Ret (next_id w), use_draws 31 w).
Proof. unfold generateSessionId. by rewrite id_loop_run. Qed.

Lemma hex_char_is_hex d : is_hex (hex_char d) = true.
Proof. revert d. apply (bool_decide_unpack (∀ d : fin 16, is_hex (hex_char d) = true)). by vm_compute. Qed.

Lemma next_id_hex w : length (next_id w) = 31 ∧ Forall (λ c, is_hex c = true) (next_id w).
Proof.
  unfold next_id. split; [by rewrite length_map, length_seq|].
  apply Forall_map, Forall_forall. intros i _. apply hex_char_is_hex.
Qed.

End run.

(** *** The steps of [getSession] *)
Section get_session.
Context {S : Type} `{SessionStorageLaws S}.
Implicit Types w : World S.

Definition touched (s : Session) (t : Z) : Session :=
  mkSession s.(sessionId_) s.(data_) (t + seconds s.(maxAge_)) s.(maxAge_) s.(sessionManager_).

(** What a call leaves: session [s] at [p], saved, refreshed at the last
    reading of the clock, and no other object or entry but [id] changed. *)
Definition session_result (w w' : World S) (p : session_ptr) (s : Session) (id : bytes) : Prop :=
  w'.(heap) !! p = Some s ∧ s.(sessionManager_) = true ∧
  stored w'.(storage_) s.(sessionId_) = Some p ∧
  s.(expiryTime_) = (last_time w' + seconds s.(maxAge_))%Z ∧
  storage_ok w' ∧
  (∀ q, q ≠ p -> w'.(heap) !! q = w.(heap) !! q) ∧
  (∀ id', id' ≠ s.(sessionId_) -> id' ≠ id ->
     stored w'.(storage_) id' = stored w.(storage_) id') ∧
  w'.(clock) = w.(clock).

Lemma finish_run {A} (p : session_ptr) (a : A) w s :
  w.(heap) !! p = Some s ->
  ∃ w', (refresh p;; save p;; mret a) w = (Ret a, w') ∧
    w'.(heap) = <[p := touched s (time w)]> w.(heap) ∧
    (∀ id, stored w'.(storage_) id =
       if decide (id = s.(sessionId_)) then Some p else stored w.(storage_) id) ∧
    w'.(clock) = w.(clock) ∧ w'.(clock_reads) = w.(clock_reads) + 1.
Proof.
  intros Hs. unfold mbind, prog_bind. rewrite (refresh_run _ _ _ Hs).
  set (w1 := set_heap _ _).
  destruct (save_stored p w1 (touched s (time w))) as (st & Hsave & Hst).
  { apply list_lookup_insert_eq. by eapply lookup_lt_Some. }
  rewrite Hsave. eexists. split; [reflexivity|]. split_and!; try done.
Qed.

Lemma finish_result {A} (p : session_ptr) (a : A) w0 w s id :
  w.(heap) !! p = Some s -> s.(sessionManager_) = true ->
  storage_ok w -> w.(clock) = w0.(clock) ->
  (∀ q, q ≠ p -> w.(heap) !! q = w0.(heap) !! q) ->
  (∀ id', id' ≠ id -> stored w.(storage_) id' = stored w0.(storage_) id') ->
  ∃ w' t, (refresh p;; save p;; mret a) w = (Ret a, w') ∧
    session_result w0 w' p (touched s t) id.
Proof.
  intros Hs Hm Hok Hclk Hheap Hstored.
  destruct (finish_run p a w s Hs) as (w' & Hrun & Hh & Hst & Hc & Hr).
  exists w', (time w). split; [exact Hrun|]. unfold session_result.
  assert (p < length w.(heap)) by by eapply lookup_lt_Some.
  split_and!.
  - rewrite Hh. by apply list_lookup_insert_eq.
  - done.
  - rewrite Hst. by rewrite decide_True.
  - unfold last_time, time. by rewrite Hc, Hr, Nat.add_sub.
  - intros i q. rewrite Hst, Hh. destruct (decide (i = s.(sessionId_))) as [->|Hne].
    + intros [= <-]. eexists. split; [by apply list_lookup_insert_eq|done].
    + intros Hq. destruct (Hok i q Hq) as (sq & Hsq & Hid).
      destruct (decide (q = p)) as [->|Hqp].
      * rewrite Hs in Hsq. simplify_eq.
      * exists sq. by rewrite list_lookup_insert_ne.
  - intros q Hq. rewrite Hh, list_lookup_insert_ne by done. by apply Hheap.
  - intros i Hi Hi'. rewrite Hst, decide_False by done. by apply Hstored.
  - congruence.
Qed.

(** The branch that makes a new session. *)
Lemma fresh_run resp w0 w id :
  storage_ok w -> w.(clock) = w0.(clock) -> w.(heap) = w0.(heap) ->
  w.(rng_) = w0.(rng_) -> w.(draws) = w0.(draws) ->
  (∀ id', id' ≠ id -> stored w.(storage_) id' = stored w0.(storage_) id') ->
  ∃ w' t, (new_id ← generateSessionId;
      p ← make_session new_id true 3600;
      refresh p;; save p;; mret (p, setSessionCookie new_id resp)) w =
    (Ret (length w0.(heap), setSessionCookie (next_id w0) resp), w') ∧
    session_result w0 w' (length w0.(heap)) (mkSession (next_id w0) ∅ t 3600 true) id.
Proof.
  intros Hok Hclk Hheap Hrng Hdraws Hstored.
  assert (next_id w = next_id w0) as Hid by by (unfold next_id; rewrite Hrng, Hdraws).
  unfold mbind at 1, prog_bind at 1. rewrite generateSessionId_run.
  unfold mbind at 1, prog_bind at 1. rewrite make_session_run.
  replace (length (heap (use_draws 31 w))) with (length w0.(heap)) by (by rewrite <- Hheap).
  rewrite Hid. set (w1 := set_heap _ _).
  destruct (finish_result (length w0.(heap)) (length w0.(heap), setSessionCookie (next_id w0) resp)
    w0 w1 (mkSession (next_id w0) ∅ (time (use_draws 31 w) + seconds 3600) 3600 true) id)
    as (w' & t & Hrun & Hres).
  - cbn [w1 set_heap heap use_draws]. rewrite Hheap, lookup_app_r by lia. by rewrite Nat.sub_diag.
  - done.
  - intros i q Hq. destruct (Hok i q Hq) as (s & Hs & Hi). exists s. split; [|done].
    cbn [w1 set_heap heap use_draws]. by apply lookup_app_l_Some.
  - done.
  - intros q Hq. cbn [w1 set_heap heap use_draws]. rewrite Hheap. destruct (decide (q < length (heap w0))) as [Hlt|Hge].
    { by apply lookup_app_l. }
    rewrite !lookup_ge_None_2; [done|lia|rewrite length_app; cbn; lia].
  - done.
  - exists w', (t + seconds 3600)%Z. by split.
Qed.

End get_session.

(** *** The cookie header *)

Lemma str_find_str_after c p pre s :
  (c ∉ pre) -> str_find_str (c :: p) (pre ++ (c :: p) ++ s) = Some (length pre).
Proof.
  induction pre as [|x pre IH]; intros Hc.
  - cbn [app length]. cbn [str_find_str].
    assert (starts_with (c :: p) (c :: p ++ s) = true) as -> by (apply starts_with_spec; by exists s).
    done.
  - rewrite not_elem_of_cons in Hc. destruct Hc as [Hx Hc]. cbn [app str_find_str length].
    change (c :: p ++ s) with ((c :: p) ++ s).
    destruct (starts_with (c :: p) (x :: pre ++ (c :: p) ++ s)) eqn:Hs; [|by rewrite IH].
    apply starts_with_spec in Hs as [r Hr]. cbn [app] in Hr. congruence.
Qed.

Lemma hex_not_semicolon (l : bytes) : Forall (λ c, is_hex c = true) l -> ";"%char ∉ l.
Proof. rewrite Forall_forall. intros Hl Hin%Hl. by vm_compute in Hin. Qed.

Lemma cookie_id {S : Type} (w : World S) req before after :
  ("s"%char ∉ before) -> (after = [] ∨ ∃ rest, after = ";"%char :: rest) ->
  getHeader (lit "Cookie") req = before ++ lit "sessionId=" ++ next_id w ++ after ->
  getSessionIdFromCookie req = next_id w.
Proof.
  intros Hb Ha Hc. unfold getSessionIdFromCookie. rewrite Hc.
  destruct (before ++ lit "sessionId=" ++ next_id w ++ after) as [|x l] eqn:Hl;
    [by destruct before|]. rewrite <- Hl.
  change (lit "sessionId=") with ("s"%char :: lit "essionId="). rewrite str_find_str_after by done.
  set (s := before ++ _).
  assert (drop (length before + 10) s = next_id w ++ after) as Hdrop.
  { unfold s. rewrite <- drop_drop, drop_app_length. done. }
  destruct (next_id_hex w) as [_ Hhex%hex_not_semicolon].
  unfold substr, substr_from. rewrite Hdrop.
  destruct (str_find ";"%char (length before + 10) s) as [e|] eqn:Hf; unfold str_find in Hf;
    rewrite Hdrop in Hf.
  - case_decide; simplify_eq. destruct Ha as [->|[rest ->]].
    + rewrite app_nil_r in *. rewrite find_char_none in * by done. lia.
    + rewrite find_char_hit by done.
      replace (length before + 10 + length (next_id w) - (length before + 10))
        with (length (next_id w)) by lia. by rewrite take_app_length.
  - case_decide as Hlt; [done|]. destruct Ha as [->|[rest ->]]; [by rewrite app_nil_r|].
    rewrite find_char_hit, length_app in Hlt by done. cbn [length] in Hlt. lia.
Qed.

Section manager_theorems.
Context {S : Type} `{SessionStorageLaws S}.
Implicit Types w : World S.

(** The look-up part of [getSession]. *)
Definition look_up (req : HttpRequest) : session_prog S (option session_ptr * bool) :=
  session ← load_named (getSessionIdFromCookie req);
  fresh ← needs_new session;
  mret (session, fresh).

Lemma getSession_look_up req resp w :
  getSession req resp w =
    match look_up req w with
    | (Ret (Some p, false), w1) => (setManager p true;; refresh p;; save p;; mret (p, resp)) w1
    | (Ret _, w1) => (new_id ← generateSessionId; p ← make_session new_id true 3600;
        refresh p;; save p;; mret (p, setSessionCookie new_id resp)) w1
    | (Throw e, w1) => (Throw e, w1)
    | (Halt x, w1) => (Halt x, w1)
    end.
Proof.
  unfold getSession, look_up.
  unfold mbind, prog_bind, mret, prog_ret.
  destruct (load_named (getSessionIdFromCookie req) w) as [[o|e|x] w1]; try done.
  destruct (needs_new o w1) as [[b|e|x] w2]; try done.
  assert (∀ w, (generateSessionId w).1 = Ret (next_id w)) as Hg by (intros w'; by rewrite generateSessionId_run).
  destruct o as [p|], b; try done.
  all: rewrite generateSessionId_run, make_session_run; done.
Qed.

Lemma look_up_run req w :
  storage_ok w ->
  match cookie_session req w with
  | Some p => look_up req w = (Ret (Some p, false), tick (tick w)) ∧
      stored w.(storage_) (getSessionIdFromCookie req) = Some p
  | None => ∃ o w1, look_up req w = (Ret o, w1) ∧
      (match o with (Some _, false) => False | _ => True end) ∧
      storage_ok w1 ∧ w1.(clock) = w.(clock) ∧ w1.(heap) = w.(heap) ∧
      w1.(rng_) = w.(rng_) ∧ w1.(draws) = w.(draws) ∧
      (∀ id', id' ≠ getSessionIdFromCookie req ->
         stored w1.(storage_) id' = stored w.(storage_) id')
  end.
Proof.
  intros Hok. unfold cookie_session, look_up.
  assert (∀ (m : session_prog S (option session_ptr)) o w1, m w = (Ret o, w1) ->
    (session ← m; fresh ← needs_new session; mret (session, fresh)) w =
    (fresh ← needs_new o; mret (o, fresh)) w1) as Hbind.
  { intros m o w1 Hm. unfold mbind, prog_bind. by rewrite Hm. }
  destruct (getSessionIdFromCookie req) as [|c id'] eqn:Hid.
  { exists (None, true), w. by rewrite (Hbind (load_named []) None w). }
  change (load_named (c :: id')) with (load (c :: id')).
  remember (c :: id') as id eqn:Hdef. clear Hdef Hid.
  destruct (stored (storage_ w) id) as [p|] eqn:Hst; cbn [mbind option_bind].
  2:{ exists (None, true), w. rewrite (Hbind _ _ _ (load_absent id w Hst)). by split_and!. }
  destruct (Hok id p Hst) as (s & Hs & Hsid). rewrite Hs. cbn [mbind option_bind].
  destruct (decide (time w <= expiryTime_ s)%Z) as [Hlive|Hdead].
  - rewrite (Hbind _ _ _ (load_present id w p s Hst Hs Hlive)).
    cbn [needs_new]. unfold mbind, prog_bind. rewrite (isExpired_run p (tick w) s Hs).
    destruct (decide (time w <= expiryTime_ s ∧ time (tick w) <= expiryTime_ s)%Z) as [Hboth|Hboth].
    + rewrite bool_decide_false by lia. done.
    + rewrite bool_decide_true by lia. exists (Some p, true), (tick (tick w)). by split_and!.
  - rewrite decide_False by lia.
    destruct (load_expired id w p s Hst Hs) as (st & Hload & Hst'); [lia|].
    rewrite (Hbind _ _ _ Hload). exists (None, true), (set_storage st (tick w)).
    split_and!; try done.
    + intros i q. cbn [set_storage storage_ tick]. rewrite Hst'. case_decide; [done|]. apply Hok.
    + intros i Hi. cbn [set_storage storage_ tick]. by rewrite Hst', decide_False.
Qed.

Lemma getSession_known req resp w p s :
  storage_ok w -> cookie_session req w = Some p -> w.(heap) !! p = Some s ->
  ∃ w' t, getSession req resp w = (Ret (p, resp), w') ∧
    session_result w w' p (mkSession s.(sessionId_) s.(data_) t s.(maxAge_) true)
      (getSessionIdFromCookie req).
Proof.
  intros Hok Hlive Hs. pose proof (look_up_run req w Hok) as Hlook. rewrite getSession_look_up.
  rewrite Hlive in Hlook. destruct Hlook as [-> Hst].
  unfold mbind at 1, prog_bind at 1.
  rewrite (setManager_run p (tick (tick w)) s true) by done. set (w1 := set_heap _ _).
  assert (p < length w.(heap)) as Hlt by by eapply lookup_lt_Some.
  destruct (finish_result p (p, resp) w w1
    (mkSession s.(sessionId_) s.(data_) s.(expiryTime_) s.(maxAge_) true)
    (getSessionIdFromCookie req)) as (w' & t & Hrun & Hres); try done.
  - by apply list_lookup_insert_eq.
  - intros i q Hq. destruct (Hok i q Hq) as (sq & Hsq & Hi).
    destruct (decide (q = p)) as [->|Hne].
    + rewrite Hs in Hsq. simplify_eq. eexists. split; [by apply list_lookup_insert_eq|done].
    + exists sq. split; [|done]. cbn [w1 set_heap heap tick]. by rewrite list_lookup_insert_ne.
  - intros q Hq. cbn [w1 set_heap heap tick]. by rewrite list_lookup_insert_ne.
  - exists w', (t + seconds s.(maxAge_))%Z. by split.
Qed.

Lemma getSession_new req resp w :
  storage_ok w -> cookie_session req w = None ->
  ∃ w' t, getSession req resp w =
      (Ret (length w.(heap), setSessionCookie (next_id w) resp), w') ∧
    session_result w w' (length w.(heap)) (mkSession (next_id w) ∅ t 3600 true)
      (getSessionIdFromCookie req).
Proof.
  intros Hok Hnone. pose proof (look_up_run req w Hok) as Hlook. rewrite getSession_look_up.
  rewrite Hnone in Hlook. destruct Hlook as (o & w1 & Hl & Ho & Hok1 & Hclk & Hh & Hr & Hd & Hst).
  rewrite Hl. destruct (fresh_run resp w w1 _ Hok1 Hclk Hh Hr Hd Hst) as (w' & t & Hrun & Hres).
  exists w', t. split; [|exact Hres]. by destruct o as [[p|] []].
Qed.

Lemma cookie_session_stored req w p :
  storage_ok w -> cookie_session req w = Some p -> ∃ s, w.(heap) !! p = Some s.
Proof.
  intros Hok Hc. pose proof (look_up_run req w Hok) as Hlook. rewrite Hc in Hlook.
  destruct Hlook as [_ Hst]. destruct (Hok _ _ Hst) as (s & Hs & _). by exists s.
Qed.

(** C16. [getSession] always returns a session, which is stored under its id,
    managed, and expires [maxAge] seconds after the last reading of the clock;
    no other session object and no entry of another id changes. It is the
    session the cookie names, with its data, and the response is left alone,
    exactly when that session is stored and alive; in every other case it is a
    new object without data, whose id of 31 hexadecimal digits the response
    sets as a cookie. *)
Theorem getSession_functional (req : HttpRequest) (resp : HttpResponse) w :
  storage_ok w ->
  ∃ p s resp' w', getSession req resp w = (Ret (p, resp'), w') ∧
    session_result w w' p s (getSessionIdFromCookie req) ∧
    match cookie_session req w with
    | Some p0 => p = p0 ∧ resp' = resp ∧
        (∃ s0, w.(heap) !! p0 = Some s0 ∧ s.(sessionId_) = s0.(sessionId_) ∧
           s.(data_) = s0.(data_) ∧ s.(maxAge_) = s0.(maxAge_))
    | None => p = length w.(heap) ∧ resp' = setSessionCookie s.(sessionId_) resp ∧
        s.(data_) = ∅ ∧ s.(maxAge_) = 3600%Z ∧
        length s.(sessionId_) = 31 ∧ Forall (λ c, is_hex c = true) s.(sessionId_)
    end.
Proof.
  intros Hok. destruct (cookie_session req w) as [p|] eqn:Hlive.
  - destruct (cookie_session_stored req w p Hok Hlive) as [s Hs].
    destruct (getSession_known req resp w p s Hok Hlive Hs) as (w' & t & Hrun & Hres).
    eexists p, _, resp, w'. split_and!; [exact Hrun|exact Hres|done|done|]. by exists s.
  - destruct (getSession_new req resp w Hok Hlive) as (w' & t & Hrun & Hres).
    eexists _, _, _, w'. split_and!; [exact Hrun|exact Hres|done..| |]; apply next_id_hex.
Qed.

(** C17. The cookie of a new session leads back to it: a later request whose
    Cookie header carries the id set by the first response (preceded by cookies
    in which no "s" occurs, followed by nothing or by other cookies) gets the
    same session object with its data, and no new cookie, as long as neither
    reading of the clock is past its expiry. *)
Theorem session_cookie_roundtrip (req1 req2 : HttpRequest) (resp1 resp1' resp2 : HttpResponse)
    w w1 p (before after : bytes) :
  storage_ok w -> cookie_session req1 w = None ->
  getSession req1 resp1 w = (Ret (p, resp1'), w1) ->
  ("s"%char ∉ before) -> (after = [] ∨ ∃ rest, after = ";"%char :: rest) ->
  getHeader (lit "Cookie") req2 = before ++ lit "sessionId=" ++ next_id w ++ after ->
  (time w1 <= last_time w1 + seconds 3600)%Z ->
  (time (tick w1) <= last_time w1 + seconds 3600)%Z ->
  resp1'.(resp_headers_) !! lit "Set-Cookie" =
    Some (lit "sessionId=" ++ next_id w ++ lit "; Path=/; HttpOnly") ∧
  ∃ w2 s, getSession req2 resp2 w1 = (Ret (p, resp2), w2) ∧
    w2.(heap) !! p = Some s ∧ s.(sessionId_) = next_id w ∧ s.(data_) = ∅.
Proof.
  intros Hok Hnone Hget Hbefore Hafter Hcookie Ht1 Ht2.
  destruct (getSession_new req1 resp1 w Hok Hnone) as (w1' & t & Hrun & Hres).
  rewrite Hrun in Hget. injection Hget as <- <- <-.
  destruct Hres as (Hp & _ & Hst & Hexp & Hok1 & _ & _ & _). cbn [sessionId_ expiryTime_ maxAge_] in *.
  split; [cbn; by rewrite lookup_insert_eq|].
  assert (getSessionIdFromCookie req2 = next_id w) as Hid by by eapply cookie_id.
  assert (cookie_session req2 w1' = Some (length (heap w))) as Hlive.
  { unfold cookie_session. rewrite Hid. destruct (next_id w) eqn:Hn; [by apply (f_equal length) in Hn|].
    rewrite Hst. cbn [mbind option_bind]. rewrite Hp. cbn [mbind option_bind expiryTime_].
    by rewrite decide_True by (split; lia). }
  destruct (getSession_known req2 resp2 w1' _ _ Hok1 Hlive Hp) as (w2 & t2 & Hrun2 & Hres2).
  exists w2. eexists. split; [exact Hrun2|]. by destruct Hres2 as (Hp2 & _).
Qed.

End manager_theorems.

(** ** [MemorySessionStorage] satisfies the interface *)

#[export] Instance memory_storage_laws : SessionStorageLaws MemorySessionStorage.
Proof.
  split.
  - intros p w s Hs. exists (<[s.(sessionId_) := p]> w.(storage_)). split.
    + cbn. unfold Memory.save, mbind, prog_bind. by rewrite (deref_run _ _ _ Hs).
    + intros id. cbn. case_decide as Hid; [subst; by rewrite lookup_insert_eq|].
      by rewrite lookup_insert_ne.
  - intros id w Hid. cbn in *. unfold Memory.load, mbind, prog_bind, gets. by rewrite Hid.
  - intros id w p s Hid Hs Ht. cbn in *. unfold Memory.load, mbind, prog_bind, gets.
    rewrite Hid, (isExpired_run _ _ _ Hs), bool_decide_false by lia. done.
  - intros id w p s Hid Hs Ht. exists (delete id w.(storage_)). split.
    + cbn in *. unfold Memory.load, mbind, prog_bind, gets.
      rewrite Hid, (isExpired_run _ _ _ Hs), bool_decide_true by lia. done.
    + intros id'. cbn. case_decide as Hne; [subst; by rewrite lookup_delete_eq|].
      by rewrite lookup_delete_ne.
  - intros id w p Hid. exists (delete id w.(storage_)). split.
    + cbn in *. unfold Memory.remove, mbind, prog_bind, gets. by rewrite Hid.
    + intros id'. cbn. case_decide as Hne; [subst; by rewrite lookup_delete_eq|].
      by rewrite lookup_delete_ne.
Qed.

Implicit Types w : World MemorySessionStorage.

(** Destroying a session removes its entry and leaves the object to those
    who hold it: destroying it a second time erases the end iterator, and a
    [setValue] through a remaining pointer to a managed session stores it again
    under its old id, so the client's cookie works again. *)
Theorem destroySession_twice w p s key value :
  storage_ok w -> w.(heap) !! p = Some s -> w.(storage_) !! s.(sessionId_) = Some p ->
  s.(sessionManager_) = true ->
  ∃ w1, destroySession s.(sessionId_) w = (Ret tt, w1) ∧
    w1.(storage_) = delete s.(sessionId_) w.(storage_) ∧ w1.(heap) = w.(heap) ∧
    (destroySession s.(sessionId_) w1).1 = Halt UndefinedBehaviour ∧
    ∃ w2, setValue p key value w1 = (Ret tt, w2) ∧ w2.(storage_) = w.(storage_).
Proof.
  intros Hok Hs Hst Hm. unfold destroySession. cbn. unfold Memory.remove, mbind, prog_bind, gets.
  rewrite Hst. eexists. split; [reflexivity|]. cbn. split_and!; try done.
  - by rewrite lookup_delete_eq.
  - unfold setValue, mbind, prog_bind. rewrite (deref_run p _ s) by done.
    unfold assign, modify at 1. rewrite Hm. cbn. unfold Memory.save, mbind, prog_bind.
    rewrite (list_alter_insert _ _ _ _ Hs).
    erewrite deref_run by (cbn; apply list_lookup_insert_eq; by eapply lookup_lt_Some).
    eexists. split; [reflexivity|]. cbn. by rewrite insert_delete_eq, insert_id.
Qed.

(** ** Witnesses *)

(** An empty store, a clock that advances one second per reading, an engine
    that alternates two digits. *)
Definition empty_world : World MemorySessionStorage :=
  mkWorld [] ∅ (λ n, seconds (Z.of_nat n)) 0 (λ n, if Nat.even n then 10%fin else 3%fin) 0.
Definition with_cookie (c : bytes) : HttpRequest := set_headers_ {[ lit "Cookie" := c ]} new_request.

Lemma empty_world_ok : storage_ok empty_world.
Proof. intros id p Hp. cbn in Hp. by rewrite lookup_empty in Hp. Qed.

Lemma getSession_functional_witness :
  ∃ p s resp' w', getSession new_request (new_response true) empty_world = (Ret (p, resp'), w') ∧
    session_result empty_world w' p s [] ∧ p = 0 ∧ length s.(sessionId_) = 31.
Proof.
  destruct (getSession_functional new_request (new_response true) empty_world empty_world_ok)
    as (p & s & resp' & w' & Hrun & Hres & Hcase).
  exists p, s, resp', w'. split; [exact Hrun|]. split; [exact Hres|].
  destruct Hcase as (Hp & _ & _ & _ & Hlen & _). split; [exact Hp|exact Hlen].
Defined.

Lemma session_cookie_roundtrip_witness :
  let w1 := (getSession new_request (new_response true) empty_world).2 in
  ∃ w2, getSession (with_cookie (lit "lang=zh; sessionId=a3a3a3a3a3a3a3a3a3a3a3a3a3a3a3a; x=1"))
          (new_response true) w1 = (Ret (0, new_response true), w2).
Proof.
  intros w1.
  destruct (session_cookie_roundtrip new_request
    (with_cookie (lit "lang=zh; sessionId=a3a3a3a3a3a3a3a3a3a3a3a3a3a3a3a; x=1"))
    (new_response true) (setSessionCookie (next_id empty_world) (new_response true)) (new_response true)
    empty_world w1 0 (lit "lang=zh; ") (lit "; x=1")) as (_ & w2 & s & Hrun & _).
  - apply empty_world_ok.
  - by vm_compute.
  - unfold w1. rewrite (surjective_pairing (getSession _ _ _)) at 1. f_equal.
  - apply (bool_decide_unpack _); by vm_compute.
  - right. by exists (lit " x=1").
  - by vm_compute.
  - by vm_compute.
  - by vm_compute.
  - by exists w2.
Defined.

Lemma destroySession_twice_witness :
  let w := (getSession new_request (new_response true) empty_world).2 in
  ∃ w1, destroySession (next_id empty_world) w = (Ret tt, w1) ∧
    (destroySession (next_id empty_world) w1).1 = Halt UndefinedBehaviour.
Proof.
  intros w.
  destruct (destroySession_twice w 0
    (mkSession (next_id empty_world) ∅ (seconds 3601) 3600 true) (lit "k") (lit "v"))
    as (w1 & Hd & _ & _ & Ht & _).
  - intros id p Hp. destruct (getSession_new new_request (new_response true) empty_world
      empty_world_ok eq_refl) as (w' & t & Hrun & Hres).
    unfold w in Hp |- *. rewrite Hrun in Hp |- *. by apply Hres.
  - by vm_compute.
  - by vm_compute.
  - done.
  - exists w1. split; [exact Hd|exact Ht].
Defined.
