(* ===== verification/Ssl.v ===== *)
(** * TLS: configuration, context and connection

    [HTTP/include/ssl/] and [HTTP/src/ssl/]. OpenSSL is not part of the
    repository: the functions of it the code calls are the class [OpenSSL],
    what the code relies on of its memory BIOs the class [OpenSSLLaws]. *)

From S2P Require Export MuduoBuffer.

(** ** [SslTypes.h] *)
Inductive SSLVersion := TLS_1_0 | TLS_1_1 | TLS_1_2 | TLS_1_3.
Inductive SSLError := NONE | WANT_READ | WANT_WRITE | SYSCALL | SSL | UNKNOWN.
Inductive SSLState := HANDSHAKE | ESTABLISHED | SHUTDOWN | ERROR.

#[export] Instance SSLVersion_eq_dec : EqDecision SSLVersion.
Proof. solve_decision. Defined.
#[export] Instance SSLState_eq_dec : EqDecision SSLState.
Proof. solve_decision. Defined.

(** ** [SslConfig] *)
Record SslConfig := mkSslConfig {
  certFile_ : bytes;
  keyFile_ : bytes;
  chainFile_ : bytes;
  ssl_version_ : SSLVersion;
  cipherList_ : bytes;
  verifyClient_ : bool;
  verifyDepth_ : Z;
  sessionTimeout_ : Z;
  sessionCacheSize_ : Z
}.

(** The constructor: the string with the cipher list goes to [certFile_]. *)
Definition new_SslConfig : SslConfig :=
  mkSslConfig (lit "HIGH:aNULL:!MDS") [] [] TLS_1_2 [] false 4 300 20480.

Definition setCertificateFile (f : bytes) (c : SslConfig) : SslConfig :=
  mkSslConfig f c.(keyFile_) c.(chainFile_) c.(ssl_version_) c.(cipherList_)
    c.(verifyClient_) c.(verifyDepth_) c.(sessionTimeout_) c.(sessionCacheSize_).
Definition setPrivateKeyFile (f : bytes) (c : SslConfig) : SslConfig :=
  mkSslConfig c.(certFile_) f c.(chainFile_) c.(ssl_version_) c.(cipherList_)
    c.(verifyClient_) c.(verifyDepth_) c.(sessionTimeout_) c.(sessionCacheSize_).
Definition setProtocolVersion (v : SSLVersion) (c : SslConfig) : SslConfig :=
  mkSslConfig c.(certFile_) c.(keyFile_) c.(chainFile_) v c.(cipherList_)
    c.(verifyClient_) c.(verifyDepth_) c.(sessionTimeout_) c.(sessionCacheSize_).
Definition setCertificateChainFile (x : bytes) (c : SslConfig) : SslConfig :=
  mkSslConfig c.(certFile_) c.(keyFile_) x c.(ssl_version_) c.(cipherList_)
    c.(verifyClient_) c.(verifyDepth_) c.(sessionTimeout_) c.(sessionCacheSize_).
Definition setCipherList (x : bytes) (c : SslConfig) : SslConfig :=
  mkSslConfig c.(certFile_) c.(keyFile_) c.(chainFile_) c.(ssl_version_) x
    c.(verifyClient_) c.(verifyDepth_) c.(sessionTimeout_) c.(sessionCacheSize_).
Definition setVerifyClient (x : bool) (c : SslConfig) : SslConfig :=
  mkSslConfig c.(certFile_) c.(keyFile_) c.(chainFile_) c.(ssl_version_) c.(cipherList_)
    x c.(verifyDepth_) c.(sessionTimeout_) c.(sessionCacheSize_).
Definition setVerifyDepth (x : Z) (c : SslConfig) : SslConfig :=
  mkSslConfig c.(certFile_) c.(keyFile_) c.(chainFile_) c.(ssl_version_) c.(cipherList_)
    c.(verifyClient_) x c.(sessionTimeout_) c.(sessionCacheSize_).
Definition setSessionTimeout (x : Z) (c : SslConfig) : SslConfig :=
  mkSslConfig c.(certFile_) c.(keyFile_) c.(chainFile_) c.(ssl_version_) c.(cipherList_)
    c.(verifyClient_) c.(verifyDepth_) x c.(sessionCacheSize_).
Definition setSessionCacheSize (x : Z) (c : SslConfig) : SslConfig :=
  mkSslConfig c.(certFile_) c.(keyFile_) c.(chainFile_) c.(ssl_version_) c.(cipherList_)
    c.(verifyClient_) c.(verifyDepth_) c.(sessionTimeout_) x.

(** ** [SslContext] *)

(** The option bits of <openssl/ssl.h> and the calls on an [SSL_CTX] named by
    [CTX]; a call returns its result code. *)
Class OpenSSLContext (CTX : Type) := {
  SSL_CTX_new : option CTX;
  SSL_OP_NO_SSLv2 : Z;
  SSL_OP_NO_SSLv3 : Z;
  SSL_OP_NO_TLSv1_1 : Z;
  SSL_OP_NO_TLSv1_2 : Z;
  SSL_OP_NO_TLSv1_3 : Z;
  SSL_OP_NO_COMPRESSION : Z;
  SSL_OP_CIPHER_SERVER_PREFERENCE : Z;
  SSL_CTX_set_options : Z -> CTX -> CTX;
  SSL_CTX_use_certificate_file : bytes -> CTX -> Z * CTX;
  SSL_CTX_use_PrivateKey_file : bytes -> CTX -> Z * CTX;
  SSL_CTX_check_private_key : CTX -> bool;
  SSL_CTX_use_certificate_chain_file : bytes -> CTX -> Z * CTX;
  SSL_CTX_set_cipher_list : bytes -> CTX -> Z * CTX;
  SSL_CTX_cache : Z -> Z -> CTX -> CTX
}.

Section context.
Context {CTX : Type} `{OpenSSLContext CTX}.

(** [loadCertificates]. *)
Definition loadCertificates (config_ : SslConfig) (ctx : CTX) : bool * CTX :=
  let '(r, ctx) := SSL_CTX_use_certificate_file config_.(certFile_) ctx in
  if (r <=? 0)%Z then (false, ctx) else
  let '(r, ctx) := SSL_CTX_use_PrivateKey_file config_.(keyFile_) ctx in
  if (r <=? 0)%Z then (false, ctx) else
  if negb (SSL_CTX_check_private_key ctx) then (false, ctx) else
  match config_.(chainFile_) with
  | [] => (true, ctx)
  | chain =>
      let '(r, ctx) := SSL_CTX_use_certificate_chain_file chain ctx in
      ((0 <? r)%Z, ctx)
  end.

(** The options of [setupProtocol]'s switch. *)
Definition protocol_options (v : SSLVersion) : Z :=
  let options := Z.lor SSL_OP_NO_SSLv2 SSL_OP_NO_SSLv3 in
  match v with
  | TLS_1_0 => Z.lor options (Z.lor (Z.lor SSL_OP_NO_TLSv1_1 SSL_OP_NO_TLSv1_2) SSL_OP_NO_TLSv1_3)
  | TLS_1_1 => Z.lor options (Z.lor SSL_OP_NO_TLSv1_2 SSL_OP_NO_TLSv1_3)
  | TLS_1_2 => Z.lor options SSL_OP_NO_TLSv1_3
  | TLS_1_3 => options
  end.

Definition setupProtocol (config_ : SslConfig) (ctx : CTX) : bool * CTX :=
  let ctx := SSL_CTX_set_options (protocol_options config_.(ssl_version_)) ctx in
  match config_.(cipherList_) with
  | [] => (true, ctx)
  | ciphers => let '(r, ctx) := SSL_CTX_set_cipher_list ciphers ctx in ((0 <? r)%Z, ctx)
  end.

Definition setupSessionCache (config_ : SslConfig) (ctx : CTX) : CTX :=
  SSL_CTX_cache config_.(sessionCacheSize_) config_.(sessionTimeout_) ctx.

(** [initialize()]: its result and the context left in [ctx_]. *)
Definition ssl_initialize (config_ : SslConfig) : bool * option CTX :=
  match SSL_CTX_new with
  | None => (false, None)
  | Some ctx =>
      let options := Z.lor (Z.lor (Z.lor SSL_OP_NO_SSLv2 SSL_OP_NO_SSLv3) SSL_OP_NO_COMPRESSION)
                       SSL_OP_CIPHER_SERVER_PREFERENCE in
      let ctx := SSL_CTX_set_options options ctx in
      let '(ok, ctx) := loadCertificates config_ ctx in
      if negb ok then (false, Some ctx) else
      let '(ok, ctx) := setupProtocol config_ ctx in
      if negb ok then (false, Some ctx) else
      (true, Some (setupSessionCache config_ ctx))
  end.

End context.

(** ** [SslConnection] *)

(** The error codes of [SSL_get_error] the code distinguishes. *)
Inductive ssl_error :=
| SSL_ERROR_NONE
| SSL_ERROR_WANT_READ
| SSL_ERROR_WANT_WRITE
| SSL_ERROR_SYSCALL
| SSL_ERROR_SSL
| SSL_ERROR_OTHER.

(** An [SSL] with the two memory BIOs it owns once [SSL_set_bio] was called.
    [SSL_read s n] returns its result and what it put in the buffer. *)
Class OpenSSL (T : Type) := {
  SSL_new : option T;
  SSL_do_handshake : T -> Z * T;
  SSL_get_error : T -> Z -> ssl_error;
  SSL_write : T -> bytes -> Z * T;
  SSL_read : T -> nat -> (Z * bytes) * T;
  BIO_write_in : T -> bytes -> T;
  BIO_pending_out : T -> nat;
  BIO_read_out : T -> nat -> bytes * T;
  out_bio : T -> bytes
}.

(** Memory BIOs: [BIO_pending] is the number of characters held, [BIO_read]
    takes them from the front. *)
Class OpenSSLLaws (T : Type) `{OpenSSL T} : Prop := {
  BIO_pending_length s : BIO_pending_out s = length (out_bio s);
  BIO_read_front s n : (BIO_read_out s n).1 = take n (out_bio s);
  BIO_read_rest s n : out_bio (BIO_read_out s n).2 = drop n (out_bio s)
}.

(** What the code does to the TCP connection, in order, and who gets its
    messages. *)
Inductive conn_call :=
| Send (data : bytes)
| Shutdown.
Inductive message_target := ServerOnMessage | SslOnRead.

#[export] Instance conn_call_eq_dec : EqDecision conn_call.
Proof. solve_decision. Defined.

Record TcpConnection := mkTcp {
  calls : list conn_call;
  target : message_target
}.
Definition call (c : conn_call) (tcp : TcpConnection) : TcpConnection :=
  mkTcp (tcp.(calls) ++ [c]) tcp.(target).

(** The members; [messageCallback_] is null or [HttpServer::onMessage]. *)
Record SslConnection (T B : Type) := mkSslConnection {
  ssl_ : option T;
  ssl_state_ : SSLState;
  readBuffer_ : B;
  writeBuffer_ : B;
  decryptedBuffer_ : B;
  messageCallback_ : bool
}.
Arguments mkSslConnection {T B}.
Arguments ssl_ {T B}.
Arguments ssl_state_ {T B}.
Arguments readBuffer_ {T B}.
Arguments writeBuffer_ {T B}.
Arguments decryptedBuffer_ {T B}.
Arguments messageCallback_ {T B}.

Section connection.
Context {T B : Type} `{OpenSSL T} `{MuduoBuffer B}.
Variable empty_buffer : B.

Abbreviation conn_prog A := (prog std_exception (SslConnection T B * TcpConnection) A).

Definition set_ssl_ (t : T) (c : SslConnection T B) : SslConnection T B :=
  mkSslConnection (Some t) c.(ssl_state_) c.(readBuffer_) c.(writeBuffer_) c.(decryptedBuffer_) c.(messageCallback_).
Definition set_ssl_state_ (s : SSLState) (c : SslConnection T B) : SslConnection T B :=
  mkSslConnection c.(ssl_) s c.(readBuffer_) c.(writeBuffer_) c.(decryptedBuffer_) c.(messageCallback_).
Definition set_decryptedBuffer_ (b : B) (c : SslConnection T B) : SslConnection T B :=
  mkSslConnection c.(ssl_) c.(ssl_state_) c.(readBuffer_) c.(writeBuffer_) b c.(messageCallback_).

(** The constructor; with a usable [SSL] it takes over the messages of the
    connection. *)
Definition make_SslConnection (tcp : TcpConnection) : SslConnection T B * TcpConnection :=
  match SSL_new with
  | None => (mkSslConnection None HANDSHAKE empty_buffer empty_buffer empty_buffer false, tcp)
  | Some t => (mkSslConnection (Some t) HANDSHAKE empty_buffer empty_buffer empty_buffer false,
               mkTcp tcp.(calls) SslOnRead)
  end.

Definition setMessageCallback (c : SslConnection T B) : SslConnection T B :=
  mkSslConnection c.(ssl_) c.(ssl_state_) c.(readBuffer_) c.(writeBuffer_) c.(decryptedBuffer_) true.

Definition isHandShakeCompleted (c : SslConnection T B) : bool :=
  bool_decide (c.(ssl_state_) = ESTABLISHED).

(** [ssl_], which is dereferenced. *)
Definition the_ssl : conn_prog T :=
  '(c, _) ← get;
  match c.(ssl_) with Some t => mret t | None => halt UndefinedBehaviour end.
Definition put_ssl (t : T) : conn_prog unit := modify (λ '(c, tcp), (set_ssl_ t c, tcp)).
Definition conn_call_ (k : conn_call) : conn_prog unit := modify (λ '(c, tcp), (c, call k tcp)).

Definition handleHandShake : conn_prog unit :=
  t ← the_ssl;
  let '(ret, t) := SSL_do_handshake t in
  put_ssl t;;
  if decide (ret = 1)%Z then modify (λ '(c, tcp), (set_ssl_state_ ESTABLISHED c, tcp))
  else match SSL_get_error t ret with
       | SSL_ERROR_WANT_READ | SSL_ERROR_WANT_WRITE => mret tt
       | _ => conn_call_ Shutdown
       end.

Definition startHandShake : conn_prog unit := handleHandShake.

(** The loop of [send]: [pending] is the comparison, so 0 or 1. *)
Fixpoint drain_loop (fuel : nat) : conn_prog unit :=
  match fuel with
  | 0 => mret tt
  | S fuel =>
      t ← the_ssl;
      let pending := if decide (0 < BIO_pending_out t) then 1 else 0 in
      if decide (pending = 0) then mret tt else
      let '(buf, t) := BIO_read_out t (Nat.min pending 4096) in
      put_ssl t;;
      (match buf with [] => mret tt | _ => conn_call_ (Send buf) end);;
      drain_loop fuel
  end.

Definition ssl_send (data : bytes) : conn_prog unit :=
  '(c, _) ← get;
  if decide (c.(ssl_state_) ≠ ESTABLISHED) then mret tt else
  t ← the_ssl;
  let '(written, t) := SSL_write t data in
  put_ssl t;;
  if (written <=? 0)%Z then mret tt
  else drain_loop (S (BIO_pending_out t)).

(** [onRead], up to the call of the message callback: the buffer's new value
    and whether the callback, when set, is called. What [SSL_read] decrypts is
    appended to a buffer local to the branch. *)
Definition onRead (buf : B) : conn_prog (B * bool) :=
  '(c, _) ← get;
  match c.(ssl_state_) with
  | HANDSHAKE =>
      t ← the_ssl;
      put_ssl (BIO_write_in t (readable buf));;
      handleHandShake;;
      mret (retrieve (length (readable buf)) buf, false)
  | ESTABLISHED =>
      t ← the_ssl;
      let t := BIO_write_in t (readable buf) in
      let '((ret, decryptedData), t) := SSL_read t 4096 in
      put_ssl t;;
      let decryptedBuffer :=
        if (0 <? ret)%Z then append (take (Z.to_nat ret) decryptedData) empty_buffer
        else empty_buffer in
      '(c, _) ← get;
      mret (retrieve (length (readable buf)) buf, c.(messageCallback_))
  | _ => mret (buf, false)
  end.

(** The members nothing calls. *)
Definition onDcrypted (data : bytes) (c : SslConnection T B) : SslConnection T B :=
  set_decryptedBuffer_ (append data c.(decryptedBuffer_)) c.
(** [TcpConnection::send] of a buffer sends what it holds and empties it. *)
Definition onEcrypted (data : bytes) : conn_prog unit :=
  '(c, _) ← get;
  let buf := append data c.(writeBuffer_) in
  conn_call_ (Send (readable buf));;
  modify (λ '(c, tcp), (mkSslConnection c.(ssl_) c.(ssl_state_) c.(readBuffer_) (retrieve (length (readable buf)) buf)
    c.(decryptedBuffer_) c.(messageCallback_), tcp)).
Definition getLastError (t : T) (ret : Z) : SSLError :=
  match SSL_get_error t ret with
  | SSL_ERROR_NONE => NONE
  | SSL_ERROR_WANT_READ => WANT_READ
  | SSL_ERROR_WANT_WRITE => WANT_WRITE
  | SSL_ERROR_SYSCALL => SYSCALL
  | SSL_ERROR_SSL => SSL
  | SSL_ERROR_OTHER => UNKNOWN
  end.
Definition handleError (e : SSLError) : conn_prog unit :=
  match e with
  | SSL | SYSCALL | UNKNOWN =>
      modify (λ '(c, tcp), (set_ssl_state_ ERROR c, tcp));;
      conn_call_ Shutdown
  | _ => mret tt
  end.
Definition bioRead (has_data : bool) (len : nat) (c : SslConnection T B) : Z * bytes * SslConnection T B :=
  if negb has_data then (-1, [], c)%Z else
  let size := length (readable c.(readBuffer_)) in
  if decide (size = 0) then (-1, [], c)%Z else
  let toRead := Nat.min len size in
  (Z.of_nat toRead, take toRead (readable c.(readBuffer_)),
   mkSslConnection c.(ssl_) c.(ssl_state_) (retrieve toRead c.(readBuffer_)) c.(writeBuffer_)
     c.(decryptedBuffer_) c.(messageCallback_)).

(** [has_data] tells whether the BIO has a connection as its data. *)
Definition bioWrite (has_data : bool) (data : bytes) : conn_prog Z :=
  if negb has_data then mret (-1)%Z else conn_call_ (Send data);; mret (Z.of_nat (length data)).

End connection.

(** [BIO_CTRL_FLUSH] is 11. *)
Definition bioCtrl (cmd : Z) : Z := if bool_decide (cmd = 11)%Z then 1 else 0.
