(* ===== verification/SslFacts.v ===== *)
(** * What the TLS connection does

    Properties of [Ssl.v]: the bytes [send] puts on the wire, the handshake
    that never answers, and the protocol versions a configuration leaves
    enabled. *)

From S2P Require Export Ssl.

(** The data sent so far. *)
Definition sent (tcp : TcpConnection) : bytes :=
  concat (omap (λ c, match c with Send d => Some d | Shutdown => None end) tcp.(calls)).

Lemma sent_call c tcp :
  sent (call c tcp) = sent tcp ++ match c with Send d => d | Shutdown => [] end.
Proof.
  unfold sent, call. cbn [calls]. rewrite omap_app, concat_app. f_equal.
  destruct c; cbn; by rewrite ?app_nil_r.
Qed.

Section connection.
Context {T B : Type} `{OpenSSLLaws T} `{MuduoBuffer B}.
Variable empty_buffer : B.
Implicit Types (c : SslConnection T B) (tcp : TcpConnection).

(** ** [send] *)

(** The loop sends what the write BIO holds, one call per character. *)
Lemma drain_loop_run fuel c tcp t :
  c.(ssl_) = Some t -> length (out_bio t) < fuel ->
  ∃ t', drain_loop fuel (c, tcp) =
    (Ret tt, (set_ssl_ t' c,
              mkTcp (tcp.(calls) ++ map (λ b, Send [b]) (out_bio t)) tcp.(target))) ∧
    out_bio t' = [].
Proof.
  revert c tcp t. induction fuel as [|fuel IH]; intros c tcp t Ht Hf; [lia|].
  cbn [drain_loop]. unfold the_ssl. prog_unfold. rewrite Ht. cbn [fst snd].
  rewrite BIO_pending_length. destruct (out_bio t) as [|b l] eqn:Hout.
  - cbn. exists t. rewrite app_nil_r. split; [|done].
    unfold set_ssl_. rewrite <- Ht. by destruct c, tcp.
  - cbn [length]. destruct (decide (0 < S (length l))) as [_|]; [|lia].
    rewrite decide_False by done.
    change (Nat.min 1 4096) with 1.
    destruct (BIO_read_out t 1) as [buf t1] eqn:Hread.
    pose proof (BIO_read_front t 1) as Hbuf. pose proof (BIO_read_rest t 1) as Hrest.
    rewrite Hread, Hout in Hbuf, Hrest. cbn in Hbuf, Hrest. subst buf.
    unfold put_ssl, conn_call_. prog_unfold.
    destruct (IH (set_ssl_ t1 c) (call (Send [b]) tcp) t1) as (t' & Hrun & Hout').
    + done.
    + rewrite Hrest. rewrite drop_0. cbn [length] in Hf. lia.
    + exists t'. rewrite drop_0 in Hrest. rewrite take_0, Hrun, Hrest. split; [|done].
      cbn [map call calls target]. by rewrite <- app_assoc.
Qed.

(** C20. Once the handshake is over and [SSL_write] accepts the data, [send]
    ends and passes on to the TCP connection exactly the content of the write
    BIO, in order; since [pending] is the result of a comparison, it does so in
    one call per byte. Before that it sends nothing. *)
Theorem ssl_send_bytewise c tcp (t t1 : T) (data : bytes) (written : Z) :
  c.(ssl_) = Some t -> SSL_write t data = (written, t1) ->
  (c.(ssl_state_) ≠ ESTABLISHED -> ssl_send data (c, tcp) = (Ret tt, (c, tcp))) ∧
  (c.(ssl_state_) = ESTABLISHED -> (0 < written)%Z ->
   ∃ c' tcp', ssl_send data (c, tcp) = (Ret tt, (c', tcp')) ∧
     tcp'.(calls) = tcp.(calls) ++ map (λ b, Send [b]) (out_bio t1) ∧
     sent tcp' = sent tcp ++ out_bio t1 ∧
     ∃ t', c'.(ssl_) = Some t' ∧ out_bio t' = []).
Proof.
  intros Ht Hw. split; intros Hs.
  - unfold ssl_send. prog_unfold. cbn. by rewrite decide_True.
  - intros Hpos. unfold ssl_send, the_ssl. prog_unfold. cbn [fst snd].
    rewrite decide_False by (by intros []). rewrite Ht, Hw. unfold put_ssl. prog_unfold.
    rewrite (proj2 (Z.leb_gt written 0)) by lia. rewrite BIO_pending_length.
    destruct (drain_loop_run (S (length (out_bio t1))) (set_ssl_ t1 c) tcp t1)
      as (t' & -> & Hout); [done|lia|].
    eexists _, _. split; [reflexivity|]. cbn [calls]. split_and!; [done| |by exists t'].
    unfold sent. cbn [calls]. rewrite omap_app, concat_app. f_equal.
    induction (out_bio t1) as [|b l IHl]; [done|]. cbn. by f_equal.
Qed.

(** ** The handshake *)

(** The messages that arrive while the handshake lasts. *)
Fixpoint handshake (bufs : list B) : prog std_exception (SslConnection T B * TcpConnection) unit :=
  match bufs with
  | [] => mret tt
  | buf :: bufs =>
      '(c, _) ← get;
      if decide (c.(ssl_state_) = HANDSHAKE) then onRead empty_buffer buf;; handshake bufs
      else mret tt
  end.

Lemma handleHandShake_silent c tcp : sent (handleHandShake (c, tcp)).2.2 = sent tcp.
Proof.
  unfold handleHandShake, the_ssl, put_ssl, conn_call_. prog_unfold.
  destruct (ssl_ c) as [t|]; [|done]. destruct (SSL_do_handshake t) as [ret t1].
  case_decide; [done|]. destruct (SSL_get_error t1 ret); try done; cbn [snd fst]; by rewrite sent_call, app_nil_r.
Qed.

Lemma onRead_silent c tcp buf : sent (onRead empty_buffer buf (c, tcp)).2.2 = sent tcp.
Proof.
  unfold onRead. rewrite (bind_run _ _ _ (c, tcp) (c, tcp)) by done.
  destruct (ssl_state_ c); [| |done..].
  - unfold the_ssl, put_ssl, get, modify, mbind, prog_bind, mret, prog_ret.
    destruct (ssl_ c) as [t|]; [|done]. cbn -[handleHandShake sent set_ssl_].
    set (c1 := set_ssl_ _ c).
    pose proof (handleHandShake_silent c1 tcp) as Hs.
    by destruct (handleHandShake (c1, tcp)) as [[[]| |] [c2 tcp2]].
  - unfold the_ssl, put_ssl, get, modify, mbind, prog_bind, mret, prog_ret.
    destruct (ssl_ c) as [t|]; [|done]. by destruct (SSL_read _ 4096) as [[ret d] t1].
Qed.

(** The server's side of the handshake never leaves the write BIO: from
    the constructor on, whatever the client sends and however many messages it
    takes, not one byte is sent on the TCP connection. *)
Theorem handshake_sends_nothing tcp (bufs : list B) :
  sent ((startHandShake;; handshake bufs) (make_SslConnection empty_buffer tcp)).2.2 = sent tcp.
Proof.
  assert (∀ c tcp, sent (handshake bufs (c, tcp)).2.2 = sent tcp) as Hreads.
  { induction bufs as [|buf bufs IH]; intros c tcp'; [done|].
    cbn [handshake]. rewrite (bind_run _ _ _ (c, tcp') (c, tcp')) by done.
    case_decide; [|done].
    unfold mbind, prog_bind. pose proof (onRead_silent c tcp' buf) as Hr.
    destruct (onRead empty_buffer buf (c, tcp')) as [[a| |] [c1 tcp1]]; cbn [snd] in *; try done.
    rewrite IH. exact Hr. }
  assert (sent (make_SslConnection (T:=T) empty_buffer tcp).2 = sent tcp) as Hmake
    by (unfold make_SslConnection; by destruct SSL_new).
  destruct (make_SslConnection empty_buffer tcp) as [c tcp1]. cbn [snd] in Hmake.
  unfold startHandShake, mbind, prog_bind. pose proof (handleHandShake_silent c tcp1) as Hs.
  destruct (handleHandShake (c, tcp1)) as [[[]| |] [c2 tcp2]]; cbn [snd] in *; [|congruence..].
  rewrite Hreads. congruence.
Qed.

End connection.

(** ** An instance of the interface

    A TLS library without cryptography: the handshake needs one message from
    the client and answers "hello", data is passed through. *)
Record plain_tls := mkPlainTls { tls_in : bytes; tls_out : bytes }.

#[export] Instance plain_openssl : OpenSSL plain_tls := {|
  SSL_new := Some (mkPlainTls [] []);
  SSL_do_handshake t :=
    match t.(tls_in) with
    | [] => ((-1)%Z, t)
    | _ => (1%Z, mkPlainTls [] (t.(tls_out) ++ lit "hello"))
    end;
  SSL_get_error _ ret := if decide (ret = 1)%Z then SSL_ERROR_NONE else SSL_ERROR_WANT_READ;
  SSL_write t data := (Z.of_nat (length data), mkPlainTls t.(tls_in) (t.(tls_out) ++ data));
  SSL_read t n :=
    match t.(tls_in) with
    | [] => (((-1)%Z, []), t)
    | l => ((Z.of_nat (length (take n l)), take n l), mkPlainTls (drop n l) t.(tls_out))
    end;
  BIO_write_in t s := mkPlainTls (t.(tls_in) ++ s) t.(tls_out);
  BIO_pending_out t := length t.(tls_out);
  BIO_read_out t n := (take n t.(tls_out), mkPlainTls t.(tls_in) (drop n t.(tls_out)));
  out_bio t := t.(tls_out)
|}.

#[export] Instance plain_openssl_laws : OpenSSLLaws plain_tls.
Proof. by split. Qed.

(** A connection past its handshake. *)
Definition established : SslConnection plain_tls bytes :=
  mkSslConnection (Some (mkPlainTls [] (lit "hello"))) ESTABLISHED [] [] [] true.

Lemma ssl_send_bytewise_witness :
  ∃ c' tcp', ssl_send (lit "ok") (established, mkTcp [] SslOnRead) = (Ret tt, (c', tcp')) ∧
    sent tcp' = lit "hellook" ∧ length tcp'.(calls) = 7.
Proof.
  destruct (ssl_send_bytewise (B := bytes) established (mkTcp [] SslOnRead)
    (mkPlainTls [] (lit "hello")) (mkPlainTls [] (lit "hellook")) (lit "ok") 2) as [_ Hsend].
  - done.
  - by vm_compute.
  - destruct Hsend as (c' & tcp' & Hrun & Hcalls & Hsent & _); [done|lia|].
    exists c', tcp'. split; [exact Hrun|]. split; [exact Hsent|]. by rewrite Hcalls.
Defined.

Lemma handshake_sends_nothing_witness :
  sent ((startHandShake;; handshake [] [lit "client hello"])
    (make_SslConnection (T := plain_tls) (B := bytes) [] (mkTcp [] ServerOnMessage))).2.2 = [].
Proof. exact (handshake_sends_nothing (T := plain_tls) (B := bytes) [] (mkTcp [] ServerOnMessage) [lit "client hello"]). Defined.
