(* ===== verification/HttpServer.v ===== *)
(** * [http::HttpServer]

    [HTTP/include/http/HttpServer.h] and [HTTP/src/http/HttpServer.cpp]: the
    callbacks of one connection. [ServerConn] is that connection's share of the
    server: the calls made on the TCP connection, its HTTP context, its input
    buffer and its entry in [sslConns_]. [W] is the application's state. The
    message callbacks of the server and of its TLS connections call each other:
    [onMessage] has fuel for the depth of that recursion, [None] is out of
    fuel. *)

From S2P Require Export HttpContext HttpResponse Router Middleware Ssl.

(** Which buffer a [Buffer*] argument points to: the TCP connection's input, or
    the decrypted buffer of its TLS connection. *)
Inductive buffer_ptr := InputBuffer | DecryptedBuffer.

Definition bad_request : bytes := lit "HTTP/1.1 400 Bad Request" ++ crlf ++ crlf.

Record ServerConn (W T B : Type) := mkServerConn {
  world : W;
  tcp : TcpConnection;
  context_ : HttpContext;
  input_ : B;
  ssl_entry : option (SslConnection T B)
}.
Arguments mkServerConn {W T B}.
Arguments world {W T B}.
Arguments tcp {W T B}.
Arguments context_ {W T B}.
Arguments input_ {W T B}.
Arguments ssl_entry {W T B}.

Section server.
Context {W T B : Type} `{OpenSSL T} `{MuduoBuffer B}.
Variable empty_buffer : B.

(** The members of the server the callbacks read. *)
Variable router_ : Router W.
Variable middlewareChain_ : list (option (Middleware W)).
Variable useSsl_ : bool.

(** The [len] bytes at the address of a response object. *)
Variable object_bytes : HttpResponse -> nat -> bytes.

Abbreviation state := (ServerConn W T B).
Abbreviation server_prog A := (prog thrown (ServerConn W T B) A).

(** ** [handleRequest] *)

(** Run the request side of the chain on a copy of the request. *)
Definition run_before (req : HttpRequest) : prog thrown (W * HttpResponse) HttpRequest :=
  λ '(w, resp),
    match processBefore middlewareChain_ (w, req) with
    | (Ret _, (w', req')) => (Ret req', (w', resp))
    | (Throw e, (w', _)) => (Throw e, (w', resp))
    | (Halt x, (w', _)) => (Halt x, (w', resp))
    end.

Definition on_response (f : HttpResponse -> HttpResponse) : prog thrown (W * HttpResponse) unit :=
  modify (λ '(w, resp), (w, f resp)).

Definition handleRequest (req : HttpRequest) : prog thrown (W * HttpResponse) unit :=
  catch
    (mutableReq ← run_before req;
     routed ← route router_ mutableReq;
     (if (routed : bool) then mret tt
      else on_response (λ resp, Response.setCloseConnection true
             (Response.setStatusMessage (lit "Not Found") (Response.setStatusCode k404NotFound resp))));;
     processAfter middlewareChain_)
    (λ e, match e with
     | ThrownResponse res => on_response (λ _, res)
     | ThrownStd _ => on_response (λ resp, Response.setStatusMessage (lit "Internal Server Error")
                        (Response.setStatusCode k500InternalServerError resp))
     end).

(** ** State access *)

Definition set_tcp (t : TcpConnection) (σ : state) : state :=
  mkServerConn σ.(world) t σ.(context_) σ.(input_) σ.(ssl_entry).
Definition set_context (c : HttpContext) (σ : state) : state :=
  mkServerConn σ.(world) σ.(tcp) c σ.(input_) σ.(ssl_entry).
Definition set_world (w : W) (σ : state) : state :=
  mkServerConn w σ.(tcp) σ.(context_) σ.(input_) σ.(ssl_entry).
Definition set_ssl_entry (e : option (SslConnection T B)) (σ : state) : state :=
  mkServerConn σ.(world) σ.(tcp) σ.(context_) σ.(input_) e.

Definition conn_do (c : conn_call) : server_prog unit := modify (λ σ, set_tcp (call c σ.(tcp)) σ).

Definition read_buffer (p : buffer_ptr) (σ : state) : B :=
  match p, σ.(ssl_entry) with
  | DecryptedBuffer, Some c => c.(decryptedBuffer_)
  | _, _ => σ.(input_)
  end.
Definition write_buffer (p : buffer_ptr) (b : B) (σ : state) : state :=
  match p, σ.(ssl_entry) with
  | DecryptedBuffer, Some c => set_ssl_entry (Some (set_decryptedBuffer_ b c)) σ
  | _, _ => mkServerConn σ.(world) σ.(tcp) σ.(context_) b σ.(ssl_entry)
  end.

(** A member of the connection's [SslConnection]; without one the pointer that
    is followed is the end iterator's. *)
Definition on_ssl {A} (m : prog std_exception (SslConnection T B * TcpConnection) A)
  : server_prog A := λ σ,
  match σ.(ssl_entry) with
  | None => (Halt UndefinedBehaviour, σ)
  | Some c =>
      match m (c, σ.(tcp)) with
      | (o, (c', t')) =>
          (match o with Ret a => Ret a | Throw e => Throw (ThrownStd e) | Halt x => Halt x end,
           set_tcp t' (set_ssl_entry (Some c') σ))
      end
  end.

(** ** [onConnection] *)

Definition onConnection (connected : bool) : server_prog unit :=
  if connected then
    (if useSsl_ then
       modify (λ σ, let '(c, t) := make_SslConnection empty_buffer σ.(tcp) in
                    set_tcp t (set_ssl_entry (Some (setMessageCallback c)) σ));;
       on_ssl startHandShake
     else mret tt);;
    modify (set_context new_context)
  else modify (set_ssl_entry None).

(** ** [onRequest] *)

Definition run_handler (req : HttpRequest) (resp : HttpResponse) : server_prog HttpResponse := λ σ,
  match handleRequest req (σ.(world), resp) with
  | (o, (w', resp')) =>
      (match o with Ret _ => Ret resp' | Throw e => Throw e | Halt x => Halt x end, set_world w' σ)
  end.

Definition wants_close (req : HttpRequest) : bool :=
  let connection := getHeader (lit "Connection") req in
  bool_decide (connection = lit "close") ||
  (bool_decide (req.(version_) = lit "HTTP/1.0") && bool_decide (connection ≠ lit "Keep-Alive")).

Definition shutdown_if (b : bool) : server_prog unit := if b then conn_do Shutdown else mret tt.

Definition onRequest (req : HttpRequest) : server_prog unit :=
  response ← run_handler req (new_response (wants_close req));
  σ ← get;
  match useSsl_, σ.(ssl_entry) with
  | true, Some _ =>
      on_ssl (ssl_send (object_bytes response (getContentLength response)));;
      shutdown_if response.(closeConnection_)
  | _, _ =>
      conn_do (Send (readable (appendToBuffer response empty_buffer)));;
      shutdown_if response.(closeConnection_)
  end.

(** ** [onMessage] *)

Definition reject : server_prog unit := conn_do (Send bad_request);; conn_do Shutdown.

(** [catch (const std::exception&)] around the whole of [onMessage]. *)
Definition catch_std (m : server_prog unit) : server_prog unit :=
  catch m (λ e, match e with ThrownStd _ => reject | ThrownResponse r => throw (ThrownResponse r) end).

(** The part after [buf] is settled: parse, reject, answer. *)
Definition serve (buf : buffer_ptr) (receiveTime : Timestamp) (σ : state)
  : option (outcome thrown unit * state) :=
  match parseRequest receiveTime (σ.(context_), read_buffer buf σ) with
  | None => None
  | Some (o, (c, b)) =>
      Some (catch_std
        (ok ← (λ σ, (match o with Ret ok => Ret ok | Throw e => Throw (ThrownStd e) | Halt x => Halt x end, σ));
         (if (ok : bool) then mret tt else reject);;
         σ ← get;
         if gotAll σ.(context_) then
           onRequest σ.(context_).(request_);;
           modify (λ σ, set_context (reset σ.(context_)) σ)
         else mret tt)
        (write_buffer buf b (set_context c σ)))
  end.

(** [SslConnection::onRead(conn, buf, time)] on the entry, the callback apart. *)
Definition ssl_read (buf : buffer_ptr) : server_prog bool :=
  σ ← get;
  '(b, callback) ← on_ssl (onRead empty_buffer (read_buffer buf σ));
  modify (write_buffer buf b);;
  mret callback.

Fixpoint onMessage (fuel : nat) (buf : buffer_ptr) (receiveTime : Timestamp) (σ : state)
  : option (outcome thrown unit * state) :=
  match useSsl_, σ.(ssl_entry) with
  | true, Some _ =>
      match ssl_read buf σ with
      | (Ret callback, σ1) =>
          match
            (if (callback : bool) then
               match fuel with
               | 0 => None
               | S fuel => onMessage fuel DecryptedBuffer receiveTime σ1
               end
             else Some (Ret tt, σ1))
          with
          | Some (Ret _, σ2) =>
              match σ2.(ssl_entry) with
              | Some c =>
                  if negb (isHandShakeCompleted c) then Some (Ret tt, σ2)
                  else if decide (length (readable c.(decryptedBuffer_)) = 0) then Some (Ret tt, σ2)
                  else serve DecryptedBuffer receiveTime σ2
              | None => Some (Halt UndefinedBehaviour, σ2)
              end
          | Some (Throw e, σ2) => Some (catch_std (throw e) σ2)
          | Some (Halt x, σ2) => Some (Halt x, σ2)
          | None => None
          end
      | (Throw e, σ1) => Some (catch_std (throw e) σ1)
      | (Halt x, σ1) => Some (Halt x, σ1)
      end
  | _, _ => serve buf receiveTime σ
  end.

(** Data arrives: it is appended to the input buffer, and the callback set on
    the connection is called. *)
Definition deliver (fuel : nat) (data : bytes) (receiveTime : Timestamp) (σ : state)
  : option (outcome thrown unit * state) :=
  let σ := mkServerConn σ.(world) σ.(tcp) σ.(context_) (append data σ.(input_)) σ.(ssl_entry) in
  match σ.(tcp).(target) with
  | ServerOnMessage => onMessage fuel InputBuffer receiveTime σ
  | SslOnRead =>
      match ssl_read InputBuffer σ with
      | (Ret true, σ1) => onMessage fuel DecryptedBuffer receiveTime σ1
      | (Ret false, σ1) => Some (Ret tt, σ1)
      | (Throw e, σ1) => Some (Throw e, σ1)
      | (Halt x, σ1) => Some (Halt x, σ1)
      end
  end.

End server.

(** ** The server object

    Its router, its middlewares and its TLS context; [CTX] is an [SSL_CTX]. The
    callback for requests is always [handleRequest], and the connection and
    message callbacks that [initialize] sets are the functions above. *)
Module Server.
Section object.
Context {W CTX : Type}.

Record HttpServer := mkHttpServer {
  routes : Router W;
  middlewares : list (option (Middleware W));
  sslCtx_ : option CTX;
  useSsl_ : bool
}.
Implicit Types (s : HttpServer) (cb : handler W) (path : bytes) (m : Method).

Definition set_routes (x : Router W) s : HttpServer := mkHttpServer x s.(middlewares) s.(sslCtx_) s.(useSsl_).
Definition set_middlewares (x : list (option (Middleware W))) s : HttpServer := mkHttpServer s.(routes) x s.(sslCtx_) s.(useSsl_).
Definition set_sslCtx (x : option CTX) s : HttpServer := mkHttpServer s.(routes) s.(middlewares) x s.(useSsl_).

Definition new_HttpServer (useSsl : bool) : HttpServer := mkHttpServer new_router [] None useSsl.

(** [Get] and [Post], with a callback and with a handler. *)
Definition Get path cb s : HttpServer := set_routes (registerCallBack kGet path cb s.(routes)) s.
Definition Post path cb s : HttpServer := set_routes (registerCallBack kPost path cb s.(routes)) s.
Definition GetHandler path cb s : HttpServer := set_routes (registerHandler kGet path cb s.(routes)) s.
Definition PostHandler path cb s : HttpServer := set_routes (registerHandler kPost path cb s.(routes)) s.

(** [addRoute]; [None] as for the router. *)
Definition addRoute m path cb s : option HttpServer := (λ rt, set_routes rt s) <$> addRegexCallback m path cb s.(routes).
Definition addRouteHandler m path cb s : option HttpServer := (λ rt, set_routes rt s) <$> addRegexHandler m path cb s.(routes).

Definition add_middleware (x : option (Middleware W)) s : HttpServer := set_middlewares (addMiddleware x s.(middlewares)) s.
Definition enableSSL (enable : bool) s : HttpServer := mkHttpServer s.(routes) s.(middlewares) s.(sslCtx_) enable.

(** A context that cannot be initialised ends the process by [abort()]. *)
Definition setSslConfig `{OpenSSLContext CTX} (config : SslConfig) : prog std_exception HttpServer unit :=
  s ← get;
  if s.(useSsl_) then
    let '(ok, ctx) := ssl_initialize config in
    modify (set_sslCtx ctx);;
    if ok : bool then mret tt else halt Terminated
  else mret tt.

End object.
Arguments HttpServer : clear implicits.
End Server.
