(* ===== verification/HttpServerFacts.v ===== *)
(** * What the HTTP server promises

    Properties of [HttpServer.v]: the middleware chain as an onion around the
    route, the outcomes of [handleRequest], one request from the wire to the
    answer, totality of the message callback, and what the TLS path does. *)

From S2P Require Export HttpServer HttpParser SslFacts.

(** ** The chain *)
Section chain.
Context {W : Type}.
Implicit Types (m : Middleware W) (ms : list (Middleware W)) (rt : Router W).

Abbreviation resp_prog A := (prog thrown (W * HttpResponse) A).

(** The request side of one middleware. *)
Definition before_one m (req : HttpRequest) : resp_prog HttpRequest := run_before [Some m] req.

(** Specification: each middleware wraps the rest of the chain. *)
Fixpoint onion ms (core : HttpRequest -> resp_prog unit) (req : HttpRequest) : resp_prog unit :=
  match ms with
  | [] => core req
  | m :: ms' => req' ← before_one m req; onion ms' core req';; m.(after)
  end.

Lemma run_before_cons m (chain : list (option (Middleware W))) req σ :
  run_before (Some m :: chain) req σ = (req' ← before_one m req; run_before chain req') σ.
Proof.
  destruct σ as [w resp]. unfold before_one, run_before. cbn. unfold mbind, prog_bind.
  destruct (before m (w, req)) as [[[]|e|x] [w' req']]; cbn; [|done..].
  by destruct (processBefore chain (w', req')) as [[] []].
Qed.

Lemma after_loop_ret ms σ :
  Forall (λ m, ∀ σ, ∃ σ', m.(after) σ = (Ret tt, σ')) ms ->
  ∃ σ', after_loop (Some <$> ms) σ = (Ret tt, σ').
Proof.
  intros Hms. revert σ. induction Hms as [|m ms Hm _ IH]; intros σ; [by eexists|].
  cbn. unfold mbind, prog_bind. destruct (Hm σ) as [σ' ->]. apply IH.
Qed.

(** The order of the calls, before the [catch] of [processAfter]. *)
Lemma onion_loop ms (core : HttpRequest -> resp_prog unit) req σ :
  (req' ← run_before (Some <$> ms) req; core req';; after_loop (reverse (Some <$> ms))) σ =
  onion ms core req σ.
Proof.
  revert req σ. induction ms as [|m ms IH]; intros req [w resp].
  - cbn. unfold mbind, prog_bind. cbn. by destruct (core req (w, resp)) as [[[]| |] ?].
  - change (Some <$> m :: ms) with (Some m :: (Some <$> ms)). rewrite reverse_cons. cbn [onion].
    transitivity ((req' ← before_one m req;
      ((req'' ← run_before (Some <$> ms) req'; core req'';; after_loop (reverse (Some <$> ms)));;
       m.(after))) (w, resp)).
    2:{ apply bind_congr. intros req' σ. unfold mbind at 1 4, prog_bind at 1 3. by rewrite IH. }
    unfold mbind at 1 2 3, prog_bind at 1 2 3. rewrite run_before_cons. unfold mbind at 1, prog_bind at 1.
    destruct (before_one m req (w, resp)) as [[req'|e|x] σ']; [|done..].
    unfold mbind, prog_bind. destruct (run_before (Some <$> ms) req' σ') as [[req''|e|x] σ'']; [|done..].
    destruct (core req'' σ'') as [[[]|e|x] σ3]; [|done..].
    rewrite after_loop_app. unfold mbind, prog_bind.
    destruct (after_loop (reverse (Some <$> ms)) σ3) as [[[]|e|x] σ4]; [|done..].
    cbn. unfold mbind, prog_bind. by destruct (after m σ4) as [[[]| |] ?].
Qed.

End chain.

(** ** [handleRequest] *)
Section handle_request.
Context {W : Type}.
Implicit Types (m : Middleware W) (ms : list (Middleware W)) (rt : Router W).

Definition not_found (resp : HttpResponse) : HttpResponse :=
  Response.setCloseConnection true
    (Response.setStatusMessage (lit "Not Found") (Response.setStatusCode k404NotFound resp)).
Definition server_error (resp : HttpResponse) : HttpResponse :=
  Response.setStatusMessage (lit "Internal Server Error")
    (Response.setStatusCode k500InternalServerError resp).

(** The core of the onion: the route, or 404. *)
Definition route_or_404 rt (req : HttpRequest) : prog thrown (W * HttpResponse) unit :=
  routed ← route rt req;
  if (routed : bool) then mret tt else on_response not_found.

Definition recover (e : thrown) : prog thrown (W * HttpResponse) unit :=
  match e with
  | ThrownResponse res => on_response (λ _, res)
  | ThrownStd _ => on_response server_error
  end.

Lemma handleRequest_eq rt (chain : list (option (Middleware W))) req σ :
  handleRequest rt chain req σ =
    catch (req' ← run_before chain req; route_or_404 rt req';; processAfter chain) recover σ.
Proof.
  apply catch_congr; [|by intros []].
  apply bind_congr. intros req' σ'. unfold route_or_404. symmetry. apply prog_bind_assoc.
Qed.

Lemma handleRequest_no_throw rt chain req σ e : (handleRequest rt chain req σ).1 ≠ Throw e.
Proof.
  rewrite handleRequest_eq. apply catch_no_throw. by intros [] [].
Qed.

(** C14. [handleRequest] is the onion of the middlewares around the route: when
    no response-side hook throws, it runs the request-side hooks in order, each
    on the request the previous one left, then the route (or the 404 answer),
    then the response-side hooks in reverse order, and an exception anywhere in
    it is turned into the thrown response or a 500; it never throws itself. *)
Theorem handleRequest_onion rt ms (req : HttpRequest) σ :
  Forall (λ m, ∀ σ, ∃ σ', m.(after) σ = (Ret tt, σ')) ms ->
  handleRequest rt (Some <$> ms) req σ = catch (onion ms (route_or_404 rt) req) recover σ ∧
  (∀ e, (handleRequest rt (Some <$> ms) req σ).1 ≠ Throw e).
Proof.
  intros Hms. split; [|intros e; apply handleRequest_no_throw]. rewrite handleRequest_eq.
  apply catch_congr; [|done]. rewrite <- onion_loop.
  apply bind_congr. intros req' σ1. apply bind_congr. intros [] σ2.
  unfold processAfter, catch. rewrite <- fmap_reverse.
  destruct (after_loop_ret (reverse ms) σ2) as [σ' ->]; [|done].
  by rewrite reverse_Permutation.
Qed.

(** The answers [handleRequest] makes of each failure: a response thrown
    by a request-side hook becomes the answer and the router is not run; a
    request no route takes is answered 404 and closes the connection, then the
    response-side hooks run; a handler's standard exception is answered 500,
    with whatever else the handler had set, and the response-side hooks do not
    run (no CORS headers on errors). *)
Theorem handleRequest_failures rt chain (req : HttpRequest) (w w' : W) (req' : HttpRequest) resp :
  (∀ res, processBefore chain (w, req) = (Throw (ThrownResponse res), (w', req')) ->
     handleRequest rt chain req (w, resp) = (Ret tt, (w', res))) ∧
  (processBefore chain (w, req) = (Ret tt, (w', req')) ->
     (route rt req' (w', resp) = (Ret false, (w', resp)) ->
        (∀ s, ∃ s', after_loop (reverse chain) s = (Ret tt, s')) ->
        handleRequest rt chain req (w, resp) = processAfter chain (w', not_found resp)) ∧
     (∀ e w'' resp', route rt req' (w', resp) = (Throw (ThrownStd e), (w'', resp')) ->
        handleRequest rt chain req (w, resp) = (Ret tt, (w'', server_error resp')))).
Proof.
  split; [intros res Hb|intros Hb; split; [intros Hr Ha|intros e w'' resp' Hr]];
    rewrite handleRequest_eq; unfold catch.
  - erewrite bind_throw by (unfold run_before; by rewrite Hb). done.
  - erewrite bind_run by (unfold run_before; by rewrite Hb).
    erewrite bind_run by (unfold route_or_404; erewrite bind_run by exact Hr; done).
    unfold processAfter, catch. destruct (Ha (w', not_found resp)) as [s' Hs'].
    change (on_response _ _).2 with (w', not_found resp). by rewrite Hs'.
  - erewrite bind_run by (unfold run_before; by rewrite Hb).
    erewrite bind_throw by (unfold route_or_404; erewrite bind_throw by exact Hr; done). done.
Qed.

End handle_request.

(** ** The message callback without TLS *)

Section messages.
Context {W T B : Type} `{OpenSSL T} `{MuduoBufferLaws B}.
Variable empty_buffer : B.
Variable router_ : Router W.
Variable middlewareChain_ : list (option (Middleware W)).
Variable object_bytes : HttpResponse -> nat -> bytes.

Abbreviation on_message ssl := (onMessage empty_buffer router_ middlewareChain_ ssl object_bytes).
Implicit Types σ : ServerConn W T B.

(** Without TLS the callback is [serve] on the input buffer. *)
Lemma onMessage_plain fuel t σ :
  on_message false fuel InputBuffer t σ =
    serve empty_buffer router_ middlewareChain_ false object_bytes InputBuffer t σ.
Proof. by destruct fuel. Qed.

(** The answer to a complete request. *)
Definition answer (resp : HttpResponse) : list conn_call :=
  Send (response_bytes resp) :: (if resp.(closeConnection_) then [Shutdown] else []).

Lemma onRequest_plain req σ w' resp :
  readable empty_buffer = [] ->
  handleRequest router_ middlewareChain_ req (σ.(world), new_response (wants_close req))
    = (Ret tt, (w', resp)) ->
  onRequest empty_buffer router_ middlewareChain_ false object_bytes req σ =
    (Ret tt, set_tcp (mkTcp (σ.(tcp).(calls) ++ answer resp) σ.(tcp).(target)) (set_world w' σ)).
Proof.
  intros Hempty Hh. unfold onRequest.
  erewrite bind_run by (unfold run_handler; by rewrite Hh).
  erewrite bind_run by done. erewrite bind_run by done.
  rewrite appendToBuffer_eq, Hempty. unfold shutdown_if, answer.
  destruct (closeConnection_ resp); [|done]. unfold conn_do, modify, set_tcp, call. cbn.
  by rewrite <- app_assoc.
Qed.


(** *** Totality *)

Lemma round_throw_state t c l e c' n :
  round t c l = (Throw e, c', n) -> c'.(state_) = c.(state_).
Proof.
  unfold round, headers_done. intros Hr. repeat case_match; by simplify_eq/=.
Qed.

Lemma round_more_state t c l c' n :
  round t c l = (Ret More, c', n) -> c.(state_) ≠ kGotAll -> c'.(state_) ≠ kGotAll.
Proof. intros Hr Hc. by destruct (round_more _ _ _ _ _ Hr Hc). Qed.

Lemma parse_throw_state fuel t c (b : B) e c' b' :
  parse_loop fuel t (c, b) = Some (Throw e, (c', b')) ->
  c.(state_) ≠ kGotAll -> c'.(state_) ≠ kGotAll.
Proof.
  revert c b. induction fuel as [|fuel IH]; intros c b; [done|]. cbn [parse_loop].
  rewrite parse_step_round. destruct (round t c (readable b)) as [[o c1] n] eqn:Hr.
  destruct o as [[|ok]|e'|w]; try done; intros Hl Hc.
  - eapply IH; [exact Hl|]. by eapply round_more_state.
  - injection Hl as -> <- <-. by rewrite (round_throw_state _ _ _ _ _ _ Hr).
Qed.

Lemma run_handler_no_throw req resp σ e :
  (run_handler router_ middlewareChain_ req resp σ).1 ≠ Throw e.
Proof.
  unfold run_handler. pose proof (handleRequest_no_throw router_ middlewareChain_ req
    (σ.(world), resp) e) as Hn.
  destruct (handleRequest _ _ req _) as [[[]|e'|x] [w' resp']]; [done| |done].
  intros [= ->]. by apply Hn.
Qed.

Lemma onRequest_no_throw req σ e :
  (onRequest empty_buffer router_ middlewareChain_ false object_bytes req σ).1 ≠ Throw e.
Proof.
  unfold onRequest. unfold mbind at 1, prog_bind at 1.
  pose proof (run_handler_no_throw req (new_response (wants_close req)) σ e) as Hn.
  destruct (run_handler _ _ req _ σ) as [[resp|e'|x] σ1]; [| |done].
  2:{ intros [= ->]. by apply Hn. }
  erewrite bind_run by done. erewrite bind_run by done. unfold shutdown_if.
  by destruct (closeConnection_ resp).
Qed.

(** Without TLS, on a context that is not complete, every message is
    handled: parsing ends, the callback never lets an exception out, and when
    it returns, the context is again one that the next message can be parsed
    into. (What is left besides returning is an [assert] failing or undefined
    behaviour in a handler.) *)
Theorem onMessage_total fuel (t : Timestamp) σ :
  σ.(context_).(state_) ≠ kGotAll ->
  ∃ o σ', on_message false fuel InputBuffer t σ = Some (o, σ') ∧
    (∀ e, o ≠ Throw e) ∧
    (o = Ret tt -> σ'.(context_).(state_) ≠ kGotAll).
Proof.
  intros Hc. rewrite onMessage_plain. unfold serve. cbn [read_buffer].
  destruct (parse_loop_total (parse_fuel (σ.(context_), σ.(input_))) t σ.(context_) σ.(input_))
    as [[o [c b]] Hp]; [unfold parse_fuel; cbn; lia|done|].
  unfold parseRequest. rewrite Hp. set (σ1 := write_buffer _ _ _).
  destruct o as [ok|e|x].
  - set (σ2 := ((if ok then mret tt else reject) σ1 : outcome thrown unit * _).2).
    assert ((if ok then mret tt else reject) σ1 = (Ret tt, σ2)) as Hrej by by destruct ok.
    assert (σ2.(context_) = c) as Hc2 by by destruct ok.
    unfold catch_std, catch. erewrite bind_run by done. erewrite bind_run by exact Hrej.
    erewrite bind_run by done. rewrite Hc2. unfold gotAll. case_bool_decide as Hgot.
    + unfold mbind, prog_bind. pose proof (λ e, onRequest_no_throw (request_ c) σ2 e) as Hn.
      destruct (onRequest _ _ _ _ _ _ σ2) as [[[]|e|x] σ3].
      * eexists _, _. by split_and!.
      * by destruct (Hn e).
      * eexists _, _. by split_and!.
    + eexists _, _. split_and!; [reflexivity|done|]. intros _. cbn. by rewrite Hc2.
  - apply parse_throw_state in Hp; [|done]. eexists _, _. by split_and!.
  - eexists _, _. by split_and!.
Qed.

(** *** OPTIONS *)

Lemma processRequestLine_options target r :
  r.(method_) = kInvalid ->
  processRequestLine (lit "OPTIONS " ++ target) r = (Ret false, set_method_ kInvalid r).
Proof.
  intros Hm. unfold processRequestLine.
  assert (find_char " "%char (lit "OPTIONS " ++ target) = 7) as Hsp.
  { change (lit "OPTIONS " ++ target) with (lit "OPTIONS" ++ " "%char :: target).
    rewrite find_char_hit; [done|]. apply (bool_decide_unpack _). by vm_compute. }
  rewrite Hsp, decide_False by (rewrite length_app; cbn; lia).
  change (take 7 (lit "OPTIONS " ++ target)) with (lit "OPTIONS").
  rewrite (bind_run _ _ _ false (set_method_ kInvalid r)); [done|].
  unfold setMethod. prog_unfold. rewrite Hm. by vm_compute.
Qed.

(** A CORS preflight never reaches the CORS middleware: [setMethod] does
    not know OPTIONS, so whatever middlewares and routes are installed, an
    OPTIONS request is answered 400 and the connection is shut down, with the
    application's state and the rest of the connection untouched. *)
Theorem options_rejected fuel (t : Timestamp) σ (target rest : bytes) r0 :
  σ.(context_) = mkHttpContext kExpectRequestLine r0 -> r0.(method_) = kInvalid ->
  CR ∉ target -> readable σ.(input_) = lit "OPTIONS " ++ target ++ crlf ++ rest ->
  ∃ σ', on_message false fuel InputBuffer t σ = Some (Ret tt, σ') ∧
    σ'.(world) = σ.(world) ∧
    σ'.(tcp).(calls) = σ.(tcp).(calls) ++ [Send bad_request; Shutdown] ∧
    readable σ'.(input_) = readable σ.(input_).
Proof.
  intros Hctx Hm Hcr Hin. rewrite onMessage_plain. unfold serve. cbn [read_buffer].
  assert (parseRequest t (context_ σ, input_ σ) =
    Some (Ret false, (mkHttpContext kExpectRequestLine (set_method_ kInvalid r0), input_ σ))) as ->.
  { unfold parseRequest, parse_fuel. cbn [parse_loop snd]. rewrite parse_step_round.
    unfold round. rewrite Hctx, Hin. cbn [state_ request_].
    assert (CR ∉ lit "OPTIONS " ++ target) as Hcr'.
    { rewrite elem_of_app. intros [Hc|?]; [|done]. revert Hc. apply (bool_decide_unpack _). by vm_compute. }
    rewrite app_assoc, find_crlf_line by done. rewrite take_app_length.
    by rewrite processRequestLine_options. }
  eexists. split.
  - f_equal.
  - cbn. split_and!; try done. by rewrite <- app_assoc.
Qed.

End messages.

(** ** The message callback with TLS *)

Section tls.
Context {W T B : Type} `{OpenSSL T} `{MuduoBuffer B}.
Variable empty_buffer : B.
Variable router_ : Router W.
Variable middlewareChain_ : list (option (Middleware W)).
Variable object_bytes : HttpResponse -> nat -> bytes.
Implicit Types σ : ServerConn W T B.

(** Past the handshake, with the callback [onConnection] set. *)
Definition tls_established σ : Prop :=
  ∃ c t, σ.(ssl_entry) = Some c ∧ c.(ssl_) = Some t ∧ c.(ssl_state_) = ESTABLISHED ∧
    c.(messageCallback_) = true.

Lemma ssl_read_established buf σ :
  tls_established σ -> ∃ σ', ssl_read empty_buffer buf σ = (Ret true, σ') ∧ tls_established σ'.
Proof.
  intros (c & t & Hc & Ht & Hs & Hcb). unfold ssl_read.
  rewrite (bind_run _ _ _ σ σ) by done.
  destruct (SSL_read (BIO_write_in t (readable (read_buffer buf σ))) 4096) as [[ret d] t1] eqn:Hr.
  set (c1 := set_ssl_ t1 c).
  erewrite bind_run.
  2:{ unfold on_ssl. rewrite Hc. unfold onRead. rewrite (bind_run _ _ _ (c, tcp σ) (c, tcp σ)) by done.
      rewrite Hs. erewrite bind_run by (unfold the_ssl; erewrite bind_run by done; cbv beta iota; by rewrite Ht).
      rewrite Hr. erewrite bind_run by done. erewrite bind_run by done. reflexivity. }
  cbn [messageCallback_ set_ssl_]. rewrite Hcb. eexists. split; [reflexivity|].
  destruct buf; cbn; eexists _, _; split_and!; try reflexivity; done.
Qed.

(** Over TLS no request is ever answered: once the handshake is complete,
    [onMessage] and [SslConnection::onRead], which is its own message callback
    through [onMessage], call each other without end; no depth of calls is
    enough for a message to return. *)
Theorem tls_message_never_returns fuel (t : Timestamp) (data : bytes) σ :
  tls_established σ ->
  onMessage empty_buffer router_ middlewareChain_ true object_bytes fuel InputBuffer t σ = None ∧
  (σ.(tcp).(target) = SslOnRead ->
   deliver empty_buffer router_ middlewareChain_ true object_bytes fuel data t σ = None).
Proof.
  assert (∀ fuel buf σ, tls_established σ ->
    onMessage empty_buffer router_ middlewareChain_ true object_bytes fuel buf t σ = None) as Hrec.
  { clear fuel σ. induction fuel as [|fuel IH]; intros buf σ Hσ;
      destruct (ssl_read_established buf σ Hσ) as (σ' & Hr & Hσ');
      destruct Hσ as (c & t0 & Hc & _); cbn [onMessage]; rewrite Hc, Hr; [done|].
    by rewrite (IH DecryptedBuffer σ' Hσ'). }
  intros Hσ. split; [by apply Hrec|]. intros Ht. unfold deliver.
  set (σ1 := mkServerConn _ _ _ _ _).
  assert (tls_established σ1) as Hσ1 by exact Hσ.
  change (target (tcp σ1)) with (target (tcp σ)). rewrite Ht.
  destruct (ssl_read_established InputBuffer σ1 Hσ1) as (σ' & -> & Hσ'). by apply Hrec.
Qed.

End tls.

(** ** Witnesses *)

(** A server with one route, "/menu", that answers "hi", behind CORS. *)
Definition say_hi : handler bytes := λ req,
  modify (λ '(w, r), (w ++ lit "hi ",
    Response.setBody (lit "hi") (Response.setStatusLine k200Ok (lit "OK") req.(version_) r))).
Definition hi_router : Router bytes := registerHandler kGet (lit "/menu") say_hi new_router.
Definition hi_chain : list (option (Middleware bytes)) := Some <$> [CorsMiddleware defaultConfig].
Definition hi_response : HttpResponse :=
  addCorsHeaders defaultConfig
    (Response.setBody (lit "hi") (Response.setStatusLine k200Ok (lit "OK") (lit "HTTP/1.1") (new_response false)))
    (lit "*").
Definition no_objects : HttpResponse -> nat -> bytes := λ _ _, [].
Definition conn_with (input : bytes) : ServerConn bytes plain_tls bytes :=
  mkServerConn [] (mkTcp [] ServerOnMessage) new_context input None.

Lemma cors_after_ret : Forall (λ m : Middleware bytes, ∀ σ, ∃ σ', m.(after) σ = (Ret tt, σ'))
  [CorsMiddleware defaultConfig].
Proof. repeat constructor. intros σ. by eexists. Qed.

Lemma handleRequest_onion_witness :
  handleRequest hi_router hi_chain (get_request (lit "/menu")) ([], new_response true) =
  catch (onion [CorsMiddleware defaultConfig] (route_or_404 hi_router) (get_request (lit "/menu")))
    recover ([], new_response true).
Proof.
  exact (proj1 (handleRequest_onion hi_router [CorsMiddleware defaultConfig]
    (get_request (lit "/menu")) ([], new_response true) cors_after_ret)).
Defined.

Lemma handleRequest_failures_witness :
  handleRequest hi_router [] (get_request (lit "/nowhere")) ([], new_response false) =
    (Ret tt, ([], not_found (new_response false))).
Proof.
  destruct (handleRequest_failures hi_router [] (get_request (lit "/nowhere")) [] []
    (get_request (lit "/nowhere")) (new_response false)) as [_ Hroute].
  destruct Hroute as [H404 _]; [done|].
  rewrite H404; [done|by vm_compute|intros s; by exists s].
Defined.


Lemma onMessage_total_witness :
  ∃ o σ', onMessage [] hi_router hi_chain false no_objects 0 InputBuffer default_timestamp
      (conn_with (lit "nonsense" ++ crlf)) = Some (o, σ') ∧ σ'.(tcp).(calls) = [Send bad_request; Shutdown].
Proof.
  destruct (onMessage_total (T := plain_tls) (B := bytes) [] hi_router hi_chain no_objects 0
    default_timestamp (conn_with (lit "nonsense" ++ crlf))) as (o & σ' & Hrun & _ & _); [done|].
  exists o, σ'. split; [exact Hrun|]. vm_compute in Hrun. injection Hrun as <- <-. done.
Defined.

Lemma options_rejected_witness :
  ∃ σ', onMessage [] hi_router hi_chain false no_objects 0 InputBuffer default_timestamp
      (conn_with (lit "OPTIONS " ++ lit "/menu HTTP/1.1" ++ crlf ++ crlf)) = Some (Ret tt, σ') ∧
    σ'.(tcp).(calls) = [Send bad_request; Shutdown].
Proof.
  destruct (options_rejected (T := plain_tls) (B := bytes) [] hi_router hi_chain no_objects 0
    default_timestamp (conn_with (lit "OPTIONS " ++ lit "/menu HTTP/1.1" ++ crlf ++ crlf))
    (lit "/menu HTTP/1.1") crlf new_request) as (σ' & Hrun & _ & Hcalls & _).
  - done.
  - done.
  - apply (bool_decide_unpack _). by vm_compute.
  - done.
  - exists σ'. split; [exact Hrun|exact Hcalls].
Defined.

Definition tls_conn : ServerConn bytes plain_tls bytes :=
  mkServerConn [] (mkTcp [] SslOnRead) new_context [] (Some established).

Lemma tls_message_never_returns_witness :
  deliver [] hi_router hi_chain true no_objects 100 (render_request sample_get) default_timestamp
    tls_conn = None.
Proof.
  apply (tls_message_never_returns (T := plain_tls) (B := bytes) [] hi_router hi_chain no_objects 100
    default_timestamp (render_request sample_get) tls_conn).
  - exists established, (mkPlainTls [] (lit "hello")). split_and!; reflexivity.
  - reflexivity.
Defined.
