(* ===== verification/AiGame.v ===== *)
(** * The Gomoku game and its computer player

    [WebAPP/Gomoku/include/AiGame.h] and [WebAPP/Gomoku/src/AiGame.cpp]. The
    board is the vector of vectors of the code; the strings that fill it are
    the three constants of the header. [int] coordinates are in [Z]; the search
    passes the one shared board along. *)

From S2P Require Export CppString.

Definition BOARD_SIZE : Z := 15.
Definition BOARD_CELLS : nat := 15.

(** The strings of a cell: [EMPTY] is " ", [AI_PLAYER] "white", [HUMAN_PLAYER]
    "black". *)
Inductive cell := EMPTY | AI_PLAYER | HUMAN_PLAYER.

#[export] Instance cell_eq_dec : EqDecision cell.
Proof. solve_decision. Defined.

Abbreviation board := (list (list cell)).
Abbreviation pos := (Z * Z)%type.

(** [std::sort]: for a strict order it rearranges the range. *)
Class StdSort (A : Type) := {
  std_sort : (A -> A -> bool) -> list A -> list A;
  std_sort_perm (less : A -> A -> bool) (l : list A) :
    StrictOrder (λ a b, less a b = true) -> std_sort less l ≡ₚ l
}.

(** [board_[x][y]], for a position on the board, and the assignment to it. *)
Definition at_ (b : board) (x y : Z) : cell :=
  default EMPTY (b !! Z.to_nat x ≫= λ row, row !! Z.to_nat y).
Definition set_at (x y : Z) (c : cell) (b : board) : board :=
  alter (λ row, <[Z.to_nat y := c]> row) (Z.to_nat x) b.

Definition isInBoard (x y : Z) : bool :=
  (0 <=? x)%Z && (x <? BOARD_SIZE)%Z && (0 <=? y)%Z && (y <? BOARD_SIZE)%Z.

(** The positions in the order of the two nested loops. *)
Definition all_cells : list pos :=
  flat_map (λ i, map (λ j, (Z.of_nat i, Z.of_nat j)) (seq 0 BOARD_CELLS)) (seq 0 BOARD_CELLS).

(** [dx] and [dy]. *)
Definition directions : list pos := [(1, 0); (0, 1); (1, 1); (1, -1)]%Z.

(** ** [checkwin] *)

(** The rounds [i, i + 1, ...] of the loop in direction [(dx, dy)]: the stones
    counted before the [break]. *)
Fixpoint run_length (rounds : nat) (i : Z) (b : board) (p : cell) (x y dx dy : Z) : nat :=
  match rounds with
  | 0 => 0
  | S rounds =>
      let nx := (x + i * dx)%Z in
      let ny := (y + i * dy)%Z in
      if negb (isInBoard nx ny) || bool_decide (at_ b nx ny ≠ p) then 0
      else S (run_length rounds (i + 1) b p x y dx dy)
  end.

(** [for (int i = 1; i < 5; ++i)], towards [(dx, dy)] and away from it. *)
Definition checkwin (b : board) (x y : Z) (p : cell) : bool :=
  existsb (λ '(dx, dy),
    5 <=? 1 + run_length 4 1 b p x y dx dy + run_length 4 1 b p x y (- dx) (- dy)) directions.

(** ** [evaluateBoard] *)

Inductive PatternType :=
| LIVE_ONE | LIVE_TWO | LIVE_THREE | LIVE_FOUR
| BLOCKED_ONE | BLOCKED_TWO | BLOCKED_THREE | BLOCKED_FOUR
| FIVE.

(** The table: [BLOCKED_ONE] has no entry, and [at] would throw. *)
Definition PATTERN_SCORE (t : PatternType) : option Z :=
  match t with
  | LIVE_ONE => Some 10
  | LIVE_TWO => Some 100
  | LIVE_THREE => Some 1000
  | LIVE_FOUR => Some 100000
  | BLOCKED_TWO => Some 50
  | BLOCKED_THREE => Some 500
  | BLOCKED_FOUR => Some 50000
  | FIVE => Some 1000000
  | BLOCKED_ONE => None
  end%Z.

Definition opponent (p : cell) : cell := if decide (p = HUMAN_PLAYER) then AI_PLAYER else HUMAN_PLAYER.

(** The rounds [i, i + 1, ...]: stones counted, and whether the loop met the
    border or a stone of the opponent. *)
Fixpoint extend (rounds : nat) (i : Z) (b : board) (p : cell) (x y dx dy : Z) : nat * bool :=
  match rounds with
  | 0 => (0, false)
  | S rounds =>
      let nx := (x + i * dx)%Z in
      let ny := (y + i * dy)%Z in
      if negb (isInBoard nx ny) || bool_decide (at_ b nx ny = opponent p) then (0, true)
      else if bool_decide (at_ b nx ny = EMPTY) then (0, false)
      else let '(n, blocked) := extend rounds (i + 1) b p x y dx dy in (S n, blocked)
  end.

Definition pattern_of (count : nat) (leftBlock rightBlock : bool) : PatternType :=
  let open_ends := negb leftBlock && negb rightBlock in
  if decide (5 <= count) then FIVE
  else if decide (count = 4) then (if open_ends then LIVE_FOUR else BLOCKED_FOUR)
  else if decide (count = 3) then (if open_ends then LIVE_THREE else BLOCKED_THREE)
  else if decide (count = 2) then (if open_ends then LIVE_TWO else BLOCKED_TWO)
  else LIVE_ONE.

Definition direction_pattern (b : board) (p : cell) (x y : Z) (d : pos) : PatternType :=
  let '(n_left, leftBlock) := extend 4 1 b p x y (- d.1) (- d.2) in
  let '(n_right, rightBlock) := extend 4 1 b p x y d.1 d.2 in
  pattern_of (1 + n_left + n_right) leftBlock rightBlock.

Definition direction_score (b : board) (p : cell) (x y : Z) (d : pos) : Z :=
  default 0%Z (PATTERN_SCORE (direction_pattern b p x y d)).

(** The two loops over the board around the one over the directions. *)
Definition evaluateBoard (b : board) (p : cell) : Z :=
  fold_left (λ score '(x, y),
    if bool_decide (at_ b x y = p)
    then fold_left (λ score d, score + direction_score b p x y d)%Z directions score
    else score) all_cells 0%Z.

(** [evaluateThreat] looks two cells ahead in each direction, never at row or
    column 0. *)
Definition evaluateThreat (b : board) (r c : Z) : Z :=
  fold_left (λ threat '(dx, dy),
    let hit i := let x := (r + i * dx)%Z in let y := (c + i * dy)%Z in
      (0 <? x)%Z && (x <? BOARD_SIZE)%Z && (0 <? y)%Z && (y <? BOARD_SIZE)%Z &&
      bool_decide (at_ b x y = HUMAN_PLAYER) in
    (threat + (1 + (if hit 1%Z then 1 else 0) + (if hit 2%Z then 1 else 0)))%Z) directions 0%Z.

(** ** Candidates *)

Definition neighbours : list pos :=
  [(-1, -1); (-1, 0); (-1, 1); (0, -1); (0, 1); (1, -1); (1, 0); (1, 1)]%Z.

Definition isNearOccupied (b : board) (r c : Z) : bool :=
  existsb (λ '(dx, dy), isInBoard (r + dx) (c + dy) && bool_decide (at_ b (r + dx) (c + dy) ≠ EMPTY))
    neighbours.

(** The empty positions next to a stone, in the order of the loops. *)
Definition candidates_of (b : board) : list pos :=
  List.filter (λ '(i, j), bool_decide (at_ b i j = EMPTY) && isNearOccupied b i j) all_cells.

(** ** [minimax] *)
Section search.
Context `{StdSort pos}.

(** The lambdas given to [std::sort]: they place a stone, evaluate, and take it
    back. *)
Definition placed_score (b : board) (p : cell) (a : pos) : Z :=
  evaluateBoard (set_at a.1 a.2 p b) p.
Definition order (maximizing : bool) (b : board) (p : cell) (a1 a2 : pos) : bool :=
  if maximizing then (placed_score b p a2 <? placed_score b p a1)%Z
  else (placed_score b p a1 <? placed_score b p a2)%Z.

(** [isGameOver() || isDraw()], which the search does not change. *)
Variable over : bool.

Definition static_score (b : board) : Z := (evaluateBoard b AI_PLAYER - evaluateBoard b HUMAN_PLAYER)%Z.

(** The loop over the candidates: [rec] is the recursive call. *)
Fixpoint search_loop (rec : Z -> Z -> board -> Z * board) (maximizing : bool) (p : cell)
    (cs : list pos) (best alpha beta : Z) (b : board) : Z * board :=
  match cs with
  | [] => (best, b)
  | (i, j) :: cs =>
      let '(score, b) := rec alpha beta (set_at i j p b) in
      let b := set_at i j EMPTY b in
      let '(best, alpha, beta) :=
        if maximizing then (Z.max best score, Z.max alpha (Z.max best score), beta)
        else (Z.min best score, alpha, Z.min beta (Z.min best score)) in
      if (beta <=? alpha)%Z then (best, b)
      else search_loop rec maximizing p cs best alpha beta b
  end.

(** [minimax(board, depth, maximizing, alpha, beta)], the board after it. *)
Fixpoint minimax (depth : nat) (maximizing : bool) (alpha beta : Z) (b : board) : Z * board :=
  match depth with
  | 0 => (static_score b, b)
  | S depth =>
      if over then (static_score b, b) else
      let best := if maximizing then int_min else int_max in
      let currentPlayer := if maximizing then AI_PLAYER else HUMAN_PLAYER in
      let candidates := std_sort (order maximizing b currentPlayer) (candidates_of b) in
      search_loop (minimax depth (negb maximizing)) maximizing currentPlayer candidates
        best alpha beta b
  end.

(** ** [getBestMove] *)

(** Steps 1 and 2: the first empty position where a stone of [p] wins. *)
Fixpoint winning_loop (p : cell) (cs : list pos) (b : board) : option pos * board :=
  match cs with
  | [] => (None, b)
  | (i, j) :: cs =>
      if bool_decide (at_ b i j = EMPTY) then
        let b := set_at i j p b in
        if checkwin b i j p then (Some (i, j), set_at i j EMPTY b)
        else winning_loop p cs (set_at i j EMPTY b)
      else winning_loop p cs b
  end.

(** Step 5: the first candidate with the greatest score. *)
Fixpoint best_loop (depth : nat) (cs : list pos) (bestScore : Z) (bestMove : pos) (b : board)
  : pos * board :=
  match cs with
  | [] => (bestMove, b)
  | (i, j) :: cs =>
      let '(score, b) := minimax depth false int_min int_max (set_at i j AI_PLAYER b) in
      let b := set_at i j EMPTY b in
      if (bestScore <? score)%Z then best_loop depth cs score (i, j) b
      else best_loop depth cs bestScore bestMove b
  end.

(** Step 6: [rand() % emptyCells.size()]. *)
Definition empty_cells (b : board) : list pos :=
  List.filter (λ '(i, j), bool_decide (at_ b i j = EMPTY)) all_cells.
Definition random_empty (rand : nat) (b : board) : pos :=
  default (-1, -1)%Z (empty_cells b !! (rand mod length (empty_cells b))).

Definition search_depth (moveCount : Z) : nat := if (moveCount <? 10)%Z then 5 else 3.

Definition getBestMove (moveCount : Z) (rand : nat) (b : board) : pos * board :=
  match winning_loop AI_PLAYER all_cells b with
  | (Some m, b) => (m, b)
  | (None, b) =>
  match winning_loop HUMAN_PLAYER all_cells b with
  | (Some m, b) => (m, b)
  | (None, b) =>
      let candidates := std_sort (order true b AI_PLAYER) (candidates_of b) in
      let '(bestMove, b) :=
        best_loop (search_depth moveCount - 1) candidates int_min (-1, -1)%Z b in
      if (bestMove.1 =? -1)%Z then (random_empty rand b, b) else (bestMove, b)
  end end.

End search.

(** ** The game *)

Record AiGame := mkAiGame {
  board_ : board;
  gameOver_ : bool;
  userId_ : Z;
  moveCount_ : Z;
  winner_ : bytes;
  lastMove_ : pos
}.

Definition new_AiGame (userId : Z) : AiGame :=
  mkAiGame (replicate BOARD_CELLS (replicate BOARD_CELLS EMPTY)) false userId 0 (lit "none") (-1, -1)%Z.

Definition isDraw (g : AiGame) : bool := (BOARD_SIZE * BOARD_SIZE <=? g.(moveCount_))%Z.
Definition isGameOver (g : AiGame) : bool := g.(gameOver_).

Definition isValidMove (g : AiGame) (x y : Z) : bool :=
  if negb (isInBoard x y) then false
  else if bool_decide (at_ g.(board_) x y ≠ EMPTY) then false
  else if g.(gameOver_) || isDraw g then false
  else true.

(** The assignments both moves make once the position is known. *)
Definition place (x y : Z) (p : cell) (winner : bytes) (g : AiGame) : AiGame :=
  let b := set_at x y p g.(board_) in
  if checkwin b x y p
  then mkAiGame b true g.(userId_) (g.(moveCount_) + 1) winner (x, y)
  else mkAiGame b g.(gameOver_) g.(userId_) (g.(moveCount_) + 1) g.(winner_) (x, y).

Definition humanMove (x y : Z) : prog std_exception AiGame bool :=
  g ← get;
  if negb (isValidMove g x y) then mret false
  else modify (place x y HUMAN_PLAYER (lit "human"));; mret true.

(** A position off the board is indexed out of range. *)
Definition aiMove `{StdSort pos} (rand : nat) : prog std_exception AiGame unit :=
  g ← get;
  if g.(gameOver_) || isDraw g then mret tt
  else
    let '((x, y), b) := getBestMove (g.(gameOver_) || isDraw g) g.(moveCount_) rand g.(board_) in
    if negb (isInBoard x y) then halt UndefinedBehaviour
    else modify (λ g, place x y AI_PLAYER (lit "ai")
      (mkAiGame b g.(gameOver_) g.(userId_) g.(moveCount_) g.(winner_) g.(lastMove_))).
