(* ===== verification/AiBoard.v ===== *)
(** * The board and its evaluation

    Lemmas and properties of the pure part of [AiGame.v]: reading and writing
    the board, five in a row, the evaluation function. *)

From S2P Require Export AiGame.

(** ** Reading and writing *)

(** Fifteen rows of fifteen cells. *)
Definition board_wf (b : board) : Prop :=
  length b = BOARD_CELLS ∧ Forall (λ row, length row = BOARD_CELLS) b.

Lemma isInBoard_spec x y :
  isInBoard x y = true <-> (0 <= x < 15 ∧ 0 <= y < 15)%Z.
Proof. unfold isInBoard, BOARD_SIZE. rewrite !andb_true_iff. lia. Qed.

Section board.
Variable b : board.
Hypothesis wf : board_wf b.

Lemma row_exists x : (0 <= x < 15)%Z ->
  ∃ row, b !! Z.to_nat x = Some row ∧ length row = BOARD_CELLS.
Proof.
  destruct wf as [Hl Hr]. intros Hx. destruct (lookup_lt_is_Some_2 b (Z.to_nat x)) as [row Hrow].
  { rewrite Hl. unfold BOARD_CELLS. lia. }
  exists row. split; [done|]. by apply (Forall_lookup_1 _ _ _ _ Hr Hrow).
Qed.

Lemma set_at_wf x y c : board_wf (set_at x y c b).
Proof.
  destruct wf as [Hl Hr]. split; unfold set_at; [by rewrite length_alter|].
  apply Forall_alter; [done|]. intros row _ Hlen. by rewrite length_insert.
Qed.

Lemma at_set_eq x y c : isInBoard x y = true -> at_ (set_at x y c b) x y = c.
Proof.
  rewrite isInBoard_spec. intros [Hx Hy]. destruct (row_exists x Hx) as (row & Hrow & Hlen).
  unfold at_, set_at. rewrite list_lookup_alter_eq, Hrow. cbn [fmap option_fmap option_map mbind option_bind].
  rewrite list_lookup_insert_eq; [done|]. rewrite Hlen. unfold BOARD_CELLS. lia.
Qed.

Lemma at_set_ne x y x' y' c :
  isInBoard x y = true -> isInBoard x' y' = true -> (x, y) ≠ (x', y') ->
  at_ (set_at x y c b) x' y' = at_ b x' y'.
Proof.
  rewrite !isInBoard_spec. intros [Hx Hy] [Hx' Hy'] Hne. unfold at_, set_at.
  destruct (decide (Z.to_nat x = Z.to_nat x')) as [Heq|Hneq];
    [|by rewrite list_lookup_alter_ne].
  rewrite Heq, list_lookup_alter_eq. destruct (b !! Z.to_nat x') as [row|]; [|done].
  cbn [fmap option_fmap option_map mbind option_bind]. rewrite list_lookup_insert_ne; [done|].
  intros ?. apply Hne. f_equal; lia.
Qed.

Lemma set_at_same x y c : isInBoard x y = true -> at_ b x y = c -> set_at x y c b = b.
Proof.
  rewrite isInBoard_spec. intros [Hx Hy] <-. destruct (row_exists x Hx) as (row & Hrow & Hlen).
  unfold at_, set_at. rewrite Hrow. cbn [mbind option_bind].
  rewrite (list_alter_insert _ _ _ _ Hrow). apply list_insert_id. rewrite Hrow. f_equal.
  symmetry. destruct (lookup_lt_is_Some_2 row (Z.to_nat y)) as [d Hd];
    [rewrite Hlen; unfold BOARD_CELLS; lia|].
  rewrite Hd. cbn. by apply list_insert_id.
Qed.

End board.

Lemma set_at_set_at x y c d b : set_at x y c (set_at x y d b) = set_at x y c b.
Proof.
  unfold set_at. rewrite list_alter_alter_eq. apply list_alter_ext; [|done].
  intros row _. cbn. by rewrite list_insert_insert_eq.
Qed.

(** Placing a stone on an empty cell and taking it back. *)
Lemma place_take_back b x y p :
  board_wf b -> isInBoard x y = true -> at_ b x y = EMPTY ->
  set_at x y EMPTY (set_at x y p b) = b.
Proof. intros. rewrite set_at_set_at. by apply set_at_same. Qed.

Lemma all_cells_spec x y : (x, y) ∈ all_cells <-> isInBoard x y = true.
Proof.
  unfold all_cells. rewrite isInBoard_spec, list_elem_of_In, in_flat_map.
  setoid_rewrite in_map_iff. setoid_rewrite in_seq. unfold BOARD_CELLS. split.
  - intros (i & Hi & j & [= <- <-] & Hj). lia.
  - intros [Hx Hy]. exists (Z.to_nat x). split; [lia|]. exists (Z.to_nat y). split; [f_equal; lia|lia].
Qed.

Lemma all_cells_NoDup : NoDup all_cells.
Proof. apply (bool_decide_unpack _). by vm_compute. Qed.

#[export] Hint Resolve set_at_wf : cpp.

(** ** Five in a row *)

(** A stone of [p] at the [i]-th step from [(x, y)]. *)
Definition stone (b : board) (p : cell) (x y dx dy i : Z) : Prop :=
  isInBoard (x + i * dx) (y + i * dy) = true ∧ at_ b (x + i * dx) (y + i * dy) = p.

(** Five stones of [p] in a line, from [(x, y)] on. *)
Definition five_from (b : board) (p : cell) (x y : Z) (d : pos) : Prop :=
  ∀ i, (0 <= i <= 4)%Z -> stone b p x y d.1 d.2 i.
Definition has_five (b : board) (p : cell) : Prop :=
  ∃ x y d, d ∈ directions ∧ five_from b p x y d.

(** Five in a line with [(x, y)] among them. *)
Definition five_through (b : board) (p : cell) (x y : Z) : Prop :=
  ∃ d k, d ∈ directions ∧ (0 <= k <= 4)%Z ∧ five_from b p (x - k * d.1) (y - k * d.2) d.

Lemma run_length_spec rounds i b p x y dx dy :
  let m := run_length rounds i b p x y dx dy in
  m ≤ rounds ∧ (∀ j, (i <= j < i + Z.of_nat m)%Z -> stone b p x y dx dy j) ∧
  (m < rounds -> ¬ stone b p x y dx dy (i + Z.of_nat m)).
Proof.
  revert i. induction rounds as [|rounds IH]; intros i; cbn [run_length].
  - split_and!; [lia|lia|lia].
  - destruct (negb (isInBoard (x + i * dx) (y + i * dy)) ||
      bool_decide (at_ b (x + i * dx) (y + i * dy) ≠ p)) eqn:Hbreak.
    + split_and!; [lia|lia|]. intros _ [Hin Hat]. rewrite Z.add_0_r in Hin, Hat.
      rewrite Hin in Hbreak. cbn in Hbreak. by apply bool_decide_eq_true in Hbreak.
    + apply orb_false_iff in Hbreak as [Hin%negb_false_iff Hat%bool_decide_eq_false].
      destruct (IH (i + 1)%Z) as (Hle & Hstones & Hstop). split_and!.
      * lia.
      * intros j Hj. destruct (decide (j = i)) as [->|].
        -- split; [done|]. by apply dec_stable.
        -- apply Hstones. lia.
      * intros Hlt. replace (i + Z.of_nat (S _))%Z
          with (i + 1 + Z.of_nat (run_length rounds (i + 1) b p x y dx dy))%Z by lia.
        apply Hstop. lia.
Qed.

Lemma stone_opposite b p x y dx dy i :
  stone b p x y (- dx) (- dy) i <-> stone b p x y dx dy (- i).
Proof. unfold stone. by replace (i * - dx)%Z with (- i * dx)%Z by lia; replace (i * - dy)%Z with (- i * dy)%Z by lia. Qed.

Lemma stone_shift b p x y dx dy k i :
  stone b p (x - k * dx) (y - k * dy) dx dy i <-> stone b p x y dx dy (i - k).
Proof.
  unfold stone. replace (x - k * dx + i * dx)%Z with (x + (i - k) * dx)%Z by lia.
  by replace (y - k * dy + i * dy)%Z with (y + (i - k) * dy)%Z by lia.
Qed.

(** One direction: the two loops together see five exactly when there are. *)
Lemma direction_spec b p x y d :
  isInBoard x y = true -> at_ b x y = p ->
  5 ≤ 1 + run_length 4 1 b p x y d.1 d.2 + run_length 4 1 b p x y (- d.1) (- d.2) <->
  ∃ k, (0 <= k <= 4)%Z ∧ five_from b p (x - k * d.1) (y - k * d.2) d.
Proof.
  intros Hin Hat. destruct d as [dx dy]. cbn [fst snd].
  assert (stone b p x y dx dy 0) as H0 by (split; by rewrite !Z.mul_0_l, !Z.add_0_r).
  destruct (run_length_spec 4 1 b p x y dx dy) as (Hf & Hfs & Hfn).
  destruct (run_length_spec 4 1 b p x y (- dx) (- dy)) as (Hr & Hrs & Hrn).
  set (f := run_length 4 1 b p x y dx dy) in *.
  set (r := run_length 4 1 b p x y (- dx) (- dy)) in *.
  setoid_rewrite stone_opposite in Hrs. rewrite stone_opposite in Hrn.
  unfold five_from. cbn [fst snd]. setoid_rewrite stone_shift. split.
  - intros Hfive. exists (Z.of_nat r). split; [lia|]. intros i Hi.
    destruct (decide (i = Z.of_nat r)) as [->|]; [by rewrite Z.sub_diag|].
    destruct (decide (Z.of_nat r < i)%Z); [apply Hfs; lia|].
    replace (i - Z.of_nat r)%Z with (- (Z.of_nat r - i))%Z by lia. apply Hrs. lia.
  - intros (k & Hk & Hstones).
    assert (¬ (Z.of_nat f < 4 - k)%Z).
    { intros Hlt. apply Hfn; [lia|]. specialize (Hstones (k + 1 + Z.of_nat f)%Z).
      by replace (k + 1 + Z.of_nat f - k)%Z with (1 + Z.of_nat f)%Z in Hstones by lia; apply Hstones; lia. }
    assert (¬ (Z.of_nat r < k)%Z).
    { intros Hlt. apply Hrn; [lia|]. specialize (Hstones (k - (1 + Z.of_nat r))%Z).
      replace (k - (1 + Z.of_nat r) - k)%Z with (- (1 + Z.of_nat r))%Z in Hstones by lia.
      apply Hstones. lia. }
    lia.
Qed.

(** [checkwin] finds the fives through the position, and only those. *)
Lemma checkwin_five b p x y :
  isInBoard x y = true -> at_ b x y = p ->
  checkwin b x y p = true <-> five_through b p x y.
Proof.
  intros Hin Hat. unfold checkwin, five_through. rewrite existsb_exists. split.
  - intros ([dx dy] & Hd & Hfive%Nat.leb_le).
    apply (direction_spec b p x y (dx, dy) Hin Hat) in Hfive as (k & Hk & Hf).
    exists (dx, dy), k. split_and!; [by apply list_elem_of_In|lia|lia|done].
  - intros ([dx dy] & k & Hd & Hk & Hf). exists (dx, dy). split; [by apply list_elem_of_In|].
    apply Nat.leb_le. apply (direction_spec b p x y (dx, dy) Hin Hat). by exists k.
Qed.

(** ** The evaluation *)

(** One step of the outer loops of [evaluateBoard]. *)
Definition eval_step (b : board) (p : cell) (score : Z) (c : pos) : Z :=
  if bool_decide (at_ b c.1 c.2 = p)
  then fold_left (λ score d, score + direction_score b p c.1 c.2 d)%Z directions score
  else score.

Lemma evaluateBoard_fold b p : evaluateBoard b p = fold_left (eval_step b p) all_cells 0%Z.
Proof.
  unfold evaluateBoard. generalize 0%Z. induction all_cells as [|[x y] l IH]; intros z; [done|].
  cbn [fold_left]. apply IH.
Qed.

Lemma direction_pattern_scored b p x y d :
  ∃ s, PATTERN_SCORE (direction_pattern b p x y d) = Some s ∧ (10 <= s <= 1000000)%Z.
Proof.
  unfold direction_pattern. destruct (extend _ _ _ _ _ _ _ _) as [l bl].
  destruct (extend _ _ _ _ _ _ _ _) as [r br]. unfold pattern_of.
  repeat case_decide; repeat case_match; eexists; (split; [reflexivity|lia]).
Qed.

Lemma direction_score_bounds b p x y d : (10 <= direction_score b p x y d <= 1000000)%Z.
Proof.
  unfold direction_score. destruct (direction_pattern_scored b p x y d) as (s & -> & Hs). done.
Qed.

Lemma eval_step_bounds b p score c :
  (score <= eval_step b p score c <= score + 4000000)%Z.
Proof.
  unfold eval_step. case_bool_decide; [|lia]. cbn [fold_left directions].
  pose proof (direction_score_bounds b p c.1 c.2 (1, 0)%Z).
  pose proof (direction_score_bounds b p c.1 c.2 (0, 1)%Z).
  pose proof (direction_score_bounds b p c.1 c.2 (1, 1)%Z).
  pose proof (direction_score_bounds b p c.1 c.2 (1, -1)%Z). lia.
Qed.

Lemma eval_fold_bounds b p cs score :
  (score <= fold_left (eval_step b p) cs score <= score + 4000000 * Z.of_nat (length cs))%Z.
Proof.
  revert score. induction cs as [|c cs IH]; intros score; cbn [fold_left length]; [lia|].
  pose proof (eval_step_bounds b p score c). specialize (IH (eval_step b p score c)). lia.
Qed.

Lemma evaluateBoard_range b p : (0 <= evaluateBoard b p <= 900000000)%Z.
Proof.
  rewrite evaluateBoard_fold. pose proof (eval_fold_bounds b p all_cells 0) as Hb.
  change (length all_cells) with 225 in Hb. lia.
Qed.

Lemma static_score_range b : (-900000000 <= static_score b <= 900000000)%Z.
Proof.
  unfold static_score. pose proof (evaluateBoard_range b AI_PLAYER).
  pose proof (evaluateBoard_range b HUMAN_PLAYER). lia.
Qed.

Lemma static_score_int b : (int_min < static_score b < int_max)%Z.
Proof. pose proof (static_score_range b). unfold int_min, int_max. lia. Qed.

(** C25. The evaluation cannot throw or overflow, on any board: every look-up in
    the pattern table succeeds, the running sum never decreases and stays in
    [int] after every cell, and so does the difference [minimax] takes. *)
Theorem evaluateBoard_no_overflow (b : board) (p : cell) (k : nat) :
  (∀ x y d, is_Some (PATTERN_SCORE (direction_pattern b p x y d))) ∧
  (0 <= fold_left (eval_step b p) (take k all_cells) 0 <= int_max)%Z ∧
  (fold_left (eval_step b p) (take k all_cells) 0 <= evaluateBoard b p)%Z ∧
  (int_min <= static_score b <= int_max)%Z.
Proof.
  split_and!.
  - intros x y d. destruct (direction_pattern_scored b p x y d) as (s & -> & _). by eexists.
  - apply eval_fold_bounds.
  - pose proof (eval_fold_bounds b p (take k all_cells) 0) as Hb.
    assert (length (take k all_cells) ≤ 225) by (rewrite length_take; change (length all_cells) with 225; lia).
    unfold int_max. lia.
  - rewrite evaluateBoard_fold. rewrite <- (take_drop k all_cells) at 2. rewrite fold_left_app.
    apply eval_fold_bounds.
  - pose proof (static_score_int b). lia.
  - pose proof (static_score_int b). lia.
Qed.
