(* ===== verification/AiSearch.v ===== *)
(** * The search of the computer player

    [minimax] with alpha-beta pruning and its moves on the shared board are
    compared with plain minimax on values; [getBestMove] is specified on top. *)

From S2P Require Export AiBoard.

Section search.
Context `{StdSort pos}.
Variable over : bool.
Implicit Types b : board.

(** ** Candidates *)

Definition empty_cell b (c : pos) : Prop := isInBoard c.1 c.2 = true ∧ at_ b c.1 c.2 = EMPTY.

Lemma candidates_empty b c : c ∈ candidates_of b -> empty_cell b c.
Proof.
  unfold candidates_of. rewrite list_elem_of_In, filter_In. destruct c as [i j].
  intros [Hin [Hat%bool_decide_eq_true _]%andb_true_iff]. split; [|done].
  by apply all_cells_spec, list_elem_of_In.
Qed.

(** The comparisons given to [std::sort] are strict orders. *)
Lemma order_strict mx b p : StrictOrder (λ a1 a2, order mx b p a1 a2 = true).
Proof. split; repeat intro; unfold complement, order in *; destruct mx; lia. Qed.

Lemma sorted_candidates mx b p : std_sort (order mx b p) (candidates_of b) ≡ₚ candidates_of b.
Proof. apply std_sort_perm, order_strict. Qed.

Lemma sorted_candidates_empty mx b p :
  Forall (empty_cell b) (std_sort (order mx b p) (candidates_of b)).
Proof. rewrite Forall_forall. intros c Hc. rewrite sorted_candidates in Hc. by apply candidates_empty. Qed.

(** ** Specification: minimax without pruning, on values *)

Definition player_of (mx : bool) : cell := if mx then AI_PLAYER else HUMAN_PLAYER.
Definition worst (mx : bool) : Z := if mx then int_min else int_max.
Definition pick (mx : bool) : Z -> Z -> Z := if mx then Z.max else Z.min.

Fixpoint full_minimax (depth : nat) (mx : bool) (b : board) : Z :=
  match depth with
  | 0 => static_score b
  | S depth =>
      if over then static_score b else
      fold_left (pick mx)
        (map (λ c, full_minimax depth (negb mx) (set_at c.1 c.2 (player_of mx) b)) (candidates_of b))
        (worst mx)
  end.

(** What a window [(alpha, beta)] lets the search say of a value. *)
Definition window_ok (alpha beta r v : Z) : Prop :=
  ((v <= alpha -> v <= r <= alpha) ∧ (alpha < v < beta -> r = v) ∧ (beta <= v -> beta <= r <= v))%Z.

(** *** Folds of [max] and [min] *)

Lemma pick_comm mx x y : pick mx x y = pick mx y x.
Proof. destruct mx; cbn; lia. Qed.

Lemma fold_pick_out mx l a a' :
  fold_left (pick mx) l (pick mx a a') = pick mx a (fold_left (pick mx) l a').
Proof.
  revert a'. induction l as [|x l IH]; intros a'; [done|]. cbn [fold_left].
  rewrite <- IH. f_equal. destruct mx; cbn; lia.
Qed.

Lemma fold_pick_perm mx l1 l2 a : l1 ≡ₚ l2 -> fold_left (pick mx) l1 a = fold_left (pick mx) l2 a.
Proof.
  intros Hp. revert a. induction Hp; intros a; cbn [fold_left]; auto; [|by rewrite IHHp1].
  f_equal. destruct mx; cbn; lia.
Qed.

Lemma fold_max_ge l a : (a <= fold_left Z.max l a)%Z.
Proof. revert a. induction l as [|x l IH]; intros a; cbn; [lia|]. specialize (IH (Z.max a x)). lia. Qed.

Lemma fold_min_le l a : (fold_left Z.min l a <= a)%Z.
Proof. revert a. induction l as [|x l IH]; intros a; cbn; [lia|]. specialize (IH (Z.min a x)). lia. Qed.

(** ** The loop *)

(** The recursive call: it restores the board and answers for its window. *)
Definition rec_ok (rec : Z -> Z -> board -> Z * board) (v : board -> Z) : Prop :=
  ∀ alpha beta b, board_wf b -> (int_min <= alpha < beta)%Z -> (beta <= int_max)%Z ->
    (rec alpha beta b).2 = b ∧ window_ok alpha beta (rec alpha beta b).1 (v b).

Lemma max_loop rec v p cs best alpha beta b :
  rec_ok rec v -> board_wf b -> Forall (empty_cell b) cs ->
  (best <= alpha)%Z -> (int_min <= alpha < beta)%Z -> (beta <= int_max)%Z ->
  let r := search_loop rec true p cs best alpha beta b in
  r.2 = b ∧
  window_ok alpha beta r.1 (fold_left Z.max (map (λ c, v (set_at c.1 c.2 p b)) cs) best).
Proof.
  intros Hrec Hwf Hcs. revert best alpha.
  induction Hcs as [|[i j] cs [Hin Hat] _ IH]; intros best alpha Hbest Ha Hb.
  - cbn. split; [done|]. unfold window_ok. lia.
  - cbn [search_loop map fold_left fst snd]. cbn [fst snd] in Hin, Hat.
    destruct (Hrec alpha beta (set_at i j p b)) as [Hback Hv]; [by apply set_at_wf|lia|lia|].
    destruct (rec alpha beta (set_at i j p b)) as [score b1]. cbn [fst snd] in *. subst b1.
    rewrite place_take_back by done. set (vc := v (set_at i j p b)) in *.
    pose proof (fold_pick_out true (map (λ c, v (set_at c.1 c.2 p b)) cs) vc best) as Hout.
    pose proof (fold_pick_out true (map (λ c, v (set_at c.1 c.2 p b)) cs) score best) as Houts.
    cbn [pick] in Hout, Houts. rewrite (Z.max_comm best vc), Hout.
    specialize (IH (Z.max best score) (Z.max alpha (Z.max best score))).
    rewrite (Z.max_comm best score) in *. rewrite Houts in IH.
    pose proof (fold_max_ge (map (λ c, v (set_at c.1 c.2 p b)) cs) best).
    set (F := fold_left Z.max _ best) in *. unfold window_ok in *.
    destruct (beta <=? Z.max alpha (Z.max score best))%Z eqn:Hcut; cbn [fst snd].
    + split; [done|]. lia.
    + destruct IH as [Hb' Hw]; [lia..|]. split; [exact Hb'|]. lia.
Qed.

Lemma min_loop rec v p cs best alpha beta b :
  rec_ok rec v -> board_wf b -> Forall (empty_cell b) cs ->
  (beta <= best)%Z -> (int_min <= alpha < beta)%Z -> (beta <= int_max)%Z ->
  let r := search_loop rec false p cs best alpha beta b in
  r.2 = b ∧
  window_ok alpha beta r.1 (fold_left Z.min (map (λ c, v (set_at c.1 c.2 p b)) cs) best).
Proof.
  intros Hrec Hwf Hcs. revert best beta.
  induction Hcs as [|[i j] cs [Hin Hat] _ IH]; intros best beta Hbest Ha Hb.
  - cbn. split; [done|]. unfold window_ok. lia.
  - cbn [search_loop map fold_left fst snd]. cbn [fst snd] in Hin, Hat.
    destruct (Hrec alpha beta (set_at i j p b)) as [Hback Hv]; [by apply set_at_wf|lia|lia|].
    destruct (rec alpha beta (set_at i j p b)) as [score b1]. cbn [fst snd] in *. subst b1.
    rewrite place_take_back by done. set (vc := v (set_at i j p b)) in *.
    pose proof (fold_pick_out false (map (λ c, v (set_at c.1 c.2 p b)) cs) vc best) as Hout.
    pose proof (fold_pick_out false (map (λ c, v (set_at c.1 c.2 p b)) cs) score best) as Houts.
    cbn [pick] in Hout, Houts. rewrite (Z.min_comm best vc), Hout.
    specialize (IH (Z.min best score) (Z.min beta (Z.min best score))).
    rewrite (Z.min_comm best score) in *. rewrite Houts in IH.
    pose proof (fold_min_le (map (λ c, v (set_at c.1 c.2 p b)) cs) best).
    set (F := fold_left Z.min _ best) in *. unfold window_ok in *.
    destruct (Z.min beta (Z.min score best) <=? alpha)%Z eqn:Hcut; cbn [fst snd].
    + split; [done|]. lia.
    + destruct IH as [Hb' Hw]; [lia..|]. split; [exact Hb'|]. lia.
Qed.

(** ** Pruning does not change the value *)

Lemma minimax_ok depth mx : rec_ok (minimax over depth mx) (full_minimax depth mx).
Proof.
  revert mx. induction depth as [|depth IH]; intros mx alpha beta b Hwf Ha Hb.
  - cbn. split; [done|]. unfold window_ok. lia.
  - cbn [minimax full_minimax]. destruct over.
    + cbn. split; [done|]. unfold window_ok. lia.
    + set (cs := std_sort _ (candidates_of b)).
      assert (Forall (empty_cell b) cs) as Hcs by apply sorted_candidates_empty.
      rewrite <- (fold_pick_perm mx (map _ cs) (map _ (candidates_of b)))
        by (by apply Permutation_map, sorted_candidates).
      destruct mx.
      * apply (max_loop _ (full_minimax depth false)); auto; cbn; lia.
      * apply (min_loop _ (full_minimax depth true)); auto; cbn; lia.
Qed.

Lemma fold_pick_range mx l a :
  Forall (λ x, int_min <= x <= int_max)%Z l -> (int_min <= a <= int_max)%Z ->
  (int_min <= fold_left (pick mx) l a <= int_max)%Z.
Proof.
  revert a. induction l as [|x l IHl]; intros a Hl Ha; [done|]. apply Forall_cons in Hl as [Hx Hl].
  cbn [fold_left]. apply IHl; [done|]. destruct mx; cbn; lia.
Qed.

Lemma full_minimax_range depth mx b : (int_min <= full_minimax depth mx b <= int_max)%Z.
Proof.
  revert mx b. induction depth as [|depth IH]; intros mx b.
  - pose proof (static_score_int b). cbn. lia.
  - cbn [full_minimax]. destruct over; [pose proof (static_score_int b); lia|].
    apply fold_pick_range; [|unfold worst, int_min, int_max; destruct mx; lia].
    apply Forall_map, Forall_forall. intros c _. apply IH.
Qed.

Lemma minimax_full_window depth mx b :
  board_wf b ->
  minimax over depth mx int_min int_max b = (full_minimax depth mx b, b).
Proof.
  intros Hwf. destruct (minimax_ok depth mx int_min int_max b) as [Hb Hw];
    [done|unfold int_min, int_max; lia|lia|].
  pose proof (full_minimax_range depth mx b). unfold window_ok in Hw.
  destruct (minimax over depth mx int_min int_max b) as [r b']. cbn [fst snd] in *.
  subst b'. f_equal. lia.
Qed.

(** C21. Alpha-beta pruning is minimax: for every window inside [int], [minimax]
    gives the plain minimax value when that lies inside the window and the
    correct bound when it does not (so with the full window it gives the value),
    whatever rearrangement the sorting makes, and it hands back the board as it
    was. *)
Theorem minimax_alpha_beta depth mx (alpha beta : Z) b :
  board_wf b -> (int_min <= alpha < beta)%Z -> (beta <= int_max)%Z ->
  (minimax over depth mx alpha beta b).2 = b ∧
  window_ok alpha beta (minimax over depth mx alpha beta b).1 (full_minimax depth mx b) ∧
  minimax over depth mx int_min int_max b = (full_minimax depth mx b, b).
Proof.
  intros Hwf Ha Hb. destruct (minimax_ok depth mx alpha beta b Hwf Ha Hb) as [Hback Hw].
  split; [exact Hback|]. split; [exact Hw|]. by apply minimax_full_window.
Qed.

(** ** [getBestMove] *)

(** A stone of [p] at the empty cell [c] wins. *)
Definition wins b (p : cell) (c : pos) : bool :=
  bool_decide (at_ b c.1 c.2 = EMPTY) && checkwin (set_at c.1 c.2 p b) c.1 c.2 p.

Lemma winning_loop_run p cs b :
  board_wf b -> Forall (λ c, isInBoard c.1 c.2 = true) cs ->
  winning_loop p cs b = (List.find (wins b p) cs, b).
Proof.
  intros Hwf Hcs. induction Hcs as [|[i j] cs Hin _ IH]; [done|]. cbn [winning_loop List.find].
  unfold wins at 1. cbn [fst snd] in *. case_bool_decide as Hat; [|done]. cbn [andb].
  rewrite place_take_back by done. by destruct (checkwin (set_at i j p b) i j p).
Qed.

Lemma all_cells_in : Forall (λ c : pos, isInBoard c.1 c.2 = true) all_cells.
Proof. rewrite Forall_forall. intros [x y] Hc. by apply all_cells_spec. Qed.

(** The value step 5 gives a candidate. *)
Definition move_value (depth : nat) b (c : pos) : Z :=
  full_minimax depth false (set_at c.1 c.2 AI_PLAYER b).

Lemma best_loop_run depth cs bs bm b :
  board_wf b -> Forall (empty_cell b) cs ->
  ∃ m, best_loop over depth cs bs bm b = (m, b) ∧
    (m = bm ∧ Forall (λ c, (move_value depth b c <= bs)%Z) cs ∨
     m ∈ cs ∧ (bs < move_value depth b m)%Z ∧
       Forall (λ c, (move_value depth b c <= move_value depth b m)%Z) cs).
Proof.
  intros Hwf Hcs. revert bs bm. induction Hcs as [|[i j] cs [Hin Hat] _ IH]; intros bs bm.
  - exists bm. split; [done|]. by left.
  - cbn [best_loop]. cbn [fst snd] in Hin, Hat.
    rewrite minimax_full_window by by apply set_at_wf. rewrite place_take_back by done.
    change (full_minimax depth false (set_at i j AI_PLAYER b)) with (move_value depth b (i, j)).
    destruct (Z.ltb_spec bs (move_value depth b (i, j))) as [Hlt|Hge].
    + destruct (IH (move_value depth b (i, j)) (i, j)) as (m & Hm & Hcase).
      exists m. split; [done|]. right. destruct Hcase as [[-> Hall]|(Hc & Hgt & Hall)].
      * split_and!; [by left|done|]. constructor; [lia|done].
      * split_and!; [by right|lia|]. constructor; [lia|done].
    + destruct (IH bs bm) as (m & Hm & Hcase). exists m. split; [done|].
      destruct Hcase as [[-> Hall]|(Hc & Hgt & Hall)]; [left|right].
      * split; [done|]. by constructor.
      * split_and!; [by right|done|]. constructor; [lia|done].
Qed.

Lemma random_empty_cell rand b c :
  empty_cell b c -> empty_cell b (random_empty rand b).
Proof.
  intros Hc. assert (c ∈ empty_cells b) as Hin.
  { unfold empty_cells. rewrite list_elem_of_In, filter_In. destruct c as [i j], Hc as [Hin Hat].
    split; [by apply list_elem_of_In, all_cells_spec|by apply bool_decide_eq_true]. }
  unfold random_empty.
  assert (0 < length (empty_cells b)) by (destruct (empty_cells b); [by apply not_elem_of_nil in Hin|cbn; lia]).
  destruct (lookup_lt_is_Some_2 (empty_cells b) (rand mod length (empty_cells b))) as [[x y] Hx].
  { apply Nat.mod_upper_bound. lia. }
  rewrite Hx. cbn. apply list_elem_of_lookup_2 in Hx. unfold empty_cells in Hx.
  rewrite list_elem_of_In, filter_In in Hx. destruct Hx as [Hx Hat%bool_decide_eq_true].
  split; [by apply all_cells_spec, list_elem_of_In|done].
Qed.

(** What step 5 and step 6 choose. *)
Definition searched_move (depth : nat) (rand : nat) b (m : pos) : Prop :=
  m ∈ candidates_of b ∧ (int_min < move_value depth b m)%Z ∧
    (∀ c, c ∈ candidates_of b -> (move_value depth b c <= move_value depth b m)%Z) ∨
  (∀ c, c ∈ candidates_of b -> move_value depth b c = int_min) ∧ m = random_empty rand b.

(** C23. [getBestMove] leaves the board as it found it and returns, in this
    order of preference: the first cell in row-major order where the computer
    completes five; the first where the human would; a candidate of greatest
    minimax value for the search depth; and, when no candidate is better than
    the least [int], the empty cell the random number picks. Whenever the board
    has an empty cell, the result is an empty cell of the board. *)
Theorem getBestMove_spec (moveCount : Z) (rand : nat) b :
  board_wf b ->
  ∃ m, getBestMove over moveCount rand b = (m, b) ∧
    match List.find (wins b AI_PLAYER) all_cells, List.find (wins b HUMAN_PLAYER) all_cells with
    | Some c, _ => m = c
    | None, Some c => m = c
    | None, None => searched_move (search_depth moveCount - 1) rand b m
    end ∧
    (∀ c, empty_cell b c -> empty_cell b m).
Proof.
  intros Hwf. unfold getBestMove. rewrite (winning_loop_run _ _ b Hwf all_cells_in).
  assert (∀ p m, List.find (wins b p) all_cells = Some m -> empty_cell b m) as Hfind.
  { intros p [i j] [Hin Hw]%find_some. apply andb_true_iff in Hw as [Hat%bool_decide_eq_true _].
    split; [by apply all_cells_spec, list_elem_of_In|done]. }
  destruct (List.find (wins b AI_PLAYER) all_cells) as [m|] eqn:Hai.
  { exists m. split_and!; [done..|]. intros _ _. by eapply Hfind. }
  rewrite (winning_loop_run _ _ b Hwf all_cells_in).
  destruct (List.find (wins b HUMAN_PLAYER) all_cells) as [m|] eqn:Hhu.
  { exists m. split_and!; [done..|]. intros _ _. by eapply Hfind. }
  set (cs := std_sort _ _). set (depth := search_depth moveCount - 1).
  assert (∀ c, c ∈ cs <-> c ∈ candidates_of b) as Hcs by (intros c; unfold cs; by rewrite sorted_candidates).
  destruct (best_loop_run depth cs int_min (-1, -1)%Z b Hwf (sorted_candidates_empty _ _ _))
    as (m & -> & Hcase).
  destruct Hcase as [[-> Hall]|(Hm & Hgt & Hall)].
  - cbn [fst]. rewrite Z.eqb_refl. exists (random_empty rand b). split_and!; [done| |].
    + right. split; [|done]. intros c Hc%Hcs. rewrite Forall_forall in Hall. specialize (Hall c Hc).
      unfold move_value in *. pose proof (full_minimax_range depth false (set_at c.1 c.2 AI_PLAYER b)). lia.
    + intros c Hc. by eapply random_empty_cell.
  - apply Hcs in Hm as Hm'. destruct (candidates_empty _ _ Hm') as [Hin Hat].
    pose proof Hin as Hrange%isInBoard_spec.
    destruct (Z.eqb_spec m.1 (-1)) as [|_]; [lia|].
    exists m. split_and!; [done| |done]. left. split_and!; [done|done|].
    intros c Hc%Hcs. rewrite Forall_forall in Hall. by apply Hall.
Qed.

End search.
