(* ===== verification/AiGameFacts.v ===== *)
(** * The game as a state machine

    The moves of both players as steps, the invariant of every reachable game,
    and what a human move does. *)

From S2P Require Export AiSearch.

(** ** Counting stones *)

Definition occupied (b : board) (c : pos) : bool := bool_decide (at_ b c.1 c.2 ≠ EMPTY).
Definition stones (b : board) : nat := length (List.filter (occupied b) all_cells).

Lemma filter_length_update {A} (f g : A -> bool) (l : list A) a :
  NoDup l -> a ∈ l -> f a = false -> g a = true -> (∀ x, x ∈ l -> x ≠ a -> f x = g x) ->
  length (List.filter g l) = S (length (List.filter f l)).
Proof.
  intros Hnd Hin Hfa Hga Hsame. induction Hnd as [|x l Hx Hnd IH]; [by apply not_elem_of_nil in Hin|].
  cbn [List.filter]. apply elem_of_cons in Hin as [->|Hin].
  - rewrite Hfa, Hga. cbn. do 2 f_equal. apply filter_ext_in. intros y Hy%list_elem_of_In.
    symmetry. apply Hsame; [by right|]. by intros ->.
  - assert (x ≠ a) as Hne by by intros ->.
    rewrite (Hsame x) by (done || by left). specialize (IH Hin).
    destruct (g x); cbn; rewrite IH; auto; intros; apply Hsame; auto; by right.
Qed.

Lemma stones_set b x y p :
  board_wf b -> isInBoard x y = true -> at_ b x y = EMPTY -> p ≠ EMPTY ->
  stones (set_at x y p b) = S (stones b).
Proof.
  intros Hwf Hin Hat Hp. apply (filter_length_update _ _ _ (x, y)).
  - apply all_cells_NoDup.
  - by apply all_cells_spec.
  - apply bool_decide_eq_false. intros Hn. by apply Hn.
  - apply bool_decide_eq_true. cbn. by rewrite at_set_eq.
  - intros [i j] Hc%all_cells_spec Hne. unfold occupied. cbn [fst snd].
    by rewrite at_set_ne by (done || congruence).
Qed.

(** A board with fewer stones than cells has an empty cell. *)
Lemma empty_cell_exists b : stones b < 225 -> ∃ c, empty_cell b c.
Proof.
  intros Hlt. destruct (decide (Exists (empty_cell b) all_cells)) as [Hex|Hno].
  { apply Exists_exists in Hex as (c & _ & Hc). by exists c. }
  apply not_Exists_Forall in Hno; [|apply _].
  assert (stones b = 225); [|lia]. unfold stones.
  rewrite (List.forallb_filter_id (occupied b) all_cells); [done|].
  apply forallb_forall. intros [i j] Hc%list_elem_of_In.
  rewrite Forall_forall in Hno. specialize (Hno _ Hc). apply bool_decide_eq_true.
  intros Hat. apply Hno. split; [by apply all_cells_spec|done].
Qed.

(** ** Fives and one more stone *)

Lemma five_through_has b p x y : five_through b p x y -> has_five b p.
Proof. intros (d & k & Hd & Hk & Hf). by eexists _, _, d. Qed.

(** A five on the new board that was not on the old one passes through the new
    stone. *)
Lemma has_five_set b x y p q :
  board_wf b -> isInBoard x y = true -> at_ b x y = EMPTY -> q ≠ EMPTY ->
  has_five (set_at x y p b) q ->
  has_five b q ∨ (p = q ∧ five_through (set_at x y p b) p x y).
Proof.
  intros Hwf Hin Hat Hq (x0 & y0 & d & Hd & Hf).
  destruct (decide (Exists (λ i, (x0 + i * d.1 = x ∧ y0 + i * d.2 = y)%Z) [0; 1; 2; 3; 4]%Z)) as [Hex|Hno].
  - right. apply Exists_exists in Hex as (i & Hi & Hx & Hy).
    assert (0 <= i <= 4)%Z as Hr by (rewrite !elem_of_cons, elem_of_nil in Hi; lia).
    destruct (Hf i Hr) as [_ Hc]. rewrite Hx, Hy, at_set_eq in Hc by done. subst q. split; [done|].
    exists d, i. split_and!; [done|lia|lia|].
    replace (x - i * d.1)%Z with x0 by lia. replace (y - i * d.2)%Z with y0 by lia. exact Hf.
  - left. exists x0, y0, d. split; [done|]. intros i Hi. destruct (Hf i Hi) as [Hin' Hc].
    split; [done|]. rewrite at_set_ne in Hc; try done.
    intros [= Hx Hy]. apply Hno, Exists_exists. exists i. split; [|done].
    rewrite !elem_of_cons. lia.
Qed.

(** ** Steps *)
Section game.
Context `{StdSort pos}.

(** A request for a human move at any coordinates, or the computer's turn. *)
Inductive game_step : AiGame -> AiGame -> Prop :=
| step_human x y g r g' : humanMove x y g = (r, g') -> game_step g g'
| step_ai rand g r g' : aiMove rand g = (r, g') -> game_step g g'.

Definition winner_name (p : cell) : bytes :=
  match p with AI_PLAYER => lit "ai" | HUMAN_PLAYER => lit "human" | EMPTY => lit "none" end.

(** The invariant: a full-sized board with as many stones as moves; while the
    game is on, nobody has five and nobody has won; when it is over, the named
    winner made five with the last move. *)
Record game_ok (g : AiGame) : Prop := {
  game_board : board_wf g.(board_);
  game_count : g.(moveCount_) = Z.of_nat (stones g.(board_));
  game_on : g.(gameOver_) = false ->
    g.(winner_) = lit "none" ∧ ¬ has_five g.(board_) AI_PLAYER ∧ ¬ has_five g.(board_) HUMAN_PLAYER;
  game_over : g.(gameOver_) = true ->
    ∃ p, p ≠ EMPTY ∧ g.(winner_) = winner_name p ∧
      five_through g.(board_) p g.(lastMove_).1 g.(lastMove_).2
}.

Definition empty_board : board := replicate BOARD_CELLS (replicate BOARD_CELLS EMPTY).

Lemma empty_board_empty x y : isInBoard x y = true -> at_ empty_board x y = EMPTY.
Proof.
  intros Hin%all_cells_spec.
  assert (Forall (λ c, at_ empty_board c.1 c.2 = EMPTY) all_cells) as Hall
    by (apply (bool_decide_unpack _); by vm_compute).
  rewrite Forall_forall in Hall. apply (Hall (x, y) Hin).
Qed.

Lemma empty_board_five p : p ≠ EMPTY -> ¬ has_five empty_board p.
Proof.
  intros Hp (x & y & d & _ & Hf). destruct (Hf 0%Z) as [Hin Hc]; [lia|].
  rewrite empty_board_empty in Hc by done. congruence.
Qed.

Lemma empty_board_stones : stones empty_board = 0.
Proof. by vm_compute. Qed.

Lemma new_game_ok u : game_ok (new_AiGame u).
Proof.
  unfold new_AiGame. fold empty_board. split; cbn [board_ moveCount_ gameOver_ winner_].
  - split; [done|]. unfold empty_board. by apply Forall_replicate.
  - by rewrite empty_board_stones.
  - intros _. split_and!; [done|by apply empty_board_five|by apply empty_board_five].
  - done.
Qed.

Lemma place_ok g x y p :
  game_ok g -> g.(gameOver_) = false -> isInBoard x y = true -> at_ g.(board_) x y = EMPTY ->
  p ≠ EMPTY -> game_ok (place x y p (winner_name p) g).
Proof.
  intros [Hwf Hcount Hon _] Hgo Hin Hat Hp. destruct (Hon Hgo) as (Hw & Hai & Hhu).
  assert (isInBoard x y = true -> at_ (set_at x y p (board_ g)) x y = p) as Hset by by apply at_set_eq.
  pose proof (checkwin_five (set_at x y p (board_ g)) p x y Hin (Hset Hin)) as Hwin.
  unfold place. destruct (checkwin (set_at x y p (board_ g)) x y p); split;
    cbn [board_ moveCount_ gameOver_ winner_ lastMove_ fst snd].
  - by apply set_at_wf.
  - rewrite stones_set by done. lia.
  - done.
  - intros _. exists p. split_and!; [done|done|by apply Hwin].
  - by apply set_at_wf.
  - rewrite stones_set by done. lia.
  - intros _. split; [done|].
    assert (¬ five_through (set_at x y p (board_ g)) p x y) as Hno by by intros ?%Hwin.
    split; intros Hf; apply has_five_set in Hf as [Hf|[_ Hf]]; done.
  - congruence.
Qed.

Lemma isValidMove_spec g x y :
  isValidMove g x y = true <->
    isInBoard x y = true ∧ at_ g.(board_) x y = EMPTY ∧ g.(gameOver_) = false ∧ isDraw g = false.
Proof.
  unfold isValidMove. destruct (isInBoard x y); cbn [negb]; [|split; [done|by intros []]].
  destruct (decide (at_ (board_ g) x y = EMPTY)) as [Hat|Hat].
  - rewrite bool_decide_false by by intros []. destruct (gameOver_ g), (isDraw g); cbn [orb];
      (split; [done|by intros (_ & _ & ? & ?)]).
  - rewrite bool_decide_true by done. split; [done|by intros (_ & ? & _)].
Qed.

Lemma game_not_full g : game_ok g -> isDraw g = false -> ∃ c, empty_cell g.(board_) c.
Proof.
  intros Hok Hdraw. apply empty_cell_exists. pose proof (game_count g Hok).
  unfold isDraw, BOARD_SIZE in Hdraw. lia.
Qed.

(** The computer's move is a stone on an empty cell of the board. *)
Lemma aiMove_run rand g :
  game_ok g ->
  aiMove rand g =
    (if g.(gameOver_) || isDraw g then (Ret tt, g)
     else (Ret tt, place (getBestMove false g.(moveCount_) rand g.(board_)).1.1
                         (getBestMove false g.(moveCount_) rand g.(board_)).1.2 AI_PLAYER (lit "ai") g)) ∧
  (g.(gameOver_) || isDraw g = false ->
     empty_cell g.(board_) (getBestMove false g.(moveCount_) rand g.(board_)).1).
Proof.
  intros Hok. unfold aiMove. rewrite (bind_run _ _ _ g g) by done.
  destruct (gameOver_ g || isDraw g) eqn:Hover; [done|].
  apply orb_false_iff in Hover as [Hgo Hdraw].
  destruct (getBestMove_spec false g.(moveCount_) rand g.(board_) (game_board g Hok))
    as ([x y] & Hm & _ & Hempty).
  destruct (game_not_full g Hok Hdraw) as [c Hc]. apply Hempty in Hc as Hxy.
  rewrite Hm. cbn [fst snd]. split; [|done]. destruct Hxy as [Hin _]. cbn [fst snd] in Hin.
  rewrite Hin. cbn [negb]. unfold modify. f_equal.
Qed.

Lemma game_step_ok g g' : game_step g g' -> game_ok g -> game_ok g'.
Proof.
  intros Hstep Hok. destruct Hstep as [x y g r g' Hrun|rand g r g' Hrun].
  - unfold humanMove in Hrun. rewrite (bind_run _ _ _ g g) in Hrun by done.
    destruct (isValidMove g x y) eqn:Hv; cbn [negb] in Hrun; [|by injection Hrun as <- <-].
    rewrite (bind_run _ _ _ tt (place x y HUMAN_PLAYER (lit "human") g)) in Hrun by done.
    injection Hrun as <- <-.
    apply isValidMove_spec in Hv as (Hin & Hat & Hgo & _).
    by apply (place_ok g x y HUMAN_PLAYER).
  - destruct (aiMove_run rand g Hok) as [Hai Hempty]. rewrite Hai in Hrun.
    destruct (gameOver_ g || isDraw g) eqn:Hover; simplify_eq; [done|].
    destruct (Hempty eq_refl) as [Hin Hat]. apply orb_false_iff in Hover as [Hgo _].
    by apply (place_ok g _ _ AI_PLAYER).
Qed.

(** C22. In every game reachable from a new one by any requests for moves, the
    board is full sized and holds as many stones as moves were counted; nobody
    has five in a row while the game is on, and when it is over the announced
    winner has five through the last move; and the computer's turn always
    returns: it never indexes the board out of range. *)
Theorem reachable_game_ok (u : Z) (g : AiGame) :
  star game_step (new_AiGame u) g ->
  game_ok g ∧ ∀ rand, (aiMove rand g).1 = Ret tt.
Proof.
  intros Hstar. assert (game_ok g) as Hok
    by (eapply star_invariant; [apply game_step_ok|exact Hstar|apply new_game_ok]).
  split; [done|]. intros rand. destruct (aiMove_run rand g Hok) as [-> _].
  by destruct (gameOver_ g || isDraw g).
Qed.

(** C24. A human move succeeds exactly on an empty cell of the board while the
    game is neither won nor drawn; it then changes that cell and no other,
    counts one move, records it as the last, and ends the game with the human
    as winner exactly when it completes five in a row; otherwise nothing
    changes. *)
Theorem humanMove_spec (g : AiGame) (x y : Z) :
  game_ok g ->
  ∃ ok g', humanMove x y g = (Ret ok, g') ∧
    (ok = true <-> empty_cell g.(board_) (x, y) ∧ g.(gameOver_) = false ∧ isDraw g = false) ∧
    (ok = false -> g' = g) ∧
    (ok = true ->
       at_ g'.(board_) x y = HUMAN_PLAYER ∧
       (∀ i j, isInBoard i j = true -> (x, y) ≠ (i, j) -> at_ g'.(board_) i j = at_ g.(board_) i j) ∧
       g'.(moveCount_) = (g.(moveCount_) + 1)%Z ∧ g'.(lastMove_) = (x, y) ∧
       (g'.(gameOver_) = true <-> five_through g'.(board_) HUMAN_PLAYER x y) ∧
       (g'.(gameOver_) = true -> g'.(winner_) = lit "human")).
Proof.
  intros Hok. pose proof (isValidMove_spec g x y) as Hvalid. unfold humanMove.
  rewrite (bind_run _ _ _ g g) by done.
  destruct (isValidMove g x y); cbn [negb].
  2:{ exists false, g. split_and!; [done|split; [done|]|done|done].
      intros ([Hin Hat] & Hgo & Hd). by apply Hvalid. }
  destruct (proj1 Hvalid eq_refl) as (Hin & Hat & Hgo & Hd). destruct Hok as [Hwf _ _ _].
  pose proof (at_set_eq _ Hwf x y HUMAN_PLAYER Hin) as Hset.
  pose proof (checkwin_five (set_at x y HUMAN_PLAYER (board_ g)) HUMAN_PLAYER x y Hin Hset) as Hwin.
  eexists true, _. split; [reflexivity|]. split_and!; [done|done|]. intros _.
  assert (∀ i j, isInBoard i j = true -> (x, y) ≠ (i, j) ->
    at_ (set_at x y HUMAN_PLAYER (board_ g)) i j = at_ (board_ g) i j) as Hframe
    by (intros i j Hij Hne; by apply at_set_ne).
  unfold place. destruct (checkwin _ x y HUMAN_PLAYER);
    cbn [board_ moveCount_ gameOver_ winner_ lastMove_];
    (split; [exact Hset|]; split; [exact Hframe|]; split; [done|]; split; [done|]).
  - split; [|done]. split; [intros _; by apply Hwin|done].
  - rewrite Hgo. split; [|done]. split; [done|]. by intros ?%Hwin.
Qed.

End game.

(** ** Witnesses *)

(** A sort: insertion, before the elements that are not less. *)
Fixpoint insert_sorted (less : pos -> pos -> bool) (a : pos) (l : list pos) : list pos :=
  match l with
  | [] => [a]
  | x :: l' => if less x a then x :: insert_sorted less a l' else a :: x :: l'
  end.
Definition insertion_sort (less : pos -> pos -> bool) (l : list pos) : list pos :=
  foldr (insert_sorted less) [] l.

Lemma insert_sorted_perm less a l : insert_sorted less a l ≡ₚ a :: l.
Proof.
  induction l as [|x l IH]; [done|]. cbn. destruct (less x a); [|done]. rewrite IH. constructor.
Qed.

#[export] Instance insertion_std_sort : StdSort pos.
Proof.
  refine {| std_sort := insertion_sort |}. intros less l _.
  induction l as [|x l IH]; [done|]. cbn. by rewrite insert_sorted_perm, IH.
Defined.

(** Four stones of each player in a row, the human's open at (3, 4). *)
Definition sample_board : board :=
  set_at 3 3 HUMAN_PLAYER (set_at 3 2 HUMAN_PLAYER (set_at 3 1 HUMAN_PLAYER (set_at 3 0 HUMAN_PLAYER
    (set_at 9 3 AI_PLAYER (set_at 9 2 AI_PLAYER (set_at 9 1 AI_PLAYER empty_board)))))).

Lemma sample_board_wf : board_wf sample_board.
Proof. split; [done|]. apply (bool_decide_unpack _). by vm_compute. Qed.

Lemma minimax_alpha_beta_witness :
  window_ok 0 100 (minimax false 2 true 0 100 sample_board).1 (full_minimax false 2 true sample_board) ∧
  (minimax false 2 true 0 100 sample_board).2 = sample_board.
Proof.
  destruct (minimax_alpha_beta false 2 true 0 100 sample_board) as (Hback & Hw & _).
  - exact sample_board_wf.
  - unfold int_min. lia.
  - unfold int_max. lia.
  - split; [exact Hw|exact Hback].
Defined.

(** The computer blocks at (3, 4). *)
Lemma getBestMove_spec_witness :
  getBestMove false 7 0 sample_board = ((3, 4)%Z, sample_board).
Proof.
  destruct (getBestMove_spec false 7 0 sample_board sample_board_wf) as (m & Hm & Hcase & _).
  rewrite Hm. vm_compute in Hcase. by rewrite Hcase.
Defined.

Lemma reachable_game_ok_witness :
  let g := place 7 7 HUMAN_PLAYER (lit "human") (new_AiGame 1) in
  star game_step (new_AiGame 1) g ∧ game_ok g.
Proof.
  intros g. assert (star game_step (new_AiGame 1) g) as Hstar.
  { apply star_one, (step_human 7 7 (new_AiGame 1) (Ret true) g). reflexivity. }
  split; [exact Hstar|]. exact (proj1 (reachable_game_ok 1 g Hstar)).
Defined.

Lemma humanMove_spec_witness :
  ∃ g', humanMove 7 7 (new_AiGame 1) = (Ret true, g') ∧ g'.(moveCount_) = 1%Z.
Proof.
  destruct (humanMove_spec (new_AiGame 1) 7 7 (new_game_ok 1)) as (ok & g' & Hrun & Hok & _ & Hset).
  assert (ok = true) as Htrue by (apply Hok; by vm_compute).
  subst ok. exists g'. split; [exact Hrun|]. by apply Hset.
Defined.
