(* ===== verification/FirstGame.v ===== *)
(** * The first version of the game

    [HttpServer/AiGame.cpp], the copy of the game that came before
    [WebAPP/Gomoku/src/AiGame.cpp]: the same rules, another evaluation and a
    plainer search. Its game is compared with that of [AiGame.v]; the search is
    specified by minimax, and where it finds no move at all is shown. *)

From S2P Require Export AiGameFacts.

(** [MAX_DEPTH]. *)
Definition MAX_DEPTH : nat := 3.

(** ** [evaluateBoard] *)

(** The stones in a row from a stone on, in one direction, as points. *)
Definition row_score (b : board) (p : cell) (x y : Z) (d : pos) : Z :=
  match S (run_length 4 1 b p x y d.1 d.2) with
  | 0 | 1 => 0%Z
  | 2 => 10%Z
  | 3 => 100%Z
  | 4 => 1000%Z
  | _ => 100000%Z
  end.

Definition first_evaluateBoard (b : board) (p : cell) : Z :=
  fold_left (λ score '(x, y),
    if bool_decide (at_ b x y = p)
    then fold_left (λ score d, score + row_score b p x y d)%Z directions score
    else score) all_cells 0%Z.

(** ** [minimax] *)

Definition first_score (b : board) : Z := (first_evaluateBoard b AI_PLAYER - first_evaluateBoard b HUMAN_PLAYER)%Z.

(** The two loops: [rec] is the recursive call. *)
Fixpoint first_loop (rec : Z -> Z -> board -> Z * board) (maximizing : bool) (currentPlayer : cell)
    (cs : list pos) (best alpha beta : Z) (b : board) : Z * board :=
  match cs with
  | [] => (best, b)
  | (i, j) :: cs =>
      if bool_decide (at_ b i j = EMPTY) then
        let '(score, b) := rec alpha beta (set_at i j currentPlayer b) in
        let b := set_at i j EMPTY b in
        let '(best, alpha, beta) :=
          if maximizing then (Z.max best score, Z.max alpha (Z.max best score), beta)
          else (Z.min best score, alpha, Z.min beta (Z.min best score)) in
        if (beta <=? alpha)%Z then (best, b)
        else first_loop rec maximizing currentPlayer cs best alpha beta b
      else first_loop rec maximizing currentPlayer cs best alpha beta b
  end.

Fixpoint first_minimax (depth : nat) (maximizing : bool) (alpha beta : Z) (b : board) : Z * board :=
  match depth with
  | 0 => (first_score b, b)
  | S depth =>
      first_loop (first_minimax depth (negb maximizing)) maximizing (if maximizing then AI_PLAYER else HUMAN_PLAYER)
        all_cells (if maximizing then int_min else int_max) alpha beta b
  end.

(** ** [getBestMove] and [aiMove] *)

Fixpoint first_best_loop (cs : list pos) (bestScore : Z) (bestMove : pos) (b : board) : pos * board :=
  match cs with
  | [] => (bestMove, b)
  | (i, j) :: cs =>
      if bool_decide (at_ b i j = EMPTY) && isNearOccupied b i j then
        let '(score, b) := first_minimax (MAX_DEPTH - 1) false int_min int_max (set_at i j AI_PLAYER b) in
        let b := set_at i j EMPTY b in
        if (bestScore <? score)%Z then first_best_loop cs score (i, j) b
        else first_best_loop cs bestScore bestMove b
      else first_best_loop cs bestScore bestMove b
  end.

Definition first_getBestMove (b : board) : pos * board :=
  first_best_loop all_cells int_min (-1, -1)%Z b.

(** The move; a position off the board is indexed out of range. The second of
    thinking is left out. *)
Definition first_aiMove : prog std_exception AiGame unit :=
  g ← get;
  if g.(gameOver_) || isDraw g then mret tt
  else
    let '((x, y), b) := first_getBestMove g.(board_) in
    if negb (isInBoard x y) then halt UndefinedBehaviour
    else modify (λ g, place x y AI_PLAYER (lit "ai")
      (mkAiGame b g.(gameOver_) g.(userId_) g.(moveCount_) g.(winner_) g.(lastMove_))).

(** ** The evaluation stays in [int] *)

Lemma row_score_bounds b p x y d : (0 <= row_score b p x y d <= 100000)%Z.
Proof. unfold row_score. destruct (run_length _ _ _ _ _ _ _ _) as [|[|[|[|]]]]; lia. Qed.

Definition row_step (b : board) (p : cell) (score : Z) (c : pos) : Z :=
  if bool_decide (at_ b c.1 c.2 = p)
  then fold_left (λ score d, score + row_score b p c.1 c.2 d)%Z directions score
  else score.

Lemma row_step_bounds b p score c : (score <= row_step b p score c <= score + 400000)%Z.
Proof.
  unfold row_step. case_bool_decide; [|lia]. cbn [fold_left directions].
  pose proof (row_score_bounds b p c.1 c.2 (1, 0)%Z). pose proof (row_score_bounds b p c.1 c.2 (0, 1)%Z).
  pose proof (row_score_bounds b p c.1 c.2 (1, 1)%Z). pose proof (row_score_bounds b p c.1 c.2 (1, -1)%Z). lia.
Qed.

Lemma first_fold_bounds b p cs score :
  (score <= fold_left (row_step b p) cs score <= score + 400000 * Z.of_nat (length cs))%Z.
Proof.
  revert score. induction cs as [|c cs IH]; intros score; cbn [fold_left length]; [lia|].
  pose proof (row_step_bounds b p score c). specialize (IH (row_step b p score c)). lia.
Qed.

Lemma first_evaluateBoard_range b p : (0 <= first_evaluateBoard b p <= 90000000)%Z.
Proof.
  assert (first_evaluateBoard b p = fold_left (row_step b p) all_cells 0%Z) as ->.
  { unfold first_evaluateBoard. generalize 0%Z. induction all_cells as [|[x y] l IH]; intros z; [done|].
    cbn [fold_left]. apply IH. }
  pose proof (first_fold_bounds b p all_cells 0) as Hb. change (length all_cells) with 225 in Hb. lia.
Qed.

Lemma first_score_int b : (int_min < first_score b < int_max)%Z.
Proof.
  unfold first_score. pose proof (first_evaluateBoard_range b AI_PLAYER).
  pose proof (first_evaluateBoard_range b HUMAN_PLAYER). unfold int_min, int_max. lia.
Qed.

#[local] Opaque all_cells.

(** ** Specification: minimax over the empty cells, on values *)

Fixpoint first_full (depth : nat) (mx : bool) (b : board) : Z :=
  match depth with
  | 0 => first_score b
  | S depth =>
      fold_left (pick mx)
        (map (λ c, first_full depth (negb mx) (set_at c.1 c.2 (player_of mx) b)) (empty_cells b)) (worst mx)
  end.

Lemma empty_cells_spec b c : c ∈ empty_cells b <-> empty_cell b c.
Proof.
  unfold empty_cells. rewrite list_elem_of_In, filter_In. destruct c as [i j]. unfold empty_cell. cbn [fst snd].
  rewrite bool_decide_eq_true. by rewrite <-list_elem_of_In, all_cells_spec.
Qed.

(** The loop passes over the cells that are not empty. *)
Lemma first_loop_search rec v mx p cs best alpha beta b :
  rec_ok rec v -> board_wf b -> Forall (λ c, isInBoard c.1 c.2 = true) cs ->
  (int_min <= alpha < beta)%Z -> (beta <= int_max)%Z ->
  first_loop rec mx p cs best alpha beta b =
    search_loop rec mx p (List.filter (λ '(i, j), bool_decide (at_ b i j = EMPTY)) cs) best alpha beta b.
Proof.
  intros Hrec Hwf Hcs. revert best alpha beta. induction Hcs as [|[i j] cs Hin _ IH]; intros best alpha beta Ha Hb; [done|].
  cbn [first_loop List.filter]. cbn [fst snd] in Hin. case_bool_decide as Hat; [|by apply IH]. cbn [search_loop].
  destruct (Hrec alpha beta (set_at i j p b)) as [Hback _]; [by apply set_at_wf|lia|lia|].
  destruct (rec alpha beta (set_at i j p b)) as [score b1]. cbn [snd] in Hback. subst b1. rewrite place_take_back by done.
  destruct mx; (destruct (_ <=? _)%Z eqn:Hcut; [done|]; apply IH; lia).
Qed.

Lemma empties_empty b : Forall (empty_cell b) (empty_cells b).
Proof. rewrite Forall_forall. intros c. apply empty_cells_spec. Qed.

Lemma first_minimax_ok depth mx : rec_ok (first_minimax depth mx) (first_full depth mx).
Proof.
  revert mx. induction depth as [|depth IH]; intros mx alpha beta b Hwf Ha Hb.
  - cbn. split; [done|]. unfold window_ok. lia.
  - cbn [first_minimax first_full]. rewrite (first_loop_search _ _ _ _ _ _ _ _ _ (IH (negb mx)) Hwf all_cells_in) by lia.
    destruct mx.
    + apply (max_loop _ (first_full depth false)); auto using empties_empty; cbn; lia.
    + apply (min_loop _ (first_full depth true)); auto using empties_empty; cbn; lia.
Qed.

Lemma first_full_range depth mx b : (int_min <= first_full depth mx b <= int_max)%Z.
Proof.
  revert mx b. induction depth as [|depth IH]; intros mx b; [pose proof (first_score_int b); cbn; lia|]. cbn [first_full].
  apply fold_pick_range; [|unfold worst, int_min, int_max; destruct mx; lia].
  apply Forall_map, Forall_forall. intros c _. apply IH.
Qed.

Lemma first_minimax_full depth mx b :
  board_wf b -> first_minimax depth mx int_min int_max b = (first_full depth mx b, b).
Proof.
  intros Hwf. destruct (first_minimax_ok depth mx int_min int_max b) as [Hb Hw];
    [done|unfold int_min, int_max; lia|lia|].
  pose proof (first_full_range depth mx b). unfold window_ok in Hw.
  destruct (first_minimax depth mx int_min int_max b) as [r b']. cbn [fst snd] in *. subst b'. f_equal. lia.
Qed.

(** ** There is a candidate *)

(** A stone and an empty cell that touch. *)
Lemma near_occupied b x y dx dy :
  isInBoard (x + dx) (y + dy) = true -> at_ b (x + dx) (y + dy) ≠ EMPTY -> (dx, dy) ∈ neighbours ->
  isNearOccupied b x y = true.
Proof.
  intros Hin Hat Hd. unfold isNearOccupied. apply existsb_exists. exists (dx, dy).
  split; [by apply list_elem_of_In|]. rewrite Hin. by apply bool_decide_eq_true.
Qed.

Lemma sgn_neighbour dx dy : (dx ≠ 0 ∨ dy ≠ 0)%Z -> (- Z.sgn dx, - Z.sgn dy)%Z ∈ neighbours.
Proof.
  intros Hne. unfold neighbours. rewrite !elem_of_cons.
  destruct (Z.sgn_spec dx) as [[? ->]|[[? ->]|[? ->]]], (Z.sgn_spec dy) as [[? ->]|[[? ->]|[? ->]]]; cbn; try lia;
    repeat (first [by left | right]).
Qed.

Lemma candidates_exist b c0 c :
  isInBoard c0.1 c0.2 = true -> at_ b c0.1 c0.2 ≠ EMPTY -> empty_cell b c -> candidates_of b ≠ [].
Proof.
  destruct c0 as [x0 y0], c as [xe ye]. intros Hin0 Hat0 [Hine Hate] Hnil. cbn [fst snd] in *.
  assert (∀ (n : nat) x y, isInBoard x y = true -> (Z.abs (x - x0) <= Z.of_nat n)%Z -> (Z.abs (y - y0) <= Z.of_nat n)%Z ->
    at_ b x y ≠ EMPTY) as Hall.
  { induction n as [|n IH]; intros x y Hin Hx Hy; [by replace x with x0 by lia; replace y with y0 by lia|].
    destruct (decide (x = x0 ∧ y = y0)) as [[-> ->]|Hne]; [done|]. intros Hat.
    assert (isNearOccupied b x y = true) as Hnear.
    { apply (near_occupied b x y (- Z.sgn (x - x0)) (- Z.sgn (y - y0))).
      - rewrite isInBoard_spec in *. lia.
      - apply IH; [rewrite isInBoard_spec in *; lia|lia|lia].
      - apply sgn_neighbour. lia. }
    assert ((x, y) ∈ candidates_of b) as Hcand; [|by rewrite Hnil in Hcand; apply not_elem_of_nil in Hcand].
    unfold candidates_of. rewrite list_elem_of_In, filter_In, <-list_elem_of_In, all_cells_spec.
    split; [done|]. by rewrite bool_decide_true. }
  apply (Hall 15 xe ye); [done| | |done]; rewrite isInBoard_spec in *; lia.
Qed.

(** ** How many cells are empty *)

Lemma empties_set b c p : board_wf b -> empty_cell b c -> p ≠ EMPTY ->
  length (empty_cells b) = S (length (empty_cells (set_at c.1 c.2 p b))).
Proof.
  destruct c as [x y]. intros Hwf [Hin Hat] Hp. cbn [fst snd] in *. unfold empty_cells.
  apply (filter_length_update _ _ _ (x, y)); [apply all_cells_NoDup|by apply all_cells_spec| | |].
  - apply bool_decide_eq_false. by rewrite at_set_eq.
  - by apply bool_decide_eq_true.
  - intros [x' y'] Hc%all_cells_spec Hne. by rewrite at_set_ne by (done || congruence).
Qed.

(** The value of a candidate, two replies deep. *)
Definition first_value (b : board) (c : pos) : Z := first_full (MAX_DEPTH - 1) false (set_at c.1 c.2 AI_PLAYER b).

(** With one cell left for the human and none for the answer, the inner maximum
    is over nothing. *)
Lemma value_two_empty b c : board_wf b -> length (empty_cells b) = 2 -> empty_cell b c -> first_value b c = int_min.
Proof.
  intros Hwf Hn Hc. unfold first_value. set (b1 := set_at c.1 c.2 AI_PLAYER b).
  assert (length (empty_cells b1) = 1) as Hn1 by (pose proof (empties_set b c AI_PLAYER Hwf Hc ltac:(done)); unfold b1; lia).
  destruct (empty_cells b1) as [|c1 [|]] eqn:Hb1; try done.
  assert (empty_cell b1 c1) as Hc1 by (apply empty_cells_spec; rewrite Hb1; by left).
  assert (empty_cells (set_at c1.1 c1.2 HUMAN_PLAYER b1) = []) as Hnone.
  { apply nil_length_inv. pose proof (empties_set b1 c1 HUMAN_PLAYER ltac:(by apply set_at_wf) Hc1 ltac:(done)) as H. rewrite Hb1 in H. change (length [c1]) with 1 in H. lia. }
  cbn [first_full MAX_DEPTH Nat.sub negb player_of]. rewrite Hb1. cbn [map fold_left]. by rewrite Hnone.
Qed.

Lemma fold_max_gt l a z : z ∈ l -> (a < z)%Z -> (a < fold_left Z.max l a)%Z.
Proof.
  intros Hin Ha. apply list_elem_of_split in Hin as (l1 & l2 & ->). rewrite fold_left_app. cbn.
  pose proof (fold_max_ge l1 a). pose proof (fold_max_ge l2 (Z.max (fold_left Z.max l1 a) z)). lia.
Qed.

Lemma fold_min_gt l a m : Forall (λ z, m < z)%Z l -> (m < a)%Z -> (m < fold_left Z.min l a)%Z.
Proof. intros Hl. revert a. induction Hl as [|z l Hz _ IH]; intros a Ha; cbn; [done|]. apply IH. lia. Qed.

Lemma value_more_empty b c : board_wf b -> 3 ≤ length (empty_cells b) -> empty_cell b c -> (int_min < first_value b c)%Z.
Proof.
  intros Hwf Hn Hc. unfold first_value. set (b1 := set_at c.1 c.2 AI_PLAYER b).
  pose proof (empties_set b c AI_PLAYER Hwf Hc ltac:(done)) as Hn1. fold b1 in Hn1.
  assert (board_wf b1) as Hwf1 by by apply set_at_wf.
  cbn [first_full MAX_DEPTH Nat.sub negb player_of pick worst]. apply fold_min_gt; [|done].
  apply Forall_map, Forall_forall. intros c1 Hc1%empty_cells_spec.
  pose proof (empties_set b1 c1 HUMAN_PLAYER Hwf1 Hc1 ltac:(done)) as Hn2.
  destruct (empty_cells (set_at c1.1 c1.2 HUMAN_PLAYER b1)) as [|c2 l] eqn:Hb2; [change (length (@nil pos)) with 0 in Hn2; lia|].
  eapply fold_max_gt; [by left|]. apply first_score_int.
Qed.

(** ** The move *)

Lemma first_best_loop_run cs bs bm b :
  board_wf b -> Forall (λ c, isInBoard c.1 c.2 = true) cs ->
  let l := List.filter (λ '(i, j), bool_decide (at_ b i j = EMPTY) && isNearOccupied b i j) cs in
  ∃ m, first_best_loop cs bs bm b = (m, b) ∧
    (m = bm ∧ Forall (λ c, (first_value b c <= bs)%Z) l ∨
     m ∈ l ∧ (bs < first_value b m)%Z ∧ Forall (λ c, (first_value b c <= first_value b m)%Z) l).
Proof.
  intros Hwf Hcs. revert bs bm. induction Hcs as [|[i j] cs Hin _ IH]; intros bs bm.
  { exists bm. split; [done|]. by left. }
  cbn [first_best_loop List.filter]. cbn [fst snd] in Hin.
  destruct (bool_decide (at_ b i j = EMPTY) && isNearOccupied b i j) eqn:Hcand; [|apply IH].
  apply andb_true_iff in Hcand as [Hat%bool_decide_eq_true _].
  rewrite first_minimax_full by by apply set_at_wf. rewrite place_take_back by done.
  change (first_full (MAX_DEPTH - 1) false (set_at i j AI_PLAYER b)) with (first_value b (i, j)).
  destruct (Z.ltb_spec bs (first_value b (i, j))) as [Hlt|Hge].
  - destruct (IH (first_value b (i, j)) (i, j)) as (m & Hm & Hcase). exists m. split; [done|]. right.
    destruct Hcase as [[-> Hall]|(Hc & Hgt & Hall)]; (split_and!; [by constructor|lia|constructor; [lia|done]]).
  - destruct (IH bs bm) as (m & Hm & Hcase). exists m. split; [done|].
    destruct Hcase as [[-> Hall]|(Hc & Hgt & Hall)]; [left|right].
    + split; [done|]. by constructor.
    + split_and!; [by right|done|]. constructor; [lia|done].
Qed.

(** The first version searches as its successor does: [minimax] with pruning
    gives the plain minimax value over the empty cells and restores the board,
    and with a stone on the board and at least three cells empty [getBestMove]
    returns a cell next to a stone of greatest value. With exactly two cells
    empty it finds none: the search runs out of cells before its depth, every
    value is the least [int], and [aiMove] indexes the board at -1, so a game
    that comes so far ends the process. *)
Theorem first_getBestMove_spec (g : AiGame) (c0 : pos) :
  let b := g.(board_) in
  board_wf b -> isInBoard c0.1 c0.2 = true -> at_ b c0.1 c0.2 ≠ EMPTY ->
  (∀ depth mx, first_minimax depth mx int_min int_max b = (first_full depth mx b, b)) ∧
  (3 ≤ length (empty_cells b) -> ∃ m, first_getBestMove b = (m, b) ∧ m ∈ candidates_of b ∧
    ∀ c, c ∈ candidates_of b -> (first_value b c <= first_value b m)%Z) ∧
  (length (empty_cells b) = 2 -> first_getBestMove b = ((-1, -1)%Z, b) ∧
    (g.(gameOver_) = false -> isDraw g = false -> first_aiMove g = (Halt UndefinedBehaviour, g))).
Proof.
  intros b Hwf Hin0 Hat0. split; [intros; by apply first_minimax_full|].
  destruct (first_best_loop_run all_cells int_min (-1, -1)%Z b Hwf all_cells_in) as (m & Hm & Hcase).
  fold (candidates_of b) in Hcase. unfold first_getBestMove. split.
  - intros Hn. exists m. split; [done|]. destruct Hcase as [[-> Hall]|(Hin & _ & Hall)].
    + exfalso. destruct (empty_cells b) as [|c l] eqn:He; [cbn in Hn; lia|].
      assert (empty_cell b c) as Hc by (apply empty_cells_spec; rewrite He; by left).
      destruct (candidates_of b) as [|c1 l1] eqn:Hcand; [by eapply candidates_exist|].
      apply Forall_cons in Hall as [Hle _].
      assert (empty_cell b c1) as Hc1 by (apply candidates_empty; rewrite Hcand; by left).
      pose proof (value_more_empty b c1 Hwf ltac:(by rewrite He) Hc1). lia.
    + split; [done|]. by rewrite Forall_forall in Hall.
  - intros Hn. assert (m = (-1, -1)%Z) as ->.
    { destruct Hcase as [[-> _]|(Hin & Hgt & _)]; [done|]. apply candidates_empty in Hin.
      rewrite value_two_empty in Hgt by done. lia. }
    split; [done|]. intros Ho Hd. unfold first_aiMove. erewrite bind_run by done. rewrite Ho, Hd.
    unfold first_getBestMove. fold b. by rewrite Hm.
Qed.

(** A board with two cells left. *)
Definition almost_full : AiGame :=
  mkAiGame (set_at 0 0 EMPTY (set_at 0 1 EMPTY (replicate BOARD_CELLS (replicate BOARD_CELLS HUMAN_PLAYER))))
    false 1 223 (lit "none") (14, 14)%Z.

Lemma first_getBestMove_spec_witness :
  board_wf almost_full.(board_) ∧ length (empty_cells almost_full.(board_)) = 2 ∧
  first_aiMove almost_full = (Halt UndefinedBehaviour, almost_full).
Proof.
  assert (board_wf almost_full.(board_)) as Hwf by (split; [done|]; by repeat constructor).
  assert (length (empty_cells almost_full.(board_)) = 2) as Hn by (vm_compute; reflexivity).
  split_and!; [exact Hwf|exact Hn|].
  destruct (first_getBestMove_spec almost_full (7, 7)%Z Hwf) as (_ & _ & Htwo); [reflexivity|vm_compute; discriminate|].
  by destruct (Htwo Hn) as [_ ->].
Defined.
