(* ===== verification/Thread.v ===== *)
(** * Threads

    [co-pro/corotinue-fiber-pool/thread.h] and [thread.cpp]: a thread that is
    made with a callback, and the semaphore on which its maker waits until it
    has started. The two threads interleave: a step is one statement of [run],
    or one operation of the maker. What [pthread_create] and [pthread_join]
    return is an argument. *)

From S2P Require Export CppString.

(** ** [Semaphore] *)

(** The mutex makes [wait] and [signal] one step each. *)
Record Semaphore := mkSemaphore { count : Z }.

(** [None] waits on the condition variable. *)
Definition wait (s : Semaphore) : option Semaphore :=
  if bool_decide (s.(count) = 0)%Z then None else Some (mkSemaphore (s.(count) - 1)).
Definition signal (s : Semaphore) : Semaphore := mkSemaphore (s.(count) + 1).

(** ** [Thread] *)

(** An empty [m_cb] is [None]; [m_thread] tells whether it is not 0. *)
Record Thread (C : Type) := mkThread {
  m_id : Z;
  m_thread : bool;
  m_cb : option C;
  m_name : bytes;
  m_semaphore : Semaphore
}.
Arguments mkThread {C}.
Arguments m_id {C}.
Arguments m_thread {C}.
Arguments m_cb {C}.
Arguments m_name {C}.
Arguments m_semaphore {C}.

(** Where the maker is in the constructor, and the new thread in [run]. *)
Inductive maker_state := Creating | Waiting | Made | Failed.
#[export] Instance maker_state_eq_dec : EqDecision maker_state.
Proof. solve_decision. Defined.

Inductive runner_state (C : Type) :=
| NotStarted
| SetThis
| SetThreadName
| SetId
| SetSystemName
| SwapCb
| Signal (cb : option C)
| CallCb (cb : option C)
| Ended
| Crashed.
Arguments NotStarted {C}.
Arguments SetThis {C}.
Arguments SetThreadName {C}.
Arguments SetId {C}.
Arguments SetSystemName {C}.
Arguments SwapCb {C}.
Arguments Signal {C}.
Arguments CallCb {C}.
Arguments Ended {C}.
Arguments Crashed {C}.

(** The object, the two threads, the thread-local variables of the new one, its
    name in the system, and the callbacks it called. *)
Record threads (C : Type) := mkThreads {
  object : Thread C;
  maker : maker_state;
  runner : runner_state C;
  t_thread : bool;
  t_thread_name : bytes;
  system_name : bytes;
  called : list C
}.
Arguments mkThreads {C}.
Arguments object {C}.
Arguments maker {C}.
Arguments runner {C}.
Arguments t_thread {C}.
Arguments t_thread_name {C}.
Arguments system_name {C}.
Arguments called {C}.

Section thread.
Context {C : Type}.
Implicit Types (w : threads C) (o : Thread C) (cb : option C) (tid : Z).

Definition set_object o w : threads C :=
  mkThreads o w.(maker) w.(runner) w.(t_thread) w.(t_thread_name) w.(system_name) w.(called).
Definition set_maker m w : threads C :=
  mkThreads w.(object) m w.(runner) w.(t_thread) w.(t_thread_name) w.(system_name) w.(called).
Definition set_runner r w : threads C :=
  mkThreads w.(object) w.(maker) r w.(t_thread) w.(t_thread_name) w.(system_name) w.(called).

Definition set_id tid o : Thread C := mkThread tid o.(m_thread) o.(m_cb) o.(m_name) o.(m_semaphore).
Definition set_thread (b : bool) o : Thread C := mkThread o.(m_id) b o.(m_cb) o.(m_name) o.(m_semaphore).
Definition set_thread_cb cb o : Thread C := mkThread o.(m_id) o.(m_thread) cb o.(m_name) o.(m_semaphore).
Definition set_thread_name (n : bytes) o : Thread C := mkThread o.(m_id) o.(m_thread) o.(m_cb) n o.(m_semaphore).
Definition set_semaphore s o : Thread C := mkThread o.(m_id) o.(m_thread) o.(m_cb) o.(m_name) s.

(** The constructor before its body; nothing of the new thread exists yet. *)
Definition new_Thread cb (name : bytes) : threads C :=
  mkThreads (mkThread (-1) false cb name (mkSemaphore 0)) Creating NotStarted false (lit "UNKNOWN") [] [].

(** [pthread_create], which returns [rt]: otherwise than by 0 the constructor
    throws. *)
Definition thread_create (rt : Z) w : threads C :=
  if bool_decide (rt = 0)%Z then set_runner SetThis (set_maker Waiting (set_object (set_thread true w.(object)) w))
  else set_maker Failed w.

(** [m_semaphore.wait()], after which the constructor returns. *)
Definition wait_started w : option (threads C) :=
  s ← wait w.(object).(m_semaphore);
  Some (set_maker Made (set_object (set_semaphore s w.(object)) w)).

(** The next statement of [run]; to call an empty function is to throw out of
    the thread. *)
Definition run_step tid w : option (threads C) :=
  match w.(runner) with
  | NotStarted | Ended | Crashed => None
  | SetThis => Some (mkThreads w.(object) w.(maker) SetThreadName true w.(t_thread_name) w.(system_name) w.(called))
  | SetThreadName => Some (mkThreads w.(object) w.(maker) SetId w.(t_thread) w.(object).(m_name) w.(system_name) w.(called))
  | SetId => Some (set_runner SetSystemName (set_object (set_id tid w.(object)) w))
  | SetSystemName => Some (mkThreads w.(object) w.(maker) SwapCb w.(t_thread) w.(t_thread_name) (substr w.(object).(m_name) 0 15) w.(called))
  | SwapCb => Some (set_runner (Signal w.(object).(m_cb)) (set_object (set_thread_cb None w.(object)) w))
  | Signal cb => Some (set_runner (CallCb cb) (set_object (set_semaphore (signal w.(object).(m_semaphore)) w.(object)) w))
  | CallCb (Some cb) => Some (mkThreads w.(object) w.(maker) Ended w.(t_thread) w.(t_thread_name) w.(system_name) (w.(called) ++ [cb]))
  | CallCb None => Some (set_runner Crashed w)
  end.

(** [join], for what [pthread_join] returns, once the thread has ended, and the
    destructor. *)
Definition thread_join (rt : Z) : prog std_exception (Thread C) unit :=
  o ← get;
  if o.(m_thread) then
    if bool_decide (rt ≠ 0)%Z then throw (OtherException "pthread_join error")
    else modify (set_thread false)
  else mret tt.
Definition delete_Thread o : Thread C := if o.(m_thread) then set_thread false o else o.

(** [SetName] and [GetName], on the thread that runs. *)
Definition SetName (name : bytes) w : threads C :=
  let o := if w.(t_thread) then set_thread_name name w.(object) else w.(object) in
  mkThreads o w.(maker) w.(runner) w.(t_thread) name w.(system_name) w.(called).
Definition GetName w : bytes := w.(t_thread_name).
Definition getId w : Z := w.(object).(m_id).

(** ** The interleavings of the constructor and of [run] *)
Inductive thread_step tid : threads C -> threads C -> Prop :=
| step_create rt w : w.(maker) = Creating -> thread_step tid w (thread_create rt w)
| step_wait w w' : w.(maker) = Waiting -> wait_started w = Some w' -> thread_step tid w w'
| step_run w w' : run_step tid w = Some w' -> thread_step tid w w'.


(** ** How far the two threads are *)

Definition stage w : nat :=
  match w.(runner) with
  | NotStarted => 0 | SetThis => 1 | SetThreadName => 2 | SetId => 3 | SetSystemName => 4 | SwapCb => 5
  | Signal _ => 6 | CallCb _ => 7 | Ended | Crashed => 8
  end.
Definition thread_rank w : nat :=
  8 - stage w + match w.(maker) with Creating => 2 | Waiting => 1 | Made | Failed => 0 end.

(** The invariant: what was written is what the thread is past; the semaphore
    is up from [signal] until the maker has taken it; the callback is in the
    object, then with the thread. *)
Record thread_ok tid cb (name : bytes) w : Prop := {
  th_name : w.(object).(m_name) = name;
  th_this : w.(t_thread) = bool_decide (2 ≤ stage w);
  th_local : w.(t_thread_name) = if decide (3 ≤ stage w) then name else lit "UNKNOWN";
  th_id : w.(object).(m_id) = if decide (4 ≤ stage w) then tid else (-1)%Z;
  th_system : w.(system_name) = if decide (5 ≤ stage w) then substr name 0 15 else [];
  th_cb : w.(object).(m_cb) = if decide (6 ≤ stage w) then None else cb;
  th_held : match w.(runner) with Signal c | CallCb c => c = cb | Ended => is_Some cb | Crashed => cb = None | _ => True end;
  th_called : w.(called) = match w.(runner), cb with Ended, Some c => [c] | _, _ => [] end;
  th_count : w.(object).(m_semaphore).(count) = if decide (7 ≤ stage w ∧ w.(maker) ≠ Made) then 1%Z else 0%Z;
  th_made : w.(maker) = Made -> 7 ≤ stage w;
  th_started : (w.(maker) = Creating ∨ w.(maker) = Failed) <-> stage w = 0
}.

Lemma new_Thread_ok tid cb name : thread_ok tid cb name (new_Thread cb name).
Proof. split; cbn; try done. split; [done|by left]. Qed.

Lemma thread_step_ok tid cb name w w' : thread_step tid w w' -> thread_ok tid cb name w -> thread_ok tid cb name w'.
Proof.
  intros Hstep Hok. destruct Hstep as [rt w Hm|w w' Hm Hw|w w' Hr].
  - destruct Hok as [Hn Ht Hl Hi Hs Hc Hh Hcd Hct Hmd Hst]. assert (stage w = 0) as H0 by (apply Hst; by left).
    destruct w as [o m r t tn sn cd]; cbn in *. destruct r; try done. unfold thread_create. destruct (bool_decide (rt = 0)%Z).
    + split; cbn in *; try done. by split; [intros [|]|].
    + split; cbn in *; try done. split; [done|by right].
  - unfold wait_started, wait in Hw. destruct Hok as [Hn Ht Hl Hi Hs Hc Hh Hcd Hct Hmd Hst].
    destruct (decide (7 ≤ stage w)) as [H7|H7].
    2:{ rewrite decide_False in Hct by naive_solver. rewrite Hct, bool_decide_true in Hw by done. done. }
    rewrite decide_True in Hct by (split; [done|by rewrite Hm]). rewrite bool_decide_false in Hw by lia.
    injection Hw as <-. split; try done; cbn.
    + rewrite Hct. by rewrite decide_False by naive_solver.
    + unfold stage in *. cbn. split; [by intros [|]|]. lia.
  - destruct Hok as [Hn Ht Hl Hi Hs Hc Hh Hcd Hct Hmd Hst]. destruct w as [o m r t tn sn cd]. unfold run_step in Hr. cbn in *.
    destruct r as [| | | | | |c|[c|]| |]; try done; injection Hr as <-; cbn in *; subst; split; cbn; try done; try naive_solver lia.
    all: rewrite Hct; repeat case_decide; try done; naive_solver lia.
Qed.

Lemma thread_run_step tid cb name w : thread_ok tid cb name w -> 0 < stage w < 8 -> is_Some (run_step tid w).
Proof. intros _ Hs. unfold run_step, stage in *. destruct (runner w) as [| | | | | |c|[c|]| |]; try done; lia. Qed.

Lemma thread_step_rank tid cb name w w' : thread_ok tid cb name w -> thread_step tid w w' -> thread_rank w' < thread_rank w.
Proof.
  intros Hok Hstep. pose proof (th_started _ _ _ _ Hok) as Hst. destruct Hstep as [rt w Hm|w w' Hm Hw|w w' Hr].
  - assert (stage w = 0) as H0 by (apply Hst; by left). unfold thread_rank. rewrite Hm, H0. unfold thread_create.
    destruct (bool_decide _); cbn; unfold stage; cbn; lia.
  - unfold wait_started, wait in Hw. destruct (bool_decide _); [done|]. injection Hw as <-.
    unfold thread_rank, stage in *. cbn. rewrite Hm. lia.
  - unfold run_step in Hr. destruct (runner w) as [| | | | | |c|[c|]| |] eqn:Hrun; try done; injection Hr as <-;
      unfold thread_rank, stage; cbn; rewrite Hrun; lia.
Qed.

(** C38. The maker of a thread and the thread itself, however they interleave:
    when the constructor returns, the thread has written its id, its
    thread-local pointer and name and the first 15 characters of its name in
    the system, and has taken the callback out of the object; the callback is
    called once, by the thread, and an empty one ends the process. No
    interleaving is stuck before the constructor has returned (or thrown,
    because no thread could be made) and the callback was called, and none goes
    on for ever. *)
Theorem thread_made_ready tid cb (name : bytes) w :
  star (thread_step tid) (new_Thread cb name) w ->
  (w.(maker) = Made -> w.(object).(m_id) = tid ∧ w.(t_thread) = true ∧ w.(t_thread_name) = name ∧
     w.(system_name) = take 15 name ∧ w.(object).(m_cb) = None ∧ w.(object).(m_semaphore).(count) = 0%Z) ∧
  (w.(called) = [] ∨ ∃ c, cb = Some c ∧ w.(called) = [c] ∧ w.(runner) = Ended) ∧
  ((∃ w', thread_step tid w w') ∨ w.(maker) = Failed ∨
   w.(maker) = Made ∧ match cb with Some c => w.(runner) = Ended ∧ w.(called) = [c] | None => w.(runner) = Crashed end) ∧
  (∀ w', thread_step tid w w' -> thread_rank w' < thread_rank w).
Proof.
  intros Hstar. assert (thread_ok tid cb name w) as Hok
    by (eapply star_invariant; [intros ? ?; apply thread_step_ok|exact Hstar|apply new_Thread_ok]).
  split_and!.
  - intros Hm. pose proof (th_made _ _ _ _ Hok Hm) as H7. destruct Hok as [Hn Ht Hl Hi Hs Hc Hh Hcd Hct Hmd Hst].
    rewrite Ht, Hl, Hi, Hs, Hc, Hct, bool_decide_true, !decide_True, decide_False by (lia || naive_solver).
    by split_and!.
  - rewrite (th_called _ _ _ _ Hok). destruct (runner w); try (by left). destruct cb as [c|]; [|by left]. right. by exists c.
  - destruct (decide (0 < stage w < 8)) as [Hrun|Hrun].
    { left. destruct (thread_run_step tid cb name w Hok Hrun) as [w' Hw']. exists w'. by apply step_run. }
    destruct Hok as [_ _ _ _ _ _ Hh Hcd Hct _ Hst]. destruct (w.(maker)) eqn:Hm.
    + left. exists (thread_create 0 w). by apply step_create.
    + left. assert (stage w ≠ 0) by (intros H0; apply Hst in H0 as [|]; done).
      rewrite decide_True in Hct by (split; [lia|done]). eexists. apply step_wait; [done|].
      unfold wait_started, wait. by rewrite bool_decide_false by lia.
    + right. right. split; [done|]. assert (stage w ≠ 0) by (intros H0; apply Hst in H0 as [|]; done).
      unfold stage in *. destruct (runner w); try lia; [destruct Hh as [c ->]; done|by subst].
    + by right; left.
  - intros w'. by apply thread_step_rank with (cb := cb) (name := name).
Qed.

End thread.

(** ** Witness: a thread with the number 7, up to the return of its constructor *)

Definition sample_thread : threads nat :=
  let run w := default w (run_step 7 w) in
  let w := thread_create 0 (new_Thread (Some 3) (lit "io_0")) in
  let w := run (run (run (run (run (run w))))) in
  default w (wait_started w).

Lemma thread_made_ready_witness :
  maker sample_thread = Made ∧ m_id (object sample_thread) = 7%Z ∧ system_name sample_thread = lit "io_0".
Proof.
  assert (maker sample_thread = Made) as Hm by reflexivity. split; [exact Hm|].
  destruct (thread_made_ready 7 (Some 3) (lit "io_0") sample_thread) as [Hready _].
  - eapply star_step; [by apply (step_create 7 0)|].
    do 6 (eapply star_step; [apply step_run; vm_compute; reflexivity|]).
    eapply star_step; [apply step_wait; vm_compute; reflexivity|]. apply star_refl.
  - destruct (Hready Hm) as (Hid & _ & _ & Hname & _). split; [exact Hid|exact Hname].
Defined.
