(* ===== verification/Timer.v ===== *)
(** * Timers

    [co-pro/corotinue-fiber-pool/timer.h] and [timer.cpp]. Timers are shared
    objects: [shared_ptr<Timer>] is an index into a heap. [std::set] with the
    comparator of the code is the list of its elements in order; two timers are
    the same to it when their deadlines are equal. The clock is a sequence of
    answers in nanoseconds; durations are exact. The locks make each operation
    one step. *)

From S2P Require Export Prelude.

(** [std::chrono::milliseconds(ms)] in nanoseconds. *)
Definition milliseconds (ms : Z) : Z := (ms * 10 ^ 6)%Z.

(** [Timer]; an empty [m_cb] is [None]. [C] is the type of callbacks. *)
Record Timer (C : Type) := mkTimer {
  m_recurring : bool;
  m_ms : Z;
  m_next : Z;
  m_cb : option C
}.
Arguments mkTimer {C}.
Arguments m_recurring {C}.
Arguments m_ms {C}.
Arguments m_next {C}.
Arguments m_cb {C}.

Abbreviation timer_ptr := nat.

(** [TimerManager], with the heap, the clock, and the number of calls of
    [onTimerInsertedAtFront] so far. *)
Record TimerManager (C : Type) := mkTimerManager {
  timer_heap : list (Timer C);
  m_timers : list timer_ptr;
  m_tickled : bool;
  m_previouseTime : Z;
  front_calls : nat;
  system_clock : nat -> Z;
  readings : nat
}.
Arguments mkTimerManager {C}.
Arguments timer_heap {C}.
Arguments m_timers {C}.
Arguments m_tickled {C}.
Arguments m_previouseTime {C}.
Arguments front_calls {C}.
Arguments system_clock {C}.
Arguments readings {C}.

Section timers.
Context {C : Type}.
Implicit Types (s : TimerManager C) (t : Timer C) (p q : timer_ptr).

Abbreviation timer_prog A := (prog std_exception (TimerManager C) A).

Definition set_heap_ (h : list (Timer C)) s : TimerManager C :=
  mkTimerManager h s.(m_timers) s.(m_tickled) s.(m_previouseTime) s.(front_calls) s.(system_clock) s.(readings).
Definition set_timers (l : list timer_ptr) s : TimerManager C :=
  mkTimerManager s.(timer_heap) l s.(m_tickled) s.(m_previouseTime) s.(front_calls) s.(system_clock) s.(readings).
Definition set_tickled (b : bool) s : TimerManager C :=
  mkTimerManager s.(timer_heap) s.(m_timers) b s.(m_previouseTime) s.(front_calls) s.(system_clock) s.(readings).
Definition set_previous (t : Z) s : TimerManager C :=
  mkTimerManager s.(timer_heap) s.(m_timers) s.(m_tickled) t s.(front_calls) s.(system_clock) s.(readings).
Definition count_front s : TimerManager C :=
  mkTimerManager s.(timer_heap) s.(m_timers) s.(m_tickled) s.(m_previouseTime) (s.(front_calls) + 1) s.(system_clock) s.(readings).
Definition next_reading s : TimerManager C :=
  mkTimerManager s.(timer_heap) s.(m_timers) s.(m_tickled) s.(m_previouseTime) s.(front_calls) s.(system_clock) (s.(readings) + 1).

(** The next answer of the clock. *)
Definition clock_now s : Z := s.(system_clock) s.(readings).
Definition now : timer_prog Z := t ← gets clock_now; modify next_reading;; mret t.

(** [p->...], for a pointer to a timer. *)
Definition get_timer (p : timer_ptr) : timer_prog (Timer C) :=
  h ← gets timer_heap;
  match h !! p with Some t => mret t | None => halt UndefinedBehaviour end.
Definition set_timer (p : timer_ptr) (f : Timer C -> Timer C) : timer_prog unit :=
  modify (λ s, set_heap_ (alter f p s.(timer_heap)) s).

Definition set_cb (cb : option C) t : Timer C := mkTimer t.(m_recurring) t.(m_ms) t.(m_next) cb.
Definition set_next (next : Z) t : Timer C := mkTimer t.(m_recurring) t.(m_ms) next t.(m_cb).
Definition set_ms (ms : Z) t : Timer C := mkTimer t.(m_recurring) ms t.(m_next) t.(m_cb).

(** ** The set *)

(** The deadline the comparator reads. *)
Definition deadline (h : list (Timer C)) (p : timer_ptr) : Z :=
  match h !! p with Some t => t.(m_next) | None => 0 end.

(** [Comparator]. *)
Definition earlier (h : list (Timer C)) (p q : timer_ptr) : bool := (deadline h p <? deadline h q)%Z.

(** [find]: the element not earlier and not later than [p]. *)
Definition set_find (h : list (Timer C)) (p : timer_ptr) (l : list timer_ptr) : option timer_ptr :=
  List.find (λ q, negb (earlier h p q) && negb (earlier h q p)) l.

(** [erase(it)] at an element. *)
Definition set_erase (q : timer_ptr) (l : list timer_ptr) : list timer_ptr :=
  List.filter (λ x, negb (x =? q)) l.

(** [insert(p)]: in its place, unless an equivalent element is there. *)
Fixpoint place_in_order (h : list (Timer C)) (p : timer_ptr) (l : list timer_ptr) : list timer_ptr :=
  match l with
  | [] => [p]
  | q :: l' => if earlier h q p then q :: place_in_order h p l' else p :: q :: l'
  end.
Definition set_insert (h : list (Timer C)) (p : timer_ptr) (l : list timer_ptr)
  : timer_ptr * list timer_ptr :=
  match set_find h p l with
  | Some q => (q, l)
  | None => (p, place_in_order h p l)
  end.

(** ** [TimerManager::addTimer(timer)] *)
Definition addTimer_ptr (p : timer_ptr) : timer_prog unit :=
  s ← get;
  let '(it, l) := set_insert s.(timer_heap) p s.(m_timers) in
  let at_front := bool_decide (head l = Some it) && negb s.(m_tickled) in
  modify (set_timers l);;
  if at_front then modify (set_tickled true);; modify count_front else mret tt.

(** [addTimer(ms, cb, recurring)]. *)
Definition addTimer (ms : Z) (cb : C) (recurring : bool) : timer_prog timer_ptr :=
  t ← now;
  h ← gets timer_heap;
  modify (set_heap_ (h ++ [mkTimer recurring ms (t + milliseconds ms) (Some cb)]));;
  addTimer_ptr (length h);;
  mret (length h).

(** [OnTimer]: the callback runs while the condition is alive. *)
Definition OnTimer {E S} (alive : S -> bool) (cb : prog E S unit) : prog E S unit :=
  tmp ← gets alive;
  if tmp : bool then cb else mret tt.
(** [addConditionTimer], for the callback that [std::bind(&OnTimer, ...)] makes
    of a condition and a callback. *)
Definition addConditionTimer {K} (bind_OnTimer : K -> C -> C) (ms : Z) (cb : C) (weak_cond : K) (recurring : bool)
  : timer_prog timer_ptr := addTimer ms (bind_OnTimer weak_cond cb) recurring.

(** ** [Timer] *)

Definition cancel (p : timer_ptr) : timer_prog bool :=
  t ← get_timer p;
  match t.(m_cb) with
  | None => mret false
  | Some _ =>
      set_timer p (set_cb None);;
      s ← get;
      match set_find s.(timer_heap) p s.(m_timers) with
      | Some q => modify (set_timers (set_erase q s.(m_timers)));; mret true
      | None => mret true
      end
  end.

Definition refresh (p : timer_ptr) : timer_prog bool :=
  t ← get_timer p;
  match t.(m_cb) with
  | None => mret false
  | Some _ =>
      s ← get;
      match set_find s.(timer_heap) p s.(m_timers) with
      | None => mret false
      | Some q =>
          modify (set_timers (set_erase q s.(m_timers)));;
          now_ ← now;
          set_timer p (λ t, set_next (now_ + milliseconds t.(m_ms)) t);;
          modify (λ s, set_timers (set_insert s.(timer_heap) p s.(m_timers)).2 s);;
          mret true
      end
  end.

Definition reset (p : timer_ptr) (ms : Z) (from_now : bool) : timer_prog bool :=
  t ← get_timer p;
  if bool_decide (ms = t.(m_ms)) && negb from_now then mret true else
  match t.(m_cb) with
  | None => mret false
  | Some _ =>
      s ← get;
      match set_find s.(timer_heap) p s.(m_timers) with
      | None => mret false
      | Some q =>
          modify (set_timers (set_erase q s.(m_timers)));;
          start ← (if from_now then now else mret (t.(m_next) - milliseconds t.(m_ms))%Z);
          set_timer p (λ t, set_next (start + milliseconds ms) (set_ms ms t));;
          addTimer_ptr p;;
          mret true
      end
  end.

(** ** [getNextTimer], [hasTimer] *)

Definition getNextTimer : timer_prog Z :=
  modify (set_tickled false);;
  s ← get;
  match s.(m_timers) with
  | [] => mret u64_max
  | p :: _ =>
      now_ ← now;
      t ← get_timer p;
      if decide (t.(m_next) <= now_)%Z then mret 0%Z
      else mret ((t.(m_next) - now_) `quot` 10 ^ 6)%Z
  end.

Definition hasTimer : timer_prog bool :=
  s ← get; mret (bool_decide (s.(m_timers) ≠ [])).

(** ** [listExpiredCb] *)

Definition detectClockRollover : timer_prog bool :=
  now_ ← now;
  s ← get;
  modify (set_previous now_);;
  mret (bool_decide (now_ < s.(m_previouseTime) - milliseconds (60 * 60 * 1000))%Z).

(** The [while] loop, with the callbacks collected so far; [None] is out of
    fuel. *)
Fixpoint expire_loop (fuel : nat) (rollover : bool) (now_ : Z) (cbs : list (option C)) s
  : option (list (option C) * TimerManager C) :=
  match fuel with
  | 0 => None
  | S fuel =>
      match s.(m_timers) with
      | [] => Some (cbs, s)
      | p :: l =>
          match s.(timer_heap) !! p with
          | None => Some (cbs, s)
          | Some t =>
              if rollover || bool_decide (t.(m_next) <= now_)%Z then
                let s := set_timers l s in
                let cbs := cbs ++ [t.(m_cb)] in
                if t.(m_recurring) then
                  let s := set_heap_ (alter (set_next (now_ + milliseconds t.(m_ms))) p s.(timer_heap)) s in
                  expire_loop fuel rollover now_ cbs
                    (set_timers (set_insert s.(timer_heap) p s.(m_timers)).2 s)
                else
                  expire_loop fuel rollover now_ cbs
                    (set_heap_ (alter (set_cb None) p s.(timer_heap)) s)
              else Some (cbs, s)
          end
      end
  end.

(** [listExpiredCb(cbs)], from an empty vector. *)
Definition listExpiredCb (fuel : nat) s : option (list (option C) * TimerManager C) :=
  match (now_ ← now; rollover ← detectClockRollover; mret (now_, rollover)) s with
  | (Ret (now_, rollover), s) => expire_loop fuel rollover now_ [] s
  | (_, s) => Some ([], s)
  end.

End timers.
