(* ===== verification/TimerFacts.v ===== *)
(** * What the timer manager promises

    The well-formedness of the timer set and its preservation, the expiry loop,
    and what equal deadlines and a clock that jumps back do. *)

From S2P Require Export Timer.

Section facts.
Context {C : Type}.
Implicit Types (s : TimerManager C) (t : Timer C) (h : list (Timer C)) (p q : timer_ptr).

Definition before h p q : Prop := (deadline h p < deadline h q)%Z.

(** The set: distinct deadlines in order, and every element a live timer. *)
Definition set_ok h (l : list timer_ptr) : Prop :=
  StronglySorted (before h) l ∧ Forall (λ p, ∃ t, h !! p = Some t ∧ is_Some t.(m_cb)) l.
Definition timers_ok s : Prop := set_ok s.(timer_heap) s.(m_timers).

(** ** The set operations *)

Lemma earlier_spec h p q : earlier h p q = true <-> before h p q.
Proof. apply Z.ltb_lt. Qed.

Lemma set_find_some h p l q :
  set_find h p l = Some q -> q ∈ l ∧ deadline h q = deadline h p.
Proof.
  intros [Hin Heq]%List.find_some. split; [by apply list_elem_of_In|].
  unfold earlier in Heq. lia.
Qed.

Lemma set_find_none h p l :
  set_find h p l = None -> Forall (λ q, deadline h q ≠ deadline h p) l.
Proof.
  intros Hn. apply Forall_forall. intros q Hq%list_elem_of_In Heq.
  apply (List.find_none _ _ Hn) in Hq. unfold earlier in Hq. lia.
Qed.

Lemma set_find_member h p l :
  StronglySorted (before h) l -> p ∈ l -> set_find h p l = Some p.
Proof.
  intros Hs Hin. induction Hs as [|q l Hs IH Hq]; [by apply not_elem_of_nil in Hin|].
  unfold set_find in *. cbn [List.find]. unfold earlier at 1 2.
  apply elem_of_cons in Hin as [->|Hin].
  - by rewrite !Z.ltb_irrefl.
  - rewrite Forall_forall in Hq. specialize (Hq p Hin). unfold before in Hq.
    destruct (negb (deadline h p <? deadline h q)%Z && negb (deadline h q <? deadline h p)%Z) eqn:He;
      [lia|]. by apply IH.
Qed.

Lemma place_perm h p l : place_in_order h p l ≡ₚ p :: l.
Proof.
  induction l as [|q l IH]; [done|]. cbn. destruct (earlier h q p); [|done].
  rewrite IH. constructor.
Qed.

Lemma place_sorted h p l :
  StronglySorted (before h) l -> Forall (λ q, deadline h q ≠ deadline h p) l ->
  StronglySorted (before h) (place_in_order h p l).
Proof.
  intros Hs Hne. induction Hs as [|q l Hs IH Hq]; [by repeat constructor|].
  apply Forall_cons in Hne as [Hqp Hne]. cbn. destruct (earlier h q p) eqn:He.
  - constructor; [by apply IH|]. rewrite place_perm. constructor; [by apply earlier_spec|done].
  - assert (before h p q) as Hpq by (unfold before; unfold earlier in He; lia).
    constructor; [by constructor|]. constructor; [done|].
    eapply Forall_impl; [exact Hq|]. unfold before in *. intros x Hx. lia.
Qed.

Lemma set_erase_member q l x : x ∈ set_erase q l <-> x ∈ l ∧ x ≠ q.
Proof.
  unfold set_erase. rewrite !list_elem_of_In, filter_In, negb_true_iff, Nat.eqb_neq. done.
Qed.

Lemma set_erase_sorted h q l : StronglySorted (before h) l -> StronglySorted (before h) (set_erase q l).
Proof.
  intros Hs. induction Hs as [|x l Hs IH Hx]; [constructor|]. cbn.
  destruct (negb (x =? q)); [|done]. constructor; [done|].
  rewrite Forall_forall in Hx |- *. intros y [Hy _]%set_erase_member. by apply Hx.
Qed.

Lemma set_find_ext h h' p p' l :
  deadline h' p' = deadline h p -> (∀ x, x ∈ l -> deadline h' x = deadline h x) ->
  set_find h' p' l = set_find h p l.
Proof.
  intros Hp Hl. unfold set_find, earlier. induction l as [|x l IH]; [done|]. cbn [List.find].
  rewrite IH by (intros y Hy; apply Hl; by right). by rewrite Hp, (Hl x) by by left.
Qed.

(** Changing a timer that is not in the set, or not its deadline. *)
Lemma sorted_ext h h' l :
  (∀ p, p ∈ l -> deadline h' p = deadline h p) ->
  StronglySorted (before h) l -> StronglySorted (before h') l.
Proof.
  intros Hext Hs. induction Hs as [|x l Hs IH Hx]; [constructor|]. constructor.
  - apply IH. intros p Hp. apply Hext. by right.
  - rewrite Forall_forall in Hx |- *. intros y Hy. unfold before in *.
    rewrite (Hext x), (Hext y); [by apply Hx|by right|by left].
Qed.

Lemma deadline_alter_ne f p q h : q ≠ p -> deadline (alter f p h) q = deadline h q.
Proof. intros Hne. unfold deadline. by rewrite list_lookup_alter_ne. Qed.

Lemma deadline_alter_eq f p h t :
  h !! p = Some t -> deadline (alter f p h) p = (f t).(m_next).
Proof. intros Ht. unfold deadline. by rewrite list_lookup_alter_eq, Ht. Qed.

Lemma sorted_not_in h p l : StronglySorted (before h) (p :: l) -> p ∉ l.
Proof.
  intros Hs Hin. inversion_clear Hs as [|? ? _ Hp]. rewrite Forall_forall in Hp.
  specialize (Hp p Hin). unfold before in Hp. lia.
Qed.

Lemma alive_alter_ne f p h l :
  p ∉ l -> Forall (λ q, ∃ t, h !! q = Some t ∧ is_Some t.(m_cb)) l ->
  Forall (λ q, ∃ t, alter f p h !! q = Some t ∧ is_Some t.(m_cb)) l.
Proof.
  intros Hp. rewrite !Forall_forall. intros Hl q Hq. destruct (Hl q Hq) as (t & Ht & Hcb).
  exists t. by rewrite list_lookup_alter_ne by (intros ->; done).
Qed.

(** Changing a timer outside the set keeps the set well formed. *)
Lemma set_ok_alter f p h l : p ∉ l -> set_ok h l -> set_ok (alter f p h) l.
Proof.
  intros Hp [Hs Ha]. split; [|by apply alive_alter_ne].
  apply (sorted_ext h); [|done]. intros q Hq. apply deadline_alter_ne. by intros ->.
Qed.

Lemma set_insert_ok h p l t :
  set_ok h l -> h !! p = Some t -> is_Some t.(m_cb) -> set_ok h (set_insert h p l).2.
Proof.
  intros [Hs Ha] Ht Hcb. unfold set_insert. destruct (set_find h p l) as [q|] eqn:Hf; [done|].
  cbn [snd]. split.
  - apply place_sorted; [done|]. by apply set_find_none.
  - rewrite place_perm. constructor; [by exists t|done].
Qed.

(** What an insertion leaves: the old elements, and the timer or one of equal
    deadline in its place. *)
Lemma set_insert_elem h p l q :
  q ∈ (set_insert h p l).2 <-> q ∈ l ∨ (q = p ∧ set_find h p l = None).
Proof.
  unfold set_insert. destruct (set_find h p l) as [x|] eqn:Hf; cbn [snd].
  - naive_solver.
  - rewrite place_perm, elem_of_cons. naive_solver.
Qed.

Lemma set_erase_ok h q l : set_ok h l -> set_ok h (set_erase q l).
Proof.
  intros [Hs Ha]. split; [by apply set_erase_sorted|].
  rewrite Forall_forall in Ha |- *. intros x [Hx _]%set_erase_member. by apply Ha.
Qed.

(** Erasing what [find] returned leaves no element of that deadline. *)
Lemma set_erase_found h p l q :
  set_ok h l -> set_find h p l = Some q -> p ∈ set_erase q l -> False.
Proof.
  intros [Hs _] Hf [Hp Hne]%set_erase_member.
  pose proof (set_find_member h p l Hs Hp) as Hm. rewrite Hf in Hm. congruence.
Qed.

(** ** The expiry loop *)

Definition due h (now_ : Z) (p : timer_ptr) : bool := (deadline h p <=? now_)%Z.
Definition due_timers h (now_ : Z) (l : list timer_ptr) : list timer_ptr := List.filter (due h now_) l.
Definition callbacks h (l : list timer_ptr) : list (option C) :=
  map (λ p, h !! p ≫= m_cb) l.

(** Recurring timers with a period of at least one millisecond. *)
Definition periods_ok h (l : list timer_ptr) : Prop :=
  ∀ p t, p ∈ l -> h !! p = Some t -> t.(m_recurring) = true -> (0 < t.(m_ms))%Z.

Lemma due_none h now_ p l :
  StronglySorted (before h) (p :: l) -> due h now_ p = false -> due_timers h now_ (p :: l) = [].
Proof.
  intros Hs Hp. inversion_clear Hs as [|? ? _ Hl]. unfold due_timers. cbn. rewrite Hp.
  induction Hl as [|q l Hq _ IH]; [done|]. cbn. unfold before in Hq. unfold due in *.
  destruct (Z.leb_spec (deadline h q) now_); [lia|]. apply IH.
Qed.

Lemma due_timers_ext h h' now_ l :
  (∀ p, p ∈ l -> deadline h' p = deadline h p) -> due_timers h' now_ l = due_timers h now_ l.
Proof.
  intros Hext. apply filter_ext_in. intros p Hp%list_elem_of_In. unfold due. by rewrite Hext.
Qed.

Lemma callbacks_ext h h' l :
  (∀ p, p ∈ l -> h' !! p = h !! p) -> callbacks h' l = callbacks h l.
Proof. intros Hext. apply map_ext_in. intros p Hp%list_elem_of_In. by rewrite Hext. Qed.

(** A timer that is not due is inserted behind every due one. *)
Lemma due_timers_insert h now_ p l :
  due h now_ p = false -> due_timers h now_ (set_insert h p l).2 = due_timers h now_ l.
Proof.
  intros Hp. unfold set_insert. destruct (set_find h p l); [done|]. cbn [snd].
  induction l as [|q l IH]; cbn; [by rewrite Hp|]. unfold due_timers in *.
  destruct (earlier h q p); cbn; [|by rewrite Hp]. by rewrite IH.
Qed.

(** What the loop does, relative to the state it starts from. *)
Definition expired_ok (now_ : Z) s s' : Prop :=
  timers_ok s' ∧
  (∀ p, p ∈ s'.(m_timers) -> (now_ < deadline s'.(timer_heap) p)%Z) ∧
  (∀ p, p ∈ s.(m_timers) -> due s.(timer_heap) now_ p = false ->
     p ∈ s'.(m_timers) ∧ s'.(timer_heap) !! p = s.(timer_heap) !! p) ∧
  (∀ p t, p ∈ s.(m_timers) -> due s.(timer_heap) now_ p = true -> s.(timer_heap) !! p = Some t ->
     if t.(m_recurring)
     then s'.(timer_heap) !! p = Some (set_next (now_ + milliseconds t.(m_ms)) t) ∧
          ∃ q, q ∈ s'.(m_timers) ∧
            deadline s'.(timer_heap) q = (now_ + milliseconds t.(m_ms))%Z
     else s'.(timer_heap) !! p = Some (set_cb None t) ∧ p ∉ s'.(m_timers)) ∧
  (∀ p, p ∉ s.(m_timers) -> s'.(timer_heap) !! p = s.(timer_heap) !! p ∧ p ∉ s'.(m_timers)).

Lemma expired_ok_refl now_ s :
  timers_ok s -> due_timers s.(timer_heap) now_ s.(m_timers) = [] -> expired_ok now_ s s.
Proof.
  intros Hok Hdue.
  assert (∀ p, p ∈ s.(m_timers) -> due s.(timer_heap) now_ p = false) as Hnot.
  { intros p Hp. destruct (due _ now_ p) eqn:Hd; [|done].
    assert (p ∈ due_timers s.(timer_heap) now_ s.(m_timers)) as Hin
      by (apply list_elem_of_In, filter_In; split; [by apply list_elem_of_In|done]).
    rewrite Hdue in Hin. by apply not_elem_of_nil in Hin. }
  split_and!; [done| |done| |done].
  - intros p Hp%Hnot. unfold due in Hp. lia.
  - intros p t Hp Hd _. by rewrite Hnot in Hd.
Qed.

(** The state after one round that pops [p]. *)
Definition popped (now_ : Z) p l t s : TimerManager C :=
  if t.(m_recurring) then
    let h := alter (set_next (now_ + milliseconds t.(m_ms))) p s.(timer_heap) in
    set_timers (set_insert h p l).2 (set_heap_ h s)
  else set_heap_ (alter (set_cb None) p s.(timer_heap)) (set_timers l s).

Lemma expire_loop_pop fuel rollover now_ cbs s p l t :
  s.(m_timers) = p :: l -> s.(timer_heap) !! p = Some t ->
  rollover || bool_decide (t.(m_next) <= now_)%Z = true ->
  expire_loop (S fuel) rollover now_ cbs s =
    expire_loop fuel rollover now_ (cbs ++ [t.(m_cb)]) (popped now_ p l t s).
Proof.
  intros Hl Ht Hdue. cbn [expire_loop]. rewrite Hl, Ht, Hdue. unfold popped.
  by destruct (m_recurring t).
Qed.

Section pop.
Variables (now_ : Z) (p : timer_ptr) (l : list timer_ptr) (t : Timer C) (s : TimerManager C).
Hypothesis Hl : s.(m_timers) = p :: l.
Hypothesis Hok : timers_ok s.
Hypothesis Ht : s.(timer_heap) !! p = Some t.

Lemma popped_fresh : p ∉ l ∧ set_ok s.(timer_heap) l ∧ is_Some t.(m_cb).
Proof.
  destruct Hok as [Hs Ha]. rewrite Hl in Hs, Ha.
  apply Forall_cons in Ha as [(t' & Ht' & Hcb) Ha].
  split; [by eapply sorted_not_in|]. split; [|congruence]. split; [by inversion_clear Hs|done].
Qed.

Lemma popped_ok : timers_ok (popped now_ p l t s).
Proof.
  destruct popped_fresh as (Hp & Hset & Hcb). unfold popped. destruct (m_recurring t).
  - eapply set_insert_ok; [by apply set_ok_alter|by rewrite list_lookup_alter_eq, Ht|done].
  - by apply set_ok_alter.
Qed.

Lemma popped_heap q : q ≠ p -> (popped now_ p l t s).(timer_heap) !! q = s.(timer_heap) !! q.
Proof. intros Hq. unfold popped. destruct (m_recurring t); cbn; by rewrite list_lookup_alter_ne. Qed.

Lemma popped_deadline q :
  q ≠ p -> deadline (popped now_ p l t s).(timer_heap) q = deadline s.(timer_heap) q.
Proof. intros Hq. unfold deadline. by rewrite popped_heap. Qed.

Lemma popped_elem q : q ∈ (popped now_ p l t s).(m_timers) -> q ∈ l ∨ q = p ∧ t.(m_recurring) = true.
Proof.
  unfold popped. destruct (m_recurring t); [|by left]. cbn. rewrite set_insert_elem.
  intros [?|[-> _]]; auto.
Qed.

Lemma popped_keeps q : q ∈ l -> q ∈ (popped now_ p l t s).(m_timers).
Proof. intros Hq. unfold popped. destruct (m_recurring t); [|done]. cbn. rewrite set_insert_elem. by left. Qed.

(** The new deadline of a recurring timer, and who stands for it. *)
Lemma popped_recurring :
  t.(m_recurring) = true ->
  (popped now_ p l t s).(timer_heap) !! p = Some (set_next (now_ + milliseconds t.(m_ms)) t) ∧
  ∃ q, q ∈ (popped now_ p l t s).(m_timers) ∧
    deadline (popped now_ p l t s).(timer_heap) q = (now_ + milliseconds t.(m_ms))%Z ∧
    (p ∈ (popped now_ p l t s).(m_timers) -> q = p).
Proof.
  intros Hr. unfold popped. rewrite Hr. cbn. set (h := alter _ p _).
  assert (h !! p = Some (set_next (now_ + milliseconds (m_ms t)) t)) as Hp
    by (unfold h; by rewrite list_lookup_alter_eq, Ht).
  split; [done|]. assert (deadline h p = (now_ + milliseconds (m_ms t))%Z) as Hd
    by (unfold deadline; by rewrite Hp).
  unfold set_insert. destruct (set_find h p l) as [q|] eqn:Hf; cbn [snd].
  - apply set_find_some in Hf as Hq. destruct Hq as [Hq Heq]. exists q.
    split_and!; [done|congruence|]. intros Hin. by destruct popped_fresh.
  - exists p. split_and!; [by rewrite place_perm; left|done|done].
Qed.

Lemma popped_due :
  (t.(m_recurring) = true -> 0 < t.(m_ms))%Z -> due s.(timer_heap) now_ p = true ->
  due_timers s.(timer_heap) now_ s.(m_timers) =
    p :: due_timers (popped now_ p l t s).(timer_heap) now_ (popped now_ p l t s).(m_timers).
Proof.
  intros Hms Hdue. rewrite Hl. unfold due_timers at 1. cbn [List.filter]. rewrite Hdue. f_equal.
  change (List.filter (due (timer_heap s) now_) l) with (due_timers (timer_heap s) now_ l).
  destruct popped_fresh as (Hp & _ & _).
  assert (due_timers (timer_heap (popped now_ p l t s)) now_ l = due_timers (timer_heap s) now_ l) as <-.
  { apply due_timers_ext. intros q Hq. apply popped_deadline. by intros ->. }
  unfold popped. destruct (m_recurring t) eqn:Hr; [|done]. cbn. symmetry. apply due_timers_insert.
  unfold due. rewrite (deadline_alter_eq _ _ _ t Ht). cbn. specialize (Hms eq_refl).
  unfold milliseconds. lia.
Qed.

Lemma popped_not_due :
  (t.(m_recurring) = true -> 0 < t.(m_ms))%Z ->
  p ∉ due_timers (popped now_ p l t s).(timer_heap) now_ (popped now_ p l t s).(m_timers).
Proof.
  intros Hms Hin. apply list_elem_of_In, filter_In in Hin as [Hin%list_elem_of_In Hd].
  destruct (popped_elem p Hin) as [?|[_ Hr]]; [by destruct popped_fresh|].
  destruct (popped_recurring Hr) as [Hh _]. unfold due, deadline in Hd. rewrite Hh in Hd. cbn in Hd.
  specialize (Hms Hr). unfold milliseconds in Hd. lia.
Qed.

(** The periods stay positive. *)
Lemma popped_periods :
  periods_ok s.(timer_heap) (p :: l) ->
  periods_ok (popped now_ p l t s).(timer_heap) (popped now_ p l t s).(m_timers).
Proof.
  intros Hper q tq Hq Htq Hr. destruct (popped_elem q Hq) as [Hin|[-> Hrt]].
  - rewrite popped_heap in Htq; [by apply (Hper q tq); [right|..]|].
    intros ->. by destruct popped_fresh.
  - destruct (popped_recurring Hrt) as [Hh _]. rewrite Hh in Htq. injection Htq as <-. cbn.
    by apply (Hper p t); [left|..].
Qed.

Lemma popped_expired_ok s' :
  (t.(m_recurring) = true -> 0 < t.(m_ms))%Z -> due s.(timer_heap) now_ p = true ->
  expired_ok now_ (popped now_ p l t s) s' -> expired_ok now_ s s'.
Proof.
  intros Hms Hdue (Hok' & Hgt & Hkeep & Hfire & Hout).
  destruct popped_fresh as (Hp & _ & _). split_and!; [done|done|..].
  - intros q Hq Hnd. rewrite Hl in Hq. apply elem_of_cons in Hq as [->|Hq]; [congruence|].
    assert (q ≠ p) by by intros ->. rewrite <- popped_heap by done. apply Hkeep.
    + by apply popped_keeps.
    + unfold due. by rewrite popped_deadline.
  - intros q tq Hq Hd Htq. rewrite Hl in Hq. apply elem_of_cons in Hq as [->|Hq].
    + rewrite Ht in Htq. injection Htq as <-. destruct (m_recurring t) eqn:Hr.
      * destruct (popped_recurring Hr) as (Hheap & q & Hq & Hqd & Hsame).
        assert (due (timer_heap (popped now_ p l t s)) now_ q = false) as Hnd.
        { unfold due. rewrite Hqd. specialize (Hms eq_refl). unfold milliseconds. lia. }
        destruct (Hkeep q Hq Hnd) as [Hq' Heq]. split.
        -- destruct (decide (p ∈ m_timers (popped now_ p l t s))) as [Hin|Hno].
           ++ rewrite (Hsame Hin) in Heq. by rewrite Heq.
           ++ destruct (Hout p Hno) as [-> _]. done.
        -- exists q. split; [done|]. unfold deadline in *. by rewrite Heq.
      * assert (p ∉ m_timers (popped now_ p l t s)) as Hno.
        { intros [?|[_ ?]]%popped_elem; [done|congruence]. }
        destruct (Hout p Hno) as [Heq Hno']. split; [|done]. rewrite Heq. unfold popped. rewrite Hr.
        cbn. by rewrite list_lookup_alter_eq, Ht.
    + assert (q ≠ p) by by intros ->. apply Hfire.
      * by apply popped_keeps.
      * unfold due. by rewrite popped_deadline.
      * by rewrite popped_heap.
  - intros q Hq. rewrite Hl, not_elem_of_cons in Hq. destruct Hq as [Hqp Hq].
    rewrite <- popped_heap by done. apply Hout. intros [?|[? _]]%popped_elem; done.
Qed.

End pop.

(** Without a rollover one round per due timer, and one more, are enough. *)
Lemma expire_loop_run fuel now_ cbs s :
  timers_ok s -> periods_ok s.(timer_heap) s.(m_timers) ->
  length (due_timers s.(timer_heap) now_ s.(m_timers)) < fuel ->
  ∃ s', expire_loop fuel false now_ cbs s =
      Some (cbs ++ callbacks s.(timer_heap) (due_timers s.(timer_heap) now_ s.(m_timers)), s') ∧
    expired_ok now_ s s'.
Proof.
  revert cbs s. induction fuel as [|fuel IH]; intros cbs s Hok Hper Hf; [lia|].
  destruct (m_timers s) as [|p l] eqn:Hl.
  { exists s. cbn [expire_loop]. rewrite Hl. cbn. rewrite app_nil_r. split; [done|].
    apply expired_ok_refl; [done|]. by rewrite Hl. }
  assert (∃ t, timer_heap s !! p = Some t) as [t Ht].
  { destruct Hok as [_ Ha]. rewrite Hl in Ha. apply Forall_cons in Ha as [(t & Ht & _) _]. by exists t. }
  assert (due (timer_heap s) now_ p = bool_decide (m_next t <= now_)%Z) as Hdue.
  { unfold due, deadline. rewrite Ht. case_bool_decide; lia. }
  destruct (bool_decide (m_next t <= now_)%Z) eqn:Hd.
  - rewrite (expire_loop_pop fuel false now_ cbs s p l t) by (by rewrite ?Hd).
    assert (m_recurring t = true -> 0 < m_ms t)%Z as Hms.
    { intros Hr. apply (Hper p t); [by left|done|done]. }
    pose proof (popped_due now_ p l t s Hl Hok Ht Hms Hdue) as Hdt. rewrite Hl in Hdt.
    rewrite Hdt in Hf |- *. cbn [length] in Hf.
    destruct (IH (cbs ++ [m_cb t]) (popped now_ p l t s)) as (s' & Hrun & Hs').
    + by apply popped_ok.
    + by apply popped_periods.
    + lia.
    + exists s'. rewrite Hrun. split; [|by eapply popped_expired_ok].
      rewrite <- app_assoc. do 3 f_equal. unfold callbacks. cbn [map]. rewrite Ht.
      cbn [mbind option_bind app]. f_equal. apply map_ext_in. intros q Hq%list_elem_of_In.
      f_equal. apply popped_heap. intros ->. by eapply popped_not_due.
  - exists s. cbn [expire_loop]. rewrite Hl, Ht, Hd. cbn [orb].
    assert (due_timers (timer_heap s) now_ (p :: l) = []) as Hnone
      by (apply due_none; [destruct Hok as [Hs _]; by rewrite Hl in Hs|done]).
    rewrite Hnone. cbn. rewrite app_nil_r. split; [done|].
    apply expired_ok_refl; [done|]. by rewrite Hl.
Qed.

(** The two readings of the clock before the loop. *)
Definition after_readings s : TimerManager C :=
  set_previous (clock_now (next_reading s)) (next_reading (next_reading s)).
Definition rolled_over s : bool :=
  bool_decide (clock_now (next_reading s) < s.(m_previouseTime) - milliseconds (60 * 60 * 1000))%Z.

Lemma listExpiredCb_start fuel s :
  listExpiredCb fuel s = expire_loop fuel (rolled_over s) (clock_now s) [] (after_readings s).
Proof. done. Qed.


(** After the clock has jumped back by more than an hour every timer
    counts as expired: if those in the set are recurring, the loop of
    [listExpiredCb] re-inserts what it pops and never ends, while it holds the
    lock of the manager. *)
Theorem rollover_never_ends s fuel :
  s.(m_timers) ≠ [] ->
  (∀ p, p ∈ s.(m_timers) -> ∃ t, s.(timer_heap) !! p = Some t ∧ t.(m_recurring) = true) ->
  (clock_now (next_reading s) < s.(m_previouseTime) - milliseconds (60 * 60 * 1000))%Z ->
  listExpiredCb fuel s = None.
Proof.
  intros Hne Hrec Hclock. rewrite listExpiredCb_start. unfold rolled_over.
  rewrite bool_decide_true by lia.
  assert (∀ now_ cbs s, s.(m_timers) ≠ [] ->
    (∀ p, p ∈ s.(m_timers) -> ∃ t, s.(timer_heap) !! p = Some t ∧ t.(m_recurring) = true) ->
    expire_loop fuel true now_ cbs s = None) as Hloop; [|by apply Hloop].
  clear. intros now_.
  induction fuel as [|fuel IH]; intros cbs s Hne Hrec; [done|].
  destruct (m_timers s) as [|p l] eqn:Hl; [done|].
  destruct (Hrec p) as (t & Ht & Hr); [by left|].
  rewrite (expire_loop_pop fuel true now_ cbs s p l t) by done. unfold popped. rewrite Hr.
  set (h := alter _ p _). apply IH; cbn [m_timers set_timers set_heap_ timer_heap].
  - unfold set_insert. destruct (set_find h p l) as [q|] eqn:Hf; cbn [snd].
    + apply set_find_some in Hf as [Hq _]. intros ->. by apply not_elem_of_nil in Hq.
    + intros Hnil. pose proof (place_perm h p l) as Hp. rewrite Hnil in Hp. by apply Permutation_nil_cons in Hp.
  - intros q Hq%set_insert_elem.
    assert (q ∈ p :: l) as Hq' by (destruct Hq as [?|[-> _]]; [by right|by left]).
    destruct (Hrec q Hq') as (tq & Htq & Hrq). unfold h. destruct (decide (q = p)) as [->|Hne'].
    + rewrite Htq in Ht. injection Ht as ->. exists (set_next (now_ + milliseconds (m_ms t)) t).
      by rewrite list_lookup_alter_eq, Htq.
    + exists tq. by rewrite list_lookup_alter_ne.
Qed.

(** The set compares timers by deadline only. A timer added with the very
    deadline of another one is silently left out: [addTimer] returns it, but the
    set is as before, so its callback never runs; and cancelling it answers
    true and removes the other timer instead. *)
Theorem equal_deadline_lost s (ms : Z) (cb : C) (recurring : bool) q :
  timers_ok s -> q ∈ s.(m_timers) ->
  deadline s.(timer_heap) q = (clock_now s + milliseconds ms)%Z ->
  ∃ p s1, addTimer ms cb recurring s = (Ret p, s1) ∧
    p ∉ s1.(m_timers) ∧ s1.(m_timers) = s.(m_timers) ∧
    ∃ s2, cancel p s1 = (Ret true, s2) ∧ q ∉ s2.(m_timers) ∧
      s2.(timer_heap) !! q = s.(timer_heap) !! q.
Proof.
  intros [Hs Ha] Hq Hd. set (p := length s.(timer_heap)).
  set (t := mkTimer recurring ms (clock_now s + milliseconds ms) (Some cb)).
  set (h := s.(timer_heap) ++ [t]).
  assert (∀ x, x ∈ s.(m_timers) -> x < p) as Hlt.
  { intros x Hx. rewrite Forall_forall in Ha. destruct (Ha x Hx) as (tx & Htx & _).
    by eapply lookup_lt_Some. }
  assert (∀ x, x ∈ s.(m_timers) -> h !! x = s.(timer_heap) !! x) as Hold
    by (intros x Hx%Hlt; unfold h; by apply lookup_app_l).
  assert (h !! p = Some t) as Hp by (unfold h; by rewrite lookup_app_r, Nat.sub_diag).
  assert (StronglySorted (before h) s.(m_timers)) as Hsh.
  { apply (sorted_ext s.(timer_heap)); [|done]. intros x Hx. unfold deadline. by rewrite Hold. }
  assert (deadline h p = deadline h q) as Heq
    by (unfold deadline in *; rewrite Hp, Hold, Hd by done; done).
  assert (set_find h p s.(m_timers) = Some q) as Hfind.
  { rewrite <- (set_find_member h q s.(m_timers) Hsh Hq). by apply set_find_ext. }
  set (s1 := set_heap_ h (next_reading s)).
  set (front := bool_decide (head (m_timers s) = Some q) && negb (m_tickled s)).
  set (s2 := if front then count_front (set_tickled true s1) else s1).
  assert (addTimer ms cb recurring s = (Ret p, s2)) as Hadd.
  { unfold addTimer. rewrite (bind_run _ _ _ (clock_now s) (next_reading s)) by done.
    rewrite (bind_run _ _ _ (timer_heap s) (next_reading s)) by done.
    rewrite (bind_run _ _ _ tt s1) by done. rewrite (bind_run _ _ _ tt s2); [done|].
    unfold addTimer_ptr. rewrite (bind_run _ _ _ s1 s1) by done.
    fold p. unfold set_insert. change (timer_heap s1) with h. change (m_timers s1) with (m_timers s).
    rewrite Hfind. rewrite (bind_run _ _ _ tt s1) by done. change (m_tickled s1) with (m_tickled s).
    fold front. unfold s2. by destruct front. }
  assert (m_timers s2 = m_timers s ∧ timer_heap s2 = h) as [Hm2 Hh2] by (unfold s2; by destruct front).
  exists p, s2. split; [done|]. rewrite Hm2. split; [by intros ?%Hlt; lia|]. split; [done|].
  set (h3 := alter (set_cb None) p h).
  set (s3 := set_heap_ h3 s2).
  exists (set_timers (set_erase q (m_timers s)) s3). split; [|split].
  - unfold cancel. rewrite (bind_run _ _ _ t s2).
    2:{ unfold get_timer. rewrite (bind_run _ _ _ h s2) by (unfold gets; by rewrite Hh2). by rewrite Hp. }
    cbn [m_cb t]. rewrite (bind_run _ _ _ tt s3) by (unfold set_timer, modify; by rewrite Hh2).
    rewrite (bind_run _ _ _ s3 s3) by done.
    replace (set_find (timer_heap s3) p (m_timers s3)) with (Some q); [|].
    + change (m_timers s3) with (m_timers s2). by rewrite Hm2.
    + change (m_timers s3) with (m_timers s2). change (timer_heap s3) with h3.
      rewrite Hm2, <- Hfind. symmetry. apply set_find_ext.
      * unfold h3. rewrite (deadline_alter_eq _ _ _ t Hp). unfold deadline. by rewrite Hp.
      * intros x Hx%Hlt. apply deadline_alter_ne. lia.
  - cbn. by intros [_ ?]%set_erase_member.
  - cbn. unfold h3. rewrite list_lookup_alter_ne by (apply Hlt in Hq; lia). by apply Hold.
Qed.

(** ** Every operation keeps the set well formed *)

Lemma set_ok_app h t l : set_ok h l -> set_ok (h ++ [t]) l.
Proof.
  intros [Hs Ha]. rewrite Forall_forall in Ha.
  assert (∀ q, q ∈ l -> (h ++ [t]) !! q = h !! q) as Hold.
  { intros q Hq. destruct (Ha q Hq) as (tq & Htq & _). apply lookup_app_l. by eapply lookup_lt_Some. }
  split.
  - apply (sorted_ext h); [|done]. intros q Hq. unfold deadline. by rewrite Hold.
  - apply Forall_forall. intros q Hq. rewrite Hold by done. by apply Ha.
Qed.

Lemma addTimer_ptr_ok p s t :
  timers_ok s -> s.(timer_heap) !! p = Some t -> is_Some t.(m_cb) ->
  ∃ s', addTimer_ptr p s = (Ret tt, s') ∧ timers_ok s'.
Proof.
  intros Hok Ht Hcb. pose proof (set_insert_ok _ _ _ _ Hok Ht Hcb) as Hins.
  unfold addTimer_ptr. rewrite (bind_run _ _ _ s s) by done.
  destruct (set_insert (timer_heap s) p (m_timers s)) as [it l]. cbn [snd] in Hins.
  rewrite (bind_run _ _ _ tt (set_timers l s)) by done.
  destruct (bool_decide (head l = Some it) && negb (m_tickled s)); by eexists.
Qed.

Lemma addTimer_ok ms cb recurring s :
  timers_ok s -> ∃ p s', addTimer ms cb recurring s = (Ret p, s') ∧ timers_ok s'.
Proof.
  intros Hok. unfold addTimer. rewrite (bind_run _ _ _ (clock_now s) (next_reading s)) by done.
  rewrite (bind_run _ _ _ (timer_heap s) (next_reading s)) by done. erewrite bind_run by done.
  set (t := mkTimer _ _ _ _). set (s1 := set_heap_ _ _).
  destruct (addTimer_ptr_ok (length (timer_heap s)) s1 t) as (s' & Hrun & Hok').
  - by apply set_ok_app.
  - cbn. by rewrite lookup_app_r, Nat.sub_diag.
  - done.
  - rewrite (bind_run _ _ _ _ _ Hrun). by eexists _, _.
Qed.

Lemma get_timer_run p s t : s.(timer_heap) !! p = Some t -> get_timer p s = (Ret t, s).
Proof. intros Ht. unfold get_timer. rewrite (bind_run _ _ _ (timer_heap s) s) by done. by rewrite Ht. Qed.

Lemma get_timer_none p s : s.(timer_heap) !! p = None -> get_timer p s = (Halt UndefinedBehaviour, s).
Proof. intros Ht. unfold get_timer. rewrite (bind_run _ _ _ (timer_heap s) s) by done. by rewrite Ht. Qed.

Lemma erased_not_in h p q l : set_ok h l -> set_find h p l = Some q -> p ∉ set_erase q l.
Proof. intros Hok Hf Hin. by eapply set_erase_found. Qed.

Lemma cancel_ok p s : timers_ok s -> timers_ok (cancel p s).2.
Proof.
  intros Hok. unfold cancel. destruct (timer_heap s !! p) as [t|] eqn:Ht.
  2:{ by rewrite (bind_halt _ _ _ _ _ (get_timer_none p s Ht)). }
  rewrite (bind_run _ _ _ _ _ (get_timer_run p s t Ht)). destruct (m_cb t); [|done].
  set (h := alter (set_cb None) p (timer_heap s)).
  rewrite (bind_run _ _ _ tt (set_heap_ h s)) by done.
  rewrite (bind_run _ _ _ (set_heap_ h s) (set_heap_ h s)) by done. cbn [timer_heap m_timers set_heap_].
  assert (set_find h p (m_timers s) = set_find (timer_heap s) p (m_timers s)) as Hfind.
  { assert (∀ x, deadline h x = deadline (timer_heap s) x) as Hd.
    { intros x. destruct (decide (x = p)) as [->|]; [|by apply deadline_alter_ne].
      unfold h. rewrite (deadline_alter_eq _ _ _ t Ht). unfold deadline. by rewrite Ht. }
    apply set_find_ext; auto. }
  rewrite Hfind. destruct (set_find (timer_heap s) p (m_timers s)) as [q|] eqn:Hf.
  - apply (set_ok_alter (set_cb None) p); [by eapply erased_not_in|by apply set_erase_ok].
  - apply (set_ok_alter (set_cb None) p); [|done]. intros Hin.
    rewrite (set_find_member _ _ _ (proj1 Hok) Hin) in Hf. done.
Qed.

Lemma refresh_ok p s : timers_ok s -> timers_ok (refresh p s).2.
Proof.
  intros Hok. unfold refresh. destruct (timer_heap s !! p) as [t|] eqn:Ht.
  2:{ by rewrite (bind_halt _ _ _ _ _ (get_timer_none p s Ht)). }
  rewrite (bind_run _ _ _ _ _ (get_timer_run p s t Ht)). destruct (m_cb t) as [cb|] eqn:Hcb; [|done].
  rewrite (bind_run _ _ _ s s) by done.
  destruct (set_find (timer_heap s) p (m_timers s)) as [q|] eqn:Hf; [|done].
  do 4 erewrite bind_run by done. cbn.
  eapply set_insert_ok; [|by rewrite list_lookup_alter_eq, Ht|cbn; by rewrite Hcb].
  apply set_ok_alter; [by eapply erased_not_in|by apply set_erase_ok].
Qed.

Lemma reset_ok p ms from_now s : timers_ok s -> timers_ok (reset p ms from_now s).2.
Proof.
  intros Hok. unfold reset. destruct (timer_heap s !! p) as [t|] eqn:Ht.
  2:{ by rewrite (bind_halt _ _ _ _ _ (get_timer_none p s Ht)). }
  rewrite (bind_run _ _ _ _ _ (get_timer_run p s t Ht)).
  destruct (bool_decide (ms = m_ms t) && negb from_now); [done|].
  destruct (m_cb t) as [cb|] eqn:Hcb; [|done].
  rewrite (bind_run _ _ _ s s) by done.
  destruct (set_find (timer_heap s) p (m_timers s)) as [q|] eqn:Hf; [|done].
  erewrite bind_run by done.
  assert (∃ start s1, (if from_now then now else mret (m_next t - milliseconds (m_ms t))%Z)
      (set_timers (set_erase q (m_timers s)) s) = (Ret start, s1) ∧
    timer_heap s1 = timer_heap s ∧ m_timers s1 = set_erase q (m_timers s)) as (start & s1 & Hrun & Hh & Hl)
    by (destruct from_now; by eexists _, _).
  rewrite (bind_run _ _ _ _ _ Hrun). erewrite bind_run by done.
  set (f := λ t, _). set (s2 := set_heap_ _ s1).
  destruct (addTimer_ptr_ok p s2 (f t)) as (s' & Hadd & Hok').
  - unfold timers_ok. cbn. rewrite Hh, Hl.
    apply set_ok_alter; [by eapply erased_not_in|by apply set_erase_ok].
  - cbn. by rewrite list_lookup_alter_eq, Hh, Ht.
  - cbn. by rewrite Hcb.
  - by rewrite (bind_run _ _ _ _ _ Hadd).
Qed.

Lemma expire_loop_ok fuel rollover now_ cbs s cbs' s' :
  expire_loop fuel rollover now_ cbs s = Some (cbs', s') -> timers_ok s -> timers_ok s'.
Proof.
  revert cbs s. induction fuel as [|fuel IH]; intros cbs s; [done|].
  destruct (m_timers s) as [|p l] eqn:Hl; [cbn; rewrite Hl; by intros [= <- <-]|].
  destruct (timer_heap s !! p) as [t|] eqn:Ht; [|cbn; rewrite Hl, Ht; by intros [= <- <-]].
  destruct (rollover || bool_decide (m_next t <= now_)%Z) eqn:Hd;
    [|cbn; rewrite Hl, Ht, Hd; by intros [= <- <-]].
  rewrite (expire_loop_pop _ _ _ _ _ _ _ _ Hl Ht Hd). intros Hrun Hok.
  eapply IH; [exact Hrun|]. by apply popped_ok.
Qed.

(** One operation of the manager or of a timer, whatever it answers. *)
Inductive timer_step : TimerManager C -> TimerManager C -> Prop :=
| step_add ms cb recurring s : timer_step s (addTimer ms cb recurring s).2
| step_cancel p s : timer_step s (cancel p s).2
| step_refresh p s : timer_step s (refresh p s).2
| step_reset p ms from_now s : timer_step s (reset p ms from_now s).2
| step_next s : timer_step s (getNextTimer s).2
| step_expire fuel cbs s s' : listExpiredCb fuel s = Some (cbs, s') -> timer_step s s'.

Lemma timer_step_ok s s' : timer_step s s' -> timers_ok s -> timers_ok s'.
Proof.
  intros Hstep Hok. destruct Hstep as [ms cb r s|p s|p s|p ms fn s|s|fuel cbs s s' Hrun].
  - destruct (addTimer_ok ms cb r s Hok) as (p & s' & -> & Hok'). done.
  - by apply cancel_ok.
  - by apply refresh_ok.
  - by apply reset_ok.
  - unfold getNextTimer. erewrite bind_run by done. erewrite bind_run by done.
    destruct (m_timers (set_tickled false s)) as [|p l]; [exact Hok|]. erewrite bind_run by done.
    destruct (timer_heap s !! p) as [t|] eqn:Ht.
    + erewrite bind_run by (by apply get_timer_run). by case_decide.
    + by erewrite bind_halt by (by apply get_timer_none).
  - rewrite listExpiredCb_start in Hrun. by eapply expire_loop_ok.
Qed.


End facts.

(** ** Witnesses *)

(** Three timers, the first recurring, at 5, 8 and 100 ms; the clock reads 10,
    20, 30, ... ms. *)
Definition sample_clock (n : nat) : Z := milliseconds (10 * Z.of_nat (S n)).
Definition sample_manager : TimerManager nat :=
  mkTimerManager
    [mkTimer true 10 (milliseconds 5) (Some 0); mkTimer false 8 (milliseconds 8) (Some 1);
     mkTimer false 100 (milliseconds 100) (Some 2)]
    [0; 1; 2] false 0 0 sample_clock 0.

Lemma sample_manager_ok : timers_ok sample_manager.
Proof.
  split.
  - repeat constructor.
  - repeat constructor; eexists; (split; [reflexivity|by eexists]).
Qed.


(** One recurring timer, and a clock that has gone back two hours. *)
Definition rolled_manager : TimerManager nat :=
  mkTimerManager [mkTimer true 10 (milliseconds 5) (Some 0)] [0] false
    (milliseconds (2 * 60 * 60 * 1000)) 0 (λ _, 0%Z) 0.

Lemma rollover_never_ends_witness : listExpiredCb 1000 rolled_manager = None.
Proof.
  apply (rollover_never_ends rolled_manager 1000).
  - done.
  - intros p Hp. apply list_elem_of_singleton in Hp as ->. eexists. split; reflexivity.
  - by vm_compute.
Defined.

(** A timer of 90 ms at 10 ms has the deadline of the third one. *)
Lemma equal_deadline_lost_witness :
  ∃ p s1, addTimer 90 7 false sample_manager = (Ret p, s1) ∧ p ∉ s1.(m_timers) ∧
    ∃ s2, cancel p s1 = (Ret true, s2) ∧ 2 ∉ s2.(m_timers).
Proof.
  destruct (equal_deadline_lost sample_manager 90 7 false 2) as (p & s1 & Hadd & Hp & _ & s2 & Hc & Hq & _).
  - exact sample_manager_ok.
  - apply (bool_decide_unpack _). by vm_compute.
  - by vm_compute.
  - exists p, s1. split; [exact Hadd|]. split; [exact Hp|]. by exists s2.
Defined.

