(* ===== verification/Fiber.v ===== *)
(** * Fibers

    [co-pro/corotinue-fiber-pool/fiber.h] and [fiber.cpp]. A [Fiber*] or
    [shared_ptr<Fiber>] is an index into a heap of fibers; the thread-local
    pointers of [fiber.cpp] are part of the state of the thread that runs. A
    [ucontext_t] is where its fiber goes on when control comes back to it, so
    the operations that end in [swapcontext] answer with the context control
    goes to. [malloc] and [getcontext] succeed. *)

From S2P Require Export Prelude.

(** [Fiber::State]. *)
Inductive State := READY | RUNNING | SUSPEND | TERM.
#[export] Instance State_eq_dec : EqDecision State.
Proof. solve_decision. Defined.

Abbreviation fiber_ptr := nat.

(** The callbacks handed to the scheduler, by what they do to it: work on the
    data [W] of the program, schedule a callback or a fiber, schedule the
    running fiber, [Fiber::GetThis()->yield()], [Fiber::GetThis()->suspend()]. *)
Inductive callback (W : Type) :=
| Return
| Effect (f : W -> W) (k : W -> callback W)
| ScheduleCb (cb : callback W) (thread : Z) (k : callback W)
| ScheduleFiber (f : fiber_ptr) (thread : Z) (k : callback W)
| ScheduleThis (thread : Z) (k : callback W)
| Yield (k : callback W)
| Suspend (k : callback W).
Arguments Return {W}.
Arguments Effect {W}.
Arguments ScheduleCb {W}.
Arguments ScheduleFiber {W}.
Arguments ScheduleThis {W}.
Arguments Yield {W}.
Arguments Suspend {W}.

(** What a [std::function] of a fiber is bound to: a callback, or
    [Scheduler::run] and [Scheduler::idle] of the scheduler. *)
Inductive fiber_fn (W : Type) :=
| UserCb (cb : callback W)
| RunFn
| IdleFn.
Arguments UserCb {W}.
Arguments RunFn {W}.
Arguments IdleFn {W}.

(** Where a context goes on: at the [swapcontext] of a [resume] that saved it,
    at the start of [MainFunc], inside a callback with the rest of it to do, in
    the loop of the idle fiber, or in the last [yield] of [MainFunc]. *)
Inductive context (W : Type) :=
| InResume
| AtMainFunc
| InCallback (k : callback W)
| InIdle
| InMainFuncEnd.
Arguments InResume {W}.
Arguments AtMainFunc {W}.
Arguments InCallback {W}.
Arguments InIdle {W}.
Arguments InMainFuncEnd {W}.

(** [Fiber]: [m_stack] tells whether a stack is owned; [m_runInScheduler] of a
    main fiber is never initialised. *)
Record Fiber (W : Type) := mkFiber {
  m_id : Z;
  m_stacksize : Z;
  m_state : State;
  m_ctx : context W;
  m_stack : bool;
  m_cb : option (fiber_fn W);
  m_runInScheduler : option bool
}.
Arguments mkFiber {W}.
Arguments m_id {W}.
Arguments m_stacksize {W}.
Arguments m_state {W}.
Arguments m_ctx {W}.
Arguments m_stack {W}.
Arguments m_cb {W}.
Arguments m_runInScheduler {W}.

(** The fibers of the program, its counters, and the pointers of the running
    thread. *)
Record fiber_env (W : Type) := mkEnv {
  fibers : list (Fiber W);
  s_fiber_id : Z;
  s_fiber_count : Z;
  t_fiber : option fiber_ptr;
  t_thread_fiber : option fiber_ptr;
  t_scheduler_fiber : option fiber_ptr
}.
Arguments mkEnv {W}.
Arguments fibers {W}.
Arguments s_fiber_id {W}.
Arguments s_fiber_count {W}.
Arguments t_fiber {W}.
Arguments t_thread_fiber {W}.
Arguments t_scheduler_fiber {W}.

Section fiber.
Context {W : Type}.
Implicit Types (p q : fiber_ptr) (e : fiber_env W) (b : Fiber W).

Abbreviation fiber_prog A := (prog std_exception (fiber_env W) A).

Definition with_state (st : State) b : Fiber W :=
  mkFiber b.(m_id) b.(m_stacksize) st b.(m_ctx) b.(m_stack) b.(m_cb) b.(m_runInScheduler).
Definition with_ctx (c : context W) b : Fiber W :=
  mkFiber b.(m_id) b.(m_stacksize) b.(m_state) c b.(m_stack) b.(m_cb) b.(m_runInScheduler).
Definition with_cb (cb : option (fiber_fn W)) b : Fiber W :=
  mkFiber b.(m_id) b.(m_stacksize) b.(m_state) b.(m_ctx) b.(m_stack) cb b.(m_runInScheduler).

Definition set_fibers (h : list (Fiber W)) e : fiber_env W :=
  mkEnv h e.(s_fiber_id) e.(s_fiber_count) e.(t_fiber) e.(t_thread_fiber) e.(t_scheduler_fiber).
Definition set_t_fiber (p : option fiber_ptr) e : fiber_env W :=
  mkEnv e.(fibers) e.(s_fiber_id) e.(s_fiber_count) p e.(t_thread_fiber) e.(t_scheduler_fiber).
Definition set_t_thread_fiber (p : option fiber_ptr) e : fiber_env W :=
  mkEnv e.(fibers) e.(s_fiber_id) e.(s_fiber_count) e.(t_fiber) p e.(t_scheduler_fiber).
Definition set_t_scheduler_fiber (p : option fiber_ptr) e : fiber_env W :=
  mkEnv e.(fibers) e.(s_fiber_id) e.(s_fiber_count) e.(t_fiber) e.(t_thread_fiber) p.
Definition set_fiber_count (n : Z) e : fiber_env W :=
  mkEnv e.(fibers) e.(s_fiber_id) n e.(t_fiber) e.(t_thread_fiber) e.(t_scheduler_fiber).

(** [p->...], for a pointer to a fiber; the null pointer is undefined. *)
Definition deref (p : option fiber_ptr) : fiber_prog (fiber_ptr * Fiber W) :=
  h ← gets fibers;
  match p ≫= (λ p, (p,.) <$> h !! p) with
  | Some pb => mret pb
  | None => halt UndefinedBehaviour
  end.
Definition get_fiber p : fiber_prog (Fiber W) := '(_, b) ← deref (Some p); mret b.
Definition update_fiber p (f : Fiber W -> Fiber W) : fiber_prog unit :=
  modify (λ e, set_fibers (alter f p e.(fibers)) e).

(** A new fiber with the next id. *)
Definition alloc_fiber (mk : Z -> Fiber W) e : fiber_ptr * fiber_env W :=
  (length e.(fibers),
   mkEnv (e.(fibers) ++ [mk e.(s_fiber_id)]) (wrap_u64 (e.(s_fiber_id) + 1))
     (wrap_u64 (e.(s_fiber_count) + 1)) e.(t_fiber) e.(t_thread_fiber) e.(t_scheduler_fiber)).
Definition alloc (mk : Z -> Fiber W) : fiber_prog fiber_ptr :=
  λ e, let '(p, e) := alloc_fiber mk e in (Ret p, e).

Definition SetThis (f : option fiber_ptr) : fiber_prog unit := modify (set_t_fiber f).
Definition SetSchedulerFiber (f : option fiber_ptr) : fiber_prog unit := modify (set_t_scheduler_fiber f).

(** [Fiber::Fiber()], private: the main fiber of a thread. *)
Definition new_main_fiber : fiber_prog fiber_ptr :=
  p ← alloc (λ id, mkFiber id 0 RUNNING InResume false None None);
  SetThis (Some p);;
  mret p.

(** [Fiber::Fiber(cb, stacksize, run_in_scheduler)]. *)
Definition new_Fiber (cb : option (fiber_fn W)) (stacksize : Z) (run_in_scheduler : bool)
  : fiber_prog fiber_ptr :=
  alloc (λ id, mkFiber id (wrap_u32 (if bool_decide (stacksize = 0)%Z then 128000 else stacksize))
    READY AtMainFunc true cb (Some run_in_scheduler)).

(** [Fiber::~Fiber()]. *)
Definition delete_Fiber : fiber_prog unit :=
  modify (λ e, set_fiber_count (wrap_u64 (e.(s_fiber_count) - 1)) e).

Definition GetThis : fiber_prog fiber_ptr :=
  f ← gets t_fiber;
  match f with
  | Some p => mret p
  | None =>
      main_fiber ← new_main_fiber;
      modify (set_t_thread_fiber (Some main_fiber));;
      modify (set_t_scheduler_fiber (Some main_fiber));;
      f ← gets t_fiber;
      assert (bool_decide (f = Some main_fiber));;
      mret main_fiber
  end.

Definition GetFiberId : fiber_prog Z :=
  f ← gets t_fiber;
  match f with
  | Some p => b ← get_fiber p; mret b.(m_id)
  | None => mret u64_max
  end.

Definition reset p (cb : option (fiber_fn W)) : fiber_prog unit :=
  b ← get_fiber p;
  assert (b.(m_stack) && bool_decide (b.(m_state) = TERM ∨ b.(m_state) = READY));;
  update_fiber p (λ b, with_ctx AtMainFunc (with_cb cb (with_state READY b))).

(** [swapcontext(&from->m_ctx, &to->m_ctx)], going on at [saved] when control
    comes back. *)
Definition swapcontext (from : option fiber_ptr) (to : option fiber_ptr) (saved : context W)
  : fiber_prog (context W) :=
  '(from, _) ← deref from;
  '(to, _) ← deref to;
  update_fiber from (with_ctx saved);;
  b ← get_fiber to;
  mret b.(m_ctx).

(** The fiber a fiber is resumed from and yields to. *)
Definition home (b : Fiber W) : fiber_prog (option fiber_ptr) :=
  match b.(m_runInScheduler) with
  | Some true => gets t_scheduler_fiber
  | Some false => gets t_thread_fiber
  | None => halt UndefinedBehaviour
  end.

Definition resume p : fiber_prog (context W) :=
  b ← get_fiber p;
  assert (bool_decide (b.(m_state) = READY));;
  update_fiber p (with_state RUNNING);;
  h ← home b;
  SetThis (Some p);;
  swapcontext h (Some p) InResume.

(** [p->yield()], to go on at [saved]. *)
Definition yield p (saved : context W) : fiber_prog (context W) :=
  b ← get_fiber p;
  assert (bool_decide (b.(m_state) = RUNNING ∨ b.(m_state) = TERM));;
  (if bool_decide (b.(m_state) = TERM) then mret tt else update_fiber p (with_state READY));;
  h ← home b;
  SetThis h;;
  swapcontext (Some p) h saved.

Definition suspend p (saved : context W) : fiber_prog (context W) :=
  b ← get_fiber p;
  assert (bool_decide (b.(m_state) = RUNNING));;
  update_fiber p (with_state SUSPEND);;
  yield p saved.

(** [MainFunc] up to the call of [m_cb]: an empty function throws
    [std::bad_function_call], and nothing catches it. *)
Definition MainFunc_begin : fiber_prog (fiber_ptr * fiber_fn W) :=
  curr ← GetThis;
  b ← get_fiber curr;
  match b.(m_cb) with
  | Some f => mret (curr, f)
  | None => halt Terminated
  end.

(** [MainFunc] after the call. *)
Definition MainFunc_end (curr : fiber_ptr) : fiber_prog (context W) :=
  update_fiber curr (with_cb None);;
  update_fiber curr (with_state TERM);;
  yield curr InMainFuncEnd.

End fiber.
