(* ===== verification/FiberPool.v ===== *)
(** * The fiber pool of a thread

    [co-pro/corotinue-fiber-pool/fiberpool.h] and [fiberpool.cpp]. The pools
    are thread-local, so the mutex of a pool is never contended. *)

From S2P Require Export Fiber.

(** [FiberPool]: [m_idleFibers] is a queue, [m_allFibers] a vector. *)
Record FiberPool := mkPool {
  m_poolSize : nat;
  m_idleFibers : list fiber_ptr;
  m_allFibers : list fiber_ptr
}.

Section pool.
Context {W : Type}.

(** A thread with its pool. *)
Record pool_env := mkPoolEnv { penv : fiber_env W; ppool : FiberPool }.

Abbreviation pool_prog A := (prog std_exception pool_env A).

Definition set_penv (e : fiber_env W) (s : pool_env) : pool_env := mkPoolEnv e s.(ppool).
Definition set_ppool (l : FiberPool) (s : pool_env) : pool_env := mkPoolEnv s.(penv) l.

(** A program of [Fiber.v]. *)
Definition on_env {A} (m : prog std_exception (fiber_env W) A) : pool_prog A :=
  zoom penv set_penv m.

Definition push_idle (p : fiber_ptr) (l : FiberPool) : FiberPool :=
  mkPool l.(m_poolSize) (l.(m_idleFibers) ++ [p]) l.(m_allFibers).
Definition push_all (p : fiber_ptr) (l : FiberPool) : FiberPool :=
  mkPool l.(m_poolSize) l.(m_idleFibers) (l.(m_allFibers) ++ [p]).
Definition set_idle (i : list fiber_ptr) (l : FiberPool) : FiberPool :=
  mkPool l.(m_poolSize) i l.(m_allFibers).
Definition set_all (a : list fiber_ptr) (l : FiberPool) : FiberPool :=
  mkPool l.(m_poolSize) l.(m_idleFibers) a.
Definition set_poolSize (n : nat) (l : FiberPool) : FiberPool :=
  mkPool n l.(m_idleFibers) l.(m_allFibers).
Definition on_pool (f : FiberPool -> FiberPool) : pool_prog unit :=
  modify (λ s, set_ppool (f s.(ppool)) s).

Fixpoint createFibers (count : nat) : pool_prog unit :=
  match count with
  | 0 => mret tt
  | S count =>
      fiber ← on_env (new_Fiber (Some (UserCb Return)) 0 true);
      on_env (reset fiber None);;
      on_pool (push_idle fiber);;
      on_pool (push_all fiber);;
      createFibers count
  end.

(** [FiberPool::FiberPool(fibers)]. *)
Definition new_FiberPool (n : nat) : pool_prog unit :=
  modify (set_ppool (mkPool n [] []));;
  createFibers n.

(** [m_allFibers.size() * 1.5], as a [size_t]. *)
Definition grown (n : nat) : nat := (n * 3) `div` 2.

Definition acquire (cb : callback W) : pool_prog fiber_ptr :=
  l ← gets ppool;
  (if bool_decide (l.(m_idleFibers) = []) then
     let new_size := grown (length l.(m_allFibers)) in
     createFibers (new_size - length l.(m_allFibers))
   else mret tt);;
  l ← gets ppool;
  match l.(m_idleFibers) with
  | [] => halt UndefinedBehaviour
  | fiber :: idle =>
      on_pool (set_idle idle);;
      on_env (reset fiber (Some (UserCb cb)));;
      mret fiber
  end.

Definition release (fiber : fiber_ptr) : pool_prog unit :=
  on_env (reset fiber None);;
  on_pool (push_idle fiber).

(** The first occurrence of [p], taken out. *)
Fixpoint erase_first (p : fiber_ptr) (l : list fiber_ptr) : list fiber_ptr :=
  match l with
  | [] => []
  | q :: l => if bool_decide (p = q) then l else q :: erase_first p l
  end.

(** The loop of [resize] that takes fibers out of the pool. A fiber erased
    from both lists loses its last owner, unless a task still holds it. *)
Fixpoint remove_loop (remove_count : nat) : pool_prog unit :=
  match remove_count with
  | 0 => mret tt
  | S remove_count =>
      l ← gets ppool;
      match l.(m_idleFibers) with
      | [] => mret tt
      | fiber :: idle =>
          on_pool (set_idle idle);;
          on_pool (λ l, set_all (erase_first fiber l.(m_allFibers)) l);;
          remove_loop remove_count
      end
  end.

Definition resize (new_size : nat) : pool_prog unit :=
  l ← gets ppool;
  (if bool_decide (length l.(m_allFibers) < new_size) then
     createFibers (new_size - length l.(m_allFibers))
   else if bool_decide (new_size < length l.(m_allFibers)) then
     remove_loop (length l.(m_allFibers) - new_size)
   else mret tt);;
  on_pool (set_poolSize new_size).

Definition idleCount : pool_prog nat := l ← gets ppool; mret (length l.(m_idleFibers)).
Definition totalCount : pool_prog nat := l ← gets ppool; mret (length l.(m_allFibers)).

End pool.
Arguments pool_env : clear implicits.
