(* ===== verification/FiberFacts.v ===== *)
(** * Facts on fibers and their pool

    What a cycle of a fiber (resume, callback, end) does to the heap, the
    invariant of the pool, and the behaviour of [acquire]. *)

From S2P Require Export FiberPool.

Section fiber.
Context {W : Type}.
Implicit Types (p q sf : fiber_ptr) (e : fiber_env W) (b : Fiber W).

Lemma fiber_deref_run p e b : e.(fibers) !! p = Some b -> deref (Some p) e = (Ret (p, b), e).
Proof. intros Hp. unfold deref. erewrite bind_run by done. cbn. by rewrite Hp. Qed.

Lemma get_fiber_run p e b : e.(fibers) !! p = Some b -> get_fiber p e = (Ret b, e).
Proof. intros Hp. unfold get_fiber. by erewrite bind_run by by apply fiber_deref_run. Qed.

(** [reset] of a fiber that may be reset. *)
Lemma reset_run p cb e b :
  e.(fibers) !! p = Some b -> b.(m_stack) = true -> b.(m_state) = TERM ∨ b.(m_state) = READY ->
  reset p cb e = (Ret tt, set_fibers (<[p := with_ctx AtMainFunc (with_cb cb (with_state READY b))]> e.(fibers)) e).
Proof.
  intros Hp Hs Hst. unfold reset. erewrite bind_run by by apply get_fiber_run.
  rewrite Hs, bool_decide_true by done. erewrite bind_run by done.
  unfold update_fiber, modify. by erewrite list_alter_insert.
Qed.

Lemma swapcontext_run from to saved e b b' :
  e.(fibers) !! from = Some b -> e.(fibers) !! to = Some b' -> from ≠ to ->
  swapcontext (Some from) (Some to) saved e =
    (Ret b'.(m_ctx), set_fibers (<[from := with_ctx saved b]> e.(fibers)) e).
Proof.
  intros Hf Ht Hne. unfold swapcontext.
  erewrite bind_run by by apply fiber_deref_run. cbv beta iota.
  erewrite bind_run by by apply fiber_deref_run. cbv beta iota. erewrite bind_run by done. unfold update_fiber. erewrite list_alter_insert by done.
  erewrite bind_run; [done|]. apply get_fiber_run. cbn. by rewrite list_lookup_insert_ne.
Qed.

(** The fiber a fiber is resumed from, when there is one. *)
Definition home_of b e : option fiber_ptr :=
  match b.(m_runInScheduler) with
  | Some true => e.(t_scheduler_fiber)
  | Some false => e.(t_thread_fiber)
  | None => None
  end.

Lemma home_run b e h : home_of b e = Some h -> home b e = (Ret (Some h), e).
Proof. unfold home_of, home. destruct (m_runInScheduler b) as [[]|]; [..|done]; intros Hh; unfold gets; by rewrite Hh. Qed.

(** [resume] of a ready fiber. *)
Lemma resume_run p sf e b bs :
  e.(fibers) !! p = Some b -> e.(fibers) !! sf = Some bs -> p ≠ sf ->
  b.(m_state) = READY -> home_of b e = Some sf ->
  resume p e = (Ret b.(m_ctx),
    set_t_fiber (Some p) (set_fibers (<[sf := with_ctx InResume bs]>
      (<[p := with_state RUNNING b]> e.(fibers))) e)).
Proof.
  intros Hp Hsf Hne Hst Hhome. unfold resume. erewrite bind_run by by apply get_fiber_run.
  rewrite bool_decide_true by done. erewrite bind_run by done.
  unfold update_fiber. erewrite bind_run by done. erewrite list_alter_insert by done.
  erewrite bind_run by (by apply home_run). erewrite bind_run by done.
  assert (p < length (fibers e)) by by eapply lookup_lt_Some.
  rewrite (swapcontext_run _ _ _ _ bs (with_state RUNNING b)); [done| | |done].
  - cbn. by rewrite list_lookup_insert_ne.
  - cbn. by rewrite list_lookup_insert_eq.
Qed.

(** [yield] of a running fiber, or of one that has ended. *)
Lemma yield_run p sf saved e b bs :
  e.(fibers) !! p = Some b -> e.(fibers) !! sf = Some bs -> p ≠ sf ->
  b.(m_state) = RUNNING ∨ b.(m_state) = TERM -> home_of b e = Some sf ->
  yield p saved e = (Ret bs.(m_ctx),
    set_t_fiber (Some sf) (set_fibers (<[p := with_ctx saved
      (with_state (if bool_decide (b.(m_state) = TERM) then TERM else READY) b)]> e.(fibers)) e)).
Proof.
  intros Hp Hsf Hne Hst Hhome. unfold yield. erewrite bind_run by by apply get_fiber_run.
  rewrite (bool_decide_true _ Hst). erewrite bind_run by done.
  assert (p < length (fibers e)) by by eapply lookup_lt_Some.
  destruct (bool_decide_reflect (m_state b = TERM)) as [Ht|Ht].
  - erewrite bind_run by done. erewrite bind_run by (by apply home_run).
    erewrite bind_run by done. erewrite swapcontext_run by done.
    destruct b; cbn in *. by subst.
  - unfold update_fiber. erewrite bind_run by done. erewrite list_alter_insert by done.
    erewrite bind_run by (by apply home_run). erewrite bind_run by done.
    erewrite swapcontext_run; [|cbn; by rewrite list_lookup_insert_eq|cbn; by rewrite list_lookup_insert_ne|done].
    cbn. by rewrite list_insert_insert_eq.
Qed.

(** The end of [MainFunc] of a running fiber. *)
Lemma MainFunc_end_run p sf e b bs :
  e.(fibers) !! p = Some b -> e.(fibers) !! sf = Some bs -> p ≠ sf -> home_of b e = Some sf ->
  MainFunc_end p e = (Ret bs.(m_ctx),
    set_t_fiber (Some sf) (set_fibers (<[p := with_ctx InMainFuncEnd
      (with_state TERM (with_cb None b))]> e.(fibers)) e)).
Proof.
  intros Hp Hsf Hne Hhome. unfold MainFunc_end, update_fiber.
  assert (p < length (fibers e)) by by eapply lookup_lt_Some.
  erewrite bind_run by done. erewrite list_alter_insert by done. erewrite bind_run by done.
  erewrite list_alter_insert by (cbn; by rewrite list_lookup_insert_eq).
  rewrite (yield_run p sf _ _ (with_state TERM (with_cb None b)) bs); [..|exact Hhome].
  2:{ cbn. by rewrite list_lookup_insert_eq by (rewrite length_insert; done). }
  2:{ cbn. by rewrite !list_lookup_insert_ne. }
  2-3: naive_solver.
  cbn. by rewrite !list_insert_insert_eq.
Qed.

Lemma MainFunc_begin_run p e b :
  e.(t_fiber) = Some p -> e.(fibers) !! p = Some b ->
  MainFunc_begin e = match b.(m_cb) with Some f => (Ret (p, f), e) | None => (Halt Terminated, e) end.
Proof.
  intros Ht Hp. unfold MainFunc_begin. erewrite bind_run.
  2:{ unfold GetThis. erewrite bind_run by done. by rewrite Ht. }
  erewrite bind_run by by apply get_fiber_run. by destruct (m_cb b).
Qed.

End fiber.

(** ** The pool *)

Section pool.
Context {W : Type}.
Implicit Types (p q : fiber_ptr) (h : list (Fiber W)) (l : FiberPool) (s : pool_env W).

(** A fiber of a pool: it owns a stack, returns to the scheduler, is [READY]
    at the start of [MainFunc], and holds [cb]. *)
Definition ready_fiber (cb : option (fiber_fn W)) (b : Fiber W) : Prop :=
  b.(m_stack) = true ∧ b.(m_runInScheduler) = Some true ∧ b.(m_state) = READY ∧
  b.(m_ctx) = AtMainFunc ∧ b.(m_cb) = cb.

(** A fiber a pool has handed out. *)
Definition pool_fiber (b : Fiber W) : Prop := b.(m_stack) = true ∧ b.(m_runInScheduler) = Some true.

(** The idle fibers are distinct fibers of the pool, ready and without a
    callback. *)
Record pool_ok h l : Prop := {
  idle_nodup : NoDup l.(m_idleFibers);
  all_nodup : NoDup l.(m_allFibers);
  idle_in_all p : p ∈ l.(m_idleFibers) -> p ∈ l.(m_allFibers);
  idle_ready p : p ∈ l.(m_idleFibers) -> ∃ b, h !! p = Some b ∧ ready_fiber None b;
  all_pool_fibers p : p ∈ l.(m_allFibers) -> ∃ b, h !! p = Some b ∧ pool_fiber b
}.

Lemma ready_pool_fiber cb b : ready_fiber cb b -> pool_fiber b.
Proof. by intros (? & ? & _). Qed.

Lemma pool_ok_fresh h l p : pool_ok h l -> length h ≤ p -> p ∉ l.(m_allFibers).
Proof.
  intros Hok Hp Hin. destruct (all_pool_fibers _ _ Hok p Hin) as (b & Hb & _).
  apply lookup_lt_Some in Hb. lia.
Qed.

(** The heap may change as long as the idle fibers stay what they are. *)
Lemma pool_ok_heap h h' l :
  pool_ok h l -> (∀ p, p ∈ l.(m_idleFibers) -> h' !! p = h !! p) ->
  (∀ p b, p ∈ l.(m_allFibers) -> h !! p = Some b -> ∃ b', h' !! p = Some b' ∧ pool_fiber b') ->
  pool_ok h' l.
Proof.
  intros [] Hidle Hall. split; try done.
  - intros p Hp. rewrite Hidle; auto.
  - intros p Hp. destruct (all_pool_fibers0 p Hp) as (b & Hb & _). by eapply Hall.
Qed.

(** A fresh fiber joins the pool. *)
Lemma pool_ok_push h l b :
  pool_ok h l -> ready_fiber None b ->
  pool_ok (h ++ [b]) (push_all (length h) (push_idle (length h) l)).
Proof.
  intros Hok Hb. pose proof (pool_ok_fresh h l _ Hok (le_n _)) as Hfresh.
  assert (Hold : ∀ p b', h !! p = Some b' -> (h ++ [b]) !! p = Some b').
  { intros p b' Hp. by apply lookup_app_l_Some. }
  assert (Hnew : (h ++ [b]) !! length h = Some b) by by apply list_lookup_middle.
  destruct Hok as [Hi Ha Hin Hr Hp]. split; cbn.
  - apply NoDup_app. split_and!; [done| |apply NoDup_singleton].
    intros p ? ->%list_elem_of_singleton. auto.
  - apply NoDup_app. split_and!; [done| |apply NoDup_singleton].
    by intros p ? ->%list_elem_of_singleton.
  - intros p [?| ->%list_elem_of_singleton]%elem_of_app; apply elem_of_app; [left; auto|right; by left].
  - intros p [Hp'| ->%list_elem_of_singleton]%elem_of_app; [|by exists b].
    destruct (Hr p Hp') as (b' & ? & ?). eauto.
  - intros p [Hp'| ->%list_elem_of_singleton]%elem_of_app; [|eauto using ready_pool_fiber].
    destruct (Hp p Hp') as (b' & ? & ?). eauto.
Qed.

(** One round of [createFibers]. *)
Lemma createFibers_step n s :
  ∃ b e, ready_fiber None b ∧ e.(fibers) = s.(penv).(fibers) ++ [b] ∧
    e.(t_fiber) = s.(penv).(t_fiber) ∧ e.(t_thread_fiber) = s.(penv).(t_thread_fiber) ∧
    e.(t_scheduler_fiber) = s.(penv).(t_scheduler_fiber) ∧
    createFibers (S n) s = createFibers n (mkPoolEnv e
      (push_all (length s.(penv).(fibers)) (push_idle (length s.(penv).(fibers)) s.(ppool)))).
Proof.
  set (e := s.(penv)). set (k := length e.(fibers)).
  set (b := mkFiber e.(s_fiber_id) 128000 READY AtMainFunc true None (Some true) : Fiber W).
  exists b, (mkEnv (e.(fibers) ++ [b]) (wrap_u64 (e.(s_fiber_id) + 1)) (wrap_u64 (e.(s_fiber_count) + 1))
    e.(t_fiber) e.(t_thread_fiber) e.(t_scheduler_fiber)).
  repeat split. cbn [createFibers]. erewrite bind_run by by apply zoom_run.
  erewrite bind_run; [|apply zoom_run; eapply reset_run; [apply list_lookup_middle; done|done|by right]].
  erewrite bind_run by done. erewrite bind_run by done.
  unfold set_penv, set_ppool; cbn. fold e. unfold set_fibers; cbn.
  by rewrite insert_app_r_alt, Nat.sub_diag by lia.
Qed.

(** [createFibers] adds [n] ready fibers. *)
Lemma createFibers_spec n s :
  pool_ok s.(penv).(fibers) s.(ppool) ->
  returns (createFibers n) s (λ _ s', pool_ok s'.(penv).(fibers) s'.(ppool) ∧
    (∃ new, s'.(penv).(fibers) = s.(penv).(fibers) ++ new ∧ length new = n) ∧
    s'.(ppool) = mkPool s.(ppool).(m_poolSize)
      (s.(ppool).(m_idleFibers) ++ seq (length s.(penv).(fibers)) n)
      (s.(ppool).(m_allFibers) ++ seq (length s.(penv).(fibers)) n) ∧
    s'.(penv).(t_fiber) = s.(penv).(t_fiber) ∧
    s'.(penv).(t_thread_fiber) = s.(penv).(t_thread_fiber) ∧
    s'.(penv).(t_scheduler_fiber) = s.(penv).(t_scheduler_fiber)).
Proof.
  revert s. induction n as [|n IH]; intros s Hok.
  - apply returns_ret. split_and!; try done; [by exists []; rewrite app_nil_r|].
    rewrite !app_nil_r. by destruct s as [? []].
  - destruct (createFibers_step n s) as (b & e & Hb & He & Ht & Htt & Hts & Heq).
    set (s1 := mkPoolEnv _ _) in Heq.
    destruct (IH s1) as (u & s' & Hrun & Hok' & (new & Hnew & Hlen) & Hpool & ? & ? & ?).
    { cbn. rewrite He. by apply pool_ok_push. }
    exists u, s'. split; [by rewrite Heq|]. cbn in *. rewrite He in Hnew.
    split_and!; try done; try congruence.
    + exists (b :: new). rewrite Hnew, <-app_assoc. cbn. by rewrite Hlen.
    + rewrite Hpool, He, length_app, Nat.add_1_r. cbn. by rewrite <-!app_assoc.
Qed.

(** Resetting a fiber outside the idle queue. *)
Lemma pool_ok_insert h l p b b' :
  pool_ok h l -> h !! p = Some b -> p ∉ l.(m_idleFibers) -> pool_fiber b' -> pool_ok (<[p := b']> h) l.
Proof.
  intros Hok Hp Hidle Hb'. assert (p < length h) by by eapply lookup_lt_Some.
  apply (pool_ok_heap h); [done| |].
  - intros q Hq. apply list_lookup_insert_ne. by intros ->.
  - intros q b0 Hq Hb0. destruct (decide (q = p)) as [->|Hne].
    + rewrite list_lookup_insert_eq by done. eauto.
    + rewrite list_lookup_insert_ne by done. by destruct (all_pool_fibers _ _ Hok q Hq) as (? & ? & ?); eauto.
Qed.

(** The head of the idle queue leaves it. *)
Lemma pool_ok_pop h l p idle : pool_ok h l -> l.(m_idleFibers) = p :: idle ->
  pool_ok h (set_idle idle l) ∧ p ∉ idle.
Proof.
  intros [Hi Ha Hin Hr Hp] Heq. rewrite Heq in *. apply NoDup_cons in Hi as [Hni Hi].
  split; [|done]. split; cbn; try done; intros q Hq; [apply Hin|apply Hr]; by right.
Qed.

(** [reset] of an idle fiber that has just been taken. *)
Lemma acquire_pop cb h l p idle e :
  pool_ok h l -> l.(m_idleFibers) = p :: idle -> e.(fibers) = h ->
  ∃ b, h !! p = Some b ∧ ready_fiber None b ∧
    reset p cb e = (Ret tt, set_fibers (<[p := with_cb cb b]> h) e) ∧
    pool_ok (<[p := with_cb cb b]> h) (set_idle idle l) ∧ p ∈ l.(m_allFibers) ∧ p ∉ idle.
Proof.
  intros Hok Heq <-. destruct (pool_ok_pop _ _ _ _ Hok Heq) as [Hok' Hni].
  assert (p ∈ m_idleFibers l) as Hp by (rewrite Heq; by left).
  destruct (idle_ready _ _ Hok p Hp) as (b & Hb & Hready). exists b.
  pose proof Hready as (Hs & Hrun & Hst & Hctx & Hcb). split_and!; try done.
  - rewrite (reset_run p cb e b) by auto. destruct b; cbn in *; by subst.
  - by eapply pool_ok_insert.
  - by eapply idle_in_all.
Qed.

(** The end of [acquire]: the head of the queue, reset. *)
Lemma acquire_head cb s p idle :
  pool_ok s.(penv).(fibers) s.(ppool) -> s.(ppool).(m_idleFibers) = p :: idle ->
  ∃ b s', s.(penv).(fibers) !! p = Some b ∧ ready_fiber None b ∧
    acquire cb s = (Ret p, s') ∧
    s' = mkPoolEnv (set_fibers (<[p := with_cb (Some (UserCb cb)) b]> s.(penv).(fibers)) s.(penv))
      (set_idle idle s.(ppool)) ∧
    pool_ok s'.(penv).(fibers) s'.(ppool) ∧ p ∈ s.(ppool).(m_allFibers) ∧ p ∉ idle.
Proof.
  intros Hok Heq. destruct (acquire_pop (Some (UserCb cb)) _ _ p idle s.(penv) Hok Heq eq_refl)
    as (b & Hb & Hr & Hreset & Hok' & Hall & Hni).
  eexists b, _. split_and!; [done|done| |reflexivity|done|done|done].
  unfold acquire. erewrite bind_run by done. rewrite bool_decide_false by by rewrite Heq.
  erewrite bind_run by done. erewrite bind_run by done. rewrite Heq.
  erewrite bind_run by done. by erewrite bind_run by by apply zoom_run.
Qed.

(** With no idle fiber, [acquire] makes half as many as there are first. *)
Lemma acquire_grow cb s :
  s.(ppool).(m_idleFibers) = [] ->
  acquire cb s = (createFibers (grown (length s.(ppool).(m_allFibers)) - length s.(ppool).(m_allFibers));;
    l ← gets ppool;
    match l.(m_idleFibers) with
    | [] => halt UndefinedBehaviour
    | fiber :: idle =>
        on_pool (set_idle idle);;
        on_env (reset fiber (Some (UserCb cb)));;
        mret fiber
    end) s.
Proof.
  intros Hidle. unfold acquire. erewrite bind_run by done. by rewrite bool_decide_true.
Qed.

Lemma grown_bounds n : n ≤ grown n /\ (2 ≤ n -> n < grown n) /\ (n < 2 -> grown n = n).
Proof.
  unfold grown. pose proof (Nat.div_mod (n * 3) 2 ltac:(done)).
  pose proof (Nat.mod_upper_bound (n * 3) 2 ltac:(done)). split_lia.
Qed.

(** What an [acquire] from the state [s] promises of its answer. *)
Definition acquired (cb : callback W) s p (s' : pool_env W) : Prop :=
  pool_ok s'.(penv).(fibers) s'.(ppool) ∧
  p ∈ s'.(ppool).(m_allFibers) ∧ p ∉ s'.(ppool).(m_idleFibers) ∧
  (∃ b, s'.(penv).(fibers) !! p = Some b ∧ ready_fiber (Some (UserCb cb)) b) ∧
  (∀ q, q ≠ p -> q < length s.(penv).(fibers) -> s'.(penv).(fibers) !! q = s.(penv).(fibers) !! q) ∧
  s'.(penv).(t_fiber) = s.(penv).(t_fiber) ∧
  s'.(penv).(t_thread_fiber) = s.(penv).(t_thread_fiber) ∧
  s'.(penv).(t_scheduler_fiber) = s.(penv).(t_scheduler_fiber).

(** Which fiber it is, and what it leaves in the pool. *)
Definition acquired_from s p (s' : pool_env W) : Prop :=
  match s.(ppool).(m_idleFibers) with
  | q :: idle => p = q ∧ s'.(ppool) = set_idle idle s.(ppool)
  | [] => p = length s.(penv).(fibers) ∧
      length s'.(ppool).(m_allFibers) = grown (length s.(ppool).(m_allFibers)) ∧
      length s'.(ppool).(m_idleFibers) =
        grown (length s.(ppool).(m_allFibers)) - length s.(ppool).(m_allFibers) - 1
  end.

Lemma acquire_head_spec cb s p idle :
  pool_ok s.(penv).(fibers) s.(ppool) -> s.(ppool).(m_idleFibers) = p :: idle ->
  returns (acquire cb) s (λ p' s', p' = p ∧ s'.(ppool) = set_idle idle s.(ppool) ∧ acquired cb s p' s').
Proof.
  intros Hok Heq. destruct (acquire_head cb s p idle Hok Heq)
    as (b & s' & Hb & (? & ? & ? & ? & ?) & Hrun & -> & Hok' & Hall & Hni).
  eapply returns_run; [exact Hrun|]. split_and!; [done..|].
  assert (p < length (fibers (penv s))) by by eapply lookup_lt_Some.
  split_and!; try done; cbn.
  - rewrite list_lookup_insert_eq by done. by eexists.
  - intros q Hq _. by rewrite list_lookup_insert_ne.
Qed.

(** [acquire] hands out the fiber that has been idle longest, ready to run
    [cb] from the start of [MainFunc], and touches no other fiber; with no idle
    fiber it first makes half as many fibers as the pool has and hands out the
    first of them. When half of the fibers rounds to none (a pool of no fiber or
    of one) it takes the front of an empty queue, which is undefined. *)
Theorem acquire_functional cb s :
  pool_ok s.(penv).(fibers) s.(ppool) ->
  (s.(ppool).(m_idleFibers) ≠ [] ∨ 2 ≤ length s.(ppool).(m_allFibers) ->
    returns (acquire cb) s (λ p s', acquired cb s p s' ∧ acquired_from s p s')) ∧
  (s.(ppool).(m_idleFibers) = [] -> length s.(ppool).(m_allFibers) < 2 ->
    acquire cb s = (Halt UndefinedBehaviour, s)).
Proof.
  intros Hok. pose proof (grown_bounds (length s.(ppool).(m_allFibers))) as (_ & Hgrow & Hsame).
  destruct (m_idleFibers (ppool s)) as [|p idle] eqn:Hidle.
  2:{ split; [|done]. intros _. eapply returns_mono; [by eapply acquire_head_spec|].
      intros p' s' (-> & Hpool & ?). split; [done|]. unfold acquired_from. by rewrite Hidle. }
  split.
  - intros [?|Hlen]; [done|]. specialize (Hgrow Hlen).
    set (n := grown (length s.(ppool).(m_allFibers)) - length s.(ppool).(m_allFibers)) in *. assert (∃ n', n = S n') as (n' & Hn) by (exists (n - 1); lia).
    destruct (createFibers_spec n s Hok) as ([] & s1 & Hrun & Hok1 & (new & Hnew & Hlen') & Hpool & Ht).
    assert (m_idleFibers (ppool s1) = length (fibers (penv s)) :: seq (S (length (fibers (penv s)))) n') as Hidle1.
    { by rewrite Hpool, Hidle, Hn. }
    destruct (acquire_head_spec cb s1 _ _ Hok1 Hidle1) as (p & s' & Hacq & -> & Hpool' & Hacquired).
    eapply returns_run.
    { rewrite acquire_grow by done. fold n. erewrite bind_run by done. rewrite <-Hacq.
      unfold acquire. symmetry. erewrite bind_run by done. rewrite Hidle1. by erewrite bind_run by done. }
    assert (length (m_allFibers (ppool s')) = length (m_allFibers (ppool s)) + n) as Hall'.
    { rewrite Hpool', Hpool. cbn. by rewrite length_app, length_seq. }
    split.
    + destruct Hacquired as (H1 & H2 & H3 & H4 & H5 & H6 & H7 & H8), Ht as (? & ? & ?).
      split_and!; try done; try congruence.
      intros q Hq Hlt. rewrite H5, Hnew; [by apply lookup_app_l| done|rewrite Hnew, length_app; lia].
    + unfold acquired_from. rewrite Hidle. split_and!; [done|unfold n in *; lia|].
      rewrite Hpool'. cbn [set_idle m_idleFibers]. rewrite length_seq. unfold n in *. lia.
  - intros _ Hlen. rewrite acquire_grow by done. rewrite (Hsame Hlen), Nat.sub_diag.
    erewrite bind_run by done. erewrite bind_run by done. by rewrite Hidle.
Qed.

(** ** Reachable pools *)

(** What happens to a pool: [acquire], the run of a fiber it has handed out,
    [release] of such a fiber, [resize]. *)
Inductive pool_step s : pool_env W -> Prop :=
| step_acquire cb p s' : acquire cb s = (Ret p, s') -> pool_step s s'
| step_run p b :
    p ∈ s.(ppool).(m_allFibers) -> p ∉ s.(ppool).(m_idleFibers) -> pool_fiber b ->
    pool_step s (mkPoolEnv (set_fibers (<[p := b]> s.(penv).(fibers)) s.(penv)) s.(ppool))
| step_release p s' :
    p ∈ s.(ppool).(m_allFibers) -> p ∉ s.(ppool).(m_idleFibers) ->
    release p s = (Ret tt, s') -> pool_step s s'
| step_resize n s' : resize n s = (Ret tt, s') -> pool_step s s'.

(** [release] puts the fiber at the end of the queue, ready and empty. *)
Lemma release_run s p b :
  s.(penv).(fibers) !! p = Some b -> pool_fiber b ->
  b.(m_state) = TERM ∨ b.(m_state) = READY ->
  ∃ b', ready_fiber None b' ∧
    release p s = (Ret tt, mkPoolEnv (set_fibers (<[p := b']> s.(penv).(fibers)) s.(penv))
      (push_idle p s.(ppool))).
Proof.
  intros Hp [Hs Hr] Hst. exists (with_ctx AtMainFunc (with_cb None (with_state READY b))).
  split; [done|]. unfold release. by erewrite bind_run by (apply zoom_run; by apply reset_run).
Qed.

(** In any other state it fails its assertion. *)
Lemma release_bad s p b :
  s.(penv).(fibers) !! p = Some b -> b.(m_state) ≠ TERM -> b.(m_state) ≠ READY ->
  (release p s).1 = Halt AssertFailed.
Proof.
  intros Hp H1 H2. unfold release. erewrite bind_halt; [done|].
  apply zoom_run. unfold reset. erewrite bind_run by by apply get_fiber_run.
  rewrite (bool_decide_false (_ ∨ _)) by naive_solver. by rewrite andb_false_r.
Qed.

Lemma pool_ok_release h l p b :
  pool_ok h l -> p ∈ l.(m_allFibers) -> p ∉ l.(m_idleFibers) -> ready_fiber None b ->
  pool_ok (<[p := b]> h) (push_idle p l).
Proof.
  intros Hok Hall Hidle Hb. destruct (all_pool_fibers _ _ Hok p Hall) as (b0 & Hb0 & _).
  assert (p < length h) by by eapply lookup_lt_Some.
  assert (pool_ok (<[p := b]> h) l) as [Hi Ha Hin Hr Hp]
    by (eapply pool_ok_insert; eauto using ready_pool_fiber).
  split; cbn; try done.
  - apply NoDup_app. split_and!; [done| |apply NoDup_singleton].
    by intros q ? ->%list_elem_of_singleton.
  - intros q [?| ->%list_elem_of_singleton]%elem_of_app; auto.
  - intros q [?| ->%list_elem_of_singleton]%elem_of_app; [by apply Hr|].
    rewrite list_lookup_insert_eq by done. by eexists.
Qed.

Lemma elem_of_erase_first p q (l : list fiber_ptr) : q ∈ erase_first p l -> q ∈ l.
Proof.
  induction l as [|x l IH]; cbn; [done|]. case_bool_decide; [by right|].
  intros [->|?]%elem_of_cons; [by left|right; auto].
Qed.

Lemma erase_first_keeps p q (l : list fiber_ptr) : q ∈ l -> q ≠ p -> q ∈ erase_first p l.
Proof.
  induction l as [|x l IH]; cbn; [done|]. intros [->|?]%elem_of_cons Hne; case_bool_decide; subst; try done.
  - by left.
  - right; auto.
Qed.

Lemma erase_first_nodup p (l : list fiber_ptr) : NoDup l -> NoDup (erase_first p l).
Proof.
  induction 1 as [|x l Hx Hl IH]; cbn; [constructor|]. case_bool_decide; [done|].
  constructor; [|done]. by intros ?%elem_of_erase_first.
Qed.

Lemma remove_loop_ok n s :
  pool_ok s.(penv).(fibers) s.(ppool) ->
  returns (remove_loop n) s (λ _ s', pool_ok s'.(penv).(fibers) s'.(ppool)).
Proof.
  revert s. induction n as [|n IH]; intros s Hok; cbn [remove_loop]; [by apply returns_ret|].
  apply returns_bind, returns_gets. destruct (m_idleFibers (ppool s)) as [|p idle] eqn:Hidle;
    [by apply returns_ret|].
  apply returns_bind, returns_modify, returns_bind, returns_modify, IH. cbn.
  destruct (pool_ok_pop _ _ _ _ Hok Hidle) as [[Hi Ha Hin Hr Hp] Hni]. split; cbn in *; try done.
  - by apply erase_first_nodup.
  - intros q Hq. apply erase_first_keeps; [auto|]. by intros ->.
  - intros q Hq%elem_of_erase_first. auto.
Qed.

Lemma resize_ok n s :
  pool_ok s.(penv).(fibers) s.(ppool) ->
  returns (resize n) s (λ _ s', pool_ok s'.(penv).(fibers) s'.(ppool)).
Proof.
  intros Hok. unfold resize. apply returns_bind, returns_gets, returns_bind.
  assert (∀ s', pool_ok s'.(penv).(fibers) s'.(ppool) ->
    returns (on_pool (set_poolSize n)) s' (λ _ s'', pool_ok s''.(penv).(fibers) s''.(ppool))) as Hend.
  { intros s' []. by apply returns_modify. }
  case_bool_decide; [|case_bool_decide].
  - eapply returns_mono; [by apply createFibers_spec|]. intros ? s' [? _]. auto.
  - eapply returns_mono; [by apply remove_loop_ok|]. auto.
  - apply returns_ret. auto.
Qed.

Lemma pool_step_ok s s' :
  pool_step s s' -> pool_ok s.(penv).(fibers) s.(ppool) -> pool_ok s'.(penv).(fibers) s'.(ppool).
Proof.
  intros [cb p s1 Hrun|p b Hall Hidle Hb|p s1 Hall Hidle Hrun|n s1 Hrun] Hok.
  - destruct (m_idleFibers (ppool s)) as [|q idle] eqn:Hidle.
    + rewrite acquire_grow in Hrun by done.
      destruct (createFibers_spec (grown (length s.(ppool).(m_allFibers)) - length s.(ppool).(m_allFibers)) s Hok)
        as ([] & s2 & Hc & Hok2 & _).
      destruct (m_idleFibers (ppool s2)) as [|q idle] eqn:Hidle2.
      * erewrite bind_run in Hrun by done. erewrite bind_run in Hrun by done. by rewrite Hidle2 in Hrun.
      * destruct (acquire_head cb s2 q idle Hok2 Hidle2) as (b & s3 & _ & _ & Hacq & -> & Hok3 & _).
        erewrite bind_run in Hrun by done.
        unfold acquire in Hacq. erewrite bind_run in Hacq by done. rewrite bool_decide_false in Hacq by by rewrite Hidle2.
        erewrite bind_run in Hacq by done. rewrite Hacq in Hrun. by injection Hrun as <- <-.
    + destruct (acquire_head cb s q idle Hok Hidle) as (b & s3 & _ & _ & Hacq & -> & Hok3 & _).
      rewrite Hacq in Hrun. by injection Hrun as <- <-.
  - cbn. destruct (all_pool_fibers _ _ Hok p Hall) as (b0 & Hb0 & _). by eapply pool_ok_insert.
  - destruct (all_pool_fibers _ _ Hok p Hall) as (b0 & Hb0 & Hpf).
    destruct (decide (b0.(m_state) = TERM ∨ b0.(m_state) = READY)) as [Hst|Hst].
    + destruct (release_run s p b0 Hb0 Hpf Hst) as (b' & Hb' & Hrel). rewrite Hrel in Hrun.
      injection Hrun as <-. by apply pool_ok_release.
    + pose proof (release_bad s p b0 Hb0) as Hbad. rewrite Hrun in Hbad. naive_solver.
  - destruct (resize_ok n s Hok) as ([] & s2 & Hrun' & Hok'). rewrite Hrun in Hrun'. by injection Hrun' as <-.
Qed.

Lemma new_FiberPool_ok n (e : fiber_env W) l0 :
  returns (new_FiberPool n) (mkPoolEnv e l0) (λ _ s, pool_ok s.(penv).(fibers) s.(ppool) ∧
    (∃ new, s.(penv).(fibers) = e.(fibers) ++ new ∧ length new = n) ∧
    s.(ppool) = mkPool n (seq (length e.(fibers)) n) (seq (length e.(fibers)) n) ∧
    s.(penv).(t_fiber) = e.(t_fiber) ∧ s.(penv).(t_thread_fiber) = e.(t_thread_fiber) ∧
    s.(penv).(t_scheduler_fiber) = e.(t_scheduler_fiber)).
Proof.
  unfold new_FiberPool. apply returns_bind, returns_modify. apply createFibers_spec. cbn.
  split; cbn; try apply NoDup_nil_2; by intros ? ?%not_elem_of_nil.
Qed.

End pool.

(** C28. In every state a pool reaches by handing fibers out, letting them run,
    taking them back and being resized, the idle fibers are distinct fibers of
    the pool, each of them ready at the start of [MainFunc], with its stack and
    without a callback; so there are never more idle fibers than fibers. *)
Theorem pool_reachable_ok {W} n (e : fiber_env W) l0 s0 s :
  new_FiberPool n (mkPoolEnv e l0) = (Ret tt, s0) -> star pool_step s0 s ->
  pool_ok s.(penv).(fibers) s.(ppool) ∧
  length s.(ppool).(m_idleFibers) ≤ length s.(ppool).(m_allFibers).
Proof.
  intros Hnew Hstar. assert (pool_ok s.(penv).(fibers) s.(ppool)) as Hok.
  { apply (star_invariant pool_step (λ s, pool_ok s.(penv).(fibers) s.(ppool)))
      with (s := s0); [intros; by eapply pool_step_ok|done|].
    destruct (new_FiberPool_ok n e l0) as ([] & s1 & Hrun & Hok & _). congruence. }
  split; [done|]. apply submseteq_length, NoDup_submseteq; apply Hok.
Qed.

(** ** Concrete pools *)

Definition no_fibers : fiber_env unit := mkEnv [] 0 0 None None None.

(** A pool of [n] fibers, and after one [acquire]. *)
Definition made_pool (n : nat) : pool_env unit := (new_FiberPool n (mkPoolEnv no_fibers (mkPool 0 [] []))).2.
Definition used_pool (n : nat) : pool_env unit := (acquire Return (made_pool n)).2.

Lemma made_pool_run n : new_FiberPool n (mkPoolEnv no_fibers (mkPool 0 [] [])) = (Ret tt, made_pool n).
Proof.
  unfold made_pool. destruct (new_FiberPool_ok n no_fibers (mkPool 0 [] [])) as ([] & s & -> & _). done.
Qed.

Lemma used_pool_ok n p : (acquire Return (made_pool n)).1 = Ret p ->
  pool_ok (used_pool n).(penv).(fibers) (used_pool n).(ppool).
Proof.
  intros Hp. apply (pool_step_ok (made_pool n)).
  - apply (step_acquire _ Return p). unfold used_pool. destruct (acquire Return (made_pool n)). cbn in *. by subst.
  - destruct (new_FiberPool_ok n no_fibers (mkPool 0 [] [])) as ([] & s & Hrun & Hok & _).
    rewrite made_pool_run in Hrun. by injection Hrun as <-.
Qed.

Lemma acquire_functional_witness :
  acquire (Yield Return) (used_pool 1) = (Halt UndefinedBehaviour, used_pool 1) ∧
  returns (acquire (Yield Return)) (used_pool 2)
    (λ p s', acquired (Yield Return) (used_pool 2) p s' ∧ acquired_from (used_pool 2) p s').
Proof.
  split.
  - eapply (acquire_functional (Yield Return) (used_pool 1)); [by eapply used_pool_ok|done|].
    by apply Nat.ltb_lt.
  - apply (acquire_functional (Yield Return) (used_pool 2)); [by eapply used_pool_ok|by left].
Defined.

Lemma pool_reachable_ok_witness :
  let s := (resize 7 (used_pool 2)).2 in
  pool_ok s.(penv).(fibers) s.(ppool) ∧ length s.(ppool).(m_idleFibers) ≤ length s.(ppool).(m_allFibers).
Proof.
  apply (pool_reachable_ok 2 no_fibers (mkPool 0 [] []) (made_pool 2)); [apply made_pool_run|].
  apply (star_step _ _ (used_pool 2)).
  - apply (step_acquire _ Return 0). vm_compute. reflexivity.
  - apply star_one, (step_resize _ 7). vm_compute. reflexivity.
Defined.
