(* ===== verification/Scheduler.v ===== *)
(** * The scheduler of fibers

    [co-pro/corotinue-fiber-pool/scheduler.h] and [scheduler.cpp]. A [process]
    is the scheduler object, the fibers, the thread-local variables of each
    thread and the data [W] the callbacks work on. Programs take the id of the
    thread they run on. The virtual functions [tickle], [stopping] and [idle]
    are an interface, with an instance for each class. Each round of [run] is
    made of steps under the lock and of the run of one fiber up to its next
    [swapcontext]; the run of a fiber is one step. *)

From S2P Require Export FiberPool.
From stdpp Require Export gmap.

(** [Scheduler::ScheduleTask]. *)
Record ScheduleTask (W : Type) := mkTask {
  task_fiber : option fiber_ptr;
  task_cb : option (callback W);
  task_thread : Z
}.
Arguments mkTask {W}.
Arguments task_fiber {W}.
Arguments task_cb {W}.
Arguments task_thread {W}.

(** The members of [Scheduler]; [m_threads] holds the ids of its threads. *)
Record Scheduler (W : Type) := mkScheduler {
  m_name : string;
  m_threads : list Z;
  m_tasks : list (ScheduleTask W);
  m_threadIds : list Z;
  m_threadCount : nat;
  m_activeThreadCount : Z;
  m_idleThreadCount : Z;
  m_useCaller : bool;
  m_schedulerFiber : option fiber_ptr;
  m_rootThread : Z;
  m_stopping : bool
}.
Arguments mkScheduler {W}.
Arguments m_name {W}.
Arguments m_threads {W}.
Arguments m_tasks {W}.
Arguments m_threadIds {W}.
Arguments m_threadCount {W}.
Arguments m_activeThreadCount {W}.
Arguments m_idleThreadCount {W}.
Arguments m_useCaller {W}.
Arguments m_schedulerFiber {W}.
Arguments m_rootThread {W}.
Arguments m_stopping {W}.

(** The thread-local variables of a thread: the pointers of [fiber.cpp], its
    pool, whether [t_scheduler] is this scheduler, [t_hook_enable], and the
    local variable [idle_fiber] of [run]. *)
Record locals := mkLocals {
  l_fiber : option fiber_ptr;
  l_thread_fiber : option fiber_ptr;
  l_scheduler_fiber : option fiber_ptr;
  l_pool : option FiberPool;
  l_scheduler : bool;
  l_hook_enable : bool;
  l_idle_fiber : option fiber_ptr
}.

(** The variables of a thread that has just started. *)
Definition new_locals : locals := mkLocals None None None None false false None.

Record process (W : Type) := mkProcess {
  sch : Scheduler W;
  heap : list (Fiber W);
  next_id : Z;
  fiber_count : Z;
  threads : gmap Z locals;
  world : W
}.
Arguments mkProcess {W}.
Arguments sch {W}.
Arguments heap {W}.
Arguments next_id {W}.
Arguments fiber_count {W}.
Arguments threads {W}.
Arguments world {W}.

(** A class derived from [Scheduler]: the object [R] with its base part, and
    the virtual functions. [idle_body] is the body of the loop of [idle],
    between [stopping()] and [yield()]; [tickle], which [idle] may call, comes
    first. *)
Class SchedulerBase (W R : Type) := {
  base : R -> process W;
  set_base : process W -> R -> R;
  tickle : Z -> prog std_exception R unit
}.
Class SchedulerClass (W R : Type) := {
  scheduler_base :: SchedulerBase W R;
  stopping : Z -> prog std_exception R bool;
  idle_body : Z -> prog std_exception R unit
}.

Section process.
Context {W : Type}.
Implicit Types (P : process W) (s : Scheduler W).

Definition set_tasks (l : list (ScheduleTask W)) s : Scheduler W :=
  mkScheduler s.(m_name) s.(m_threads) l s.(m_threadIds) s.(m_threadCount) s.(m_activeThreadCount)
    s.(m_idleThreadCount) s.(m_useCaller) s.(m_schedulerFiber) s.(m_rootThread) s.(m_stopping).
Definition set_active (n : Z) s : Scheduler W :=
  mkScheduler s.(m_name) s.(m_threads) s.(m_tasks) s.(m_threadIds) s.(m_threadCount) n
    s.(m_idleThreadCount) s.(m_useCaller) s.(m_schedulerFiber) s.(m_rootThread) s.(m_stopping).
Definition set_idleCount (n : Z) s : Scheduler W :=
  mkScheduler s.(m_name) s.(m_threads) s.(m_tasks) s.(m_threadIds) s.(m_threadCount) s.(m_activeThreadCount)
    n s.(m_useCaller) s.(m_schedulerFiber) s.(m_rootThread) s.(m_stopping).
Definition set_stopping (b : bool) s : Scheduler W :=
  mkScheduler s.(m_name) s.(m_threads) s.(m_tasks) s.(m_threadIds) s.(m_threadCount) s.(m_activeThreadCount)
    s.(m_idleThreadCount) s.(m_useCaller) s.(m_schedulerFiber) s.(m_rootThread) b.
Definition set_threads (l ids : list Z) s : Scheduler W :=
  mkScheduler s.(m_name) l s.(m_tasks) ids s.(m_threadCount) s.(m_activeThreadCount)
    s.(m_idleThreadCount) s.(m_useCaller) s.(m_schedulerFiber) s.(m_rootThread) s.(m_stopping).
Definition set_schedulerFiber (f : option fiber_ptr) s : Scheduler W :=
  mkScheduler s.(m_name) s.(m_threads) s.(m_tasks) s.(m_threadIds) s.(m_threadCount) s.(m_activeThreadCount)
    s.(m_idleThreadCount) s.(m_useCaller) f s.(m_rootThread) s.(m_stopping).

Definition set_sch s P : process W :=
  mkProcess s P.(heap) P.(next_id) P.(fiber_count) P.(threads) P.(world).
Definition set_world (w : W) P : process W :=
  mkProcess P.(sch) P.(heap) P.(next_id) P.(fiber_count) P.(threads) w.
Definition set_locals (tid : Z) (l : locals) P : process W :=
  mkProcess P.(sch) P.(heap) P.(next_id) P.(fiber_count) (<[tid := l]> P.(threads)) P.(world).

Definition local_of (tid : Z) P : locals := default new_locals (P.(threads) !! tid).

Definition set_scheduler (b : bool) (l : locals) : locals :=
  mkLocals l.(l_fiber) l.(l_thread_fiber) l.(l_scheduler_fiber) l.(l_pool) b l.(l_hook_enable) l.(l_idle_fiber).
Definition set_hook_enable (b : bool) (l : locals) : locals :=
  mkLocals l.(l_fiber) l.(l_thread_fiber) l.(l_scheduler_fiber) l.(l_pool) l.(l_scheduler) b l.(l_idle_fiber).
Definition set_idle_fiber (f : option fiber_ptr) (l : locals) : locals :=
  mkLocals l.(l_fiber) l.(l_thread_fiber) l.(l_scheduler_fiber) l.(l_pool) l.(l_scheduler) l.(l_hook_enable) f.

(** The fibers as thread [tid] sees them, and back. *)
Definition env_of (tid : Z) P : fiber_env W :=
  let l := local_of tid P in
  mkEnv P.(heap) P.(next_id) P.(fiber_count) l.(l_fiber) l.(l_thread_fiber) l.(l_scheduler_fiber).
Definition put_env (tid : Z) (e : fiber_env W) P : process W :=
  let l := local_of tid P in
  mkProcess P.(sch) e.(fibers) e.(s_fiber_id) e.(s_fiber_count)
    (<[tid := mkLocals e.(t_fiber) e.(t_thread_fiber) e.(t_scheduler_fiber) l.(l_pool) l.(l_scheduler)
       l.(l_hook_enable) l.(l_idle_fiber)]> P.(threads)) P.(world).

(** With its pool; a thread without one gets 256 fibers,
    [getLocalFiberPool]. *)
Definition put_pool (tid : Z) (e : pool_env W) P : process W :=
  let P := put_env tid e.(penv) P in
  let l := local_of tid P in
  set_locals tid (mkLocals l.(l_fiber) l.(l_thread_fiber) l.(l_scheduler_fiber) (Some e.(ppool))
    l.(l_scheduler) l.(l_hook_enable) l.(l_idle_fiber)) P.

End process.

Section queue.
Context {W R : Type} {HR : SchedulerBase W R}.

Abbreviation sched_prog A := (prog std_exception R A).

Definition on_base {A} (m : prog std_exception (process W) A) : sched_prog A := zoom base set_base m.
Definition on_fibers {A} (tid : Z) (m : prog std_exception (fiber_env W) A) : sched_prog A :=
  on_base (zoom (env_of tid) (put_env tid) m).
Definition on_sch (f : Scheduler W -> Scheduler W) : sched_prog unit :=
  on_base (modify (λ P, set_sch (f P.(sch)) P)).
Definition on_locals (tid : Z) (f : locals -> locals) : sched_prog unit :=
  on_base (modify (λ P, set_locals tid (f (local_of tid P)) P)).

(** A program on the pool of the thread, made when there is none. *)
Definition pool_size : nat := 256.
Definition on_local_pool {A} (tid : Z) (m : prog std_exception (pool_env W) A) : sched_prog A :=
  on_base (λ P : process W,
    match (local_of tid P).(l_pool) with
    | Some l => zoom (λ P, mkPoolEnv (env_of tid P) l) (put_pool tid) m P
    | None =>
        zoom (λ P, mkPoolEnv (env_of tid P) (mkPool 0 [] [])) (put_pool tid)
          (new_FiberPool pool_size;; m) P
    end).

(** ** [scheduleLock] *)

Definition has_task (t : ScheduleTask W) : bool :=
  bool_decide (is_Some t.(task_fiber)) || bool_decide (is_Some t.(task_cb)).

Definition scheduleLock (tid : Z) (task : ScheduleTask W) : sched_prog unit :=
  P ← gets base;
  let need_tickle := bool_decide (length P.(sch).(m_tasks) = 0) in
  (if has_task task then on_sch (λ s, set_tasks (s.(m_tasks) ++ [task]) s) else mret tt);;
  if need_tickle then tickle tid else mret tt.

Definition schedule_cb (tid : Z) (cb : callback W) (thread : Z) : sched_prog unit :=
  scheduleLock tid (mkTask None (Some cb) thread).
Definition schedule_fiber (tid : Z) (f : fiber_ptr) (thread : Z) : sched_prog unit :=
  scheduleLock tid (mkTask (Some f) None thread).

(** [Scheduler::stopping()], of the base class. *)
Definition base_stopping : sched_prog bool :=
  P ← gets base;
  mret (P.(sch).(m_stopping) && bool_decide (length P.(sch).(m_tasks) = 0)
    && bool_decide (P.(sch).(m_activeThreadCount) = 0)%Z).

End queue.

Section scheduler.
Context {W R : Type} {HR : SchedulerClass W R}.

Abbreviation sched_prog A := (prog std_exception R A).

(** ** Running a fiber *)

(** Control must come back to the [resume] that is waiting. *)
Definition back (c : context W) : sched_prog unit :=
  match c with InResume => mret tt | _ => halt UndefinedBehaviour end.

(** The callback of fiber [p], up to its next [swapcontext]. *)
Fixpoint run_callback (tid : Z) (p : fiber_ptr) (k : callback W) : sched_prog unit :=
  match k with
  | Return => on_fibers tid (MainFunc_end p) ≫= back
  | Effect f k =>
      w ← gets (λ s, world (base s));
      on_base (modify (set_world (f w)));;
      run_callback tid p (k w)
  | ScheduleCb cb thread k => schedule_cb tid cb thread;; run_callback tid p k
  | ScheduleFiber f thread k => schedule_fiber tid f thread;; run_callback tid p k
  | ScheduleThis thread k =>
      f ← on_fibers tid GetThis;
      schedule_fiber tid f thread;;
      run_callback tid p k
  | Yield k => f ← on_fibers tid GetThis; on_fibers tid (yield f (InCallback k)) ≫= back
  | Suspend k => f ← on_fibers tid GetThis; on_fibers tid (suspend f (InCallback k)) ≫= back
  end.

(** [idle], from the top of its loop to its next [swapcontext]. *)
Definition run_idle (tid : Z) (p : fiber_ptr) : sched_prog unit :=
  b ← stopping tid;
  if b : bool then on_fibers tid (MainFunc_end p) ≫= back
  else
    idle_body tid;;
    f ← on_fibers tid GetThis;
    on_fibers tid (yield f InIdle) ≫= back.

(** [p->resume()], until control comes back. Only [stop] resumes the fiber
    of [run]. *)
Definition resume_fiber (tid : Z) (p : fiber_ptr) : sched_prog unit :=
  c ← on_fibers tid (resume p);
  match c with
  | AtMainFunc =>
      '(curr, f) ← on_fibers tid MainFunc_begin;
      match f with
      | UserCb k => run_callback tid curr k
      | IdleFn => run_idle tid curr
      | RunFn => halt UndefinedBehaviour
      end
  | InCallback k => run_callback tid p k
  | InIdle => run_idle tid p
  | InResume | InMainFuncEnd => halt UndefinedBehaviour
  end.

(** ** [run] *)

(** The start of [run], up to its loop. *)
Definition run_begin (tid : Z) : sched_prog unit :=
  on_locals tid (set_hook_enable true);;
  on_locals tid (set_scheduler true);;
  P ← gets base;
  (if bool_decide (tid ≠ P.(sch).(m_rootThread)) then on_fibers tid GetThis;; mret tt else mret tt);;
  idle_fiber ← on_fibers tid (new_Fiber (Some IdleFn) 0 true);
  on_locals tid (set_idle_fiber (Some idle_fiber)).

(** The search of the queue: the tasks before, the first task for this thread
    and the tasks behind it. *)
Fixpoint find_task (tid : Z) (l : list (ScheduleTask W))
  : list (ScheduleTask W) * option (ScheduleTask W * list (ScheduleTask W)) :=
  match l with
  | [] => ([], None)
  | t :: l =>
      if negb (bool_decide (t.(task_thread) = -1)%Z) && negb (bool_decide (t.(task_thread) = tid))
      then let '(before, found) := find_task tid l in (t :: before, found)
      else ([], Some (t, l))
  end.

(** The part of a round under the lock: the task taken, and [tickle_me]. *)
Definition take_task (tid : Z) : sched_prog (option (ScheduleTask W) * bool) :=
  P ← gets base;
  let '(before, found) := find_task tid P.(sch).(m_tasks) in
  match found with
  | Some (t, rest) =>
      assert (has_task t);;
      on_sch (set_tasks (before ++ rest));;
      on_sch (λ s, set_active (s.(m_activeThreadCount) + 1) s);;
      mret (Some t, bool_decide (before ≠ []) || bool_decide (rest ≠ []))
  | None => mret (None, bool_decide (before ≠ []))
  end.

Definition fiber_state (tid : Z) (p : fiber_ptr) : sched_prog State :=
  b ← on_fibers tid (get_fiber p); mret b.(m_state).

(** After the run of a fiber: back to the pool, unless it is suspended. *)
Definition give_back (tid : Z) (p : fiber_ptr) : sched_prog unit :=
  st ← fiber_state tid p;
  (if bool_decide (st = SUSPEND) then mret tt else on_local_pool tid (release p));;
  on_sch (λ s, set_active (s.(m_activeThreadCount) - 1) s).

Definition exec_task (tid : Z) (t : ScheduleTask W) : sched_prog unit :=
  match t.(task_fiber), t.(task_cb) with
  | Some p, _ =>
      st ← fiber_state tid p;
      (if bool_decide (st = TERM) then mret tt else resume_fiber tid p);;
      give_back tid p
  | None, Some cb =>
      cb_fiber ← on_local_pool tid (acquire cb);
      resume_fiber tid cb_fiber;;
      give_back tid cb_fiber
  | None, None => mret tt
  end.

(** No task: the idle fiber, or the end of [run] when it has ended. The
    answer is whether the loop goes on. *)
Definition run_idle_fiber (tid : Z) : sched_prog bool :=
  P ← gets base;
  match (local_of tid P).(l_idle_fiber) with
  | None => halt UndefinedBehaviour
  | Some idle_fiber =>
      st ← fiber_state tid idle_fiber;
      if bool_decide (st = TERM) then mret false
      else
        on_sch (λ s, set_idleCount (s.(m_idleThreadCount) + 1) s);;
        resume_fiber tid idle_fiber;;
        on_sch (λ s, set_idleCount (s.(m_idleThreadCount) - 1) s);;
        mret true
  end.

(** One round of the loop. *)
Definition run_round (tid : Z) : sched_prog bool :=
  '(task, tickle_me) ← take_task tid;
  (if tickle_me : bool then tickle tid else mret tt);;
  match task with
  | Some t => exec_task tid t;; mret true
  | None => run_idle_fiber tid
  end.

(** The loop; the answer is whether it ended within the fuel. *)
Fixpoint run_loop (fuel : nat) (tid : Z) : sched_prog bool :=
  match fuel with
  | 0 => mret false
  | S fuel =>
      go_on ← run_round tid;
      if go_on : bool then run_loop fuel tid else mret true
  end.

Definition run (fuel : nat) (tid : Z) : sched_prog bool :=
  run_begin tid;;
  run_loop fuel tid.

(** ** Construction, [start] and [stop] *)

(** [Scheduler::Scheduler(threads, use_caller, name)] on thread [tid]; the
    members are fresh. *)
Definition new_Scheduler (tid : Z) (threads : nat) (use_caller : bool) (name : string) : sched_prog unit :=
  P ← gets base;
  assert (bool_decide (0 < threads) && negb (local_of tid P).(l_scheduler));;
  on_locals tid (set_scheduler true);;
  on_base (modify (set_sch (mkScheduler name [] [] (if use_caller then [tid] else [])
    (if use_caller then threads - 1 else threads) 0 0 use_caller None
    (if use_caller then tid else -1)%Z false)));;
  if use_caller then
    on_fibers tid GetThis;;
    f ← on_fibers tid (new_Fiber (Some RunFn) 0 false);
    on_sch (set_schedulerFiber (Some f));;
    on_fibers tid (SetSchedulerFiber (Some f))
  else mret tt.

(** [start()], where the system gives the new threads the ids [ids]; each
    of them starts with fresh variables and goes on in [run]. *)
Definition start (ids : list Z) : sched_prog unit :=
  P ← gets base;
  if P.(sch).(m_stopping) then mret tt
  else
    assert (bool_decide (length P.(sch).(m_threads) = 0));;
    on_sch (λ s, set_threads (take s.(m_threadCount) ids)
      (s.(m_threadIds) ++ take s.(m_threadCount) ids) s).

Fixpoint tickle_times (tid : Z) (n : nat) : sched_prog unit :=
  match n with 0 => mret tt | S n => tickle tid;; tickle_times tid n end.

(** [m_schedulerFiber->resume()]: [run] to its end, and back. *)
Definition resume_scheduler (fuel : nat) (tid : Z) (f : fiber_ptr) : sched_prog bool :=
  c ← on_fibers tid (resume f);
  match c with
  | AtMainFunc =>
      '(curr, fn) ← on_fibers tid MainFunc_begin;
      match fn with
      | RunFn =>
          ended ← run fuel tid;
          if ended : bool then on_fibers tid (MainFunc_end curr) ≫= back;; mret true else mret false
      | _ => halt UndefinedBehaviour
      end
  | _ => halt UndefinedBehaviour
  end.

(** The first half of [stop()]: from now on the threads are to end. *)
Definition ask_stop (tid : Z) : sched_prog unit :=
  on_sch (set_stopping true);;
  P ← gets base;
  assert (bool_decide (P.(sch).(m_useCaller) = (local_of tid P).(l_scheduler)));;
  tickle_times tid P.(sch).(m_threadCount);;
  match P.(sch).(m_schedulerFiber) with None => mret tt | Some _ => tickle tid end.

(** [stop()], up to the joins: the answer is whether [run] ended within the
    fuel. *)
Definition stop (fuel : nat) (tid : Z) : sched_prog bool :=
  b ← stopping tid;
  if b : bool then mret true
  else
    ask_stop tid;;
    P ← gets base;
    ended ← match P.(sch).(m_schedulerFiber) with
            | None => mret true
            | Some f => resume_scheduler fuel tid f
            end;
    if ended : bool then on_sch (λ s, set_threads [] s.(m_threadIds) s);; mret true else mret false.

(** [Scheduler::~Scheduler()]. *)
Definition delete_Scheduler (tid : Z) : sched_prog unit :=
  b ← stopping tid;
  assert b;;
  P ← gets base;
  if (local_of tid P).(l_scheduler) then on_locals tid (set_scheduler false) else mret tt.

End scheduler.

(** ** The class [Scheduler] itself

    [tickle] does nothing. [idle] calls [sleep(1)]: with the hooks on, which
    [run] turns on, that is the hooked [sleep], which asks for the [IOManager]
    of the thread; there is none, and the call goes through a null pointer. *)
#[export] Instance process_base W : SchedulerBase W (process W) := {|
  base P := P;
  set_base P _ := P;
  tickle _ := mret tt
|}.
#[export] Instance scheduler_class W : SchedulerClass W (process W) := {|
  stopping _ := base_stopping;
  idle_body tid := (λ P,
    if (local_of tid P).(l_hook_enable) then (Halt UndefinedBehaviour, P) else (Ret tt, P))
|}.
