(* ===== verification/SchedulerFacts.v ===== *)
(** * Facts on the scheduler

    [stop] drains the queue: [run], with its fibers and pools, executes the
    tasks as a plain first-in first-out interpreter would, and ends. A task
    that yields or suspends is lost, or takes the process down. *)

From S2P Require Export Scheduler FiberFacts.

(** The laws of a class derived from [Scheduler]: its base part is a part, and
    in a [quiet] state [tickle] and [stopping] return, do not touch the base
    part, and [stopping] answers what [Scheduler::stopping] does. *)
Class SchedulerLaws (W R : Type) {HR : SchedulerClass W R} := {
  quiet : R -> Prop;
  base_set_base (P : process W) (r : R) : base (set_base P r) = P;
  quiet_set_base (P : process W) (r : R) : quiet r -> quiet (set_base P r);
  tickle_law tid (r : R) : quiet r -> returns (tickle (W := W) tid) r
    (λ _ (r' : R), base (W := W) r' = base r ∧ quiet r');
  stopping_law tid (r : R) : quiet r -> returns (stopping (W := W) tid) r
    (λ b (r' : R), b = (m_stopping (sch (base (W := W) r)) && bool_decide (length (m_tasks (sch (base (W := W) r))) = 0)
                   && bool_decide (m_activeThreadCount (sch (base (W := W) r)) = 0)%Z) ∧
      base (W := W) r' = base r ∧ quiet r')
}.

Lemma returns_ext {E S A} (m m' : prog E S A) s Q : m s = m' s -> returns m' s Q -> returns m s Q.
Proof. unfold returns. by intros ->. Qed.

Section process.
Context {W : Type}.
Implicit Types (P : process W) (tid : Z) (e : fiber_env W).

Lemma local_of_set tid l P : local_of tid (set_locals tid l P) = l.
Proof. unfold local_of, set_locals. cbn. by rewrite lookup_insert_eq. Qed.

Lemma local_of_sch tid (S : Scheduler W) P : local_of tid (set_sch S P) = local_of tid P.
Proof. done. Qed.

Lemma local_of_put_env tid e P :
  local_of tid (put_env tid e P) =
    mkLocals e.(t_fiber) e.(t_thread_fiber) e.(t_scheduler_fiber) (local_of tid P).(l_pool)
      (local_of tid P).(l_scheduler) (local_of tid P).(l_hook_enable) (local_of tid P).(l_idle_fiber).
Proof. unfold local_of at 1, put_env. cbn. by rewrite lookup_insert_eq. Qed.

Lemma env_of_put_env tid e P : env_of tid (put_env tid e P) = e.
Proof. unfold env_of. rewrite local_of_put_env. by destruct e. Qed.

Lemma put_env_put_env tid e e' P : put_env tid e' (put_env tid e P) = put_env tid e' P.
Proof.
  unfold put_env at 1. rewrite local_of_put_env. unfold put_env. cbn. by rewrite insert_insert_eq.
Qed.

Lemma local_of_put_pool tid s P :
  local_of tid (put_pool tid s P) =
    mkLocals s.(penv).(t_fiber) s.(penv).(t_thread_fiber) s.(penv).(t_scheduler_fiber) (Some s.(ppool))
      (local_of tid P).(l_scheduler) (local_of tid P).(l_hook_enable) (local_of tid P).(l_idle_fiber).
Proof. unfold put_pool. by rewrite local_of_set, local_of_put_env. Qed.

Lemma env_of_put_pool tid s P : env_of tid (put_pool tid s P) = s.(penv).
Proof. unfold env_of. rewrite local_of_put_pool. by destruct s as [[]]. Qed.

End process.

#[export] Hint Rewrite @local_of_set @local_of_sch @local_of_put_env @env_of_put_env @local_of_put_pool @env_of_put_pool : locals.

Section rules.
Context {W R : Type} {HR : SchedulerClass W R} {HL : SchedulerLaws W R}.
Implicit Types (P : process W) (tid : Z) (r : R) (k cb : callback W) (t : ScheduleTask W).

(** A program of the scheduler that returns from a quiet state to a quiet one,
    with what holds of its answer and of the base part it leaves. *)
Definition runs {A} (m : prog std_exception R A) r (Q : A -> process W -> Prop) : Prop :=
  quiet r -> returns m r (λ a r', Q a (base r') ∧ quiet r').

Lemma runs_mono {A} (m : prog std_exception R A) r (Q Q' : A -> process W -> Prop) :
  runs m r Q -> (∀ a P, Q a P -> Q' a P) -> runs m r Q'.
Proof. intros Hm HQ Hq. eapply returns_mono; [by apply Hm|]. intros a r' []; auto. Qed.

Lemma runs_ret {A} (a : A) r Q : Q a (base r) -> runs (mret a) r Q.
Proof. intros ? ?. by apply returns_ret. Qed.

Lemma runs_bind {A B} (m : prog std_exception R A) (f : A -> prog std_exception R B) r Q :
  runs m r (λ a P, ∀ r', base r' = P -> runs (f a) r' Q) -> runs (m ≫= f) r Q.
Proof.
  intros Hm Hq. apply returns_bind. eapply returns_mono; [by apply Hm|].
  intros a r' [Hf Hq']. by apply (Hf r').
Qed.

Lemma runs_gets {A} (f : R -> A) r Q : Q (f r) (base r) -> runs (gets f) r Q.
Proof. intros ? ?. by apply returns_gets. Qed.

Lemma runs_assert b r Q : b = true -> Q tt (base r) -> runs (assert b) r Q.
Proof. intros ? ? ?. by apply returns_assert. Qed.

Lemma runs_base {A} (m : prog std_exception (process W) A) r Q :
  returns m (base r) Q -> runs (on_base m) r Q.
Proof.
  intros Hm Hq. apply returns_zoom. eapply returns_mono; [done|].
  intros a P HQ. rewrite base_set_base. eauto using quiet_set_base.
Qed.

Lemma runs_fibers {A} tid (m : prog std_exception (fiber_env W) A) r a e Q :
  m (env_of tid (base r)) = (Ret a, e) -> Q a (put_env tid e (base r)) -> runs (on_fibers tid m) r Q.
Proof. intros Hm HQ. apply runs_base, returns_zoom. by eapply returns_run. Qed.

Lemma runs_sch f r Q : Q tt (set_sch (f (sch (base r))) (base r)) -> runs (on_sch f) r Q.
Proof. intros HQ. by apply runs_base, returns_modify. Qed.

Lemma runs_locals tid f r Q :
  Q tt (set_locals tid (f (local_of tid (base r))) (base r)) -> runs (on_locals tid f) r Q.
Proof. intros HQ. by apply runs_base, returns_modify. Qed.

Lemma runs_tickle tid r Q : Q tt (base r) -> runs (tickle tid) r Q.
Proof.
  intros HQ Hq. eapply returns_mono; [by apply tickle_law|]. by intros [] r' [-> ?].
Qed.

Lemma runs_stopping tid r Q :
  Q (m_stopping (sch (base r)) && bool_decide (length (m_tasks (sch (base r))) = 0)
     && bool_decide (m_activeThreadCount (sch (base r)) = 0)%Z) (base r) ->
  runs (stopping tid) r Q.
Proof.
  intros HQ Hq. eapply returns_mono; [by apply stopping_law|]. by intros ? r' (-> & -> & ?).
Qed.

Lemma runs_scheduleLock tid t r Q :
  has_task t = true ->
  Q tt (set_sch (set_tasks (m_tasks (sch (base r)) ++ [t]) (sch (base r))) (base r)) ->
  runs (scheduleLock tid t) r Q.
Proof.
  intros Ht HQ. unfold scheduleLock. apply runs_bind, runs_gets. intros r1 Hr1. rewrite Ht.
  apply runs_bind, runs_sch. intros r2 Hr2. rewrite Hr1 in Hr2. rewrite <-Hr2 in HQ.
  case_bool_decide; [by apply runs_tickle|by apply runs_ret].
Qed.

(** ** Callbacks that run to their end *)

(** A callback that neither yields nor suspends, and schedules only such
    callbacks, for threads that satisfy [ok]. *)
Fixpoint straight (ok : Z -> Prop) k : Prop :=
  match k with
  | Return => True
  | Effect f k => ∀ w, straight ok (k w)
  | ScheduleCb cb thread k => ok thread ∧ straight ok cb ∧ straight ok k
  | _ => False
  end.

(** What it does: the data it leaves, and the tasks it schedules. *)
Fixpoint effect_of k (w : W) : W * list (ScheduleTask W) :=
  match k with
  | Effect f k => effect_of (k w) (f w)
  | ScheduleCb cb thread k => let '(w, l) := effect_of k w in (w, mkTask None (Some cb) thread :: l)
  | _ => (w, [])
  end.

(** A task that runs such a callback. *)
Definition straight_for (ok : Z -> Prop) t : Prop :=
  t.(task_fiber) = None ∧ ok t.(task_thread) ∧ ∃ cb, t.(task_cb) = Some cb ∧ straight ok cb.

Lemma effect_of_straight ok cb w : straight ok cb -> Forall (straight_for ok) (effect_of cb w).2.
Proof.
  revert w. induction cb as [|f k IH|cb IHcb thread k IH| | | |]; intros w Hk; cbn; try constructor.
  - apply IH, Hk.
  - destruct Hk as (Hth & Hcb & Hk). specialize (IH w Hk). destruct (effect_of k w). cbn in *.
    constructor; [|done]. split_and!; eauto.
Qed.

(** The same on a process. *)
Definition affected k P : process W :=
  set_world (effect_of k P.(world)).1
    (set_sch (set_tasks (P.(sch).(m_tasks) ++ (effect_of k P.(world)).2) P.(sch)) P).

Lemma local_of_affected tid k P : local_of tid (affected k P) = local_of tid P.
Proof. done. Qed.

Lemma run_callback_straight ok tid p k r e :
  straight ok k -> MainFunc_end p (env_of tid (base r)) = (Ret InResume, e) ->
  runs (run_callback tid p k) r (λ _ P, P = put_env tid e (affected k (base r))).
Proof.
  revert r. induction k as [|f k IH|cb IHcb thread k IH| | | |]; intros r Hk Hend; cbn [run_callback]; try done.
  - eapply runs_bind, runs_fibers; [done|]. intros r' Hr'. apply runs_ret. rewrite Hr'.
    unfold affected, put_env. cbn. rewrite app_nil_r. destruct (base r) as [[] ? ? ? ? ?]. reflexivity.
  - apply runs_bind, runs_gets. intros r1 Hr1. apply runs_bind, runs_base, returns_modify. intros r2 Hr2.
    eapply runs_mono; [apply IH|].
    + apply Hk.
    + rewrite Hr2, Hr1. exact Hend.
    + intros [] P ->. rewrite Hr2, Hr1. by destruct (base r) as [[] ? ? ? ? ?].
  - destruct Hk as (Hth & Hcb & Hk). apply runs_bind, runs_scheduleLock; [done|]. intros r1 Hr1.
    eapply runs_mono; [apply IH|].
    + done.
    + rewrite Hr1. exact Hend.
    + intros [] P ->. rewrite Hr1. unfold affected. cbn. destruct (effect_of k _) as [w l].
      cbn. by rewrite <-app_assoc.
Qed.

End rules.

#[export] Hint Rewrite @local_of_affected : locals.

(** ** The loop of [run] once [stop] has been asked for *)

Section drain.
Context {W R : Type} {HR : SchedulerClass W R} {HL : SchedulerLaws W R}.
Context (tid : Z) (sf idle mf : fiber_ptr) (bs bm : Fiber W) (stopped : bool).
Implicit Types (P : process W) (r : R) (cb : callback W) (t : ScheduleTask W) (h : list (Fiber W)).

(** A fiber that is neither the fiber of [run], nor the idle fiber, nor the
    main fiber of the thread. *)
Definition other (p : fiber_ptr) : Prop := p ≠ sf ∧ p ≠ idle ∧ p ≠ mf.

(** The fibers of the thread while [run] runs: that of [run] itself, whose
    context [resume] overwrites, the idle fiber, not started, and the main
    fiber of the thread. *)
Record own_fibers h : Prop := {
  own_sf : ∃ c, h !! sf = Some (with_ctx c bs);
  own_idle : ∃ b, h !! idle = Some b ∧ ready_fiber (Some IdleFn) b;
  own_main : h !! mf = Some bm
}.

Definition pool_apart h (l : FiberPool) : Prop :=
  pool_ok h l ∧ l.(m_idleFibers) ≠ [] ∧ ∀ p, p ∈ l.(m_allFibers) -> other p.

(** [n] is the count of active threads. *)
Record running (n : Z) P : Prop := {
  run_sf : (local_of tid P).(l_scheduler_fiber) = Some sf;
  run_mf : (local_of tid P).(l_thread_fiber) = Some mf;
  run_idle_f : (local_of tid P).(l_idle_fiber) = Some idle;
  run_own : own_fibers P.(heap);
  run_pool l : (local_of tid P).(l_pool) = Some l -> pool_apart P.(heap) l;
  run_active : P.(sch).(m_activeThreadCount) = n;
  run_stopping : P.(sch).(m_stopping) = stopped
}.

Hypothesis Hdistinct : sf ≠ idle ∧ sf ≠ mf ∧ idle ≠ mf.

Lemma own_insert h p b : own_fibers h -> other p -> own_fibers (<[p := b]> h).
Proof.
  intros [[c Hsf] (bi & Hi & Hready) Hm] (? & ? & ?).
  split; rewrite ?list_lookup_insert_ne; eauto.
Qed.

Lemma own_extend h new : own_fibers h -> own_fibers (h ++ new).
Proof.
  intros [[c Hsf] (bi & Hi & Hready) Hm].
  split; [exists c|exists bi; split; [|done]|]; by apply lookup_app_l_Some.
Qed.

Lemma own_alloc h p : own_fibers h -> length h ≤ p -> other p.
Proof.
  intros [[c Hsf%lookup_lt_Some] (bi & Hi%lookup_lt_Some & _) Hm%lookup_lt_Some] ?. unfold other. lia.
Qed.

(** The fibers another program leaves alone. *)
Lemma own_same h h' : own_fibers h -> (∀ p, ¬ other p -> h' !! p = h !! p) -> own_fibers h'.
Proof.
  intros [Hsf Hi Hm] Hh. destruct Hdistinct as (? & ? & ?).
  split; (rewrite Hh; [done|unfold other; naive_solver]).
Qed.

Lemma pool_size_seq n all k : (mkPool n (seq k pool_size) all).(m_idleFibers) ≠ [].
Proof. done. Qed.

(** [acquire] on the pool of the thread, made if need be. *)
Lemma runs_acquire n cb r :
  running n (base r) ->
  runs (on_local_pool tid (acquire cb)) r (λ p P, ∃ s,
    P = put_pool tid s (base r) ∧ pool_ok s.(penv).(fibers) s.(ppool) ∧
    (∀ p, p ∈ s.(ppool).(m_allFibers) -> other p) ∧ own_fibers s.(penv).(fibers) ∧
    s.(penv).(t_scheduler_fiber) = Some sf ∧ s.(penv).(t_thread_fiber) = Some mf ∧
    p ∈ s.(ppool).(m_allFibers) ∧ p ∉ s.(ppool).(m_idleFibers) ∧
    ∃ b, s.(penv).(fibers) !! p = Some b ∧ ready_fiber (Some (UserCb cb)) b).
Proof.
  intros [Hsf Hmf Hidle Hown Hpool Hact Hstop].
  assert (∀ s0, s0.(penv).(t_scheduler_fiber) = Some sf -> s0.(penv).(t_thread_fiber) = Some mf ->
    own_fibers s0.(penv).(fibers) -> pool_apart s0.(penv).(fibers) s0.(ppool) ->
    returns (acquire cb) s0 (λ p s, pool_ok s.(penv).(fibers) s.(ppool) ∧
      (∀ p, p ∈ s.(ppool).(m_allFibers) -> other p) ∧ own_fibers s.(penv).(fibers) ∧
      s.(penv).(t_scheduler_fiber) = Some sf ∧ s.(penv).(t_thread_fiber) = Some mf ∧
      p ∈ s.(ppool).(m_allFibers) ∧ p ∉ s.(ppool).(m_idleFibers) ∧
      ∃ b, s.(penv).(fibers) !! p = Some b ∧ ready_fiber (Some (UserCb cb)) b)) as Hacq.
  { intros s0 Hts Htt Hown0 (Hok & Hne & Hother).
    destruct (m_idleFibers (ppool s0)) as [|p l] eqn:Heq; [done|].
    eapply returns_mono; [by eapply acquire_head_spec|].
    intros p' s (-> & Hpool' & Hok' & Hall & Hni & Hb & Hsame & _ & Htt' & Hts').
    assert (other p) as Hp by (apply Hother; by rewrite Hpool' in Hall).
    split_and!; try done; try congruence.
    - rewrite Hpool'. apply Hother.
    - eapply own_same; [done|]. intros q Hq. apply Hsame; [by intros ->|].
      destruct (decide (q < length (fibers (penv s0)))); [done|].
      destruct Hq. apply (own_alloc (fibers (penv s0))); [done|lia]. }
  apply runs_base. destruct (l_pool (local_of tid (base r))) as [l|] eqn:Hl.
  - eapply returns_ext; [by rewrite Hl|]. apply returns_zoom. eapply returns_mono; [apply Hacq; try done; by apply Hpool|].
    intros p s Hs. by exists s.
  - eapply returns_ext; [by rewrite Hl|]. apply returns_zoom, returns_bind.
    eapply returns_mono; [apply new_FiberPool_ok|].
    intros [] s0 (Hok0 & (new & Hnew & _) & Hpl & Ht & Htt & Hts).
    eapply returns_mono; [apply Hacq; [by rewrite Hts|by rewrite Htt| |]|].
    + rewrite Hnew. by apply own_extend.
    + split_and!; [done|rewrite Hpl; by apply pool_size_seq|]. rewrite Hpl. cbn [m_allFibers]. intros p [Hp _]%elem_of_seq.
      by eapply own_alloc.
    + intros p s Hs. by exists s.
Qed.

(** A fiber of the pool, running, and its end. *)
Lemma cycle e p b :
  own_fibers e.(fibers) -> p ≠ sf -> e.(t_scheduler_fiber) = Some sf ->
  e.(fibers) !! p = Some b -> pool_fiber b -> b.(m_state) = READY ->
  ∃ e1 e2, resume p e = (Ret b.(m_ctx), e1) ∧ e1.(t_fiber) = Some p ∧
    e1.(fibers) !! p = Some (with_state RUNNING b) ∧
    MainFunc_end p e1 = (Ret InResume, e2) ∧
    e2.(fibers) = <[p := with_ctx InMainFuncEnd (with_state TERM (with_cb None (with_state RUNNING b)))]>
      (<[sf := with_ctx InResume bs]> e.(fibers)) ∧
    e2.(t_thread_fiber) = e.(t_thread_fiber) ∧ e2.(t_scheduler_fiber) = Some sf.
Proof.
  intros [[c Hsf] _ _] Hne Hts Hb [_ Hrun] Hst.
  assert (∀ (b' : Fiber W) (e' : fiber_env W), m_runInScheduler b' = m_runInScheduler b -> t_scheduler_fiber e' = Some sf ->
    home_of b' e' = Some sf) as Hhome by (intros b' e' Hb'; unfold home_of; by rewrite Hb', Hrun).
  assert (p < length e.(fibers)) by by eapply lookup_lt_Some.
  assert (sf < length e.(fibers)) by by eapply lookup_lt_Some.
  assert ((<[sf:=with_ctx InResume (with_ctx c bs)]> (<[p:=with_state RUNNING b]> e.(fibers))) !! p
    = Some (with_state RUNNING b)) as Hp.
  { by rewrite list_lookup_insert_ne, list_lookup_insert_eq by done. }
  eexists _, _. split; [by apply (resume_run p sf e b (with_ctx c bs)); auto|].
  split; [done|]. split; [done|]. split.
  - apply (MainFunc_end_run p sf _ (with_state RUNNING b) (with_ctx InResume bs)); try done; [|by apply Hhome].
    cbn. by rewrite list_lookup_insert_eq by by rewrite length_insert.
  - split; [|done]. cbn. rewrite (list_insert_insert_ne _ sf p) by congruence. by rewrite list_insert_insert_eq.
Qed.

(** The thread holds fiber [p] of its pool [l], which satisfies [Q]. *)
Record holding (n : Z) (l : FiberPool) (p : fiber_ptr) (Q : Fiber W -> Prop) P : Prop := {
  hold_sf : (local_of tid P).(l_scheduler_fiber) = Some sf;
  hold_mf : (local_of tid P).(l_thread_fiber) = Some mf;
  hold_idle_f : (local_of tid P).(l_idle_fiber) = Some idle;
  hold_own : own_fibers P.(heap);
  hold_pool : (local_of tid P).(l_pool) = Some l;
  hold_pool_ok : pool_ok P.(heap) l;
  hold_other q : q ∈ l.(m_allFibers) -> other q;
  hold_in : p ∈ l.(m_allFibers);
  hold_out : p ∉ l.(m_idleFibers);
  hold_fiber : ∃ b, P.(heap) !! p = Some b ∧ Q b;
  hold_active : P.(sch).(m_activeThreadCount) = n;
  hold_stopping : P.(sch).(m_stopping) = stopped
}.

Lemma holding_mono n l p (Q Q' : Fiber W -> Prop) P :
  holding n l p Q P -> (∀ b, Q b -> Q' b) -> holding n l p Q' P.
Proof. intros [? ? ? ? ? ? ? ? ? (b & ? & ?) ? ?] HQ. split; eauto. Qed.

Lemma runs_hold n cb r :
  running n (base r) ->
  runs (on_local_pool tid (acquire cb)) r (λ p P, ∃ l, holding n l p (ready_fiber (Some (UserCb cb))) P ∧
    P.(sch) = (base r).(sch) ∧ P.(world) = (base r).(world)).
Proof.
  intros Hr. eapply runs_mono; [by eapply runs_acquire|].
  intros p P (s & -> & Hok & Hall & Hown & Hts & Htt & Hp & Hni & Hb). destruct Hr.
  exists s.(ppool). split; [|done]. split; rewrite ?local_of_put_pool; done.
Qed.

(** The task runs to its end. *)
Lemma runs_resume_task ok n l p cb r :
  holding n l p (ready_fiber (Some (UserCb cb))) (base r) -> straight ok cb ->
  runs (resume_fiber tid p) r (λ _ P, holding n l p (λ b, b.(m_state) = TERM) P ∧
    P.(sch).(m_tasks) = (base r).(sch).(m_tasks) ++ (effect_of cb (base r).(world)).2 ∧
    P.(world) = (effect_of cb (base r).(world)).1).
Proof.
  intros [Hsf Hmf Hidle Hown Hpool Hok Hall Hp Hni (b & Hb & Hready) Hact Hstop] Hcb.
  destruct (cycle (env_of tid (base r)) p b) as (e1 & e2 & Hres & Ht1 & Hb1 & Hend & Hh2 & Htt2 & Hts2);
    [done|by apply Hall|done|done|by eapply ready_pool_fiber|apply Hready|].
  destruct Hready as (Hstk & Hrun & Hst & Hctx & Hcb').
  assert (p < length (fibers (env_of tid (base r)))) as Hlt by by eapply lookup_lt_Some.
  unfold resume_fiber. eapply runs_bind, runs_fibers; [done|].
  intros r2 Hr2. rewrite Hctx. eapply runs_bind, runs_fibers.
  { rewrite Hr2, env_of_put_env. erewrite MainFunc_begin_run by done. cbn [m_cb with_state]. by rewrite Hcb'. }
  intros r3 Hr3. cbn [snd fst]. eapply runs_mono; [eapply run_callback_straight; [done|]|].
  { by rewrite Hr3, env_of_put_env. }
  intros [] P ->. rewrite Hr3, Hr2. split; [|done].
  assert (own_fibers (fibers e2)) as Hown2.
  { rewrite Hh2. apply own_insert; [|by apply Hall]. destruct Hown as [[c Hc] (bi & Hi & ?) Hm], Hdistinct as (? & ? & ?).
    split; [exists InResume; apply list_lookup_insert_eq; by eapply lookup_lt_Some|..];
      rewrite list_lookup_insert_ne by done; eauto. }
  split; autorewrite with locals; try done; try congruence.
  - cbn. by rewrite Htt2.
  - cbn. rewrite Hh2. eapply pool_ok_insert; [|by rewrite list_lookup_insert_ne by (intros <-; by destruct (Hall _ Hp))|done|done].
    apply (pool_ok_heap (heap (base r))); [done| |].
    + intros q Hq. apply list_lookup_insert_ne. intros <-. by destruct (Hall _ (idle_in_all _ _ Hok _ Hq)).
    + intros q bq Hq Hbq. destruct (all_pool_fibers _ _ Hok q Hq) as (b' & Hb' & ?).
      exists b'. rewrite list_lookup_insert_ne; [done|]. intros <-. by destruct (Hall _ Hq).
  - cbn. rewrite Hh2. eexists. split; [apply list_lookup_insert_eq; by rewrite length_insert|done].
Qed.

(** The fiber goes back to the pool. *)
Lemma runs_give_back n l p r :
  holding n l p (λ b, b.(m_state) = TERM ∨ b.(m_state) = READY) (base r) ->
  runs (give_back tid p) r (λ _ P, running (n - 1) P ∧
    P.(sch) = set_active (n - 1) (base r).(sch) ∧ P.(world) = (base r).(world) ∧
    other p ∧ ∃ b, P.(heap) !! p = Some b ∧ ready_fiber None b).
Proof.
  intros [Hsf Hmf Hidle Hown Hpool Hok Hall Hp Hni (b & Hb & Hst) Hact Hstop].
  cbv beta in Hst. unfold give_back, fiber_state. eapply runs_bind, runs_bind, runs_fibers; [by apply get_fiber_run|].
  intros r1 Hr1. apply runs_ret. intros r2 Hr2. rewrite (bool_decide_false (m_state b = SUSPEND)) by (destruct Hst; congruence).
  rewrite Hr1 in Hr2. set (P2 := put_env tid _ _) in Hr2.
  assert (local_of tid P2 = local_of tid (base r)) as Hloc.
  { unfold P2. rewrite local_of_put_env. unfold env_of. cbn. by destruct (local_of tid (base r)). }
  destruct (all_pool_fibers _ _ Hok p Hp) as (b0 & Hb0 & Hpf). rewrite Hb in Hb0. injection Hb0 as <-.
  destruct (release_run (mkPoolEnv (env_of tid P2) l) p b Hb Hpf Hst) as (b' & Hb' & Hrel).
  eapply runs_bind, runs_base, returns_ext; [by rewrite Hr2, Hloc, Hpool|].
  apply returns_zoom. rewrite Hr2. eapply returns_run; [exact Hrel|].
  intros r3 Hr3. apply runs_sch. rewrite Hr3. assert (p < length (heap (base r))) by by eapply lookup_lt_Some.
  split; [|split_and!; [cbn; by rewrite Hact|done|by apply Hall|]].
  2:{ exists b'. split; [|done]. by apply list_lookup_insert_eq. }
  assert (pool_ok (<[p:=b']> (heap (base r))) (push_idle p l)) as Hok' by by apply pool_ok_release.
  split; autorewrite with locals; cbn; try done; try (unfold env_of; cbn; rewrite Hloc; done).
  - by apply own_insert; [|apply Hall].
  - intros l' [= <-]. split_and!; [done| |done]. cbn. by destruct (m_idleFibers l).
  - by rewrite Hact.
Qed.

(** The whole of [exec_task] for a callback that runs to its end. *)
Lemma runs_exec_task ok n cb thread r :
  running n (base r) -> straight ok cb ->
  runs (exec_task tid (mkTask None (Some cb) thread)) r (λ _ P, running (n - 1) P ∧
    P.(sch).(m_tasks) = (base r).(sch).(m_tasks) ++ (effect_of cb (base r).(world)).2 ∧
    P.(world) = (effect_of cb (base r).(world)).1).
Proof.
  intros Hr Hcb. unfold exec_task. cbn [task_fiber task_cb].
  eapply runs_bind, runs_mono; [by apply runs_hold|]. intros p P (l & Hh & Hs & Hw) r1 <-.
  eapply runs_bind, runs_mono; [by eapply runs_resume_task|]. intros [] P (Hh' & Ht & Hw') r2 <-.
  eapply runs_mono; [eapply runs_give_back, holding_mono; [exact Hh'|by left]|].
  intros [] P (? & -> & -> & _). cbn. split; [done|]. rewrite Ht, Hw', Hw. by rewrite Hs.
Qed.

(** ** Rounds *)

Definition for_this (thread : Z) : Prop := thread = (-1)%Z ∨ thread = tid.

(** A task that [run] takes here and runs to its end. *)
Definition straight_task t : Prop := straight_for for_this t.

Lemma find_task_head t l : straight_task t -> find_task tid (t :: l) = ([], Some (t, l)).
Proof.
  intros (_ & [Ht|Ht] & _); cbn; rewrite Ht.
  - by rewrite bool_decide_true.
  - rewrite (bool_decide_true (tid = tid)) by done. by rewrite andb_false_r.
Qed.

Lemma runs_maybe_tickle (b : bool) r Q :
  Q tt (base r) -> runs (if b then tickle tid else mret tt) r Q.
Proof. intros ?. destruct b; [by apply runs_tickle|by apply runs_ret]. Qed.

Lemma runs_exec_round t cb r :
  running 1 (base r) -> straight_task t -> t.(task_cb) = Some cb ->
  runs (exec_task tid t;; mret true) r (λ b P, b = true ∧ running 0 P ∧
    P.(sch).(m_tasks) = (base r).(sch).(m_tasks) ++ (effect_of cb (base r).(world)).2 ∧
    P.(world) = (effect_of cb (base r).(world)).1).
Proof.
  destruct t as [f cb' thread]. intros Hr (Hf & Hth & cb0 & Hcb0 & Hst) Hcb. cbn in *. subst f cb'.
  injection Hcb as <-. eapply runs_bind, runs_mono; [by eapply runs_exec_task|].
  intros [] P (Hrun & Htasks & Hw) r6 <-. by apply runs_ret.
Qed.

(** A round that takes the task at the head of the queue. *)
Lemma runs_round t q cb r :
  running 0 (base r) -> (base r).(sch).(m_tasks) = t :: q -> straight_task t -> t.(task_cb) = Some cb ->
  runs (run_round tid) r (λ b P, b = true ∧ running 0 P ∧
    P.(sch).(m_tasks) = q ++ (effect_of cb (base r).(world)).2 ∧
    P.(world) = (effect_of cb (base r).(world)).1).
Proof.
  intros Hr Hq Ht Hcb. unfold run_round, take_task.
  eapply runs_bind, runs_bind, runs_gets. intros r1 Hr1. rewrite Hq, find_task_head by done.
  cbv beta iota. assert (has_task t = true) as Hhas.
  { unfold has_task. rewrite Hcb. by rewrite orb_true_r. }
  apply runs_bind, runs_assert; [done|]. intros r2 Hr2.
  apply runs_bind, runs_sch. intros r3 Hr3. apply runs_bind, runs_sch. intros r4 Hr4.
  apply runs_ret. intros r5 Hr5. rewrite Hr4, Hr3, Hr2, Hr1 in Hr5. cbn in Hr5.
  apply runs_bind, runs_maybe_tickle. intros r6 Hr6. rewrite Hr5 in Hr6.
  eapply runs_mono; [eapply runs_exec_round; [|done|done]|].
  - rewrite Hr6. destruct Hr as [? ? ? ? ? Hact ?]. split; try done. cbn. by rewrite Hact.
  - intros b P. by rewrite Hr6.
Qed.

(** The thread at the end of [run]: the idle fiber has ended. *)
Record drained P : Prop := {
  end_mf : (local_of tid P).(l_thread_fiber) = Some mf;
  end_sf : ∃ c, P.(heap) !! sf = Some (with_ctx c bs);
  end_main : P.(heap) !! mf = Some bm;
  end_idle_f : (local_of tid P).(l_idle_fiber) = Some idle;
  end_idle : ∃ b, P.(heap) !! idle = Some b ∧ b.(m_state) = TERM;
  end_tasks : P.(sch).(m_tasks) = [];
  end_active : P.(sch).(m_activeThreadCount) = 0%Z;
  end_stopping : P.(sch).(m_stopping) = true
}.

(** The round that finds the queue empty runs the idle fiber, which ends. *)
Lemma runs_idle_round r :
  stopped = true -> running 0 (base r) -> (base r).(sch).(m_tasks) = [] ->
  runs (run_round tid) r (λ b P, b = true ∧ drained P ∧ P.(world) = (base r).(world)).
Proof.
  intros Hst0 [Hsf Hmf Hidle Hown Hpool Hact Hstop] Hq. rewrite Hst0 in Hstop. destruct Hdistinct as (Hd1 & Hd2 & Hd3).
  pose proof Hown as [(c & Hc) (b & Hb & Hready) Hm].
  unfold run_round, take_task.
  eapply runs_bind, runs_bind, runs_gets. intros r1 Hr1. rewrite Hq. cbn [find_task].
  apply runs_ret. intros r2 Hr2. apply runs_bind, runs_maybe_tickle. intros r3 Hr3.
  rewrite Hr2, Hr1 in Hr3. unfold run_idle_fiber. apply runs_bind, runs_gets. intros r4 Hr4.
  rewrite Hr3, Hidle. eapply runs_bind. unfold fiber_state. eapply runs_bind, runs_fibers.
  { rewrite Hr4, Hr3. by apply get_fiber_run. }
  intros r5 Hr5. apply runs_ret. intros r6 Hr6. destruct Hready as (Hstk & Hrun & Hst & Hctx & Hcb).
  rewrite (bool_decide_false (m_state b = TERM)) by congruence.
  rewrite Hr5, Hr4, Hr3 in Hr6.
  apply runs_bind, runs_sch. intros r7 Hr7. rewrite Hr6 in Hr7.
  destruct (cycle (env_of tid (base r7)) idle b) as (e1 & e2 & Hres & Ht1 & Hb1 & Hend & Hh2 & Htt2 & Hts2);
    [by rewrite Hr7|done|rewrite Hr7; unfold env_of at 1; cbn [t_scheduler_fiber]; autorewrite with locals; done|by rewrite Hr7|done|done|].
  assert (idle < length (fibers (env_of tid (base r7)))) as Hlt by (rewrite Hr7; by eapply lookup_lt_Some).
  eapply runs_bind. unfold resume_fiber. eapply runs_bind, runs_fibers; [done|].
  intros r8 Hr8. rewrite Hctx. eapply runs_bind, runs_fibers.
  { rewrite Hr8, env_of_put_env. erewrite MainFunc_begin_run by done. cbn [m_cb with_state]. by rewrite Hcb. }
  intros r9 Hr9. unfold run_idle. apply runs_bind, runs_stopping. intros r10 Hr10.
  rewrite Hr9, Hr8, Hr7. cbn. rewrite Hstop, Hq, bool_decide_true, bool_decide_true by done. cbn [andb].
  eapply runs_bind, runs_fibers; [by rewrite Hr10, Hr9, env_of_put_env|].
  intros r11 Hr11. apply runs_ret. intros r12 Hr12. apply runs_bind, runs_sch. intros r13 Hr13. apply runs_ret.
  rewrite Hr13, Hr12, Hr11, Hr10, Hr9, Hr8, Hr7. split_and!; try done.
  assert (fibers (env_of tid (base r7)) = heap (base r)) as Hh7 by by rewrite Hr7.
  assert (t_thread_fiber (env_of tid (base r7)) = Some mf) as Hm7.
  { rewrite Hr7. unfold env_of at 1. cbn [t_thread_fiber]. by autorewrite with locals. }
  rewrite Hh7 in Hh2. rewrite Hm7 in Htt2. assert (sf < length (heap (base r))) by by eapply lookup_lt_Some.
  split; autorewrite with locals; cbn; rewrite ?Hh2; try done.
  - exists InResume. by rewrite list_lookup_insert_ne, list_lookup_insert_eq; eauto.
  - by rewrite !list_lookup_insert_ne.
  - eexists. rewrite list_lookup_insert_eq by by (rewrite length_insert; eapply lookup_lt_Some).
    done.
Qed.

(** The round after that ends the loop. *)
Lemma runs_last_round r :
  drained (base r) -> runs (run_round tid) r (λ b P, b = false ∧ drained P ∧ P.(world) = (base r).(world)).
Proof.
  intros Hd. pose proof Hd as [Hmf Hsf Hm Hidle (b & Hb & Hst) Hq Hact Hstop]. unfold run_round, take_task.
  eapply runs_bind, runs_bind, runs_gets. intros r1 Hr1. rewrite Hq. cbn [find_task].
  apply runs_ret. intros r2 Hr2. apply runs_bind, runs_maybe_tickle. intros r3 Hr3.
  rewrite Hr2, Hr1 in Hr3. unfold run_idle_fiber. apply runs_bind, runs_gets. intros r4 Hr4.
  rewrite Hr3, Hidle. eapply runs_bind. unfold fiber_state. eapply runs_bind, runs_fibers.
  { rewrite Hr4, Hr3. by apply get_fiber_run. }
  intros r5 Hr5. apply runs_ret. intros r6 Hr6. rewrite bool_decide_true by done.
  apply runs_ret. rewrite Hr6, Hr5, Hr4, Hr3. split_and!; try done.
  split; autorewrite with locals; try done; cbn; eauto.
Qed.

(** The reference: a queue that is served from its head, the new tasks going
    to its end. *)
Inductive fifo : list (ScheduleTask W) -> W -> W -> Prop :=
| fifo_nil w : fifo [] w w
| fifo_cons t cb q w w' :
    t.(task_cb) = Some cb -> fifo (q ++ (effect_of cb w).2) (effect_of cb w).1 w' ->
    fifo (t :: q) w w'.

Lemma runs_loop q w w' :
  stopped = true -> fifo q w w' -> Forall straight_task q ->
  ∃ fuel, ∀ r, running 0 (base r) -> (base r).(sch).(m_tasks) = q -> (base r).(world) = w ->
    runs (run_loop fuel tid) r (λ b P, b = true ∧ drained P ∧ P.(world) = w').
Proof.
  intros Hstopped. induction 1 as [w|t cb q w w' Hcb Hfifo IH]; intros Hq.
  - exists 2. intros r Hr Hempty Hw. cbn [run_loop]. eapply runs_bind, runs_mono; [by apply runs_idle_round|].
    intros b P (-> & Hd & HwP) r1 <-. eapply runs_bind, runs_mono; [by apply runs_last_round|].
    intros b P (-> & Hd' & HwP') r2 <-. apply runs_ret. split_and!; [done..|]. by rewrite HwP', HwP.
  - apply Forall_cons in Hq as [Ht Hq]. destruct IH as (fuel & IH).
    { apply Forall_app. split; [done|]. apply effect_of_straight.
      destruct Ht as (_ & _ & cb' & Hcb' & Hst). congruence. }
    exists (S fuel). intros r Hr Htasks Hw. cbn [run_loop].
    eapply runs_bind, runs_mono; [by eapply runs_round|].
    intros b P (-> & Hr1 & Htasks1 & Hw1) r1 <-. apply IH; [done|by rewrite Htasks1, Hw|by rewrite Hw1, Hw].
Qed.

(** ** Tasks that stop half way *)

(** A program that ends the process. *)
Definition halts {A} (m : prog std_exception R A) r (w : fault) : Prop :=
  quiet r -> (m r).1 = Halt w.

Lemma halts_here {A B} (m : prog std_exception R A) (f : A -> prog std_exception R B) r w :
  halts m r w -> halts (m ≫= f) r w.
Proof.
  intros Hm Hq. specialize (Hm Hq). destruct (m r) as [o r'] eqn:Hr. cbn in Hm. subst o.
  by rewrite (bind_halt _ _ _ _ _ Hr).
Qed.

Lemma halts_later {A B} (m : prog std_exception R A) (f : A -> prog std_exception R B) r w :
  runs m r (λ a P, ∀ r', base r' = P -> halts (f a) r' w) -> halts (m ≫= f) r w.
Proof.
  intros Hm Hq. destruct (Hm Hq) as (a & r' & Hr & Hf & Hq'). rewrite (bind_run _ _ _ _ _ Hr). by apply Hf.
Qed.

Lemma halts_fibers {A} (m : prog std_exception (fiber_env W) A) r w :
  (m (env_of tid (base r))).1 = Halt w -> halts (on_fibers tid m) r w.
Proof.
  intros Hm _. unfold on_fibers, on_base, zoom. destruct (m _) as [o e]. cbn in Hm. by subst.
Qed.

(** A fiber of the pool that has been resumed. *)
Record entered (p : fiber_ptr) P0 P : Prop := {
  ent_sch : P.(sch) = P0.(sch);
  ent_world : P.(world) = P0.(world);
  ent_fiber : (local_of tid P).(l_fiber) = Some p
}.

(** [resume] of a task of the pool, up to the call of its callback. *)
Lemma runs_enter_task n l p (cb : option (fiber_fn W)) r :
  holding n l p (ready_fiber cb) (base r) ->
  runs (on_fibers tid (resume p)) r (λ c P, c = AtMainFunc ∧ entered p (base r) P ∧
    holding n l p (λ b, pool_fiber b ∧ b.(m_state) = RUNNING ∧ b.(m_cb) = cb) P ∧
    P.(heap) !! sf = Some (with_ctx InResume bs)).
Proof.
  intros [Hsf Hmf Hidle Hown Hpool Hok Hall Hp Hni (b & Hb & Hready) Hact Hstop].
  pose proof Hready as (Hstk & Hrun & Hst & Hctx & Hcb). pose proof Hown as [(c & Hc) (bi & Hi & Hir) Hm].
  destruct (Hall _ Hp) as (Hpsf & Hpi & Hpm). destruct Hdistinct as (Hd1 & Hd2 & Hd3).
  eapply runs_fibers.
  { eapply (resume_run p sf _ b (with_ctx c bs)); [done|done|done|done|]. unfold home_of. by rewrite Hrun. }
  split_and!; [done| | |].
  - split; [done|done|by autorewrite with locals].
  - assert (p < length (heap (base r))) by by eapply lookup_lt_Some.
    assert (sf < length (heap (base r))) by by eapply lookup_lt_Some.
    split; autorewrite with locals; try done; cbn.
    + apply own_same with (<[sf := with_ctx InResume bs]> (heap (base r))).
      * split; [exists InResume; by rewrite list_lookup_insert_eq|
          exists bi; by rewrite list_lookup_insert_ne|by rewrite list_lookup_insert_ne].
      * intros q Hq. destruct (decide (q = sf)) as [->|]; [by rewrite !list_lookup_insert_eq by by rewrite ?length_insert|].
        rewrite !(list_lookup_insert_ne _ sf) by done. apply list_lookup_insert_ne. intros ->. by apply Hq.
    + apply (pool_ok_heap (<[p := with_state RUNNING b]> (heap (base r)))).
      * by eapply pool_ok_insert.
      * intros q Hq. apply list_lookup_insert_ne. intros <-. by destruct (Hall _ (idle_in_all _ _ Hok _ Hq)).
      * intros q bq Hq Hbq. rewrite list_lookup_insert_ne by (intros <-; by destruct (Hall _ Hq)).
        destruct (decide (q = p)) as [->|Hqp].
        -- rewrite list_lookup_insert_eq by done. eexists. split; [done|]. by split.
        -- rewrite list_lookup_insert_ne by done. by destruct (all_pool_fibers _ _ Hok q Hq) as (? & ? & ?); eauto.
    + exists (with_state RUNNING b). by rewrite list_lookup_insert_ne, list_lookup_insert_eq by done.
  - cbn. by rewrite list_lookup_insert_eq by (rewrite length_insert; by eapply lookup_lt_Some).
Qed.

(** A program on the fibers that does not change them. *)
Lemma runs_fibers_read {A} (m : prog std_exception (fiber_env W) A) r a Q :
  m (env_of tid (base r)) = (Ret a, env_of tid (base r)) ->
  (∀ P, P = put_env tid (env_of tid (base r)) (base r) -> local_of tid P = local_of tid (base r) ->
    P.(heap) = (base r).(heap) -> P.(sch) = (base r).(sch) -> P.(world) = (base r).(world) -> Q a P) ->
  runs (on_fibers tid m) r Q.
Proof.
  intros Hm HQ. eapply runs_fibers; [exact Hm|]. apply HQ; try done.
  rewrite local_of_put_env. unfold env_of. cbn. by destruct (local_of tid (base r)).
Qed.

Lemma holding_read n l p Q P P' :
  holding n l p Q P -> local_of tid P' = local_of tid P -> P'.(heap) = P.(heap) ->
  P'.(sch).(m_activeThreadCount) = P.(sch).(m_activeThreadCount) ->
  P'.(sch).(m_stopping) = P.(sch).(m_stopping) -> holding n l p Q P'.
Proof. intros [] Hl Hh Ha Hs. split; rewrite ?Hl, ?Hh, ?Ha, ?Hs; done. Qed.

Lemma GetThis_run (e : fiber_env W) p : e.(t_fiber) = Some p -> GetThis e = (Ret p, e).
Proof. intros Ht. unfold GetThis. erewrite bind_run by done. by rewrite Ht. Qed.

(** A running task yields: its rest is in its context only. *)
Lemma runs_yield n l p k r :
  holding n l p (λ b, pool_fiber b ∧ b.(m_state) = RUNNING) (base r) ->
  (base r).(heap) !! sf = Some (with_ctx InResume bs) -> (local_of tid (base r)).(l_fiber) = Some p ->
  runs (run_callback tid p (Yield k)) r (λ _ P,
    holding n l p (λ b, b.(m_state) = TERM ∨ b.(m_state) = READY) P ∧
    P.(sch) = (base r).(sch) ∧ P.(world) = (base r).(world)).
Proof.
  intros Hhold Hc Hfib. cbn [run_callback]. eapply runs_bind, runs_fibers_read; [by apply GetThis_run|].
  intros P HP HlP HhP HsP HwP r1 Hr1. rewrite <-Hr1 in HlP, HhP, HsP, HwP.
  assert (holding n l p (λ b, pool_fiber b ∧ b.(m_state) = RUNNING) (base r1)) as Hhold1
    by (eapply holding_read; [done|done|done|by rewrite HsP|by rewrite HsP]).
  destruct Hhold1 as [Hsf Hmf Hidle Hown Hpool Hok Hall Hp Hni (b & Hb & [Hstk Hrun] & Hst) Hact Hstop].
  destruct (Hall _ Hp) as (Hpsf & Hpi & Hpm).
  eapply runs_bind, runs_fibers.
  { eapply (yield_run p sf (InCallback k)); [exact Hb| |done|by left|unfold home_of; by rewrite Hrun].
    unfold env_of; cbn. by rewrite HhP. }
  intros r2 Hr2. apply runs_ret. rewrite Hr2. rewrite <-HsP, <-HwP. split; [|done].
  assert (p < length (heap (base r1))) by by eapply lookup_lt_Some.
  split; autorewrite with locals; try done; cbn.
  - by apply own_insert.
  - by eapply pool_ok_insert.
  - eexists. rewrite list_lookup_insert_eq by done. split; [done|]. right. cbn. by rewrite Hst.
Qed.

(** A program that gets, with no fault, to where [Q] holds of what is left of
    it. *)
Definition reaches {B} (m : prog std_exception R B) r (Q : prog std_exception R B -> R -> Prop) : Prop :=
  quiet r -> ∃ m' r', m r = m' r' ∧ quiet r' ∧ Q m' r'.

Lemma reaches_here {B} (m : prog std_exception R B) r Q : Q m r -> reaches m r Q.
Proof. intros ? ?. by exists m, r. Qed.

Lemma reaches_bind {A B} (m : prog std_exception R A) (f : A -> prog std_exception R B) r Q :
  runs m r (λ a P, ∀ r', base r' = P -> reaches (f a) r' Q) -> reaches (m ≫= f) r Q.
Proof.
  intros Hm Hq. destruct (Hm Hq) as (a & r' & Hr & Hf & Hq'). rewrite (bind_run _ _ _ _ _ Hr). by apply Hf.
Qed.

Lemma reaches_assoc {A B C} (m : prog std_exception R A) (f : A -> prog std_exception R B)
    (g : B -> prog std_exception R C) r Q :
  reaches (m ≫= λ a, f a ≫= g) r Q -> reaches ((m ≫= f) ≫= g) r Q.
Proof. intros Hm Hq. destruct (Hm Hq) as (m' & r' & Hr & ?). exists m', r'. by rewrite prog_bind_assoc. Qed.

(** The thread is in the callback of fiber [p], which it took from its pool
    [l] for the only task of the queue. *)
Record in_task p l (w : W) r : Prop := {
  in_hold : holding 1 l p (λ b, pool_fiber b ∧ b.(m_state) = RUNNING) (base r);
  in_sf : (base r).(heap) !! sf = Some (with_ctx InResume bs);
  in_fiber : (local_of tid (base r)).(l_fiber) = Some p;
  in_tasks : (base r).(sch).(m_tasks) = [];
  in_world : (base r).(world) = w
}.

Lemma find_only t : for_this t.(task_thread) -> find_task tid [t] = ([], Some (t, [])).
Proof.
  intros [Ht|Ht]; cbn; rewrite Ht; [by rewrite bool_decide_true|].
  rewrite (bool_decide_true (tid = tid)) by done. by rewrite andb_false_r.
Qed.

(** A round that takes the only task, up to its callback. *)
Lemma round_reaches t cb r :
  t.(task_fiber) = None -> t.(task_cb) = Some cb -> for_this t.(task_thread) ->
  running 0 (base r) -> (base r).(sch).(m_tasks) = [t] ->
  reaches (run_round tid) r (λ m r', ∃ p l, in_task p l (base r).(world) r' ∧
    m = (run_callback tid p cb ≫= λ _, give_back tid p ≫= λ _, mret true)).
Proof.
  intros Hf Hcb Hth Hr Hq. unfold run_round, take_task.
  apply reaches_assoc, reaches_bind, runs_gets. intros r1 Hr1. rewrite Hq, find_only by done. cbv beta iota.
  assert (has_task t = true) as Hhas by (unfold has_task; rewrite Hcb; by rewrite orb_true_r).
  apply reaches_assoc, reaches_bind, runs_assert; [done|]. intros r2 Hr2.
  apply reaches_assoc, reaches_bind, runs_sch. intros r3 Hr3.
  apply reaches_assoc, reaches_bind, runs_sch. intros r4 Hr4.
  apply reaches_bind, runs_ret. intros r5 Hr5. rewrite Hr4, Hr3, Hr2, Hr1 in Hr5. cbn in Hr5.
  apply reaches_bind, runs_maybe_tickle. intros r6 Hr6. rewrite Hr5 in Hr6.
  unfold exec_task. rewrite Hf, Hcb. assert (running 1 (base r6)) as Hr6'.
  { rewrite Hr6. destruct Hr as [? ? ? ? ? Hact ?]. split; try done. cbn. by rewrite Hact. }
  eapply reaches_assoc, reaches_bind, runs_mono; [by apply runs_hold|]. intros p P (l & Hh & Hs & Hw) r7 <-.
  unfold resume_fiber. eapply reaches_assoc, reaches_assoc, reaches_bind, runs_mono; [by eapply runs_enter_task|].
  intros c P (-> & [Hes Hew Hef] & Hh' & Hc) r8 <-.
  destruct (hold_fiber _ _ _ _ _ Hh') as (b & Hb & Hpf & Hst & Hbcb).
  eapply reaches_assoc, reaches_bind, runs_fibers_read; [by rewrite (MainFunc_begin_run p _ b), Hbcb|].
  intros P HP HlP HhP HsP HwP r9 Hr9. rewrite <-Hr9 in HlP, HhP, HsP, HwP. cbv beta iota.
  apply reaches_here. exists p, l. split; [|done]. split.
  - eapply holding_mono; [eapply holding_read; [exact Hh'|..]|]; try done; [by rewrite HsP..|]. naive_solver.
  - by rewrite HhP.
  - by rewrite HlP.
  - by rewrite HsP, Hes, Hs, Hr6.
  - by rewrite HwP, Hew, Hw, Hr6.
Qed.

(** A suspended task stops the process: [suspend] leaves the state
    [SUSPEND], which the assertion of [yield] refuses. *)
Lemma suspend_halts p l w k r : in_task p l w r -> halts (run_callback tid p (Suspend k)) r AssertFailed.
Proof.
  intros [Hh Hsf Hfib _ _]. cbn [run_callback].
  eapply halts_later, runs_fibers_read; [by apply GetThis_run|].
  intros P HP HlP HhP HsP HwP r1 Hr1. rewrite <-Hr1 in HhP. apply halts_here, halts_fibers.
  destruct (hold_fiber _ _ _ _ _ Hh) as (b & Hb & Hpf & Hst). rewrite <-HhP in Hb.
  unfold suspend. erewrite bind_run by by apply get_fiber_run.
  rewrite bool_decide_true by done. erewrite bind_run by done. unfold update_fiber.
  erewrite bind_run by done. erewrite list_alter_insert by done. unfold yield. erewrite bind_run.
  2:{ apply get_fiber_run. cbn. apply list_lookup_insert_eq. by eapply lookup_lt_Some. }
  rewrite bool_decide_false by (cbn; naive_solver). by erewrite bind_halt.
Qed.

(** A fiber that was given back, when it is scheduled again, has no callback:
    calling it ends the process. *)
Lemma stale_fiber_halts p r t :
  running 0 (base r) -> (base r).(sch).(m_tasks) = [t] -> t.(task_fiber) = Some p ->
  for_this t.(task_thread) -> other p -> (∃ b, (base r).(heap) !! p = Some b ∧ ready_fiber None b) ->
  halts (run_round tid) r Terminated.
Proof.
  intros Hr Hq Hf Hth (Hpsf & _ & _) (b & Hb & Hstk & Hrun & Hst & Hctx & Hcb). unfold run_round, take_task.
  destruct Hr as [Hsf Hmf Hidle [(c & Hc) _ _] _ _ _].
  eapply halts_later, runs_bind, runs_gets. intros r1 Hr1. rewrite Hq, find_only by done. cbv beta iota.
  assert (has_task t = true) as Hhas by (unfold has_task; by rewrite Hf).
  apply runs_bind, runs_assert; [done|]. intros r2 Hr2. apply runs_bind, runs_sch. intros r3 Hr3.
  apply runs_bind, runs_sch. intros r4 Hr4. apply runs_ret. intros r5 Hr5.
  rewrite Hr4, Hr3, Hr2, Hr1 in Hr5. cbn in Hr5.
  apply halts_later, runs_maybe_tickle. intros r6 Hr6. rewrite Hr5 in Hr6.
  unfold exec_task. rewrite Hf. apply halts_here. unfold fiber_state.
  eapply halts_later, runs_bind, runs_fibers; [apply get_fiber_run; by rewrite Hr6|].
  intros r7 Hr7. apply runs_ret. intros r8 Hr8. rewrite (bool_decide_false (m_state b = TERM)) by congruence.
  apply halts_here. unfold resume_fiber. eapply halts_later, runs_fibers.
  { eapply (resume_run p sf _ b (with_ctx c bs)); [by rewrite Hr8, Hr7, Hr6|by rewrite Hr8, Hr7, Hr6|done|done|].
    unfold home_of. rewrite Hrun, Hr8, Hr7. unfold env_of at 1. cbn [t_scheduler_fiber].
    rewrite local_of_put_env, Hr6. done. }
  intros r9 Hr9. rewrite Hctx. apply halts_here, halts_fibers. rewrite Hr9, env_of_put_env.
  rewrite (MainFunc_begin_run p _ (with_state RUNNING b)); [|done|].
  - cbn [m_cb with_state]. by rewrite Hcb.
  - cbn. rewrite list_lookup_insert_ne, list_lookup_insert_eq; [done| |done].
    rewrite Hr8, Hr7, Hr6. by eapply lookup_lt_Some.
Qed.

(** A task that is given back half way: what is left of it is lost. *)
Lemma yield_round p l w k r :
  in_task p l w r ->
  runs (run_callback tid p (Yield k) ≫= λ _, give_back tid p ≫= λ _, mret true) r (λ b P, b = true ∧
    running 0 P ∧ P.(sch).(m_tasks) = [] ∧ P.(world) = w).
Proof.
  intros [Hh Hsf Hfib Ht Hw]. eapply runs_bind, runs_mono; [by eapply runs_yield|].
  intros [] P (Hh' & Hs & Hw') r1 <-. eapply runs_bind, runs_mono; [by eapply runs_give_back|].
  intros [] P (Hrun & Hs2 & Hw2 & _) r2 <-. apply runs_ret.
  split_and!; [done|done|by rewrite Hs2; cbn; rewrite Hs|by rewrite Hw2, Hw'].
Qed.

(** The same for a task that schedules its own fiber first. *)
Lemma reschedule_round p l w thread k r :
  in_task p l w r ->
  runs (run_callback tid p (ScheduleThis thread (Yield k)) ≫= λ _, give_back tid p ≫= λ _, mret true) r
    (λ b P, b = true ∧ running 0 P ∧ P.(sch).(m_tasks) = [mkTask (Some p) None thread] ∧
      other p ∧ ∃ b, P.(heap) !! p = Some b ∧ ready_fiber None b).
Proof.
  intros [Hh Hsf Hfib Ht Hw].
  change (run_callback tid p (ScheduleThis thread (Yield k))) with
    (on_fibers tid GetThis ≫= λ f, schedule_fiber tid f thread ≫= λ _, run_callback tid p (Yield k)).
  eapply runs_bind, runs_bind, runs_fibers_read; [by apply GetThis_run|].
  intros P HP HlP HhP HsP HwP r1 Hr1. rewrite <-Hr1 in HlP, HhP, HsP, HwP.
  apply runs_bind, runs_scheduleLock; [done|]. intros r2 Hr2. eapply runs_mono; [eapply runs_yield|].
  - eapply holding_read; [exact Hh|by rewrite Hr2|by rewrite Hr2|..]; by rewrite Hr2; cbn; rewrite HsP.
  - rewrite Hr2. cbn. by rewrite HhP.
  - by rewrite Hr2, local_of_sch, HlP.
  - intros [] P3 (Hh' & Hs & _) r3 <-. eapply runs_bind, runs_mono; [by eapply runs_give_back|].
    intros [] P4 (Hrun & Hs2 & _ & Ho & Hb) r4 <-. apply runs_ret. split_and!; try done.
    rewrite Hs2. cbn. rewrite Hs, Hr2. cbn. by rewrite HsP, Ht.
Qed.

End drain.




(** ** A queue of finite callbacks runs out *)

Section terminates.
Context {W : Type}.
Implicit Types (t : ScheduleTask W) (q : list (ScheduleTask W)) (cb : callback W).

(** Serving the tasks of the queue in any order ends. *)
Inductive terminates q : Prop :=
| terminates_intro :
    (∀ q1 t cb q2 w, q = q1 ++ t :: q2 -> t.(task_cb) = Some cb ->
      terminates (q1 ++ q2 ++ (effect_of cb w).2)) -> terminates q.

Lemma terminates_perm q q' : terminates q -> q ≡ₚ q' -> terminates q'.
Proof.
  intros Hq. revert q'. induction Hq as [q _ IH]. intros q' Hperm. constructor.
  intros q1 t cb q2 w -> Hcb.
  assert (t ∈ q) as (q3 & q4 & ->)%list_elem_of_split.
  { rewrite Hperm. apply elem_of_app. right. by left. }
  eapply IH; [reflexivity|exact Hcb|]. rewrite !app_assoc. apply Permutation_app_tail.
  apply (Permutation_cons_inv (a := t)). by rewrite !Permutation_middle.
Qed.

(** A task that may be added to any queue. *)
Definition good t : Prop := ∀ q, terminates q -> terminates (t :: q).

Lemma terminates_add q l : Forall good l -> terminates q -> terminates (q ++ l).
Proof.
  intros Hl Hq. eapply terminates_perm; [|apply Permutation_app_comm].
  induction Hl as [|t l Ht Hl IH]; [done|]. cbn. by apply Ht.
Qed.

Lemma good_task t cb :
  t.(task_cb) = Some cb -> (∀ w, Forall good (effect_of cb w).2) -> good t.
Proof.
  intros Hcb Hsub q Hq. pose proof Hq as Hq'. induction Hq' as [q _ IH]. constructor.
  intros q1 t' cb' q2 w Heq Hcb'. destruct q1 as [|t1 q1]; cbn in Heq; injection Heq as -> ->.
  - rewrite Hcb in Hcb'. injection Hcb' as <-. cbn. by apply terminates_add.
  - cbn. eapply IH; [reflexivity|exact Hcb'|]. destruct Hq as [Hq]. by eapply Hq.
Qed.

Lemma effect_good cb w : Forall good (effect_of cb w).2.
Proof.
  revert w. induction cb as [|f k IH|cb IHcb thread k IH| | | |]; intros w; cbn; try constructor.
  - apply IH.
  - specialize (IH w). destruct (effect_of k w) as [w' l]. cbn in *. constructor; [|done].
    by apply (good_task _ cb).
Qed.

Lemma queue_terminates q : (∀ t, t ∈ q -> is_Some t.(task_cb)) -> terminates q.
Proof.
  intros Hq. apply (terminates_add []); [|by constructor; intros [] ? ? ? ? [=]].
  apply Forall_forall. intros t Ht. destruct (Hq t Ht) as [cb Hcb].
  eapply good_task; [done|]. apply effect_good.
Qed.

Lemma fifo_total tid q w : Forall (straight_task tid) q -> ∃ w', fifo q w w'.
Proof.
  intros Hq. assert (terminates q) as Hterm.
  { apply queue_terminates. intros t Ht. rewrite Forall_forall in Hq.
    destruct (Hq t) as (_ & _ & cb & -> & _); [done|by eexists]. }
  revert w Hq. induction Hterm as [q _ IH]. intros w Hq. destruct q as [|t q]; [exists w; constructor|].
  apply Forall_cons in Hq as [Ht Hq]. pose proof Ht as (_ & _ & cb & Hcb & Hst).
  destruct (IH [] t cb q w eq_refl Hcb (effect_of cb w).1) as (w' & Hw').
  - cbn. apply Forall_app. split; [done|]. by apply effect_of_straight.
  - exists w'. by eapply fifo_cons.
Qed.

End terminates.

(** ** [stop] *)

Section stop.
Context {W R : Type} {HR : SchedulerClass W R} {HL : SchedulerLaws W R}.
Implicit Types (P : process W) (r : R) (tid : Z).

(** A scheduler on the thread that made it, with its fiber of [run] not
    started. *)
Record prepared tid (sf mf : fiber_ptr) (b bm : Fiber W) P : Prop := {
  prep_caller : P.(sch).(m_useCaller) = true ∧ (local_of tid P).(l_scheduler) = true;
  prep_root : P.(sch).(m_rootThread) = tid;
  prep_fiber : P.(sch).(m_schedulerFiber) = Some sf ∧ (local_of tid P).(l_scheduler_fiber) = Some sf;
  prep_main : (local_of tid P).(l_thread_fiber) = Some mf ∧ P.(heap) !! mf = Some bm;
  prep_ready : P.(heap) !! sf = Some b ∧ b.(m_state) = READY ∧ b.(m_ctx) = AtMainFunc ∧
    b.(m_cb) = Some RunFn ∧ b.(m_runInScheduler) = Some false;
  prep_distinct : sf ≠ mf;
  prep_pool : (local_of tid P).(l_pool) = None;
  prep_idle : P.(sch).(m_activeThreadCount) = 0%Z ∧ P.(sch).(m_stopping) = false
}.

Lemma runs_tickle_times tid n r Q : Q tt (base r) -> runs (tickle_times tid n) r Q.
Proof.
  revert r. induction n as [|n IH]; intros r HQ; cbn [tickle_times]; [by apply runs_ret|].
  apply runs_bind, runs_tickle. intros r1 Hr1. apply IH. by rewrite Hr1.
Qed.

(** [m_schedulerFiber->resume()] up to the call of [run]. *)
Lemma runs_enter tid sf mf b bm r :
  (local_of tid (base r)).(l_thread_fiber) = Some mf -> (base r).(heap) !! mf = Some bm ->
  (base r).(heap) !! sf = Some b -> b.(m_state) = READY -> b.(m_ctx) = AtMainFunc ->
  b.(m_cb) = Some RunFn -> b.(m_runInScheduler) = Some false -> sf ≠ mf ->
  runs (on_fibers tid (resume sf)) r (λ c P, c = AtMainFunc ∧
    P = put_env tid (set_t_fiber (Some sf) (set_fibers (<[mf := with_ctx InResume bm]>
      (<[sf := with_state RUNNING b]> (base r).(heap))) (env_of tid (base r)))) (base r)).
Proof.
  intros Hmf Hbm Hb Hst Hctx Hcb Hrun Hne. eapply runs_fibers.
  - eapply resume_run; [exact Hb|exact Hbm|done|done|]. unfold home_of. by rewrite Hrun.
  - by rewrite Hctx.
Qed.

(** [run], from its start, once [stop] has been asked for. *)
Lemma runs_run tid sf mf b bm w' P :
  P.(sch).(m_rootThread) = tid -> sf ≠ mf ->
  (local_of tid P).(l_scheduler_fiber) = Some sf ->
  (local_of tid P).(l_thread_fiber) = Some mf ->
  (local_of tid P).(l_pool) = None ->
  P.(heap) !! sf = Some b -> P.(heap) !! mf = Some bm ->
  P.(sch).(m_activeThreadCount) = 0%Z -> P.(sch).(m_stopping) = true ->
  Forall (straight_task tid) P.(sch).(m_tasks) ->
  fifo P.(sch).(m_tasks) P.(world) w' ->
  ∃ fuel, ∀ r, base r = P -> runs (run fuel tid) r (λ ended P', ended = true ∧
    drained tid sf (length P.(heap)) mf b bm P' ∧ P'.(world) = w').
Proof.
  intros Hroot Hne Hsf Hmf Hpool Hb Hbm Hact Hstop Hq Hfifo.
  assert (sf < length (heap P) ∧ mf < length (heap P)) as [Hlsf Hlmf]
    by (split; by eapply lookup_lt_Some).
  destruct (runs_loop tid sf (length P.(heap)) mf b bm true ltac:(lia) _ _ _ eq_refl Hfifo Hq) as (fuel & Hloop).
  exists fuel. intros r <-. unfold run, run_begin.
  apply runs_bind, runs_bind, runs_locals. intros r1 Hr1.
  apply runs_bind, runs_locals. intros r2 Hr2. apply runs_bind, runs_gets. intros r3 Hr3.
  rewrite (bool_decide_false (tid ≠ _)) by (rewrite Hr2, Hr1; cbn; naive_solver).
  apply runs_bind, runs_ret. intros r4 Hr4. eapply runs_bind, runs_fibers; [done|].
  intros r5 Hr5. apply runs_locals. intros r6 Hr6.
  rewrite Hr5, Hr4, Hr3, Hr2, Hr1 in Hr6. cbn in Hr6.
  assert ((base r6).(heap) = (base r).(heap) ++ [mkFiber (base r).(next_id) 128000 READY AtMainFunc true
    (Some IdleFn) (Some true)] ∧ (base r6).(sch) = (base r).(sch) ∧ (base r6).(world) = (base r).(world))
    as (Hheap & Hsch & Hworld) by by rewrite Hr6.
  apply Hloop; [|by rewrite Hsch|done].
  split; rewrite ?Hheap, ?Hsch; try done; try (rewrite Hr6; autorewrite with locals; cbn; autorewrite with locals; done).
  - split.
    + exists b.(m_ctx). rewrite lookup_app_l by done. by destruct b.
    + eexists. by rewrite list_lookup_middle.
    + by rewrite lookup_app_l.
  - intros l. rewrite Hr6. autorewrite with locals. cbn. autorewrite with locals. cbn. by rewrite Hpool.
Qed.


(** C30. A task that pauses does not come back. [suspend] fails the assertion of
    [yield]. A task that yields is taken for finished: its fiber is reset and
    put back in the pool, and the rest of the callback is in no queue and in no
    fiber. A task that schedules its own fiber before it yields leaves in the
    queue a fiber without a callback, and the round that takes it calls an empty
    function, which ends the process. *)
Theorem paused_task_lost tid sf idle mf bs bm stopped k r t :
  quiet r -> sf ≠ idle ∧ sf ≠ mf ∧ idle ≠ mf ->
  running tid sf idle mf bs bm stopped 0 (base r) -> (base r).(sch).(m_tasks) = [t] ->
  t.(task_fiber) = None -> for_this tid t.(task_thread) ->
  (t.(task_cb) = Some (Suspend k) -> (run_round tid r).1 = Halt AssertFailed) ∧
  (t.(task_cb) = Some (Yield k) -> ∃ r', run_round tid r = (Ret true, r') ∧
     (base r').(sch).(m_tasks) = [] ∧ (base r').(world) = (base r).(world) ∧
     running tid sf idle mf bs bm stopped 0 (base r')) ∧
  (t.(task_cb) = Some (ScheduleThis (-1) (Yield k)) -> ∃ r', run_round tid r = (Ret true, r') ∧
     (run_round tid r').1 = Halt Terminated).
Proof.
  intros Hq Hd Hr Htasks Hf Hth. split_and!; intros Hcb.
  - destruct (round_reaches tid sf idle mf bs bm stopped Hd t _ r Hf Hcb Hth Hr Htasks Hq)
      as (m & r1 & -> & Hq1 & p & l & Hin & ->).
    exact (halts_here _ _ _ _ (suspend_halts tid sf idle mf bs bm stopped Hd p l _ k r1 Hin) Hq1).
  - destruct (round_reaches tid sf idle mf bs bm stopped Hd t _ r Hf Hcb Hth Hr Htasks Hq)
      as (m & r1 & -> & Hq1 & p & l & Hin & ->).
    destruct (yield_round tid sf idle mf bs bm stopped p l _ k r1 Hin Hq1) as (b & r2 & -> & (-> & ? & ? & ?) & _).
    by exists r2.
  - destruct (round_reaches tid sf idle mf bs bm stopped Hd t _ r Hf Hcb Hth Hr Htasks Hq)
      as (m & r1 & -> & Hq1 & p & l & Hin & ->).
    destruct (reschedule_round tid sf idle mf bs bm stopped p l _ (-1) k r1 Hin Hq1)
      as (b & r2 & -> & (-> & Hr2 & Ht2 & Ho & Hb) & Hq2).
    exists r2. split; [done|].
    exact (stale_fiber_halts tid sf idle mf bs bm stopped p r2 _ Hr2 Ht2 eq_refl (or_introl eq_refl) Ho Hb Hq2).
Qed.

End stop.

(** ** The class [Scheduler], and concrete runs *)

#[export] Instance scheduler_laws W : SchedulerLaws W (process W).
Proof.
  refine {| quiet _ := True |}; try done; intros tid r _.
  - by apply returns_ret.
  - by eapply returns_run.
Defined.

Definition fresh_process {W} (w : W) : process W :=
  mkProcess (mkScheduler "" [] [] [] 0 0 0 false None (-1) false) [] 0 0 ∅ w.

(** A scheduler made on thread 7, with the tasks [l] queued. *)
Definition with_tasks (l : list (ScheduleTask (list nat))) : process (list nat) :=
  let P := (new_Scheduler 7 1 true "main" (fresh_process [])).2 in set_sch (set_tasks l P.(sch)) P.

(** Work that logs [n]. *)
Definition log (n : nat) (k : callback (list nat)) : callback (list nat) := Effect (λ w, w ++ [n]) (λ _, k).

(** Two tasks, of which the first schedules a third. *)
Definition sample_tasks : list (ScheduleTask (list nat)) :=
  [mkTask None (Some (log 1 (ScheduleCb (log 3 Return) 7 Return))) (-1);
   mkTask None (Some (log 2 Return)) 7].


(** The same thread inside [run], with one task queued. *)
Definition in_run (cb : callback (list nat)) : process (list nat) :=
  ((on_fibers 7 (resume 1);; run_begin 7) (with_tasks [mkTask None (Some cb) (-1)])).2.

(** Its fiber of [run] and its main fiber. *)
Definition run_fiber : Fiber (list nat) := mkFiber 1 128000 RUNNING AtMainFunc true (Some RunFn) (Some false).
Definition main_fiber : Fiber (list nat) := mkFiber 0 0 RUNNING InResume false None None.

Lemma in_run_running cb : running 7 1 2 0 run_fiber main_fiber false 0 (in_run cb).
Proof.
  split; try (vm_compute; reflexivity).
  - split.
    + exists AtMainFunc. vm_compute. reflexivity.
    + exists (mkFiber 2 128000 READY AtMainFunc true (Some IdleFn) (Some true)).
      split; [vm_compute; reflexivity|done].
    + vm_compute. reflexivity.
  - intros l. vm_compute. discriminate.
Qed.

Lemma paused_task_lost_witness :
  (run_round 7 (in_run (Suspend (log 1 Return)))).1 = Halt AssertFailed ∧
  (∃ r', run_round 7 (in_run (Yield (log 1 Return))) = (Ret true, r') ∧ r'.(sch).(m_tasks) = [] ∧
    r'.(world) = (in_run (Yield (log 1 Return))).(world)) ∧
  ∃ r', run_round 7 (in_run (ScheduleThis (-1) (Yield (log 1 Return)))) = (Ret true, r') ∧
    (run_round 7 r').1 = Halt Terminated.
Proof.
  split_and!.
  - destruct (paused_task_lost (HR := scheduler_class _) (HL := scheduler_laws _) 7 1 2 0 run_fiber main_fiber false (log 1 Return) (in_run (Suspend (log 1 Return)))
      (mkTask None (Some (Suspend (log 1 Return))) (-1)) I) as (Hs & _ & _);
      [split_and!; discriminate|apply in_run_running|vm_compute; reflexivity|reflexivity|left; reflexivity|]. exact (Hs eq_refl).
  - destruct (paused_task_lost (HR := scheduler_class _) (HL := scheduler_laws _) 7 1 2 0 run_fiber main_fiber false (log 1 Return) (in_run (Yield (log 1 Return)))
      (mkTask None (Some (Yield (log 1 Return))) (-1)) I) as (_ & Hy & _);
      [split_and!; discriminate|apply in_run_running|vm_compute; reflexivity|reflexivity|left; reflexivity|].
    destruct (Hy eq_refl) as (r' & H1 & H2 & H3 & _). exists r'. exact (conj H1 (conj H2 H3)).
  - destruct (paused_task_lost (HR := scheduler_class _) (HL := scheduler_laws _) 7 1 2 0 run_fiber main_fiber false (log 1 Return)
      (in_run (ScheduleThis (-1) (Yield (log 1 Return))))
      (mkTask None (Some (ScheduleThis (-1) (Yield (log 1 Return)))) (-1)) I) as (_ & _ & Hs);
      [split_and!; discriminate|apply in_run_running|vm_compute; reflexivity|reflexivity|left; reflexivity|]. exact (Hs eq_refl).
Defined.
