(* ===== verification/Workers.v ===== *)
(** * The threads of a scheduler

    [Scheduler::run] of [co-pro/corotinue-fiber-pool/scheduler.cpp] on several
    threads at once, over one scheduler. A step of a thread is its start, the
    part of a round under the lock, the [tickle] behind it, the run of the task
    it took up to the next [swapcontext], or a turn of its idle fiber; the steps
    of the threads interleave in any order. Beside the scheduler stands its
    history: the tasks that were scheduled, and which thread took and ended
    which. *)

From S2P Require Export Scheduler.

(** Where a thread is in [run]: before it, at the top of the loop, behind the
    lock with what it took and [tickle_me], or past it. *)
Inductive place (W : Type) :=
| Starting
| Looping
| Took (task : option (ScheduleTask W)) (tickle_me : bool)
| Left.
Arguments Starting {W}.
Arguments Looping {W}.
Arguments Took {W}.
Arguments Left {W}.

Record workers (W R : Type) := mkWorkers {
  scheduler : R;
  places : gmap Z (place W);
  submitted : list (ScheduleTask W);
  taken : list (Z * ScheduleTask W);
  executed : list (Z * ScheduleTask W)
}.
Arguments mkWorkers {W R}.
Arguments scheduler {W R}.
Arguments places {W R}.
Arguments submitted {W R}.
Arguments taken {W R}.
Arguments executed {W R}.

Section workers.
Context {W R : Type} {HR : SchedulerClass W R}.
Implicit Types (x : workers W R) (r : R) (tid : Z) (t : ScheduleTask W).

Definition queue r : list (ScheduleTask W) := m_tasks (sch (base r)).

(** The scheduler has changed; what is new at the end of its queue was
    scheduled. *)
Definition with_scheduler r x : workers W R :=
  mkWorkers r x.(places) (x.(submitted) ++ drop (length (queue x.(scheduler))) (queue r)) x.(taken) x.(executed).
Definition move tid (pl : place W) x : workers W R :=
  mkWorkers x.(scheduler) (<[tid := pl]> x.(places)) x.(submitted) x.(taken) x.(executed).
Definition note_taken tid (task : option (ScheduleTask W)) x : workers W R :=
  mkWorkers x.(scheduler) x.(places) x.(submitted) (x.(taken) ++ match task with Some t => [(tid, t)] | None => [] end) x.(executed).
Definition note_executed tid t x : workers W R :=
  mkWorkers x.(scheduler) x.(places) x.(submitted) x.(taken) (x.(executed) ++ [(tid, t)]).

(** A program of the scheduler, as a step; [f] is what follows when it
    returns. *)
Definition do_step {A} (m : prog std_exception R A) (f : A -> workers W R -> workers W R) x
  : outcome std_exception unit * workers W R :=
  match m x.(scheduler) with
  | (Ret a, r) => (Ret tt, f a (with_scheduler r x))
  | (Throw e, r) => (Throw e, with_scheduler r x)
  | (Halt w, r) => (Halt w, with_scheduler r x)
  end.

(** The next step of a thread; [None] when it is not in [run]. *)
Definition worker_round tid x : option (outcome std_exception unit * workers W R) :=
  match x.(places) !! tid with
  | None | Some Left => None
  | Some Starting => Some (do_step (run_begin tid) (λ _, move tid Looping) x)
  | Some Looping =>
      Some (do_step (take_task tid) (λ '(task, tickle_me) x, move tid (Took task tickle_me) (note_taken tid task x)) x)
  | Some (Took task true) => Some (do_step (tickle tid) (λ _, move tid (Took task false)) x)
  | Some (Took (Some t) false) => Some (do_step (exec_task tid t) (λ _ x, move tid Looping (note_executed tid t x)) x)
  | Some (Took None false) =>
      Some (do_step (run_idle_fiber tid) (λ (go_on : bool), move tid (if go_on then Looping else Left)) x)
  end.

(** What can happen: a thread goes on; a task that meets [from_outside] is
    scheduled from outside, which nobody does once [stop] was called; [stop] is
    called. *)
Inductive workers_step (from_outside : ScheduleTask W -> Prop) : workers W R -> workers W R -> Prop :=
| by_worker tid x x' : worker_round tid x = Some (Ret tt, x') -> workers_step from_outside x x'
| by_outside tid t x x' : m_stopping (sch (base x.(scheduler))) = false -> from_outside t ->
    do_step (scheduleLock tid t) (λ _ x, x) x = (Ret tt, x') -> workers_step from_outside x x'
| by_stop tid x x' : do_step (ask_stop tid) (λ _ x, x) x = (Ret tt, x') -> workers_step from_outside x x'.

(** The threads that [start] makes, on a scheduler. *)
Definition started r : workers W R :=
  mkWorkers r (list_to_map ((λ tid, (tid, Starting)) <$> m_threads (sch (base r)))) (queue r) [] [].

(** The joins of [stop] have returned. *)
Definition all_left x : Prop := map_Forall (λ _ pl, pl = Left) x.(places).

(** The tasks a thread took, in order. *)
Definition taken_by tid (l : list (Z * ScheduleTask W)) : list (ScheduleTask W) :=
  (filter (λ p, p.1 = tid) l).*2.

End workers.
