(* ===== verification/WorkersFacts.v ===== *)
(** * Facts on the threads of a scheduler

    However the threads of a scheduler interleave, no task is lost or run twice,
    each thread takes its tasks in the order they were scheduled, and a thread
    leaves only when everything scheduled has been run. *)

From S2P Require Export Workers SchedulerFacts.

(** ** What a thread owns, and what its steps leave to the others *)
Section owned.
Context {W : Type}.
Implicit Types (P : process W) (tid : Z) (p q sf idle : fiber_ptr) (b : Fiber W).

Definition owned tid P q : Prop :=
  (local_of tid P).(l_scheduler_fiber) = Some q ∨ (local_of tid P).(l_idle_fiber) = Some q ∨
  ∃ l, (local_of tid P).(l_pool) = Some l ∧ q ∈ l.(m_allFibers).

(** A step of thread [tid] from [P] to [P']: the fibers and the variables of the
    other threads stay, and what the thread comes to own is new. *)
Record framed tid P P' : Prop := {
  fr_length : length P.(heap) ≤ length P'.(heap);
  fr_heap q : q < length P.(heap) -> ¬ owned tid P q -> P'.(heap) !! q = P.(heap) !! q;
  fr_locals tid' : tid' ≠ tid -> local_of tid' P' = local_of tid' P;
  fr_owned q : owned tid P' q -> owned tid P q ∨ length P.(heap) ≤ q
}.

Lemma framed_same tid P P' :
  P'.(heap) = P.(heap) -> (∀ tid', local_of tid' P' = local_of tid' P) -> framed tid P P'.
Proof. intros Hh Hl. split; rewrite ?Hh; try done. intros q. unfold owned. rewrite Hl. by left. Qed.

Lemma framed_trans tid P P' P'' : framed tid P P' -> framed tid P' P'' -> framed tid P P''.
Proof.
  intros [L1 H1 V1 O1] [L2 H2 V2 O2]. split.
  - lia.
  - intros q Hq Hno. rewrite H2, H1; [done..|lia|]. intros Ho%O1. destruct Ho; [done|lia].
  - intros tid' Hne. by rewrite V2, V1.
  - intros q [Ho|Ho]%O2; [by apply O1|right; lia].
Qed.

(** The fiber of the idle loop: not started, waiting in its loop, or ended. *)
Definition idle_fiber_ok b : Prop :=
  pool_fiber b ∧ (ready_fiber (Some IdleFn) b ∨ b.(m_state) = READY ∧ b.(m_ctx) = InIdle ∨ b.(m_state) = TERM).

(** A thread inside [run], with the fiber it switches back to and its idle
    fiber. *)
Record in_run tid sf idle P : Prop := {
  ir_sf : (local_of tid P).(l_scheduler_fiber) = Some sf;
  ir_idle : (local_of tid P).(l_idle_fiber) = Some idle;
  ir_ne : idle ≠ sf;
  ir_sf_in : is_Some (P.(heap) !! sf);
  ir_idle_fiber : ∃ b, P.(heap) !! idle = Some b ∧ idle_fiber_ok b;
  ir_pool l : (local_of tid P).(l_pool) = Some l -> pool_ok P.(heap) l ∧ ∀ p, p ∈ l.(m_allFibers) -> p ≠ sf ∧ p ≠ idle
}.

(** Its pool has a fiber to give. *)
Definition stocked tid P : Prop := ∀ l, (local_of tid P).(l_pool) = Some l -> l.(m_idleFibers) ≠ [].

(** It holds fiber [p] of its pool [l], which satisfies [Q]. *)
Record holds tid sf idle l p (Q : Fiber W -> Prop) P : Prop := {
  ho_run : in_run tid sf idle P;
  ho_pool : (local_of tid P).(l_pool) = Some l;
  ho_in : p ∈ l.(m_allFibers);
  ho_out : p ∉ l.(m_idleFibers);
  ho_fiber : ∃ b, P.(heap) !! p = Some b ∧ Q b
}.

Lemma in_run_owned tid sf idle P q : in_run tid sf idle P -> owned tid P q -> q < length P.(heap).
Proof.
  intros [Hsf Hidle _ [? Hs] (b & Hb & _) Hpool]. unfold owned. rewrite Hsf, Hidle. intros [[= <-]|[[= <-]|(l & Hl & Hq)]].
  - by eapply lookup_lt_Some.
  - by eapply lookup_lt_Some.
  - destruct (Hpool l Hl) as [Hok _]. destruct (all_pool_fibers _ _ Hok q Hq) as (? & ? & _). by eapply lookup_lt_Some.
Qed.

Lemma owned_local tid P P' q : local_of tid P' = local_of tid P -> owned tid P' q <-> owned tid P q.
Proof. intros Hl. unfold owned. by rewrite Hl. Qed.

(** The step of another thread. *)
Lemma in_run_framed tid tid' sf idle P P' :
  tid' ≠ tid -> in_run tid' sf idle P -> framed tid P P' -> (∀ q, owned tid' P q -> ¬ owned tid P q) ->
  in_run tid' sf idle P'.
Proof.
  intros Hne Hr [_ Hh Hv _] Hd. pose proof (Hv tid' Hne) as Hl.
  assert (∀ q, owned tid' P q -> P'.(heap) !! q = P.(heap) !! q) as Hsame
    by (intros q Hq; apply Hh; [by eapply in_run_owned|by apply Hd]).
  destruct Hr as [Hsf Hidle Hne' Hs Hb Hpool]. split; rewrite ?Hl; try done.
  - rewrite Hsame; [done|]. left. by rewrite Hsf.
  - rewrite Hsame; [done|]. right. left. by rewrite Hidle.
  - intros l Hpl. destruct (Hpool l Hpl) as [Hok Hother]. split; [|done].
    assert (∀ p, p ∈ l.(m_allFibers) -> P'.(heap) !! p = P.(heap) !! p) as Hall
      by (intros p Hp; apply Hsame; right; right; by exists l).
    eapply pool_ok_heap; [exact Hok| |].
    + intros p Hp. by apply Hall, (idle_in_all _ _ Hok).
    + intros p b Hp Hpb. rewrite Hall by done. by apply (all_pool_fibers _ _ Hok).
Qed.

End owned.

(** The laws of a class whose idle threads can wait: in a quiet state the body of
    [idle] returns and leaves the scheduler alone. *)
Class IdleLaws (W R : Type) {HR : SchedulerClass W R} {HL : SchedulerLaws W R} := {
  idle_law tid (r : R) : quiet r -> returns (idle_body (W := W) tid) r (λ _ (r' : R), base (W := W) r' = base r ∧ quiet r')
}.

(** ** The variables of the other threads *)
Section locals.
Context {W : Type}.
Implicit Types (P : process W) (tid : Z).

Lemma local_of_set_ne tid tid' l P : tid' ≠ tid -> local_of tid' (set_locals tid l P) = local_of tid' P.
Proof. intros Hne. unfold local_of, set_locals. cbn. by rewrite lookup_insert_ne. Qed.

Lemma local_of_put_env_ne tid tid' e P : tid' ≠ tid -> local_of tid' (put_env tid e P) = local_of tid' P.
Proof. intros Hne. unfold local_of at 1, put_env. cbn. by rewrite lookup_insert_ne. Qed.

Lemma local_of_put_pool_ne tid tid' s P : tid' ≠ tid -> local_of tid' (put_pool tid s P) = local_of tid' P.
Proof. intros Hne. unfold put_pool. by rewrite local_of_set_ne, local_of_put_env_ne. Qed.

End locals.

(** ** Running a task on a thread *)
Section task.
Context {W R : Type} {HR : SchedulerClass W R} {HL : SchedulerLaws W R}.
Context (tid : Z) (sf idle : fiber_ptr).
Implicit Types (P : process W) (r : R) (cb : callback W) (t : ScheduleTask W) (p q : fiber_ptr) (b : Fiber W).

(** The effect of [acquire] on the pool [l0] with the fibers of [P]. *)
Lemma acquire_step cb s p0 l0 :
  pool_ok s.(penv).(fibers) s.(ppool) -> s.(ppool).(m_idleFibers) = p0 :: l0 ->
  returns (acquire cb) s (λ p s', acquired cb s p s' ∧ s'.(ppool).(m_allFibers) = s.(ppool).(m_allFibers)).
Proof.
  intros Hok Heq. eapply returns_mono; [by eapply acquire_head_spec|]. intros p s' (-> & Hl & Ha). by rewrite Hl.
Qed.

Lemma runs_take_fiber cb r :
  in_run tid sf idle (base r) -> stocked tid (base r) ->
  runs (on_local_pool tid (acquire cb)) r (λ p P, ∃ l, holds tid sf idle l p (ready_fiber (Some (UserCb cb))) P ∧
    framed tid (base r) P ∧ P.(heap) !! idle = (base r).(heap) !! idle ∧ P.(sch) = (base r).(sch) ∧ P.(world) = (base r).(world)).
Proof.
  intros Hr Hstk. pose proof Hr as [Hsf Hidle Hne Hs Hb Hpool].
  (* from a pool that is there, made or not *)
  assert (∀ s0, s0.(penv).(t_scheduler_fiber) = Some sf ->
    length (base r).(heap) ≤ length s0.(penv).(fibers) ->
    (∀ q, q < length (base r).(heap) -> s0.(penv).(fibers) !! q = (base r).(heap) !! q) ->
    pool_ok s0.(penv).(fibers) s0.(ppool) -> s0.(ppool).(m_idleFibers) ≠ [] ->
    (∀ q, q ∈ s0.(ppool).(m_allFibers) -> q ≠ sf ∧ q ≠ idle ∧ (owned tid (base r) q ∨ length (base r).(heap) ≤ q)) ->
    returns (acquire cb) s0 (λ p s, let P := put_pool tid s (base r) in
      holds tid sf idle s.(ppool) p (ready_fiber (Some (UserCb cb))) P ∧ framed tid (base r) P ∧
      P.(heap) !! idle = (base r).(heap) !! idle)) as Hacq.
  { intros s0 Hts Hlen Hold Hok Hi Hall. destruct (m_idleFibers (ppool s0)) as [|p0 l0] eqn:Heq; [done|].
    eapply returns_mono; [by eapply acquire_step|].
    intros p s ((Hok' & Hp & Hni & Hbp & Hsame & _ & _ & Hts') & Ha). rewrite Ha in Hp.
    destruct (Hall p Hp) as (Hpsf & Hpi & Hpo).
    assert (∀ q, q < length (base r).(heap) -> q ≠ p -> s.(penv).(fibers) !! q = (base r).(heap) !! q) as Hkeep.
    { intros q Hq Hqp. rewrite Hsame; [by apply Hold|done|lia]. }
    assert (sf < length (base r).(heap)) by (destruct Hs as [? ?]; by eapply lookup_lt_Some).
    destruct Hb as (bi & Hbi & Hiok). assert (idle < length (base r).(heap)) by by eapply lookup_lt_Some.
    split; [|split; [|by apply Hkeep; [|congruence]]].
    - split; try done.
      + split; rewrite ?local_of_put_pool; cbn [l_scheduler_fiber l_idle_fiber l_pool heap put_pool set_locals put_env]; try done.
        * by rewrite Hts'.
        * by rewrite Hkeep by congruence.
        * exists bi. by rewrite Hkeep by congruence.
        * intros l [= <-]. split; [done|]. rewrite Ha. intros q Hq. by destruct (Hall q Hq) as (? & ? & _).
      + by rewrite local_of_put_pool.
      + by rewrite Ha.
    - split; cbn [heap put_pool set_locals put_env].
      + destruct (decide (length (heap (base r)) ≤ length (fibers (penv s)))) as [|Hlt]; [done|].
        destruct (lookup_lt_is_Some_2 (heap (base r)) (length (fibers (penv s)))) as [y Hy]; [lia|].
        destruct Hbp as (bp & Hbp & _). apply lookup_lt_Some in Hbp.
        rewrite <-Hkeep in Hy by lia. apply lookup_lt_Some in Hy. lia.
      + intros q Hq Hno. apply Hkeep; [done|]. intros ->. destruct Hpo; [done|lia].
      + intros tid' Hne'. by apply local_of_put_pool_ne.
      + intros q. unfold owned at 1. rewrite local_of_put_pool. cbn [l_scheduler_fiber l_idle_fiber l_pool].
        rewrite Hts', Hts. intros [Hq|[Hq|(l & [= <-] & Hq)]].
        * left. left. congruence.
        * left. right. by left.
        * rewrite Ha in Hq. by destruct (Hall q Hq) as (_ & _ & ?). }
  apply runs_base. destruct (l_pool (local_of tid (base r))) as [l|] eqn:Hl.
  - eapply returns_ext; [by rewrite Hl|]. apply returns_zoom. destruct (Hpool l eq_refl) as [Hok Hother].
    eapply returns_mono; [apply Hacq|]; try done; [by apply Hstk| |].
    + intros q Hq. destruct (Hother q Hq). split_and!; try done. left. right. right. by exists l.
    + intros p s (Hh & Hf & Hk). exists s.(ppool). by split_and!.
  - eapply returns_ext; [by rewrite Hl|]. apply returns_zoom, returns_bind.
    eapply returns_mono; [apply new_FiberPool_ok|].
    intros [] s0 (Hok0 & (new & Hnew & _) & Hpl & Ht & Htt & Hts).
    eapply returns_mono; [apply Hacq|].
    + by rewrite Hts.
    + rewrite Hnew, length_app. cbn. lia.
    + intros q Hq. rewrite Hnew. by apply lookup_app_l.
    + done.
    + by rewrite Hpl.
    + rewrite Hpl. cbn [m_allFibers]. intros q [Hq _]%elem_of_seq. cbn in Hq.
      destruct Hs as [? ?%lookup_lt_Some], Hb as (? & ?%lookup_lt_Some & _). split_and!; [lia..|by right].
    + intros p s (Hh & Hf & Hk). exists s.(ppool). by split_and!.
Qed.

(** A switch to fiber [p] and back writes its record and that of [sf]. *)
Record switched p (b' : Fiber W) P P' : Prop := {
  sw_others q : q ≠ p -> q ≠ sf -> P'.(heap) !! q = P.(heap) !! q;
  sw_sf : is_Some (P'.(heap) !! sf);
  sw_p : P'.(heap) !! p = Some b';
  sw_length : length P'.(heap) = length P.(heap);
  sw_l_sf : (local_of tid P').(l_scheduler_fiber) = Some sf;
  sw_l_idle : (local_of tid P').(l_idle_fiber) = (local_of tid P).(l_idle_fiber);
  sw_l_pool : (local_of tid P').(l_pool) = (local_of tid P).(l_pool);
  sw_locals tid' : tid' ≠ tid -> local_of tid' P' = local_of tid' P
}.

Lemma switched_framed p b' P P' : in_run tid sf idle P -> owned tid P p -> switched p b' P P' -> framed tid P P'.
Proof.
  intros [Hsf _ _ _ _ _] Hp [Ho _ _ Hlen Hlsf Hli Hlp Hv]. split.
  - by rewrite Hlen.
  - intros q _ Hno. apply Ho; [by intros ->|]. intros ->. apply Hno. by left.
  - done.
  - intros q. unfold owned. rewrite Hlsf, Hli, Hlp, Hsf. by left.
Qed.

(** The switched fiber is one of the pool that it has handed out, or the idle
    fiber. *)
Lemma switched_pool p b' P P' l :
  in_run tid sf idle P -> (local_of tid P).(l_pool) = Some l -> p ∈ l.(m_allFibers) -> p ∉ l.(m_idleFibers) ->
  pool_fiber b' -> switched p b' P P' -> in_run tid sf idle P'.
Proof.
  intros [Hsf Hidle Hne Hs (bi & Hbi & Hi) Hpool] Hl Hp Hni Hb' [Ho Hsf' Hp' Hlen Hlsf Hli Hlp Hv].
  destruct (Hpool l Hl) as [Hok Hother]. destruct (Hother p Hp) as [Hpsf Hpi]. split; try done.
  - by rewrite Hli.
  - exists bi. by rewrite Ho by congruence.
  - intros l'. rewrite Hlp, Hl. intros [= <-]. split; [|done]. eapply pool_ok_heap; [exact Hok| |].
    + intros q Hq. destruct (Hother q (idle_in_all _ _ Hok q Hq)). apply Ho; [by intros ->|done].
    + intros q b Hq Hb. destruct (decide (q = p)) as [->|Hqp]; [by exists b'|].
      destruct (Hother q Hq). rewrite Ho by done. by apply (all_pool_fibers _ _ Hok).
Qed.

Lemma switched_idle b' P P' :
  in_run tid sf idle P -> idle_fiber_ok b' -> switched idle b' P P' -> in_run tid sf idle P'.
Proof.
  intros [Hsf Hidle Hne Hs (bi & Hbi & Hi) Hpool] Hb' [Ho Hsf' Hp' Hlen Hlsf Hli Hlp Hv]. split; try done.
  - by rewrite Hli.
  - by exists b'.
  - intros l'. rewrite Hlp. intros Hl. destruct (Hpool l' Hl) as [Hok Hother]. split; [|done].
    assert (∀ q, q ∈ l'.(m_allFibers) -> P'.(heap) !! q = P.(heap) !! q) as Hall
      by (intros q Hq; destruct (Hother q Hq); by apply Ho).
    eapply pool_ok_heap; [exact Hok| |].
    + intros q Hq. by apply Hall, (idle_in_all _ _ Hok).
    + intros q b Hq Hb. rewrite Hall by done. by apply (all_pool_fibers _ _ Hok).
Qed.

(** The fibers a switch goes through: up to the fiber, and back when it ends or
    when it yields. *)
Lemma switch_run (e : fiber_env W) p b bs :
  e.(t_scheduler_fiber) = Some sf -> e.(fibers) !! sf = Some bs -> p ≠ sf -> e.(fibers) !! p = Some b ->
  pool_fiber b -> b.(m_state) = READY ->
  ∃ e1, resume p e = (Ret b.(m_ctx), e1) ∧ e1.(t_fiber) = Some p ∧ e1.(fibers) !! p = Some (with_state RUNNING b) ∧
    e1.(fibers) !! sf = Some (with_ctx InResume bs) ∧
    e1.(fibers) = <[sf := with_ctx InResume bs]> (<[p := with_state RUNNING b]> e.(fibers)) ∧
    e1.(t_scheduler_fiber) = Some sf.
Proof.
  intros Hts Hbs Hne Hb [_ Hrun] Hst. assert (p < length e.(fibers)) by by eapply lookup_lt_Some.
  assert (sf < length e.(fibers)) by by eapply lookup_lt_Some.
  eexists. split; [apply (resume_run p sf e b bs); try done; unfold home_of; by rewrite Hrun|].
  split; [done|]. split; [cbn; by rewrite list_lookup_insert_ne, list_lookup_insert_eq|].
  split; [|by split]. cbn. apply list_lookup_insert_eq. by rewrite length_insert.
Qed.

Lemma switch_back (e1 : fiber_env W) p b c e2 h :
  e1.(fibers) !! p = Some b -> p ≠ sf -> e1.(fibers) !! sf = Some c -> (∃ b0 : Fiber W, h !! p = Some b0) -> is_Some (h !! sf) ->
  e1.(fibers) = <[sf := c]> (<[p := b]> h) -> ∀ b', e2.(fibers) = <[p := b']> e1.(fibers) ->
  (∀ q, q ≠ p -> q ≠ sf -> e2.(fibers) !! q = h !! q) ∧ is_Some (e2.(fibers) !! sf) ∧ e2.(fibers) !! p = Some b' ∧
  length e2.(fibers) = length h.
Proof.
  intros Hb Hne Hc [b0 Hb0] [c0 Hc0] He1 b' He2. rewrite He2.
  assert (p < length e1.(fibers)) by by eapply lookup_lt_Some. split_and!.
  - intros q Hqp Hqs. rewrite list_lookup_insert_ne by done. rewrite He1. by rewrite !list_lookup_insert_ne by done.
  - rewrite list_lookup_insert_ne by done. by exists c.
  - by apply list_lookup_insert_eq.
  - rewrite length_insert, He1. by rewrite !length_insert.
Qed.

(** The fiber of a task, from the start of its callback to its end. *)
Lemma runs_run_fiber ok l p cb r :
  holds tid sf idle l p (ready_fiber (Some (UserCb cb))) (base r) -> straight ok cb ->
  runs (resume_fiber tid p) r (λ _ P, holds tid sf idle l p (λ b, pool_fiber b ∧ b.(m_state) = TERM) P ∧
    framed tid (base r) P ∧ P.(heap) !! idle = (base r).(heap) !! idle ∧ P.(world) = (effect_of cb (base r).(world)).1 ∧
    P.(sch) = set_tasks ((base r).(sch).(m_tasks) ++ (effect_of cb (base r).(world)).2) (base r).(sch)).
Proof.
  intros [Hr Hl Hp Hni (b & Hb & Hready)] Hcb. pose proof Hr as [Hsf Hidle Hne [bs Hbs] _ Hpool].
  destruct (Hpool l Hl) as [_ Hother]. destruct (Hother p Hp) as [Hpsf Hpi].
  assert (pool_fiber b) as Hpf by by eapply ready_pool_fiber. pose proof Hready as (Hstk & Hrun & Hst & Hctx & Hcb').
  destruct (switch_run (env_of tid (base r)) p b bs) as (e1 & Hres & Ht1 & Hb1 & Hs1 & Hh1 & Hts1); try done.
  assert (MainFunc_end p e1 = (Ret InResume, set_t_fiber (Some sf) (set_fibers (<[p := with_ctx InMainFuncEnd
    (with_state TERM (with_cb None (with_state RUNNING b)))]> e1.(fibers)) e1))) as Hend.
  { erewrite MainFunc_end_run; [|exact Hb1|exact Hs1|done|unfold home_of; cbn; by rewrite Hrun]. done. }
  set (e2 := set_t_fiber _ _) in Hend. set (b' := with_ctx _ _) in e2.
  unfold resume_fiber. eapply runs_bind, runs_fibers; [done|]. intros r2 Hr2. rewrite Hctx. eapply runs_bind, runs_fibers.
  { rewrite Hr2, env_of_put_env. erewrite MainFunc_begin_run by done. cbn [m_cb with_state]. by rewrite Hcb'. }
  intros r3 Hr3. cbv beta iota. eapply runs_mono; [eapply run_callback_straight; [done|]|].
  { by rewrite Hr3, env_of_put_env. }
  intros [] P ->. rewrite Hr3, Hr2.
  assert (switched p b' (base r) (put_env tid e2 (affected cb (put_env tid e1 (put_env tid e1 (base r)))))) as Hsw.
  { destruct (switch_back e1 p (with_state RUNNING b) (with_ctx InResume bs) e2 (heap (base r))
      Hb1 Hpsf Hs1 (ex_intro _ b Hb) (ex_intro _ bs Hbs) Hh1 b' eq_refl) as (H1 & H2 & H3 & H4).
    split; autorewrite with locals; cbn; try done. intros tid' Hne'. rewrite !local_of_put_env_ne by done.
    by rewrite local_of_affected, !local_of_put_env_ne by done. }
  split_and!.
  - split; try done.
    + exact (switched_pool p b' (base r) _ l Hr Hl Hp Hni Hpf Hsw).
    + by rewrite (sw_l_pool _ _ _ _ Hsw).
    + exists b'. split; [apply Hsw|done].
  - eapply switched_framed; [done| |done]. right. right. by exists l.
  - by apply (sw_others _ _ _ _ Hsw).
  - done.
  - done.
Qed.

(** The fiber goes back to the pool. *)
Lemma runs_release l p r :
  holds tid sf idle l p (λ b, pool_fiber b ∧ b.(m_state) = TERM) (base r) ->
  runs (give_back tid p) r (λ _ P, in_run tid sf idle P ∧ stocked tid P ∧ framed tid (base r) P ∧
    P.(heap) !! idle = (base r).(heap) !! idle ∧ P.(world) = (base r).(world) ∧ P.(sch) = set_active ((base r).(sch).(m_activeThreadCount) - 1) (base r).(sch)).
Proof.
  intros [Hr Hl Hp Hni (b & Hb & Hpf & Hst)]. pose proof Hr as [Hsf Hidle Hne Hs Hbi Hpool].
  destruct (Hpool l Hl) as [Hok Hother]. destruct (Hother p Hp) as [Hpsf Hpi].
  unfold give_back, fiber_state. eapply runs_bind, runs_bind, runs_fibers; [by apply get_fiber_run|].
  intros r1 Hr1. apply runs_ret. intros r2 Hr2. rewrite (bool_decide_false (m_state b = SUSPEND)) by congruence.
  rewrite Hr1 in Hr2. set (P2 := put_env tid _ _) in Hr2.
  assert (local_of tid P2 = local_of tid (base r)) as Hloc.
  { unfold P2. rewrite local_of_put_env. unfold env_of. cbn. by destruct (local_of tid (base r)). }
  destruct (release_run (mkPoolEnv (env_of tid P2) l) p b Hb Hpf (or_introl Hst)) as (b' & Hb' & Hrel).
  eapply runs_bind, runs_base, returns_ext; [by rewrite Hr2, Hloc, Hl|].
  apply returns_zoom. rewrite Hr2. eapply returns_run; [exact Hrel|].
  intros r3 Hr3. apply runs_sch. rewrite Hr3. assert (p < length (heap (base r))) by by eapply lookup_lt_Some.
  assert (pool_ok (<[p:=b']> (heap (base r))) (push_idle p l)) as Hok' by by apply pool_ok_release.
  split_and!; try done.
  - split; autorewrite with locals; cbn; try done; try (rewrite Hloc; done).
    + by rewrite list_lookup_insert_ne by done.
    + destruct Hbi as (bi & Hbi & Hi). exists bi. by rewrite list_lookup_insert_ne by done.
    + by intros l' [= <-].
  - intros l'. autorewrite with locals. cbn. intros [= <-]. cbn. by destruct (m_idleFibers l).
  - split; cbn [heap set_sch put_pool set_locals put_env].
    + cbn. by rewrite length_insert.
    + intros q _ Hno. cbn. apply list_lookup_insert_ne. intros <-. apply Hno. right. right. by exists l.
    + intros tid' Hne'. rewrite local_of_sch, local_of_put_pool_ne by done. by apply local_of_put_env_ne.
    + intros q. unfold owned. autorewrite with locals. cbn. rewrite Hloc. intros [Hq|[Hq|(l' & [= <-] & Hq)]]; left; [by left|by right; left|].
      right. right. by exists l.
  - cbn. by rewrite list_lookup_insert_ne.
Qed.

(** A task that runs to its end, from the fiber it gets to the fiber given
    back. *)
Lemma runs_exec ok cb thread r :
  in_run tid sf idle (base r) -> stocked tid (base r) -> straight ok cb ->
  runs (exec_task tid (mkTask None (Some cb) thread)) r (λ _ P, in_run tid sf idle P ∧ stocked tid P ∧ framed tid (base r) P ∧
    P.(heap) !! idle = (base r).(heap) !! idle ∧ P.(world) = (effect_of cb (base r).(world)).1 ∧
    P.(sch) = set_active ((base r).(sch).(m_activeThreadCount) - 1)
      (set_tasks ((base r).(sch).(m_tasks) ++ (effect_of cb (base r).(world)).2) (base r).(sch))).
Proof.
  intros Hr Hstk Hcb. unfold exec_task. cbn [task_fiber task_cb].
  eapply runs_bind, runs_mono; [by apply runs_take_fiber|]. intros p P (l & Hh & Hf1 & Hk1 & Hs1 & Hw1) r1 <-.
  eapply runs_bind, runs_mono; [by eapply runs_run_fiber|]. intros [] P (Hh2 & Hf2 & Hk2 & Hw2 & Hs2) r2 <-.
  eapply runs_mono; [by eapply runs_release|]. intros [] P (Hr3 & Hstk3 & Hf3 & Hk3 & Hw3 & Hs3).
  split_and!; [done|done|by eapply framed_trans, framed_trans|by rewrite Hk3, Hk2|by rewrite Hw3, Hw2, Hw1|].
  by rewrite Hs3, Hs2, Hs1, Hw1.
Qed.

(** Everything is done, and the threads are to end: what [stopping] tests. *)
Definition may_end (s : Scheduler W) : Prop :=
  m_stopping s && bool_decide (length (m_tasks s) = 0) && bool_decide (m_activeThreadCount s = 0)%Z = true.

Lemma may_end_spec (s : Scheduler W) :
  may_end s <-> s.(m_stopping) = true ∧ s.(m_tasks) = [] ∧ s.(m_activeThreadCount) = 0%Z.
Proof.
  unfold may_end. rewrite !andb_true_iff, !bool_decide_eq_true. split.
  - intros [[? Ht%nil_length_inv] ?]. done.
  - by intros (? & -> & ?).
Qed.

Lemma idle_count_back (s : Scheduler W) :
  set_idleCount (m_idleThreadCount (set_idleCount (m_idleThreadCount s + 1) s) - 1) (set_idleCount (m_idleThreadCount s + 1) s) = s.
Proof. destruct s. unfold set_idleCount. cbn. f_equal. lia. Qed.

(** A thread before [run]: new, or the one that made the scheduler. *)
Definition starting P : Prop :=
  (local_of tid P).(l_pool) = None ∧ (local_of tid P).(l_idle_fiber) = None ∧
  if decide (tid = P.(sch).(m_rootThread)) then
    (local_of tid P).(l_scheduler_fiber) = Some sf ∧ is_Some (P.(heap) !! sf)
  else (local_of tid P).(l_fiber) = None ∧ (local_of tid P).(l_scheduler_fiber) = None ∧ sf = length P.(heap).

Lemma GetThis_new (e : fiber_env W) : e.(t_fiber) = None ->
  GetThis e = (Ret (length e.(fibers)), mkEnv (e.(fibers) ++ [mkFiber e.(s_fiber_id) 0 RUNNING InResume false None None])
    (wrap_u64 (e.(s_fiber_id) + 1)) (wrap_u64 (e.(s_fiber_count) + 1)) (Some (length e.(fibers)))
    (Some (length e.(fibers))) (Some (length e.(fibers)))).
Proof.
  intros Ht. unfold GetThis. erewrite bind_run by done. rewrite Ht. erewrite bind_run by done.
  erewrite bind_run by done. erewrite bind_run by done. erewrite bind_run by done. cbn [t_fiber set_t_scheduler_fiber set_t_thread_fiber set_t_fiber].
  by rewrite bool_decide_true by done.
Qed.

(** The idle fiber is the newest of the heap [h]. *)
Lemma runs_begin_end h r :
  (base r).(heap) = h -> (local_of tid (base r)).(l_scheduler_fiber) = Some sf -> is_Some (h !! sf) ->
  (local_of tid (base r)).(l_pool) = None ->
  runs (idle_fiber ← on_fibers tid (new_Fiber (Some IdleFn) 0 true); on_locals tid (set_idle_fiber (Some idle_fiber))) r
    (λ _ P, in_run tid sf (length h) P ∧ (local_of tid P).(l_pool) = None ∧ P.(sch) = (base r).(sch) ∧ P.(world) = (base r).(world) ∧
      (∃ b, P.(heap) = h ++ [b] ∧ b.(m_state) = READY) ∧ (∀ tid', tid' ≠ tid -> local_of tid' P = local_of tid' (base r))).
Proof.
  intros Hh Hsf [bs Hs] Hpool. eapply runs_bind, runs_fibers; [done|]. intros r1 Hr1. apply runs_locals. rewrite Hr1.
  assert (sf < length h) by by eapply lookup_lt_Some. cbn. rewrite Hh. split_and!; try done.
  - split; autorewrite with locals; cbn; rewrite ?Hh, ?Hsf; try done.
    + lia.
    + exists bs. by apply lookup_app_l_Some.
    + eexists. rewrite list_lookup_middle by done. split; [done|]. split; [done|]. left. by split_and!.
    + intros l. by rewrite Hpool.
  - autorewrite with locals. cbn. by rewrite Hpool.
  - by eexists.
  - intros tid' Hne. by rewrite local_of_set_ne, local_of_put_env_ne.
Qed.

Lemma runs_start r :
  starting (base r) ->
  runs (run_begin tid) r (λ _ P, ∃ id, in_run tid sf id P ∧ stocked tid P ∧ framed tid (base r) P ∧
    P.(sch) = (base r).(sch) ∧ P.(world) = (base r).(world) ∧ ∃ b, P.(heap) !! id = Some b ∧ b.(m_state) = READY).
Proof.
  intros (Hpool & Hidle & Hstart). unfold run_begin.
  apply runs_bind, runs_locals. intros r1 Hr1. apply runs_bind, runs_locals. intros r2 Hr2. apply runs_bind, runs_gets.
  intros r3 Hr3. rewrite Hr2, Hr1 in Hr3. rewrite Hr2, Hr1. cbn [sch set_locals].
  (* what the end of it leaves, from what comes before *)
  assert (∀ r4 h0, (base r4).(heap) = (base r).(heap) ++ h0 -> (local_of tid (base r4)).(l_scheduler_fiber) = Some sf ->
    is_Some ((base r4).(heap) !! sf) -> (local_of tid (base r4)).(l_pool) = None -> (base r4).(sch) = (base r).(sch) ->
    (base r4).(world) = (base r).(world) -> (∀ tid', tid' ≠ tid -> local_of tid' (base r4) = local_of tid' (base r)) ->
    (owned tid (base r) sf ∨ length (base r).(heap) ≤ sf) ->
    runs (idle_fiber ← on_fibers tid (new_Fiber (Some IdleFn) 0 true); on_locals tid (set_idle_fiber (Some idle_fiber))) r4
      (λ _ P, ∃ id, in_run tid sf id P ∧ stocked tid P ∧ framed tid (base r) P ∧
        P.(sch) = (base r).(sch) ∧ P.(world) = (base r).(world) ∧ ∃ b, P.(heap) !! id = Some b ∧ b.(m_state) = READY)) as Hend.
  { intros r4 h0 Hh Hsf Hs Hp Hsch Hw Hloc Howned. eapply runs_mono; [by apply (runs_begin_end _ r4 eq_refl)|].
    intros [] P (Hrun & Hnone & Hs' & Hw' & (b & Hb & Hbs) & Hl). exists (length (base r4).(heap)). split_and!; try done.
    - intros l Hl0. by rewrite Hnone in Hl0.
    - split.
      + rewrite Hb, Hh, !length_app. lia.
      + intros q Hq _. rewrite Hb, Hh, lookup_app_l, lookup_app_l; [done|done|rewrite length_app; lia].
      + intros tid' Hne. by rewrite Hl, Hloc.
      + intros q. unfold owned at 1. destruct Hrun as [-> -> _ _ _ _]. intros [[= <-]|[[= <-]|(l & Hl0 & Hq)]]; [done| |].
        * right. rewrite Hh, length_app. lia.
        * by rewrite Hnone in Hl0.
    - by rewrite Hs'.
    - by rewrite Hw'.
    - exists b. split; [|done]. by rewrite Hb, list_lookup_middle. }
  case_decide as Hroot.
  - rewrite bool_decide_false by (intros Hn; by apply Hn). destruct Hstart as [Hsf Hs].
    apply runs_bind, runs_ret. intros r4 Hr4. rewrite Hr3 in Hr4. apply (Hend r4 []); rewrite ?Hr4; autorewrite with locals; cbn; try done.
    + by rewrite app_nil_r.
    + intros tid' Hne. by rewrite !local_of_set_ne.
    + left. by left.
  - rewrite bool_decide_true by done. destruct Hstart as (Hfib & Hsf & Hlen). eapply runs_bind, runs_bind, runs_fibers.
    { apply GetThis_new. rewrite Hr3. unfold env_of. autorewrite with locals. done. }
    intros r4 Hr4. apply runs_ret. intros r5 Hr5. rewrite Hr4, Hr3 in Hr5. rewrite Hlen in *.
    eapply (Hend r5 [_]); rewrite ?Hr5; autorewrite with locals; cbn; try done.
    + by rewrite list_lookup_middle.
    + intros tid' Hne. by rewrite local_of_put_env_ne, !local_of_set_ne.
    + by right.
Qed.

Context {HI : IdleLaws W R}.

(** A turn of the idle fiber, from where it was resumed. *)
Lemma runs_idle_turn (e : fiber_env W) b bs r :
  env_of tid (base r) = e -> e.(t_fiber) = Some idle -> e.(fibers) !! idle = Some b -> b.(m_state) = RUNNING -> pool_fiber b ->
  e.(fibers) !! sf = Some (with_ctx InResume bs) -> e.(t_scheduler_fiber) = Some sf -> idle ≠ sf ->
  runs (run_idle tid idle) r (λ _ P, ∃ b', idle_fiber_ok b' ∧
    (b'.(m_state) = TERM <-> may_end (base r).(sch)) ∧
    P = put_env tid (set_t_fiber (Some sf) (set_fibers (<[idle := b']> e.(fibers)) e)) (base r)).
Proof.
  intros He Ht Hb Hst [Hstk Hrun] Hs Hts Hne. unfold run_idle. apply runs_bind, runs_stopping.
  intros r1 Hr1. destruct (m_stopping (sch (base r)) && _ && _) eqn:Hend.
  - eapply runs_bind, runs_fibers.
    { rewrite Hr1, He. eapply MainFunc_end_run; [exact Hb|exact Hs|done|unfold home_of; by rewrite Hrun]. }
    intros r2 Hr2. apply runs_ret. rewrite Hr2, Hr1. eexists. split; [|split; [|reflexivity]].
    + split; [by split|]. by right; right.
    + split; [intros _; exact Hend|done].
  - apply runs_bind. intros Hq. eapply returns_mono; [by apply idle_law|]. intros [] r2 [Hr2 Hq2]. split; [|done].
    intros r3 Hr3. rewrite Hr2, Hr1 in Hr3. eapply runs_bind, runs_fibers; [rewrite Hr3, He; by apply GetThis_run|].
    intros r4 Hr4. rewrite Hr3 in Hr4. eapply runs_bind, runs_fibers.
    { rewrite Hr4, env_of_put_env. eapply yield_run; [exact Hb|exact Hs|done|by left|unfold home_of; by rewrite Hrun]. }
    intros r5 Hr5. apply runs_ret. rewrite Hr5, Hr4, put_env_put_env. rewrite bool_decide_false by congruence.
    eexists. split; [|split; [|reflexivity]].
    + split; [by split|]. by right; left.
    + cbn. split; [done|]. unfold may_end. by rewrite Hend.
Qed.

(** The idle fiber of a thread inside [run] has ended. *)
Definition idle_ended P : Prop := ∃ b, P.(heap) !! idle = Some b ∧ b.(m_state) = TERM.

Lemma runs_idle r :
  in_run tid sf idle (base r) ->
  runs (run_idle_fiber tid) r (λ go_on P, in_run tid sf idle P ∧ framed tid (base r) P ∧
    P.(sch) = (base r).(sch) ∧ P.(world) = (base r).(world) ∧ (local_of tid P).(l_pool) = (local_of tid (base r)).(l_pool) ∧
    if go_on : bool then ¬ idle_ended (base r) ∧ (idle_ended P <-> may_end (base r).(sch))
    else idle_ended (base r) ∧ idle_ended P).
Proof.
  intros Hr. pose proof Hr as [Hsf Hidle Hne [bs Hbs] (b & Hb & Hpf & Hcases) Hpool].
  unfold run_idle_fiber. apply runs_bind, runs_gets. intros r1 Hr1. rewrite Hidle.
  eapply runs_bind. unfold fiber_state. eapply runs_bind, runs_fibers_read.
  { rewrite Hr1. by apply get_fiber_run. }
  intros P HP HlP HhP HsP HwP r2 Hr2. apply runs_ret. rewrite <-Hr2 in HP, HlP, HhP, HsP, HwP. rewrite Hr1 in HP, HlP, HhP, HsP, HwP.
  intros r3 Hr3. rewrite <-Hr3 in HP, HlP, HhP, HsP, HwP. clear r2 Hr2 Hr3. rename r3 into r2.
  assert (∀ tid', local_of tid' (base r2) = local_of tid' (base r)) as Hloc.
  { intros tid'. destruct (decide (tid' = tid)) as [->|Hn]; [done|]. rewrite HP. by apply local_of_put_env_ne. }
  case_bool_decide as Hterm.
  { apply runs_ret. assert (framed tid (base r) (base r2)) as Hf by by apply framed_same.
    split_and!; try done.
    - split; rewrite ?HlP, ?HhP; try done. by exists b.
    - by rewrite HlP.
    - by exists b.
    - exists b. by rewrite HhP. }
  apply runs_bind, runs_sch. intros r3 Hr3.
  assert (b.(m_state) = READY) as Hst by (destruct Hcases as [(_ & _ & ? & _)|[[? _]|?]]; [done|done|by destruct Hterm]).
  assert (env_of tid (base r3) = env_of tid (base r)) as He3.
  { rewrite Hr3. unfold env_of. rewrite local_of_sch, HlP, HP. done. }
  destruct (switch_run (env_of tid (base r3)) idle b bs) as (e1 & Hres & Ht1 & Hb1 & Hs1 & Hh1 & Hts1).
  1-6: by rewrite ?He3.
  (* the rest, once the fiber has been resumed *)
  assert (∀ r4, base r4 = put_env tid e1 (base r3) -> runs (run_idle tid idle) r4 (λ _ P, ∃ b', idle_fiber_ok b' ∧
    (b'.(m_state) = TERM <-> may_end (base r).(sch)) ∧ switched idle b' (base r) P ∧ P.(world) = (base r).(world) ∧
    P.(sch) = set_idleCount ((base r).(sch).(m_idleThreadCount) + 1) (base r).(sch))) as Hturn.
  { intros r4 Hr4. eapply runs_mono; [eapply (runs_idle_turn e1 (with_state RUNNING b) bs); try done; by rewrite Hr4, env_of_put_env|].
    intros [] P' (b' & Hok' & Hterm' & HP'). exists b'. split; [done|]. rewrite Hr4, Hr3 in Hterm'.
    split; [by rewrite Hterm', HsP|]. rewrite Hr4, put_env_put_env, Hr3 in HP'. subst P'. rewrite He3 in Hh1.
    destruct (switch_back e1 idle (with_state RUNNING b) (with_ctx InResume bs)
      (set_t_fiber (Some sf) (set_fibers (<[idle := b']> e1.(fibers)) e1)) (heap (base r))
      Hb1 Hne Hs1 (ex_intro _ b Hb) (ex_intro _ bs Hbs) Hh1 b' eq_refl) as (H1 & H2 & H3 & H4).
    split; [|by rewrite HP]. split; autorewrite with locals; try done; cbn; rewrite ?HlP; try done.
    intros tid' Hn. rewrite local_of_put_env_ne by done. by rewrite local_of_sch. }
  eapply runs_bind. unfold resume_fiber. eapply runs_bind, runs_fibers; [exact Hres|]. intros r4 Hr4.
  eapply (runs_mono _ _ (λ _ P, ∃ b', idle_fiber_ok b' ∧
    (b'.(m_state) = TERM <-> may_end (base r).(sch)) ∧ switched idle b' (base r) P ∧ P.(world) = (base r).(world) ∧
    P.(sch) = set_idleCount ((base r).(sch).(m_idleThreadCount) + 1) (base r).(sch))).
  { destruct Hcases as [(_ & _ & _ & Hctx & Hcb)|[[_ Hctx]|?]]; [| |by destruct Hterm]; rewrite Hctx.
    - eapply runs_bind, runs_fibers.
      { rewrite Hr4, env_of_put_env. erewrite MainFunc_begin_run by done. cbn [m_cb with_state]. by rewrite Hcb. }
      intros r5 Hr5. cbv beta iota. apply Hturn. by rewrite Hr5, Hr4, put_env_put_env.
    - by apply Hturn. }
  intros [] P' (b' & Hok' & Hterm' & Hsw & Hw' & Hs') r5 Hr5. apply runs_bind, runs_sch. intros r6 Hr6. apply runs_ret.
  rewrite Hr6, Hr5, Hs'. rewrite idle_count_back.
  assert (switched idle b' (base r) (set_sch (sch (base r)) P')) as Hsw' by by destruct Hsw.
  split_and!; try done.
  - by eapply switched_idle.
  - eapply switched_framed; [done| |done]. right. by left.
  - by rewrite local_of_sch, (sw_l_pool _ _ _ _ Hsw).
  - intros (b0 & Hb0 & Ht0). by rewrite Hb in Hb0; simplify_eq.
  - rewrite <-Hterm'. unfold idle_ended. rewrite (sw_p _ _ _ _ Hsw'). naive_solver.
Qed.

End task.
