(* ===== verification/FdManager.v ===== *)
(** * The manager of file descriptors

    [co-pro/corotinue-fiber-pool/fd_manager.h] and [fd_manager.cpp]. The system
    is an interface: what [fstat] says of a descriptor and the two [fcntl]
    commands the code uses, on a state [K] of the system. A
    [shared_ptr<FdCtx>] is an index into a heap of contexts. *)

From S2P Require Export Prelude.

(** The file status flag the code sets, on Linux. *)
Definition O_NONBLOCK : Z := 2048.

(** The calls to the system: [fstat] answers whether the descriptor is a
    socket, [None] when it fails; [fcntl(F_GETFL)] and [fcntl(F_SETFL)]. *)
Class Kernel (K : Type) := {
  fstat : K -> Z -> option bool;
  getfl : K -> Z -> Z;
  setfl : Z -> Z -> K -> K
}.

(** What POSIX says of them: the flags are kept per descriptor, and setting
    them sets [O_NONBLOCK] and changes nothing else. (Other bits, like the
    access mode, [fcntl(F_SETFL)] ignores.) *)
Class KernelLaws (K : Type) `{Kernel K} := {
  getfl_setfl k fd v b : fstat k fd = Some b ->
    Z.land (getfl (setfl fd v k) fd) O_NONBLOCK = Z.land v O_NONBLOCK;
  getfl_setfl_ne k fd fd' v : fd ≠ fd' -> getfl (setfl fd v k) fd' = getfl k fd';
  fstat_setfl k fd fd' v : fstat (setfl fd v k) fd' = fstat k fd'
}.

(** [FdCtx]. *)
Record FdCtx := mkFdCtx {
  m_isInit : bool;
  m_isSocket : bool;
  m_sysNonblock : bool;
  m_userNonblock : bool;
  m_isClosed : bool;
  m_fd : Z;
  m_recvTimeout : Z;
  m_sendTimeout : Z
}.

Abbreviation ctx_ptr := nat.

(** The members as declared, before [init]. *)
Definition blank_FdCtx (fd : Z) : FdCtx := mkFdCtx false false false false false fd u64_max u64_max.

Definition setUserNonblock (v : bool) (c : FdCtx) : FdCtx :=
  mkFdCtx c.(m_isInit) c.(m_isSocket) c.(m_sysNonblock) v c.(m_isClosed) c.(m_fd) c.(m_recvTimeout) c.(m_sendTimeout).
Definition setSysNonblock (v : bool) (c : FdCtx) : FdCtx :=
  mkFdCtx c.(m_isInit) c.(m_isSocket) v c.(m_userNonblock) c.(m_isClosed) c.(m_fd) c.(m_recvTimeout) c.(m_sendTimeout).
Definition set_init (init sock : bool) (c : FdCtx) : FdCtx :=
  mkFdCtx init sock c.(m_sysNonblock) c.(m_userNonblock) c.(m_isClosed) c.(m_fd) c.(m_recvTimeout) c.(m_sendTimeout).

(** [SO_RCVTIMEO] and [SO_SNDTIMEO], on Linux. *)
Definition SO_RCVTIMEO : Z := 20.
Definition SO_SNDTIMEO : Z := 21.

Definition setTimeout (type v : Z) (c : FdCtx) : FdCtx :=
  if bool_decide (type = SO_RCVTIMEO)
  then mkFdCtx c.(m_isInit) c.(m_isSocket) c.(m_sysNonblock) c.(m_userNonblock) c.(m_isClosed) c.(m_fd) v c.(m_sendTimeout)
  else mkFdCtx c.(m_isInit) c.(m_isSocket) c.(m_sysNonblock) c.(m_userNonblock) c.(m_isClosed) c.(m_fd) c.(m_recvTimeout) v.

Definition getTimeout (type : Z) (c : FdCtx) : Z :=
  if bool_decide (type = SO_RCVTIMEO) then c.(m_recvTimeout) else c.(m_sendTimeout).

(** The bit of a set of flags. *)
Definition has_flag (flags bit : Z) : bool := negb (bool_decide (Z.land flags bit = 0)%Z).

Section manager.
Context {K : Type} {HK : Kernel K}.

(** [FdManager], with the heap of contexts and the system. *)
Record FdManager := mkFdManager {
  m_datas : list (option ctx_ptr);
  ctxs : list FdCtx;
  kernel : K
}.
Implicit Types (s : FdManager) (fd : Z).

Abbreviation fd_prog A := (prog std_exception FdManager A).

Definition set_datas (l : list (option ctx_ptr)) s : FdManager := mkFdManager l s.(ctxs) s.(kernel).

(** [init()] on the context and the system: what is left of both. *)
Definition init (c : FdCtx) (k : K) : FdCtx * K :=
  if c.(m_isInit) then (c, k)
  else
    let c := match fstat k c.(m_fd) with
             | None => set_init false false c
             | Some sock => set_init true sock c
             end in
    if c.(m_isSocket) then
      let flags := getfl k c.(m_fd) in
      (setSysNonblock true c,
       if has_flag flags O_NONBLOCK then k else setfl c.(m_fd) (Z.lor flags O_NONBLOCK) k)
    else (setSysNonblock false c, k).

(** [FdCtx::FdCtx(fd)], on the heap. *)
Definition new_FdCtx fd : fd_prog ctx_ptr := λ s,
  let '(c, k) := init (blank_FdCtx fd) s.(kernel) in
  (Ret (length s.(ctxs)), mkFdManager s.(m_datas) (s.(ctxs) ++ [c]) k).

(** [FdManager::FdManager()]. *)
Definition new_FdManager (k : K) : FdManager := mkFdManager (replicate 64 None) [] k.

(** [vector::resize], with null pointers. *)
Definition resize_datas (n : nat) (l : list (option ctx_ptr)) : list (option ctx_ptr) :=
  take n l ++ replicate (n - length l) None.

(** [m_datas[fd]]: out of range is undefined. *)
Definition datas_at fd : fd_prog (option ctx_ptr) :=
  s ← get;
  match s.(m_datas) !! Z.to_nat fd with
  | Some p => if bool_decide (0 <= fd)%Z then mret p else halt UndefinedBehaviour
  | None => halt UndefinedBehaviour
  end.
Definition set_datas_at fd (p : option ctx_ptr) : fd_prog unit :=
  datas_at fd;;
  modify (λ s, set_datas (<[Z.to_nat fd := p]> s.(m_datas)) s).

(** [m_datas.size() <= fd], which compares as [size_t]. *)
Definition beyond fd s : bool := bool_decide (Z.of_nat (length s.(m_datas)) <= wrap_u64 fd)%Z.

(** [m_datas.resize(fd*1.5)]: a negative [double] has no value in [size_t]. *)
Definition grow fd : fd_prog unit :=
  if bool_decide (fd < 0)%Z then halt UndefinedBehaviour
  else modify (λ s, set_datas (resize_datas (Z.to_nat (fd * 3 / 2)) s.(m_datas)) s).

Definition create fd : fd_prog (option ctx_ptr) :=
  s ← get;
  (if beyond fd s then grow fd else mret tt);;
  p ← new_FdCtx fd;
  set_datas_at fd (Some p);;
  datas_at fd.

Definition get_ctx fd (auto_create : bool) : fd_prog (option ctx_ptr) :=
  if bool_decide (fd = -1)%Z then mret None
  else
    s ← get;
    if beyond fd s then
      if auto_create then create fd else mret None
    else
      p ← datas_at fd;
      if bool_decide (is_Some p) || negb auto_create then mret p else create fd.

Definition del fd : fd_prog unit :=
  s ← get;
  if beyond fd s then mret tt else set_datas_at fd None.

End manager.
Arguments FdManager : clear implicits.

(** ** Facts *)

Section facts.
Context {K : Type} {HK : Kernel K}.
Implicit Types (s : FdManager K) (fd : Z).

(** The abstract state: the context of each descriptor. *)
Definition lookup_fd s fd : option ctx_ptr :=
  if bool_decide (0 <= fd)%Z then m_datas s !! Z.to_nat fd ≫= id else None.

Lemma beyond_spec fd s : (0 <= fd < 2 ^ 64)%Z -> beyond fd s = bool_decide (length (m_datas s) ≤ Z.to_nat fd).
Proof. intros ?. unfold beyond. rewrite wrap_u64_small by done. apply bool_decide_ext. lia. Qed.

Lemma datas_at_run fd s p :
  (0 <= fd)%Z -> m_datas s !! Z.to_nat fd = Some p -> datas_at fd s = (Ret p, s).
Proof. intros ? Hp. unfold datas_at. erewrite bind_run by done. by rewrite Hp, bool_decide_true. Qed.

Lemma set_datas_at_run fd s p p' :
  (0 <= fd)%Z -> m_datas s !! Z.to_nat fd = Some p ->
  set_datas_at fd p' s = (Ret tt, set_datas (<[Z.to_nat fd := p']> (m_datas s)) s).
Proof. intros ? Hp. unfold set_datas_at. by erewrite bind_run by by apply datas_at_run. Qed.

Lemma resize_datas_lookup n l i :
  length l ≤ n -> resize_datas n l !! i = if bool_decide (i < n) then Some (l !! i ≫= id) else None.
Proof.
  intros Hn. unfold resize_datas. rewrite take_ge by done. destruct (decide (i < length l)) as [Hi|Hi].
  - rewrite lookup_app_l, bool_decide_true by lia. apply lookup_lt_is_Some in Hi as [x Hx]. by rewrite Hx.
  - rewrite lookup_app_r by lia. rewrite (lookup_ge_None_2 l) by lia. cbn. case_bool_decide.
    + by rewrite lookup_replicate_2 by lia.
    + by rewrite lookup_ge_None_2 by (rewrite length_replicate; lia).
Qed.

(** What the creation of a context does to the system: a socket becomes
    nonblocking, and nothing else changes. *)
Definition created fd (k : K) (c : FdCtx) (k' : K) : Prop :=
  c.(m_fd) = fd ∧ c.(m_isClosed) = false ∧ c.(m_userNonblock) = false ∧
  c.(m_recvTimeout) = u64_max ∧ c.(m_sendTimeout) = u64_max ∧
  c.(m_isInit) = bool_decide (is_Some (fstat k fd)) ∧
  c.(m_isSocket) = bool_decide (fstat k fd = Some true) ∧ c.(m_sysNonblock) = c.(m_isSocket) ∧
  (c.(m_isSocket) = false -> k' = k) ∧
  (c.(m_isSocket) = true -> has_flag (getfl k' fd) O_NONBLOCK = true) ∧
  (∀ fd', fd' ≠ fd -> getfl k' fd' = getfl k fd') ∧ (∀ fd', fstat k' fd' = fstat k fd').

Lemma has_flag_lor v : has_flag (Z.lor v O_NONBLOCK) O_NONBLOCK = true.
Proof.
  unfold has_flag. apply negb_true_iff, bool_decide_eq_false. intros H0.
  assert (Z.testbit (Z.land (Z.lor v O_NONBLOCK) O_NONBLOCK) 11 = true) as Hb.
  { rewrite Z.land_spec, Z.lor_spec. change (Z.testbit O_NONBLOCK 11) with true. by rewrite orb_true_r. }
  by rewrite H0, Z.bits_0 in Hb.
Qed.

Lemma init_created `{!KernelLaws K} fd (k : K) : created fd k (init (blank_FdCtx fd) k).1 (init (blank_FdCtx fd) k).2.
Proof.
  unfold init, created; cbn. destruct (fstat k fd) as [[]|] eqn:Hf; cbn; [|by split_and!..].
  destruct (has_flag (getfl k fd) O_NONBLOCK) eqn:Hfl; split_and!; try done; intros.
  - unfold has_flag. rewrite (getfl_setfl k fd _ true) by done. apply has_flag_lor.
  - by apply getfl_setfl_ne.
  - apply fstat_setfl.
Qed.

Lemma new_FdCtx_run fd s :
  new_FdCtx fd s = (Ret (length (ctxs s)), mkFdManager (m_datas s)
    (ctxs s ++ [(init (blank_FdCtx fd) (kernel s)).1]) (init (blank_FdCtx fd) (kernel s)).2).
Proof. unfold new_FdCtx. by destruct (init _ _). Qed.

(** [create] of a descriptor without a context. *)
Lemma create_run fd s :
  2 ≤ length (m_datas s) -> (0 <= fd < 2 ^ 64)%Z ->
  ∃ s', create fd s = (Ret (Some (length (ctxs s))), s') ∧
    ctxs s' = ctxs s ++ [(init (blank_FdCtx fd) (kernel s)).1] ∧ kernel s' = (init (blank_FdCtx fd) (kernel s)).2 ∧
    length (m_datas s) ≤ length (m_datas s') ∧ lookup_fd s' fd = Some (length (ctxs s)) ∧
    ∀ fd', fd' ≠ fd -> lookup_fd s' fd' = lookup_fd s fd'.
Proof.
  intros Hlen Hfd. unfold create. erewrite bind_run by done.
  set (s1 := if beyond fd s then set_datas (resize_datas (Z.to_nat (fd * 3 / 2)) (m_datas s)) s else s).
  assert ((if beyond fd s then grow fd else mret tt) s = (Ret tt, s1)) as Hgrow.
  { unfold s1, grow. destruct (beyond fd s); [|done]. by rewrite bool_decide_false by lia. }
  erewrite bind_run by exact Hgrow.
  assert (ctxs s1 = ctxs s ∧ kernel s1 = kernel s) as [Hc Hk] by (unfold s1; by destruct (beyond fd s)).
  assert (∀ fd', lookup_fd s1 fd' = lookup_fd s fd') as Hsame.
  { intros fd'. unfold s1. rewrite beyond_spec by done. case_bool_decide as Hb; [|done].
    unfold lookup_fd. case_bool_decide; [|done]. cbn [m_datas set_datas].
    assert (fd * 3 / 2 >= fd)%Z by (apply Z.le_ge, Z.div_le_lower_bound; lia).
    rewrite resize_datas_lookup by lia. case_bool_decide as Hi; cbn; [by destruct (_ ≫= _)|].
    rewrite lookup_ge_None_2 by lia. done. }
  assert (Z.to_nat fd < length (m_datas s1) ∧ length (m_datas s) ≤ length (m_datas s1)) as [Hin Hle].
  { unfold s1. rewrite beyond_spec by done. case_bool_decide as Hb; [|lia]. cbn.
    assert (fd + 1 <= fd * 3 / 2)%Z by (apply Z.div_le_lower_bound; lia).
    unfold resize_datas. rewrite length_app, length_take, length_replicate. lia. }
  apply lookup_lt_is_Some in Hin as [q Hq].
  erewrite bind_run by apply new_FdCtx_run. rewrite Hc, Hk.
  set (s2 := mkFdManager _ _ _).
  erewrite bind_run by by (apply (set_datas_at_run fd s2 q); [lia|exact Hq]).
  assert (Z.to_nat fd < length (m_datas s2)) by by eapply lookup_lt_Some.
  eexists. split; [apply datas_at_run; [lia|]; cbn; by rewrite list_lookup_insert_eq|].
  split_and!; try done; cbn.
  - by rewrite length_insert.
  - unfold lookup_fd. cbn. by rewrite bool_decide_true, list_lookup_insert_eq by (done || lia).
  - intros fd' Hne. rewrite <-Hsame. unfold lookup_fd. case_bool_decide; [|done]. cbn.
    by rewrite list_lookup_insert_ne by lia.
Qed.

(** [get] of a descriptor that is not negative, without creation. *)
Lemma get_ctx_lookup fd s : (0 <= fd <= int_max)%Z -> get_ctx fd false s = (Ret (lookup_fd s fd), s).
Proof.
  unfold int_max. intros Hfd. unfold get_ctx. rewrite bool_decide_false by lia.
  erewrite bind_run by done. rewrite beyond_spec by lia. case_bool_decide as Hb.
  - unfold lookup_fd. rewrite bool_decide_true by lia. by rewrite lookup_ge_None_2 by lia.
  - assert (Z.to_nat fd < length (m_datas s)) as [p Hp]%lookup_lt_is_Some by lia.
    erewrite bind_run by (apply datas_at_run; [lia|done]). rewrite orb_true_r.
    unfold lookup_fd. by rewrite bool_decide_true, Hp by lia.
Qed.

(** [del] of a descriptor that is not negative. *)
Lemma del_run fd s : (0 <= fd <= int_max)%Z ->
  ∃ s', del fd s = (Ret tt, s') ∧ lookup_fd s' fd = None ∧
    (∀ fd', fd' ≠ fd -> lookup_fd s' fd' = lookup_fd s fd') ∧
    length (m_datas s') = length (m_datas s) ∧ ctxs s' = ctxs s ∧ kernel s' = kernel s.
Proof.
  unfold int_max. intros Hfd. unfold del. erewrite bind_run by done. rewrite beyond_spec by lia. case_bool_decide as Hb.
  - exists s. split_and!; try done. unfold lookup_fd. by rewrite bool_decide_true, lookup_ge_None_2 by lia.
  - assert (Z.to_nat fd < length (m_datas s)) as Hlt by lia. pose proof Hlt as [p Hp]%lookup_lt_is_Some.
    eexists. split; [eapply set_datas_at_run; [lia|done]|]. cbn. split_and!; try done; [..|by rewrite length_insert].
    + unfold lookup_fd. cbn. by rewrite bool_decide_true, list_lookup_insert_eq by (done || lia).
    + intros fd' Hne. unfold lookup_fd. case_bool_decide; [|done]. cbn. by rewrite list_lookup_insert_ne by lia.
Qed.

(** [get] with creation, of a descriptor that is not negative. *)
Lemma get_ctx_create `{!KernelLaws K} fd s : 2 ≤ length (m_datas s) -> (0 <= fd <= int_max)%Z ->
  ∃ p s', get_ctx fd true s = (Ret (Some p), s') ∧ lookup_fd s' fd = Some p ∧
    (∀ fd', fd' ≠ fd -> lookup_fd s' fd' = lookup_fd s fd') ∧ length (m_datas s) ≤ length (m_datas s') ∧
    match lookup_fd s fd with
    | Some q => p = q ∧ s' = s
    | None => p = length (ctxs s) ∧
        ∃ c, ctxs s' = ctxs s ++ [c] ∧ created fd (kernel s) c (kernel s')
    end.
Proof.
  unfold int_max. intros Hlen Hfd. assert (0 <= fd < 2 ^ 64)%Z as Hu by lia.
  unfold get_ctx. rewrite bool_decide_false by lia. destruct (create_run fd s Hlen Hu) as (s' & Hcr & Hcs & Hks & Hle & Hl & Hne).
  pose proof (init_created fd (kernel s)) as Hinit. rewrite <-Hks in Hinit.
  erewrite bind_run by done. rewrite beyond_spec by done. case_bool_decide as Hb.
  - exists (length (ctxs s)), s'. split_and!; try done.
    unfold lookup_fd. rewrite bool_decide_true, lookup_ge_None_2 by lia. cbn. split; [done|]. by eexists.
  - assert (Z.to_nat fd < length (m_datas s)) as [[p|] Hp]%lookup_lt_is_Some by lia;
      erewrite bind_run by (apply datas_at_run; [lia|done]); cbn [negb].
    + assert (lookup_fd s fd = Some p) as Hl' by (unfold lookup_fd; by rewrite bool_decide_true, Hp by lia).
      exists p, s. rewrite Hl', (bool_decide_true (is_Some (Some p))) by by eexists. by split_and!.
    + exists (length (ctxs s)), s'. rewrite (bool_decide_false (is_Some None)) by by intros []. split_and!; try done.
      unfold lookup_fd. rewrite bool_decide_true, Hp by lia. cbn. split; [done|]. by eexists.
Qed.

(** C31. The manager is a map from descriptors to contexts. For a descriptor
    that is not negative, [get] without creation looks it up and changes
    nothing; with creation it answers the context there is, or makes one, which
    no other descriptor has, and stores it, after which a socket is nonblocking
    in the system and everything else is as before; [del] removes it. No access
    is out of range, however the vector grows. For a negative descriptor there
    is never a context; but asking for one to be created, for any other than -1,
    resizes the vector by a negative number. *)
Theorem fd_manager_refines `{!KernelLaws K} s fd :
  2 ≤ length (m_datas s) -> (Z.of_nat (length (m_datas s)) <= 2 ^ 63)%Z ->
  (int_min <= fd <= int_max)%Z ->
  ((0 <= fd)%Z ->
    get_ctx fd false s = (Ret (lookup_fd s fd), s) ∧
    (∃ p s', get_ctx fd true s = (Ret (Some p), s') ∧ lookup_fd s' fd = Some p ∧
      (∀ fd', fd' ≠ fd -> lookup_fd s' fd' = lookup_fd s fd') ∧ length (m_datas s) ≤ length (m_datas s') ∧
      match lookup_fd s fd with
      | Some q => p = q ∧ s' = s
      | None => p = length (ctxs s) ∧
          ∃ c, ctxs s' = ctxs s ++ [c] ∧ created fd (kernel s) c (kernel s')
      end) ∧
    (∃ s', del fd s = (Ret tt, s') ∧ lookup_fd s' fd = None ∧
      (∀ fd', fd' ≠ fd -> lookup_fd s' fd' = lookup_fd s fd') ∧
      length (m_datas s') = length (m_datas s) ∧ ctxs s' = ctxs s ∧ kernel s' = kernel s)) ∧
  ((fd < 0)%Z -> get_ctx fd false s = (Ret None, s) ∧
    (fd ≠ (-1)%Z -> (get_ctx fd true s).1 = Halt UndefinedBehaviour)).
Proof.
  intros Hlen Hmax Hfd. unfold int_min, int_max in Hfd. split.
  - intros Hpos. split_and!; [apply get_ctx_lookup|apply get_ctx_create; [done|]|apply del_run]; unfold int_max; lia.
  - intros Hneg. assert (beyond fd s = true) as Hb.
    { unfold beyond, wrap_u64. apply bool_decide_eq_true.
      rewrite <-(Z.mod_add fd 1) by done. rewrite Z.mod_small by lia. lia. }
    unfold get_ctx. destruct (decide (fd = -1)%Z) as [->|Hne]; [done|].
    rewrite bool_decide_false by done. erewrite !bind_run by done. rewrite Hb. split; [done|]. intros _.
    unfold create. erewrite bind_run by done. rewrite Hb. unfold grow. by rewrite bool_decide_true.
Qed.

End facts.

(** ** A concrete system *)

(** Descriptors with their flags; the even ones are sockets. *)
Definition sample_kernel : Type := list Z.
#[export] Instance sample_kernel_ops : Kernel sample_kernel := {|
  fstat k fd := if bool_decide (0 <= fd < Z.of_nat (length k))%Z then Some (Z.even fd) else None;
  getfl k fd := if bool_decide (0 <= fd)%Z then from_option (λ v, Z.land v 4095) (-1)%Z (k !! Z.to_nat fd) else (-1)%Z;
  setfl fd v k := if bool_decide (0 <= fd)%Z then <[Z.to_nat fd := v]> k else k
|}.
#[export] Instance sample_kernel_laws : KernelLaws sample_kernel.
Proof.
  split; cbn; intros k fd.
  - intros v b. case_bool_decide as Hfd; [|done]. intros _. rewrite !bool_decide_true by lia.
    rewrite list_lookup_insert_eq by (unfold sample_kernel in *; lia). cbn. by rewrite <-Z.land_assoc.
  - intros fd' v Hne. repeat case_bool_decide; try done. by rewrite list_lookup_insert_ne by lia.
  - intros fd' v. destruct (bool_decide (0 <= fd)%Z); [|done]. by rewrite length_insert.
Defined.

Lemma fd_manager_refines_witness :
  let s := new_FdManager (replicate 200 0%Z : sample_kernel) in
  ∃ p s', get_ctx 100 true s = (Ret (Some p), s') ∧ lookup_fd s' 100 = Some p ∧
    (∀ fd', fd' ≠ 100%Z -> lookup_fd s' fd' = lookup_fd s fd').
Proof.
  destruct (fd_manager_refines (new_FdManager (replicate 200 0%Z : sample_kernel)) 100) as [Hpos _].
  - cbn. lia.
  - cbn. lia.
  - by vm_compute.
  - destruct Hpos as (_ & (p & s' & ? & ? & ? & _) & _); [done|]. by exists p, s'.
Defined.
