(* ===== verification/IOManager.v ===== *)
(** * The manager of I/O events

    [co-pro/corotinue-fiber-pool/ioscheduler.h] and [ioscheduler.cpp]: a
    [Scheduler] and a [TimerManager] with a context of events for each
    descriptor. The [epoll] instance is an interface, and so is the pipe of
    [tickle], of which only the bytes written matter. The context of descriptor
    [i] is element [i] of the vector. The locks make each operation one step. *)

From S2P Require Export Scheduler Timer.

(** ** Events *)

(** [Event] is a set of bits; [READ] is [EPOLLIN] and [WRITE] is [EPOLLOUT]. *)
Definition NONE : Z := 0.
Definition READ : Z := 1.
Definition WRITE : Z := 4.
Definition EPOLLERR : Z := 8.
Definition EPOLLHUP : Z := 16.
Definition EPOLLET : Z := 2 ^ 31.

(** [a & b], as a condition. *)
Definition has (a b : Z) : bool := negb (bool_decide (Z.land a b = 0)%Z).
(** [a & ~b]. *)
Definition without (a b : Z) : Z := Z.ldiff a b.

(** ** The system *)

Inductive epoll_op := EPOLL_CTL_ADD | EPOLL_CTL_MOD | EPOLL_CTL_DEL.
#[export] Instance epoll_op_eq_dec : EqDecision epoll_op.
Proof. solve_decision. Defined.

(** A reported event: of the pipe, or of a descriptor, with its bits. *)
Inductive epoll_event :=
| TickleEvent
| FdEvent (fd : Z) (events : Z).

(** The answers of [epoll_wait]: interrupted by a signal, failed otherwise, or
    the events that are ready. *)
Inductive wait_answer :=
| Interrupted
| WaitFailed
| Ready (events : list epoll_event).

(** An [epoll] instance on a state [E]. [epoll_ctl] tells whether it
    succeeded; [epoll_wait] takes the timeout in milliseconds; [interruptions]
    bounds the waits in a row that a signal interrupts. *)
Class Epoll (E : Type) := {
  epoll_ctl : epoll_op -> Z -> Z -> E -> bool * E;
  epoll_wait : Z -> E -> wait_answer * E;
  interruptions : E -> nat
}.

(** ** Contexts *)

(** [EventContext]; of the scheduler only whether it is set matters, there
    being one. *)
Record EventContext (W : Type) := mkEventContext {
  ec_scheduler : bool;
  ec_fiber : option fiber_ptr;
  ec_cb : option (callback W)
}.
Arguments mkEventContext {W}.
Arguments ec_scheduler {W}.
Arguments ec_fiber {W}.
Arguments ec_cb {W}.

Record FdContext (W : Type) := mkFdContext {
  fc_read : EventContext W;
  fc_write : EventContext W;
  fc_fd : Z;
  fc_events : Z
}.
Arguments mkFdContext {W}.
Arguments fc_read {W}.
Arguments fc_write {W}.
Arguments fc_fd {W}.
Arguments fc_events {W}.

(** [IOManager]: the scheduler with its process, the timers, and its own
    members; [tickles] counts the bytes in the pipe. *)
Record IOManager (W E : Type) := mkIOManager {
  io_process : process W;
  io_timers : TimerManager (callback W);
  m_fdContexts : list (FdContext W);
  m_pendingEventCount : Z;
  tickles : nat;
  m_epfd : E
}.
Arguments mkIOManager {W E}.
Arguments io_process {W E}.
Arguments io_timers {W E}.
Arguments m_fdContexts {W E}.
Arguments m_pendingEventCount {W E}.
Arguments tickles {W E}.
Arguments m_epfd {W E}.

Section iomanager.
Context {W E : Type} {HE : Epoll E}.
Implicit Types (s : IOManager W E) (tid fd ev : Z) (c : FdContext W).

Abbreviation io_prog A := (prog std_exception (IOManager W E) A).

Definition set_process (P : process W) s : IOManager W E :=
  mkIOManager P s.(io_timers) s.(m_fdContexts) s.(m_pendingEventCount) s.(tickles) s.(m_epfd).
Definition set_io_timers (t : TimerManager (callback W)) s : IOManager W E :=
  mkIOManager s.(io_process) t s.(m_fdContexts) s.(m_pendingEventCount) s.(tickles) s.(m_epfd).
Definition set_fdContexts (l : list (FdContext W)) s : IOManager W E :=
  mkIOManager s.(io_process) s.(io_timers) l s.(m_pendingEventCount) s.(tickles) s.(m_epfd).
Definition set_pending (n : Z) s : IOManager W E :=
  mkIOManager s.(io_process) s.(io_timers) s.(m_fdContexts) (wrap_u64 n) s.(tickles) s.(m_epfd).
Definition set_tickles (n : nat) s : IOManager W E :=
  mkIOManager s.(io_process) s.(io_timers) s.(m_fdContexts) s.(m_pendingEventCount) n s.(m_epfd).
Definition set_epfd (e : E) s : IOManager W E :=
  mkIOManager s.(io_process) s.(io_timers) s.(m_fdContexts) s.(m_pendingEventCount) s.(tickles) e.

Definition set_events ev c : FdContext W := mkFdContext c.(fc_read) c.(fc_write) c.(fc_fd) ev.

(** A call to [epoll_ctl] on the instance: whether it failed. *)
Definition ctl (op : epoll_op) fd ev : io_prog bool :=
  s ← get;
  let '(ok, e) := epoll_ctl op fd ev s.(m_epfd) in
  modify (set_epfd e);;
  mret (negb ok).

(** ** [tickle] and the base class *)

Definition io_tickle : io_prog unit :=
  s ← get;
  if bool_decide (s.(io_process).(sch).(m_idleThreadCount) > 0)%Z
  then modify (set_tickles (s.(tickles) + 1))
  else mret tt.

#[export] Instance io_base : SchedulerBase W (IOManager W E) := {|
  base := io_process;
  set_base := set_process;
  tickle _ := io_tickle
|}.

(** A program of [TimerManager], where [onTimerInsertedAtFront] is [tickle]. *)
Definition on_timers {A} (m : prog std_exception (TimerManager (callback W)) A) : io_prog A :=
  s ← get;
  let n := s.(io_timers).(front_calls) in
  a ← zoom io_timers set_io_timers m;
  s' ← get;
  (if bool_decide (n < s'.(io_timers).(front_calls)) then io_tickle else mret tt);;
  mret a.

(** ** Contexts of events *)

Definition empty_context : EventContext W := mkEventContext false None None.

Definition new_FdContext fd : FdContext W := mkFdContext empty_context empty_context fd NONE.

(** [vector::resize] and a new context for every null pointer. *)
Definition resize_contexts (n : nat) (l : list (FdContext W)) : list (FdContext W) :=
  take n l ++ ((λ i, new_FdContext (Z.of_nat i)) <$> seq (length l) (n - length l)).
Definition contextResize (n : nat) : io_prog unit :=
  modify (λ s, set_fdContexts (resize_contexts n s.(m_fdContexts)) s).

(** [m_fdContexts[fd]->...]; out of range is undefined. *)
Definition get_context fd : io_prog (FdContext W) :=
  s ← get;
  if bool_decide (fd < 0)%Z then halt UndefinedBehaviour
  else match s.(m_fdContexts) !! Z.to_nat fd with
       | Some c => mret c
       | None => halt UndefinedBehaviour
       end.
Definition set_context fd (f : FdContext W -> FdContext W) : io_prog unit :=
  modify (λ s, set_fdContexts (alter f (Z.to_nat fd) s.(m_fdContexts)) s).

(** [getEventContext(event)], as what to read and how to write it. *)
Definition getEventContext ev c : io_prog (EventContext W) :=
  assert (bool_decide (ev = READ ∨ ev = WRITE));;
  mret (if bool_decide (ev = READ) then c.(fc_read) else c.(fc_write)).
Definition put_event_context ev (x : EventContext W) c : FdContext W :=
  if bool_decide (ev = READ) then mkFdContext x c.(fc_write) c.(fc_fd) c.(fc_events)
  else mkFdContext c.(fc_read) x c.(fc_fd) c.(fc_events).
Definition resetEventContext fd ev : io_prog unit :=
  set_context fd (put_event_context ev empty_context).

Definition triggerEvent tid fd ev : io_prog unit :=
  c ← get_context fd;
  assert (has c.(fc_events) ev);;
  set_context fd (set_events (without c.(fc_events) ev));;
  c ← get_context fd;
  x ← getEventContext ev c;
  (if x.(ec_scheduler) then
     match x.(ec_cb) with
     | Some cb => scheduleLock tid (mkTask None (Some cb) (-1))
     | None => scheduleLock tid (mkTask x.(ec_fiber) None (-1))
     end
   else halt UndefinedBehaviour);;
  resetEventContext fd ev.

(** ** Registering events *)

(** The end of [addEvent], once the context is known. *)
Definition add_to_context tid fd ev (cb : option (callback W)) : io_prog Z :=
  c ← get_context fd;
  if has c.(fc_events) ev then mret (-1)%Z
  else
    let op := if bool_decide (c.(fc_events) = 0)%Z then EPOLL_CTL_ADD else EPOLL_CTL_MOD in
    rt ← ctl op fd (Z.lor (Z.lor EPOLLET c.(fc_events)) ev);
    if rt : bool then mret (-1)%Z
    else
      modify (λ s, set_pending (s.(m_pendingEventCount) + 1) s);;
      set_context fd (set_events (Z.lor c.(fc_events) ev));;
      x ← getEventContext ev c;
      assert (negb x.(ec_scheduler) && bool_decide (x.(ec_fiber) = None) && bool_decide (length (option_list x.(ec_cb)) = 0));;
      P ← gets io_process;
      match cb with
      | Some cb =>
          set_context fd (put_event_context ev (mkEventContext (local_of tid P).(l_scheduler) None (Some cb)));;
          mret 0%Z
      | None =>
          f ← on_fibers tid GetThis;
          set_context fd (put_event_context ev (mkEventContext (local_of tid P).(l_scheduler) (Some f) None));;
          b ← on_fibers tid (get_fiber f);
          assert (bool_decide (b.(m_state) = RUNNING));;
          mret 0%Z
      end.

(** Whether descriptor [fd] has a context: [(int)m_fdContexts.size() > fd]. *)
Definition has_context fd s : bool := bool_decide (fd < Z.of_nat (length s.(m_fdContexts)))%Z.

Definition addEvent tid fd ev (cb : option (callback W)) : io_prog Z :=
  s ← get;
  (if has_context fd s then mret tt else contextResize (Z.to_nat (fd * 3 / 2)));;
  add_to_context tid fd ev cb.

Definition delEvent fd ev : io_prog bool :=
  s ← get;
  if has_context fd s then
    c ← get_context fd;
    if has c.(fc_events) ev then
      let new_events := without c.(fc_events) ev in
      let op := if bool_decide (new_events = 0)%Z then EPOLL_CTL_DEL else EPOLL_CTL_MOD in
      rt ← ctl op fd (Z.lor EPOLLET new_events);
      if rt : bool then mret true
      else
        modify (λ s, set_pending (s.(m_pendingEventCount) - 1) s);;
        set_context fd (set_events new_events);;
        c ← get_context fd;
        getEventContext ev c;;
        resetEventContext fd ev;;
        mret true
    else mret false
  else mret false.

Definition cancelEvent tid fd ev : io_prog bool :=
  s ← get;
  if has_context fd s then
    c ← get_context fd;
    if has c.(fc_events) ev then
      let new_events := without c.(fc_events) ev in
      let op := if bool_decide (new_events = 0)%Z then EPOLL_CTL_DEL else EPOLL_CTL_MOD in
      rt ← ctl op fd (Z.lor EPOLLET new_events);
      if rt : bool then mret true
      else
        modify (λ s, set_pending (s.(m_pendingEventCount) - 1) s);;
        set_context fd (set_events new_events);;
        triggerEvent tid fd ev;;
        mret true
    else mret false
  else mret false.

(** [triggerEvent(event); --m_pendingEventCount] when [events] has the bit. *)
Definition trigger_if tid fd (events ev : Z) : io_prog unit :=
  if has events ev then
    triggerEvent tid fd ev;;
    modify (λ s, set_pending (s.(m_pendingEventCount) - 1) s)
  else mret tt.

Definition cancelAll tid fd : io_prog bool :=
  s ← get;
  if has_context fd s then
    c ← get_context fd;
    if bool_decide (c.(fc_events) = 0)%Z then mret false
    else
      rt ← ctl EPOLL_CTL_DEL fd 0;
      if rt : bool then mret true
      else
        trigger_if tid fd c.(fc_events) READ;;
        c ← get_context fd;
        trigger_if tid fd c.(fc_events) WRITE;;
        c ← get_context fd;
        assert (bool_decide (c.(fc_events) = 0)%Z);;
        mret true
  else mret false.

(** ** [stopping] and [idle] *)

Definition io_stopping : io_prog bool :=
  timeout ← on_timers getNextTimer;
  if bool_decide (timeout = u64_max) then
    s ← get;
    if bool_decide (s.(m_pendingEventCount) = 0)%Z then base_stopping else mret false
  else mret false.

(** [MAX_TIMEOUT], in milliseconds, and the timeout of the next wait. *)
Definition MAX_TIMEOUT : Z := 5000.
Definition next_timeout : io_prog Z :=
  t ← on_timers getNextTimer;
  mret (Z.min t MAX_TIMEOUT).

(** The loop around [epoll_wait]. *)
Fixpoint wait_loop (fuel : nat) : io_prog (list epoll_event) :=
  match fuel with
  | 0 => halt Diverged
  | S fuel =>
      t ← next_timeout;
      s ← get;
      let '(answer, e) := epoll_wait t s.(m_epfd) in
      modify (set_epfd e);;
      match answer with
      | Interrupted => wait_loop fuel
      | WaitFailed => mret []
      | Ready events => mret events
      end
  end.

Definition wait_events : io_prog (list epoll_event) :=
  s ← get;
  wait_loop (S (interruptions s.(m_epfd))).

(** The expired timers, as tasks; an empty function is not queued. *)
Fixpoint schedule_expired tid (cbs : list (option (callback W))) : io_prog unit :=
  match cbs with
  | [] => mret tt
  | cb :: cbs => scheduleLock tid (mkTask None cb (-1));; schedule_expired tid cbs
  end.

Definition expired_timers tid : io_prog unit :=
  s ← get;
  match listExpiredCb (S (length s.(io_timers).(m_timers))) s.(io_timers) with
  | None => halt Diverged
  | Some (cbs, t) => modify (set_io_timers t);; schedule_expired tid cbs
  end.

(** One ready event. *)
Definition handle_event tid (event : epoll_event) : io_prog unit :=
  match event with
  | TickleEvent => modify (set_tickles 0)
  | FdEvent fd events =>
      c ← get_context fd;
      let events := if has events (Z.lor EPOLLERR EPOLLHUP)
                    then Z.lor events (Z.land (Z.lor READ WRITE) c.(fc_events)) else events in
      let real_events := Z.lor (if has events READ then READ else NONE)
                               (if has events WRITE then WRITE else NONE) in
      if bool_decide (Z.land c.(fc_events) real_events = NONE) then mret tt
      else
        let left_events := without c.(fc_events) real_events in
        let op := if bool_decide (left_events = 0)%Z then EPOLL_CTL_DEL else EPOLL_CTL_MOD in
        rt ← ctl op c.(fc_fd) (Z.lor EPOLLET left_events);
        if rt : bool then mret tt
        else
          trigger_if tid fd real_events READ;;
          trigger_if tid fd real_events WRITE
  end.

Fixpoint handle_events tid (events : list epoll_event) : io_prog unit :=
  match events with
  | [] => mret tt
  | event :: events => handle_event tid event;; handle_events tid events
  end.

(** The body of the loop of [idle]. *)
Definition io_idle_body tid : io_prog unit :=
  events ← wait_events;
  expired_timers tid;;
  handle_events tid events.

#[export] Instance io_class : SchedulerClass W (IOManager W E) := {|
  stopping _ := io_stopping;
  idle_body := io_idle_body
|}.

(** [IOManager::IOManager(threads, use_caller, name)], where [tickle_fd] is
    the read end of the pipe and [ids] are the ids of the new threads; the
    members are fresh. *)
Definition new_IOManager tid (threads : nat) (use_caller : bool) (name : string)
    (tickle_fd : Z) (ids : list Z) : io_prog unit :=
  new_Scheduler tid threads use_caller name;;
  rt ← ctl EPOLL_CTL_ADD tickle_fd (Z.lor READ EPOLLET);
  assert (negb rt);;
  contextResize 32;;
  start ids.

(** [IOManager::~IOManager()], up to the joins of [stop]: whether [run] ended
    within the fuel. *)
Definition delete_IOManager (fuel : nat) tid : io_prog bool :=
  ended ← stop fuel tid;
  modify (set_fdContexts []);;
  mret ended.

End iomanager.
