(* ===== verification/IOManagerFacts.v ===== *)
(** * Facts on the manager of I/O events

    The invariant of the contexts and of the [epoll] instance, what a turn of
    [idle] does with the ready events, and where the assertions of
    [triggerEvent] fail. *)

From S2P Require Export IOManager SchedulerFacts TimerFacts.

(** What the system promises of [epoll]: the interest list changes as
    [epoll_ctl] says, and only when it succeeds; a wait does not change it, and
    reports each descriptor once, with bits asked for, or an error, or a
    hang-up. After [interruptions] waits in a row a wait is not interrupted. *)
Class EpollLaws (E : Type) {HE : Epoll E} := {
  interest : E -> Z -> option Z;
  ctl_fail op fd ev e e' : epoll_ctl op fd ev e = (false, e') ->
    ∀ fd', interest e' fd' = interest e fd';
  ctl_ok op fd ev e e' : epoll_ctl op fd ev e = (true, e') ->
    interest e' fd = match op with EPOLL_CTL_DEL => None | _ => Some ev end ∧
    ∀ fd', fd' ≠ fd -> interest e' fd' = interest e fd';
  wait_interest t e answer e' : epoll_wait t e = (answer, e') -> ∀ fd, interest e' fd = interest e fd;
  wait_reports t e l e' : epoll_wait t e = (Ready l, e') ->
    ∀ fd ev, FdEvent fd ev ∈ l -> ∃ mask, interest e fd = Some mask ∧
      (has ev READ = true -> has mask READ = true) ∧ (has ev WRITE = true -> has mask WRITE = true);
  wait_once t e l e' : epoll_wait t e = (Ready l, e') ->
    NoDup (omap (λ x, match x with FdEvent fd _ => Some fd | TickleEvent => None end) l);
  wait_interruptions t e e' : epoll_wait t e = (Interrupted, e') ->
    interruptions e' < interruptions e
}.

Section facts.
Context {W E : Type} {HE : Epoll E} {HL : EpollLaws E}.
Implicit Types (s : IOManager W E) (tid fd ev : Z) (c : FdContext W).

(** ** The invariant *)

(** The context of an event that is registered holds a task; of one that is
    not, nothing. *)
Definition slot_ok (registered : bool) (x : EventContext W) : Prop :=
  if registered then
    x.(ec_scheduler) = true ∧
    (is_Some x.(ec_cb) ∧ x.(ec_fiber) = None ∨ x.(ec_cb) = None ∧ is_Some x.(ec_fiber))
  else x = empty_context.

(** The sets of events a context may have. *)
Definition event_sets : list Z := [0%Z; 1%Z; 4%Z; 5%Z].

Record context_ok (i : nat) c : Prop := {
  ok_fd : c.(fc_fd) = Z.of_nat i;
  ok_events : c.(fc_events) ∈ event_sets;
  ok_read : slot_ok (has c.(fc_events) READ) c.(fc_read);
  ok_write : slot_ok (has c.(fc_events) WRITE) c.(fc_write)
}.

(** How many events a set has, and how many are registered. *)
Definition count_events (ev : Z) : nat :=
  (if has ev READ then 1 else 0) + (if has ev WRITE then 1 else 0).
Definition registered (l : list (FdContext W)) : nat := sum_list_with (λ c, count_events c.(fc_events)) l.

(** What the [epoll] instance is asked for on a descriptor. *)
Definition wanted (l : list (FdContext W)) fd : option Z :=
  if bool_decide (fd < 0)%Z then None
  else c ← l !! Z.to_nat fd;
       if bool_decide (c.(fc_events) = 0)%Z then None else Some (Z.lor EPOLLET c.(fc_events)).

(** Every context is consistent, the pending count is the number of registered
    events, and the instance watches exactly those, and the pipe [tfd]. *)
Record io_ok (tfd : Z) s : Prop := {
  ok_contexts i c : s.(m_fdContexts) !! i = Some c -> context_ok i c;
  ok_pending : s.(m_pendingEventCount) = wrap_u64 (Z.of_nat (registered s.(m_fdContexts)));
  ok_interest fd : fd ≠ tfd -> interest s.(m_epfd) fd = wanted s.(m_fdContexts) fd;
  ok_size : 2 ≤ length s.(m_fdContexts)
}.

(** The parts of the state the invariant reads. *)
Definition same_io s s' : Prop :=
  s'.(m_fdContexts) = s.(m_fdContexts) ∧ s'.(m_pendingEventCount) = s.(m_pendingEventCount) ∧
  s'.(m_epfd) = s.(m_epfd) ∧ s'.(io_timers) = s.(io_timers).

Lemma io_ok_same tfd s s' : io_ok tfd s -> same_io s s' -> io_ok tfd s'.
Proof. intros [? ? ? ?] (Hc & Hp & He & _). by split; rewrite ?Hc, ?Hp, ?He. Qed.

(** ** Sets of events *)

Lemma event_sets_cases ev : ev ∈ event_sets -> ev = 0%Z ∨ ev = 1%Z ∨ ev = 4%Z ∨ ev = 5%Z.
Proof. unfold event_sets. set_solver. Qed.

(** An event that can be registered. *)
Definition an_event (ev : Z) : Prop := ev = READ ∨ ev = WRITE.

Lemma an_event_READ : an_event READ.
Proof. by left. Qed.
Lemma an_event_WRITE : an_event WRITE.
Proof. by right. Qed.

Ltac event_cases Hev :=
  apply event_sets_cases in Hev; destruct Hev as [Hev|[Hev|[Hev|Hev]]].

Lemma event_sets_lor ev ev' : ev ∈ event_sets -> an_event ev' -> Z.lor ev ev' ∈ event_sets.
Proof. intros Hev [->| ->]; event_cases Hev; rewrite Hev; apply (bool_decide_unpack _); by vm_compute. Qed.

Lemma event_sets_without ev ev' : ev ∈ event_sets -> an_event ev' -> without ev ev' ∈ event_sets.
Proof. intros Hev [->| ->]; event_cases Hev; rewrite Hev; apply (bool_decide_unpack _); by vm_compute. Qed.

Lemma has_lor ev ev' e : ev ∈ event_sets -> an_event ev' -> an_event e ->
  has (Z.lor ev ev') e = has ev e || bool_decide (e = ev').
Proof. intros Hev [->| ->] [->| ->]; event_cases Hev; rewrite Hev; by vm_compute. Qed.

Lemma has_without ev ev' e : ev ∈ event_sets -> an_event ev' -> an_event e ->
  has (without ev ev') e = has ev e && negb (bool_decide (e = ev')).
Proof. intros Hev [->| ->] [->| ->]; event_cases Hev; rewrite Hev; by vm_compute. Qed.

Lemma count_lor ev ev' : ev ∈ event_sets -> an_event ev' -> has ev ev' = false ->
  count_events (Z.lor ev ev') = S (count_events ev).
Proof. intros Hev [->| ->]; event_cases Hev; rewrite Hev; by vm_compute. Qed.

Lemma count_without ev ev' : ev ∈ event_sets -> an_event ev' -> has ev ev' = true ->
  S (count_events (without ev ev')) = count_events ev.
Proof. intros Hev [->| ->]; event_cases Hev; rewrite Hev; by vm_compute. Qed.

Lemma no_events ev : ev ∈ event_sets -> ev = 0%Z <-> has ev READ = false ∧ has ev WRITE = false.
Proof. intros Hev. event_cases Hev; rewrite Hev; vm_compute; naive_solver. Qed.

(** ** Contexts *)

Definition slot ev c : EventContext W := if bool_decide (ev = READ) then c.(fc_read) else c.(fc_write).

Lemma context_slot i c ev : context_ok i c -> an_event ev -> slot_ok (has c.(fc_events) ev) (slot ev c).
Proof. intros [? ? ? ?] [->| ->]; done. Qed.

(** A context with another event registered, and with one taken back. *)
Definition with_event ev (x : EventContext W) c : FdContext W := put_event_context ev x (set_events (Z.lor c.(fc_events) ev) c).
Definition less_event ev c : FdContext W :=
  put_event_context ev empty_context (set_events (without c.(fc_events) ev) c).

Lemma put_read x c : put_event_context READ x c = mkFdContext x c.(fc_write) c.(fc_fd) c.(fc_events).
Proof. done. Qed.
Lemma put_write x c : put_event_context WRITE x c = mkFdContext c.(fc_read) x c.(fc_fd) c.(fc_events).
Proof. done. Qed.

Lemma with_event_ok i c ev x :
  context_ok i c -> an_event ev -> slot_ok true x -> context_ok i (with_event ev x c).
Proof.
  intros [Hfd Hev Hr Hw] Ha Hx. unfold with_event.
  pose proof (event_sets_lor _ _ Hev Ha) as Hin.
  pose proof (has_lor _ _ READ Hev Ha an_event_READ) as HR.
  pose proof (has_lor _ _ WRITE Hev Ha an_event_WRITE) as HW.
  destruct Ha as [->| ->]; rewrite ?put_read, ?put_write; split; cbn [fc_read fc_write fc_fd fc_events set_events];
    try done; rewrite ?HR, ?HW; rewrite ?bool_decide_true, ?bool_decide_false by done;
    by rewrite ?orb_true_r, ?orb_false_r.
Qed.

Lemma less_event_ok i c ev : context_ok i c -> an_event ev -> context_ok i (less_event ev c).
Proof.
  intros [Hfd Hev Hr Hw] Ha. unfold less_event.
  pose proof (event_sets_without _ _ Hev Ha) as Hin.
  pose proof (has_without _ _ READ Hev Ha an_event_READ) as HR.
  pose proof (has_without _ _ WRITE Hev Ha an_event_WRITE) as HW.
  destruct Ha as [->| ->]; rewrite ?put_read, ?put_write; split; cbn [fc_read fc_write fc_fd fc_events set_events];
    try done; rewrite ?HR, ?HW; rewrite ?bool_decide_true, ?bool_decide_false by done; cbn [negb];
    by rewrite ?andb_true_r, ?andb_false_r.
Qed.

Lemma fc_events_put ev x c : fc_events (put_event_context ev x c) = fc_events c.
Proof. unfold put_event_context. by case_bool_decide. Qed.

Lemma registered_insert l i c c' : l !! i = Some c ->
  registered (<[i := c']> l) + count_events c.(fc_events) = registered l + count_events c'.(fc_events).
Proof.
  intros Hi. unfold registered. rewrite <-(take_drop_middle l i c Hi) at 2.
  rewrite insert_take_drop by by eapply lookup_lt_Some.
  rewrite !sum_list_with_app. cbn. lia.
Qed.

(** ** Steps of the operations *)

Lemma get_context_run fd s c :
  (0 <= fd)%Z -> s.(m_fdContexts) !! Z.to_nat fd = Some c -> get_context fd s = (Ret c, s).
Proof.
  intros Hfd Hc. unfold get_context. erewrite bind_run by done. by rewrite bool_decide_false, Hc by lia.
Qed.

Lemma set_context_run fd f s c :
  s.(m_fdContexts) !! Z.to_nat fd = Some c ->
  set_context fd f s = (Ret tt, set_fdContexts (<[Z.to_nat fd := f c]> s.(m_fdContexts)) s).
Proof. intros Hc. unfold set_context, modify. by erewrite list_alter_insert. Qed.

Lemma ctl_run op fd ev s ok e :
  epoll_ctl op fd ev s.(m_epfd) = (ok, e) -> ctl op fd ev s = (Ret (negb ok), set_epfd e s).
Proof. intros He. unfold ctl. erewrite bind_run by done. by rewrite He. Qed.

Lemma getEventContext_run ev c s : an_event ev -> getEventContext ev c s = (Ret (slot ev c), s).
Proof. intros Ha. unfold getEventContext. by rewrite (bool_decide_true _ Ha). Qed.

Lemma same_io_refl s : same_io s s.
Proof. done. Qed.

Lemma same_io_trans s s' s'' : same_io s s' -> same_io s' s'' -> same_io s s''.
Proof. unfold same_io. intros (? & ? & ? & ?) (? & ? & ? & ?). split_and!; congruence. Qed.

(** [tickle] writes to the pipe at most. *)
Lemma io_tickle_run s : ∃ s', io_tickle s = (Ret tt, s') ∧ same_io s s' ∧ io_process s' = io_process s.
Proof.
  unfold io_tickle. erewrite bind_run by done. case_bool_decide; [|by exists s].
  by exists (set_tickles (tickles s + 1) s).
Qed.

(** The process with one more task. *)
Definition queued (t : ScheduleTask W) (P : process W) : process W :=
  set_sch (set_tasks (m_tasks (sch P) ++ [t]) (sch P)) P.

Lemma scheduleLock_io tid t s : has_task t = true ->
  ∃ s', scheduleLock tid t s = (Ret tt, s') ∧ same_io s s' ∧ io_process s' = queued t (io_process s).
Proof.
  intros Ht. unfold scheduleLock. erewrite bind_run by done. rewrite Ht.
  set (s1 := set_process (queued t (io_process s)) s).
  rewrite (bind_run _ _ s tt s1) by done. case_bool_decide.
  - destruct (io_tickle_run s1) as (s' & Hrun & Hsame & HP). by exists s'.
  - by exists s1.
Qed.

(** The task an event context holds. *)
Definition task_of x : ScheduleTask W :=
  match x.(ec_cb) with
  | Some cb => mkTask None (Some cb) (-1)
  | None => mkTask x.(ec_fiber) None (-1)
  end.

(** [triggerEvent] of a registered event: its task is queued, and the event is
    no longer registered. *)
Lemma trigger_run tid fd ev s c :
  (0 <= fd)%Z -> s.(m_fdContexts) !! Z.to_nat fd = Some c -> context_ok (Z.to_nat fd) c ->
  an_event ev -> has c.(fc_events) ev = true ->
  ∃ s', triggerEvent tid fd ev s = (Ret tt, s') ∧
    m_fdContexts s' = <[Z.to_nat fd := less_event ev c]> (m_fdContexts s) ∧
    m_pendingEventCount s' = m_pendingEventCount s ∧ m_epfd s' = m_epfd s ∧ io_timers s' = io_timers s ∧
    io_process s' = queued (task_of (slot ev c)) (io_process s).
Proof.
  intros Hfd Hc Hok Ha Hhas. assert (Z.to_nat fd < length (m_fdContexts s)) by by eapply lookup_lt_Some.
  unfold triggerEvent. erewrite bind_run by by apply get_context_run. rewrite Hhas. erewrite bind_run by done.
  erewrite bind_run by by apply set_context_run.
  erewrite bind_run by (apply get_context_run; [done|cbn; by apply list_lookup_insert_eq]).
  erewrite bind_run by by apply getEventContext_run.
  assert (slot ev (set_events (without (fc_events c) ev) c) = slot ev c) as ->
    by (unfold slot; by case_bool_decide).
  pose proof (context_slot _ _ _ Hok Ha) as Hslot. rewrite Hhas in Hslot. destruct Hslot as [Hsch Htask].
  rewrite Hsch. set (s1 := set_fdContexts _ s).
  assert (has_task (task_of (slot ev c)) = true) as Hht.
  { unfold has_task, task_of. destruct Htask as [[[cb ->] _]|[-> [f ->]]]; cbn; done. }
  destruct (scheduleLock_io tid _ s1 Hht) as (s2 & Hrun & (Hc2 & Hp2 & He2 & Ht2) & HP2).
  erewrite bind_run.
  2:{ rewrite <-Hrun. unfold task_of. by destruct (ec_cb (slot ev c)). }
  eexists. split.
  { apply set_context_run. rewrite Hc2. cbn. by apply list_lookup_insert_eq. }
  cbn. rewrite Hc2, HP2. cbn. by rewrite list_insert_insert_eq.
Qed.

(** [triggerEvent] of one that is not fails its assertion. *)
Lemma trigger_asserts tid fd ev s c :
  (0 <= fd)%Z -> s.(m_fdContexts) !! Z.to_nat fd = Some c -> has c.(fc_events) ev = false ->
  triggerEvent tid fd ev s = (Halt AssertFailed, s).
Proof.
  intros Hfd Hc Hhas. unfold triggerEvent. erewrite bind_run by by apply get_context_run.
  rewrite Hhas. by erewrite bind_halt.
Qed.

(** ** One ready event *)

(** The state after the event [ev] of descriptor [fd] was triggered. *)
Record triggered fd ev c s s' : Prop := {
  tr_contexts : m_fdContexts s' = <[Z.to_nat fd := less_event ev c]> (m_fdContexts s);
  tr_pending : m_pendingEventCount s' = wrap_u64 (m_pendingEventCount s - 1);
  tr_epfd : m_epfd s' = m_epfd s;
  tr_timers : io_timers s' = io_timers s;
  tr_process : io_process s' = queued (task_of (slot ev c)) (io_process s)
}.

Lemma trigger_if_run tid fd events ev s c :
  (0 <= fd)%Z -> s.(m_fdContexts) !! Z.to_nat fd = Some c -> context_ok (Z.to_nat fd) c ->
  an_event ev -> (has events ev = true -> has c.(fc_events) ev = true) ->
  ∃ s', trigger_if tid fd events ev s = (Ret tt, s') ∧
    if has events ev then triggered fd ev c s s' else s' = s.
Proof.
  intros Hfd Hc Hok Ha Hhas. unfold trigger_if. destruct (has events ev); [|by exists s].
  destruct (trigger_run tid fd ev s c Hfd Hc Hok Ha (Hhas eq_refl)) as (s' & Hrun & Hcs & Hp & He & Ht & HP).
  erewrite bind_run by exact Hrun. eexists. split; [done|]. split; cbn; try done. by rewrite Hp.
Qed.

(** The invariant without the part on [epoll]. *)
Record contexts_ok s : Prop := {
  cok_contexts i c : s.(m_fdContexts) !! i = Some c -> context_ok i c;
  cok_pending : s.(m_pendingEventCount) = wrap_u64 (Z.of_nat (registered s.(m_fdContexts)));
  cok_size : 2 ≤ length s.(m_fdContexts)
}.

Lemma io_ok_contexts tfd s : io_ok tfd s -> contexts_ok s.
Proof. by intros []. Qed.

Lemma contexts_ok_io tfd s :
  contexts_ok s -> (∀ fd, fd ≠ tfd -> interest s.(m_epfd) fd = wanted s.(m_fdContexts) fd) -> io_ok tfd s.
Proof. by intros []. Qed.

Lemma wrap_u64_pred n : wrap_u64 (wrap_u64 (n + 1) - 1) = wrap_u64 n.
Proof. unfold wrap_u64. rewrite Zminus_mod_idemp_l. f_equal. lia. Qed.

Lemma wrap_u64_succ n : wrap_u64 (wrap_u64 n + 1) = wrap_u64 (n + 1).
Proof. unfold wrap_u64. by rewrite Zplus_mod_idemp_l. Qed.

(** Taking an event back keeps the contexts and the count consistent. *)
Lemma less_event_contexts fd ev c s s' :
  contexts_ok s -> s.(m_fdContexts) !! Z.to_nat fd = Some c -> an_event ev -> has c.(fc_events) ev = true ->
  m_fdContexts s' = <[Z.to_nat fd := less_event ev c]> (m_fdContexts s) ->
  m_pendingEventCount s' = wrap_u64 (m_pendingEventCount s - 1) -> contexts_ok s'.
Proof.
  intros [Hok Hp Hsz] Hc Ha Hhas Hcs Hps. pose proof (Hok _ _ Hc) as Hcok.
  assert (Z.to_nat fd < length (m_fdContexts s)) by by eapply lookup_lt_Some.
  split; rewrite ?Hcs, ?Hps, ?length_insert; try done.
  - intros i c' Hi. destruct (decide (i = Z.to_nat fd)) as [->|Hne].
    + rewrite list_lookup_insert_eq in Hi by done. injection Hi as <-. by apply less_event_ok.
    + rewrite list_lookup_insert_ne in Hi by done. by apply Hok.
  - pose proof (registered_insert (m_fdContexts s) (Z.to_nat fd) c (less_event ev c) Hc) as Hreg.
    unfold less_event in Hreg at 2. rewrite fc_events_put in Hreg. cbn [fc_events set_events] in Hreg.
    pose proof (count_without _ _ (ok_events _ _ Hcok) Ha Hhas).
    rewrite Hp. replace (Z.of_nat (registered (m_fdContexts s)))
      with (Z.of_nat (registered (<[Z.to_nat fd:=less_event ev c]> (m_fdContexts s))) + 1)%Z by lia.
    apply wrap_u64_pred.
Qed.

(** The events of a descriptor that a report makes ready. *)
Definition ready (events : Z) c (e : Z) : bool :=
  if has events (Z.lor EPOLLERR EPOLLHUP) then has events e || has c.(fc_events) e else has events e.

Definition ready_tasks (events : Z) c : list (ScheduleTask W) :=
  (if ready events c READ then [task_of c.(fc_read)] else []) ++
  (if ready events c WRITE then [task_of c.(fc_write)] else []).

(** The context when they have been triggered. *)
Definition serviced (events : Z) c : FdContext W :=
  let c' := if ready events c READ then less_event READ c else c in
  if ready events c WRITE then less_event WRITE c' else c'.

(** ** Bits *)

Lemma has_bit a k : (0 <= k)%Z -> has a (2 ^ k) = Z.testbit a k.
Proof.
  intros Hk. unfold has. destruct (Z.testbit a k) eqn:Hb.
  - apply negb_true_iff, bool_decide_eq_false. intros H0.
    assert (Z.testbit (Z.land a (2 ^ k)) k = true) as Ht.
    { by rewrite Z.land_spec, Hb, Z.pow2_bits_true. }
    by rewrite H0, Z.bits_0 in Ht.
  - apply negb_false_iff, bool_decide_eq_true, Z.bits_inj'. intros i Hi.
    rewrite Z.land_spec, Z.bits_0, Z.pow2_bits_eqb by done.
    destruct (Z.eqb_spec k i) as [<-|?]; [by rewrite Hb|by rewrite andb_false_r].
Qed.

Lemma has_READ a : has a READ = Z.testbit a 0.
Proof. by apply (has_bit a 0). Qed.
Lemma has_WRITE a : has a WRITE = Z.testbit a 2.
Proof. by apply (has_bit a 2). Qed.

(** The bits the code computes for a reported event. *)
Definition reported (events : Z) c : Z :=
  if has events (Z.lor EPOLLERR EPOLLHUP)
  then Z.lor events (Z.land (Z.lor READ WRITE) c.(fc_events)) else events.
Definition real_events (events : Z) c : Z :=
  Z.lor (if has (reported events c) READ then READ else NONE)
        (if has (reported events c) WRITE then WRITE else NONE).

Lemma has_reported events c e : an_event e -> has (reported events c) e = ready events c e.
Proof.
  unfold reported, ready. intros [->| ->]; destruct (has events (Z.lor _ _)); try done;
    rewrite ?has_READ, ?has_WRITE, Z.lor_spec, Z.land_spec; done.
Qed.

Lemma has_real events c e : an_event e -> has (real_events events c) e = ready events c e.
Proof.
  intros Ha. unfold real_events. rewrite (has_reported _ _ _ an_event_READ), (has_reported _ _ _ an_event_WRITE).
  destruct Ha as [->| ->]; by destruct (ready events c READ), (ready events c WRITE).
Qed.

Lemma real_events_cases events c :
  real_events events c = Z.lor (if ready events c READ then READ else NONE) (if ready events c WRITE then WRITE else NONE).
Proof. unfold real_events. by rewrite (has_reported _ _ _ an_event_READ), (has_reported _ _ _ an_event_WRITE). Qed.

(** When the ready events are registered: whether there is any, and what is
    left. *)
Lemma real_none i events c : context_ok i c -> (∀ e, an_event e -> ready events c e = true -> has c.(fc_events) e = true) ->
  Z.land c.(fc_events) (real_events events c) = NONE <-> ready events c READ = false ∧ ready events c WRITE = false.
Proof.
  intros Hok Hr. rewrite real_events_cases. pose proof (Hr READ an_event_READ) as HR.
  pose proof (Hr WRITE an_event_WRITE) as HW. pose proof (ok_events _ _ Hok) as Hev.
  destruct (ready events c READ), (ready events c WRITE);
    event_cases Hev; rewrite Hev in *; vm_compute in HR, HW |- *; naive_solver.
Qed.

Lemma serviced_events i events c :
  context_ok i c -> (∀ e, an_event e -> ready events c e = true -> has c.(fc_events) e = true) ->
  fc_events (serviced events c) = without c.(fc_events) (real_events events c).
Proof.
  intros Hok Hr. rewrite real_events_cases. unfold serviced.
  pose proof (Hr READ an_event_READ) as HR. pose proof (Hr WRITE an_event_WRITE) as HW.
  pose proof (ok_events _ _ Hok) as Hev.
  destruct (ready events c READ), (ready events c WRITE); unfold less_event; rewrite ?fc_events_put;
    cbn [fc_events set_events]; rewrite ?fc_events_put; cbn [fc_events set_events];
    event_cases Hev; rewrite Hev; by vm_compute.
Qed.

(** ** The turn of one event *)

(** A report that the contexts agree with: a descriptor other than the pipe,
    with only registered events ready. *)
Definition report_ok (tfd : Z) s (x : epoll_event) : Prop :=
  match x with
  | TickleEvent => True
  | FdEvent fd events => (0 <= fd)%Z ∧ fd ≠ tfd ∧ ∃ c, s.(m_fdContexts) !! Z.to_nat fd = Some c ∧
      ∀ e, an_event e -> has events e = true -> has c.(fc_events) e = true
  end.

Lemma ready_registered events c :
  (∀ e, an_event e -> has events e = true -> has c.(fc_events) e = true) ->
  ∀ e, an_event e -> ready events c e = true -> has c.(fc_events) e = true.
Proof.
  intros Hr e Ha. unfold ready. destruct (has events (Z.lor _ _)); [|auto].
  intros [?|?]%orb_true_iff; auto.
Qed.

(** What a turn does: nothing that matters when no event is ready or
    [epoll_ctl] fails; else the tasks of the ready events are queued and the
    events taken back. *)
Definition no_turn s s' : Prop := m_fdContexts s' = m_fdContexts s ∧ io_process s' = io_process s.
Definition turn_done s (x : epoll_event) s' : Prop :=
  match x with
  | TickleEvent => no_turn s s'
  | FdEvent fd events => ∃ c, s.(m_fdContexts) !! Z.to_nat fd = Some c ∧
      (no_turn s s' ∧ (ready events c READ = false ∧ ready events c WRITE = false ∨
                       ∃ op mask, (epoll_ctl op fd mask s.(m_epfd)).1 = false) ∨
       m_fdContexts s' = <[Z.to_nat fd := serviced events c]> (m_fdContexts s) ∧
       m_tasks (sch (io_process s')) = m_tasks (sch (io_process s)) ++ ready_tasks events c)
  end.

Lemma turn_grows s (x : epoll_event) s' :
  turn_done s x s' -> ∃ l, m_tasks (sch (io_process s')) = m_tasks (sch (io_process s)) ++ l.
Proof.
  destruct x as [|fd events].
  - intros [_ ->]. exists []. by rewrite app_nil_r.
  - intros (c & _ & [[[_ ->] _]|[_ ->]]); [exists []; by rewrite app_nil_r|by eexists].
Qed.

(** Both events triggered, as [handle_event] does. *)
Lemma trigger_both tid fd events c s :
  contexts_ok s -> (0 <= fd)%Z -> s.(m_fdContexts) !! Z.to_nat fd = Some c ->
  (∀ e, an_event e -> ready events c e = true -> has c.(fc_events) e = true) ->
  ∃ s', (trigger_if tid fd (real_events events c) READ;; trigger_if tid fd (real_events events c) WRITE) s = (Ret tt, s') ∧
    contexts_ok s' ∧ m_fdContexts s' = <[Z.to_nat fd := serviced events c]> (m_fdContexts s) ∧
    m_epfd s' = m_epfd s ∧
    m_tasks (sch (io_process s')) = m_tasks (sch (io_process s)) ++ ready_tasks events c.
Proof.
  intros Hok Hfd Hc Hr. pose proof (cok_contexts _ Hok _ _ Hc) as Hcok.
  assert (Z.to_nat fd < length (m_fdContexts s)) as Hlt by by eapply lookup_lt_Some.
  destruct (trigger_if_run tid fd (real_events events c) READ s c Hfd Hc Hcok an_event_READ) as (s1 & Hrun1 & Hs1).
  { rewrite has_real by apply an_event_READ. apply Hr, an_event_READ. }
  set (c1 := if ready events c READ then less_event READ c else c).
  assert (contexts_ok s1 ∧ m_fdContexts s1 = <[Z.to_nat fd := c1]> (m_fdContexts s) ∧ m_epfd s1 = m_epfd s ∧
    m_tasks (sch (io_process s1)) = m_tasks (sch (io_process s)) ++
      (if ready events c READ then [task_of (fc_read c)] else [])) as (Hok1 & Hc1 & He1 & Ht1).
  { rewrite has_real in Hs1 by apply an_event_READ. unfold c1. destruct (ready events c READ) eqn:HR.
    - destruct Hs1 as [Hcs Hps He Ht HP]. split_and!; try done; [|by rewrite HP].
      eapply less_event_contexts; eauto using an_event_READ.
    - subst s1. split_and!; try done; [by rewrite list_insert_id|by rewrite app_nil_r]. }
  assert (s1.(m_fdContexts) !! Z.to_nat fd = Some c1) as Hl1 by (rewrite Hc1; by apply list_lookup_insert_eq).
  assert (ready events c WRITE = true -> has c1.(fc_events) WRITE = true) as Hhas1.
  { intros HW%Hr; [|apply an_event_WRITE]. unfold c1. destruct (ready events c READ); [|done].
    unfold less_event. rewrite fc_events_put. cbn [fc_events set_events].
    by rewrite (has_without _ _ _ (ok_events _ _ Hcok) an_event_READ an_event_WRITE), HW. }
  assert (slot WRITE c1 = fc_write c) as Hslot by (unfold c1; by destruct (ready events c READ)).
  destruct (trigger_if_run tid fd (real_events events c) WRITE s1 c1 Hfd Hl1 (cok_contexts _ Hok1 _ _ Hl1) an_event_WRITE)
    as (s2 & Hrun2 & Hs2).
  { rewrite has_real by apply an_event_WRITE. done. }
  exists s2. split; [by erewrite bind_run by exact Hrun1|].
  rewrite has_real in Hs2 by apply an_event_WRITE. unfold serviced, ready_tasks. fold c1.
  destruct (ready events c WRITE) eqn:HW.
  - destruct Hs2 as [Hcs Hps He Ht HP]. split_and!.
    + eapply less_event_contexts; eauto using an_event_WRITE.
    + by rewrite Hcs, Hc1, list_insert_insert_eq.
    + by rewrite He.
    + rewrite HP. cbn. by rewrite Ht1, Hslot, app_assoc.
  - subst s2. split_and!; try done. by rewrite Ht1, app_nil_r.
Qed.

Lemma wanted_insert l fd fd' c : Z.to_nat fd < length l -> (0 <= fd)%Z ->
  wanted (<[Z.to_nat fd := c]> l) fd' =
    if bool_decide (fd' = fd) then (if bool_decide (c.(fc_events) = 0)%Z then None else Some (Z.lor EPOLLET c.(fc_events)))
    else wanted l fd'.
Proof.
  intros Hlt Hfd. unfold wanted. destruct (decide (fd' = fd)) as [->|Hne].
  - rewrite (bool_decide_true (fd = fd)), (bool_decide_false (fd < 0)%Z) by lia.
    by rewrite list_lookup_insert_eq.
  - rewrite (bool_decide_false (fd' = fd)) by done. case_bool_decide; [done|].
    by rewrite list_lookup_insert_ne by lia.
Qed.

(** One ready event, whose report the contexts agree with: no assertion fails,
    the invariant is kept, and the turn does what it should. *)
Lemma handle_event_run tfd tid s (x : epoll_event) :
  io_ok tfd s -> report_ok tfd s x ->
  ∃ s', handle_event tid x s = (Ret tt, s') ∧ io_ok tfd s' ∧ turn_done s x s'.
Proof.
  intros Hok Hx. destruct x as [|fd events].
  { exists (set_tickles 0 s). split; [done|]. split; [by eapply io_ok_same|done]. }
  destruct Hx as (Hfd & Htfd & c & Hc & Hr). pose proof (ready_registered events c Hr) as Hready.
  pose proof (ok_contexts _ _ Hok _ _ Hc) as Hcok.
  assert (Z.to_nat fd < length (m_fdContexts s)) as Hlt by by eapply lookup_lt_Some.
  cbn [handle_event]. erewrite bind_run by by apply get_context_run.
  change (if has events (Z.lor EPOLLERR EPOLLHUP)
          then Z.lor events (Z.land (Z.lor READ WRITE) (fc_events c)) else events) with (reported events c).
  change (Z.lor (if has (reported events c) READ then READ else NONE)
                (if has (reported events c) WRITE then WRITE else NONE)) with (real_events events c).
  case_bool_decide as Hnone.
  { exists s. split; [done|]. split; [done|]. exists c. split; [done|]. left. split; [done|]. left.
    by apply (real_none _ _ _ Hcok Hready). }
  assert (fc_fd c = fd) as Hcfd by (rewrite (ok_fd _ _ Hcok); lia). rewrite Hcfd.
  set (left_events := without (fc_events c) (real_events events c)).
  destruct (epoll_ctl (if bool_decide (left_events = 0)%Z then EPOLL_CTL_DEL else EPOLL_CTL_MOD) fd
    (Z.lor EPOLLET left_events) (m_epfd s)) as [ok e] eqn:Hctl.
  erewrite bind_run by by apply ctl_run. destruct ok; cbn [negb].
  - destruct (trigger_both tid fd events c (set_epfd e s)) as (s' & Hrun & Hok' & Hcs & He & Ht);
      [by destruct Hok|done|done|done|].
    exists s'. split; [exact Hrun|]. split; [|exists c; split; [done|by right]].
    apply contexts_ok_io; [done|]. intros fd' Hfd'. rewrite He, Hcs. cbn [m_fdContexts m_epfd set_epfd].
    apply ctl_ok in Hctl as [Hself Hother]. rewrite wanted_insert by done.
    rewrite (serviced_events _ _ _ Hcok Hready). fold left_events.
    destruct (decide (fd' = fd)) as [->|Hne]; [rewrite (bool_decide_true (fd = fd)) by done|
      rewrite (bool_decide_false (fd' = fd)) by done].
    + rewrite Hself. by destruct (bool_decide (left_events = 0)%Z).
    + rewrite Hother by done. by apply Hok.
  - exists (set_epfd e s). split; [done|]. split.
    2:{ exists c. split; [done|]. left. split; [done|]. right. eexists _, _. by rewrite Hctl. }
    apply contexts_ok_io; [by destruct Hok|]. intros fd' Hfd'. cbn [m_fdContexts m_epfd set_epfd].
    rewrite (ctl_fail _ _ _ _ _ Hctl). by apply Hok.
Qed.

(** ** A turn of [idle] *)

(** What the timers keep when they are only looked at. *)
Definition timers_kept (t t' : TimerManager (callback W)) : Prop :=
  timer_heap t' = timer_heap t ∧ m_timers t' = m_timers t ∧ m_previouseTime t' = m_previouseTime t ∧
  system_clock t' = system_clock t ∧ front_calls t' = front_calls t.

(** The timers are well formed, and the clock does not jump back. *)
Definition timers_calm (t : TimerManager (callback W)) : Prop :=
  timers_ok t ∧ periods_ok t.(timer_heap) t.(m_timers) ∧
  ∀ n, (t.(m_previouseTime) - milliseconds (60 * 60 * 1000) <= t.(system_clock) n)%Z.

Lemma timers_kept_refl t : timers_kept t t.
Proof. done. Qed.

Lemma timers_calm_kept t t' : timers_calm t -> timers_kept t t' -> timers_calm t'.
Proof.
  intros (Hok & Hper & Hclock) (Hh & Hm & Hp & Hc & _). unfold timers_calm, timers_ok.
  rewrite Hh, Hm, Hp, Hc. by split_and!.
Qed.

Lemma getNextTimer_run (t : TimerManager (callback W)) : timers_ok t ->
  ∃ ms t', getNextTimer t = (Ret ms, t') ∧ timers_kept t t'.
Proof.
  intros [_ Halive]. unfold getNextTimer. erewrite bind_run by done. erewrite bind_run by done. cbn [m_timers set_tickled].
  destruct (m_timers t) as [|p l] eqn:Hl; [by eexists _, _|].
  apply Forall_cons in Halive as [(x & Hx & _) _]. erewrite bind_run by done.
  erewrite bind_run by (apply get_timer_run; exact Hx). case_decide; by eexists _, _.
Qed.

(** The same state with the timers only looked at. *)
Definition only_looked s s' : Prop :=
  ∃ t, s' = set_io_timers t s ∧ timers_kept s.(io_timers) t.

Lemma on_timers_getNextTimer s : timers_ok s.(io_timers) ->
  ∃ ms s', on_timers getNextTimer s = (Ret ms, s') ∧ only_looked s s'.
Proof.
  intros Hok. destruct (getNextTimer_run _ Hok) as (ms & t & Hrun & Hkept).
  unfold on_timers. erewrite bind_run by done. erewrite bind_run by by apply zoom_run.
  erewrite bind_run by done. rewrite bool_decide_false.
  - erewrite bind_run by done. exists ms, (set_io_timers t s). split; [done|]. by exists t.
  - cbn. destruct Hkept as (_ & _ & _ & _ & ->). lia.
Qed.

(** What a wait leaves as it was. *)
Record waited tfd s s' : Prop := {
  wt_ok : io_ok tfd s -> io_ok tfd s';
  wt_contexts : m_fdContexts s' = m_fdContexts s;
  wt_process : io_process s' = io_process s;
  wt_timers : timers_kept s.(io_timers) s'.(io_timers)
}.

(** The loop around [epoll_wait] ends, and what it reports agrees with the
    contexts. *)
Lemma wait_loop_run tfd fuel s :
  io_ok tfd s -> timers_ok s.(io_timers) -> interruptions s.(m_epfd) < fuel ->
  ∃ l s', wait_loop fuel s = (Ret l, s') ∧ waited tfd s s' ∧
    (l = [] ∨ ∃ t e e', epoll_wait t e = (Ready l, e') ∧ ∀ fd, interest e fd = interest s.(m_epfd) fd).
Proof.
  revert s. induction fuel as [|fuel IH]; intros s Hok Ht Hf; [lia|].
  cbn [wait_loop]. unfold next_timeout.
  destruct (on_timers_getNextTimer s Ht) as (ms & s1 & Hrun1 & (t1 & -> & Hk1)).
  erewrite bind_run.
  2:{ erewrite bind_run by exact Hrun1. done. }
  erewrite bind_run by done. cbn [m_epfd set_io_timers].
  destruct (epoll_wait (Z.min ms MAX_TIMEOUT) (m_epfd s)) as [answer e] eqn:Hwait.
  erewrite bind_run by done. set (s2 := set_epfd e (set_io_timers t1 s)).
  pose proof (wait_interest _ _ _ _ Hwait) as Hint.
  assert (waited tfd s s2) as Hw.
  { split; try done. intros [? ? Hi ?]. apply contexts_ok_io; [by split|]. intros fd Hfd. cbn. rewrite Hint. by apply Hi. }
  destruct answer as [| |l].
  - apply wait_interruptions in Hwait. destruct (IH s2) as (l & s' & Hrun & [Hw1 Hw2 Hw3 Hw4] & Hl).
    + by apply Hw.
    + cbn. destruct Hk1 as (Hh & Hm & _). unfold timers_ok. by rewrite Hh, Hm.
    + cbn. lia.
    + exists l, s'. split; [done|]. split.
      * split; [intros; by apply Hw1, Hw|by rewrite Hw2|by rewrite Hw3|].
        destruct Hk1 as (? & ? & ? & ? & ?), Hw4 as (? & ? & ? & ? & ?). cbn in *. split_and!; congruence.
      * destruct Hl as [?|(t & e1 & e2 & Hwl & He)]; [by left|right]. exists t, e1, e2. split; [done|].
        intros fd. rewrite He. apply Hint.
  - exists [], s2. by split_and!; [| |left].
  - exists l, s2. split; [done|]. split; [done|]. right. by exists (Z.min ms MAX_TIMEOUT), (m_epfd s), e.
Qed.

(** The tasks of the expired timers. *)
Lemma schedule_expired_run tid cbs s :
  Forall is_Some cbs ->
  ∃ s', schedule_expired tid cbs s = (Ret tt, s') ∧ same_io s s' ∧
    m_tasks (sch (io_process s')) = m_tasks (sch (io_process s)) ++ map (λ cb, mkTask None cb (-1)) cbs.
Proof.
  intros Hcbs. revert s. induction Hcbs as [|cb cbs [k ->] Hcbs IH]; intros s; cbn [schedule_expired map].
  - exists s. by rewrite app_nil_r.
  - destruct (scheduleLock_io tid (mkTask None (Some k) (-1)) s eq_refl) as (s1 & Hrun1 & Hsame1 & HP1).
    destruct (IH s1) as (s2 & Hrun2 & Hsame2 & Ht2). exists s2.
    split; [by erewrite bind_run by exact Hrun1|]. split; [by eapply same_io_trans|].
    rewrite Ht2, HP1. cbn. by rewrite <-app_assoc.
Qed.

(** The callbacks that expire at the next reading of the clock. *)
Definition expiring (t : TimerManager (callback W)) : list (option (callback W)) :=
  callbacks t.(timer_heap) (due_timers t.(timer_heap) (clock_now t) t.(m_timers)).

Lemma expiring_some t : timers_ok t -> Forall is_Some (expiring t).
Proof.
  intros [_ Halive]. apply Forall_forall. intros cb (p & <- & Hp)%list_elem_of_In%in_map_iff.
  apply filter_In in Hp as [Hp%list_elem_of_In _]. rewrite Forall_forall in Halive.
  destruct (Halive p Hp) as (x & -> & Hx). done.
Qed.

Lemma expired_timers_run tid s :
  timers_calm s.(io_timers) ->
  ∃ s', expired_timers tid s = (Ret tt, s') ∧
    m_fdContexts s' = m_fdContexts s ∧ m_pendingEventCount s' = m_pendingEventCount s ∧ m_epfd s' = m_epfd s ∧
    timers_ok s'.(io_timers) ∧
    m_tasks (sch (io_process s')) = m_tasks (sch (io_process s)) ++
      map (λ cb, mkTask None cb (-1)) (expiring s.(io_timers)).
Proof.
  intros (Hok & Hper & Hclock). unfold expired_timers. erewrite bind_run by done.
  destruct (expire_loop_run (S (length s.(io_timers).(m_timers))) (clock_now s.(io_timers)) [] (after_readings s.(io_timers)))
    as (t & Hrun & Ht); [done|done| |].
  { apply Nat.lt_succ_r. cbn. unfold due_timers. apply List.filter_length_le. }
  rewrite listExpiredCb_start. unfold rolled_over. rewrite bool_decide_false by (apply Z.nlt_ge, Hclock).
  rewrite Hrun. cbn [app]. set (s1 := set_io_timers t s). rewrite (bind_run _ _ s tt s1) by done.
  destruct (schedule_expired_run tid (expiring s.(io_timers)) s1 (expiring_some _ Hok))
    as (s2 & Hrun2 & (Hc & Hp & He & Hts) & Htasks).
  exists s2. split; [exact Hrun2|]. split_and!; try done. rewrite Hts. apply Ht.
Qed.

(** The ready events one after the other. *)
Inductive turns : list epoll_event -> IOManager W E -> IOManager W E -> Prop :=
| turns_nil s : turns [] s s
| turns_cons (x : epoll_event) l s s1 s' : turn_done s x s1 -> turns l s1 s' -> turns (x :: l) s s'.

Definition event_fd (x : epoll_event) : option Z :=
  match x with FdEvent fd _ => Some fd | TickleEvent => None end.

Lemma report_ok_kept tfd s s' (x y : epoll_event) :
  turn_done s x s' -> (∀ fd, event_fd x = Some fd -> event_fd y ≠ Some fd) ->
  (∀ fd, event_fd x = Some fd -> (0 <= fd)%Z) -> report_ok tfd s y -> report_ok tfd s' y.
Proof.
  intros Hturn Hne Hx. destruct y as [|fd events]; [done|]. intros (Hfd & Htfd & c & Hc & Hr).
  split; [done|]. split; [done|]. exists c. split; [|done].
  destruct x as [|fd1 events1]; [by destruct Hturn as [-> _]|].
  destruct Hturn as (c1 & _ & [[[-> _] _]|[-> _]]); [done|]. specialize (Hne fd1 eq_refl). specialize (Hx fd1 eq_refl). cbn in Hne.
  rewrite list_lookup_insert_ne; [done|]. intros Heq. apply Hne. f_equal. lia.
Qed.

Lemma handle_events_run tfd tid l s :
  io_ok tfd s -> NoDup (omap event_fd l) -> (∀ x : epoll_event, x ∈ l -> report_ok tfd s x) ->
  ∃ s', handle_events tid l s = (Ret tt, s') ∧ io_ok tfd s' ∧ turns l s s'.
Proof.
  revert s. induction l as [|x l IH]; intros s Hok Hnd Hrep; cbn [handle_events].
  - exists s. split_and!; [done..|constructor].
  - destruct (handle_event_run tfd tid s x Hok (Hrep x (list_elem_of_here _ _))) as (s1 & Hrun1 & Hok1 & Hturn).
    assert (∀ fd, event_fd x = Some fd -> fd ∉ omap event_fd l ∧ (0 <= fd)%Z) as Hx.
    { intros fd Hfd. cbn in Hnd. rewrite Hfd in Hnd. apply NoDup_cons in Hnd as [? _]. split; [done|].
      pose proof (Hrep x (list_elem_of_here _ _)) as Hrx. destruct x; [done|]. injection Hfd as ->. by destruct Hrx. }
    destruct (IH s1) as (s2 & Hrun2 & Hok2 & Hturns).
    + done.
    + cbn in Hnd. destruct (event_fd x); [by apply NoDup_cons in Hnd as [_ ?]|done].
    + intros y Hy. eapply report_ok_kept; [done| | |apply Hrep; by right].
      * intros fd Hfd Hyfd. apply Hx in Hfd as [Hni _]. apply Hni, list_elem_of_omap. by exists y.
      * intros fd Hfd. by apply Hx.
    + exists s2. split; [by erewrite bind_run by exact Hrun1|]. split; [done|]. by econstructor.
Qed.

(** A wait of [epoll] reports what the contexts agree with, when the events of
    the pipe come as such. *)
Lemma wait_report_ok tfd s t (e e' : E) l :
  io_ok tfd s -> epoll_wait t e = (Ready l, e') -> (∀ fd, interest e fd = interest s.(m_epfd) fd) ->
  (∀ fd ev, FdEvent fd ev ∈ l -> fd ≠ tfd) -> ∀ x : epoll_event, x ∈ l -> report_ok tfd s x.
Proof.
  intros Hok Hwait Hint Htfd [|fd events] Hx; [done|].
  destruct (wait_reports _ _ _ _ Hwait _ _ Hx) as (mask & Hmask & HR & HW).
  pose proof (Htfd _ _ Hx) as Hne. rewrite Hint, (ok_interest _ _ Hok) in Hmask by done.
  unfold wanted in Hmask. case_bool_decide as Hneg; [done|].
  destruct (m_fdContexts s !! Z.to_nat fd) as [c|] eqn:Hc; [|done]. cbn in Hmask.
  case_bool_decide; [done|]. injection Hmask as <-. split; [lia|]. split; [done|]. exists c. split; [done|].
  intros ev [->| ->] Hev; [apply HR in Hev|apply HW in Hev]; [rewrite has_READ in *|rewrite has_WRITE in *];
    by rewrite Z.lor_spec in Hev.
Qed.

(** ** Registering and unregistering *)

(** A program that leaves the contexts, the count and the [epoll] instance. *)
Definition keeps {A} (m : prog std_exception (IOManager W E) A) : Prop :=
  ∀ s o s', m s = (o, s') -> same_io s s'.

Lemma keeps_ret {A} (a : A) : keeps (mret a).
Proof. intros s o s' [= _ <-]. done. Qed.

Lemma keeps_halt {A} w : keeps (halt (A := A) w).
Proof. intros s o s' [= _ <-]. done. Qed.

Lemma keeps_gets {A} (f : IOManager W E -> A) : keeps (gets f).
Proof. intros s o s' [= _ <-]. done. Qed.

Lemma keeps_assert b : keeps (assert b).
Proof. destruct b; [apply keeps_ret|apply keeps_halt]. Qed.

Lemma keeps_bind {A B} (m : prog std_exception (IOManager W E) A) (f : A -> prog std_exception (IOManager W E) B) :
  keeps m -> (∀ a, keeps (f a)) -> keeps (m ≫= f).
Proof.
  intros Hm Hf s o s' Hrun. unfold mbind, prog_bind in Hrun. destruct (m s) as [[a|e|w] s1] eqn:Hms.
  - eapply same_io_trans; [by eapply Hm|by eapply Hf].
  - injection Hrun as _ <-. by eapply Hm.
  - injection Hrun as _ <-. by eapply Hm.
Qed.

Lemma keeps_on_base {A} (m : prog std_exception (process W) A) : keeps (on_base m).
Proof. intros s o s'. unfold on_base, zoom. destruct (m _) as [o1 P]. by intros [= _ <-]. Qed.

Lemma keeps_new_Scheduler tid n b name : keeps (new_Scheduler tid n b name).
Proof.
  unfold new_Scheduler. apply keeps_bind; [apply keeps_gets|]. intros P.
  apply keeps_bind; [apply keeps_assert|]. intros _. apply keeps_bind; [apply keeps_on_base|]. intros _.
  apply keeps_bind; [apply keeps_on_base|]. intros _. destruct b; [|apply keeps_ret].
  do 3 (apply keeps_bind; [apply keeps_on_base|]; intros ?). apply keeps_on_base.
Qed.

Lemma keeps_start ids : keeps (start ids).
Proof.
  unfold start. apply keeps_bind; [apply keeps_gets|]. intros P. destruct (m_stopping _); [apply keeps_ret|].
  apply keeps_bind; [apply keeps_assert|]. intros _. apply keeps_on_base.
Qed.

(** Growing the vector of contexts. *)
Lemma resize_contexts_lookup n (l : list (FdContext W)) i : length l ≤ n ->
  resize_contexts n l !! i = match l !! i with
                             | Some c => Some c
                             | None => if bool_decide (i < n) then Some (new_FdContext (Z.of_nat i)) else None
                             end.
Proof.
  intros Hn. unfold resize_contexts. rewrite take_ge by done. destruct (l !! i) as [c|] eqn:Hc.
  - by apply lookup_app_l_Some.
  - apply lookup_ge_None in Hc. rewrite lookup_app_r, list_lookup_fmap by done. case_bool_decide.
    + rewrite lookup_seq_lt by lia. cbn. do 3 f_equal. lia.
    + by rewrite lookup_seq_ge by lia.
Qed.

Lemma resize_registered n (l : list (FdContext W)) : length l ≤ n -> registered (resize_contexts n l) = registered l.
Proof.
  intros Hn. unfold resize_contexts, registered. rewrite take_ge, sum_list_with_app by done.
  assert (∀ k m, sum_list_with (λ c : FdContext W, count_events (fc_events c))
    ((λ i, new_FdContext (Z.of_nat i)) <$> seq k m) = 0) as ->; [|lia].
  intros k m. revert k. induction m as [|m IH]; intros k; [done|]. cbn. by rewrite IH.
Qed.

Lemma resize_wanted n (l : list (FdContext W)) fd : length l ≤ n -> wanted (resize_contexts n l) fd = wanted l fd.
Proof.
  intros Hn. unfold wanted. case_bool_decide; [done|]. rewrite resize_contexts_lookup by done.
  destruct (l !! Z.to_nat fd); [done|]. by case_bool_decide.
Qed.

Lemma new_FdContext_ok i : context_ok i (new_FdContext (Z.of_nat i)).
Proof. split; try done. cbn. unfold event_sets. set_solver. Qed.

Lemma resize_ok_io tfd n s : io_ok tfd s -> length (m_fdContexts s) ≤ n ->
  io_ok tfd (set_fdContexts (resize_contexts n (m_fdContexts s)) s).
Proof.
  intros [Hc Hp Hi Hs] Hn. split; cbn.
  - intros i c. rewrite resize_contexts_lookup by done. destruct (m_fdContexts s !! i) eqn:Hl.
    + intros [= <-]. by apply Hc.
    + case_bool_decide; [|done]. intros [= <-]. apply new_FdContext_ok.
  - by rewrite resize_registered.
  - intros fd Hfd. rewrite resize_wanted by done. by apply Hi.
  - unfold resize_contexts. rewrite length_app, length_fmap, length_seq, length_take. lia.
Qed.

(** Registering an event in a context keeps the invariant. *)
Lemma with_event_io tfd fd ev (x : EventContext W) c s s' :
  io_ok tfd s -> (0 <= fd)%Z -> fd ≠ tfd -> s.(m_fdContexts) !! Z.to_nat fd = Some c -> an_event ev ->
  has c.(fc_events) ev = false -> slot_ok true x ->
  m_fdContexts s' = <[Z.to_nat fd := with_event ev x c]> (m_fdContexts s) ->
  m_pendingEventCount s' = wrap_u64 (m_pendingEventCount s + 1) ->
  interest (m_epfd s') fd = Some (Z.lor (Z.lor EPOLLET c.(fc_events)) ev) ->
  (∀ fd', fd' ≠ fd -> interest (m_epfd s') fd' = interest (m_epfd s) fd') -> io_ok tfd s'.
Proof.
  intros [Hok Hp Hi Hs] Hfd Htfd Hc Ha Hhas Hx Hcs Hps Hself Hother. pose proof (Hok _ _ Hc) as Hcok.
  assert (Z.to_nat fd < length (m_fdContexts s)) by by eapply lookup_lt_Some.
  assert (fc_events (with_event ev x c) = Z.lor (fc_events c) ev) as Hev by (unfold with_event; by rewrite fc_events_put).
  split; rewrite ?Hcs, ?Hps, ?length_insert; try done.
  - intros i c' Hi'. destruct (decide (i = Z.to_nat fd)) as [->|Hne].
    + rewrite list_lookup_insert_eq in Hi' by done. injection Hi' as <-. by apply with_event_ok.
    + rewrite list_lookup_insert_ne in Hi' by done. by apply Hok.
  - pose proof (registered_insert (m_fdContexts s) (Z.to_nat fd) c (with_event ev x c) Hc) as Hreg. rewrite Hev in Hreg.
    pose proof (count_lor _ _ (ok_events _ _ Hcok) Ha Hhas) as Hcount. rewrite Hp, wrap_u64_succ. f_equal. lia.
  - intros fd' Hfd'. rewrite wanted_insert, Hev by done. case_bool_decide as Heq.
    + subst fd'. rewrite Hself, Z.lor_assoc. rewrite bool_decide_false; [done|].
      intros [_ He]%Z.lor_eq_0_iff. destruct Ha as [->| ->]; done.
    + rewrite Hother by done. by apply Hi.
Qed.

Lemma io_ok_epfd tfd s e : io_ok tfd s -> (∀ fd, interest e fd = interest s.(m_epfd) fd) -> io_ok tfd (set_epfd e s).
Proof. intros [? ? Hi ?] He. split; try done. intros fd Hfd. cbn. rewrite He. by apply Hi. Qed.

(** The registration itself, after [epoll_ctl]: the context with the event but
    not yet its task. *)
Lemma add_to_context_start tid fd ev cb s c e :
  (0 <= fd)%Z -> s.(m_fdContexts) !! Z.to_nat fd = Some c -> context_ok (Z.to_nat fd) c -> an_event ev ->
  has c.(fc_events) ev = false ->
  epoll_ctl (if bool_decide (c.(fc_events) = 0)%Z then EPOLL_CTL_ADD else EPOLL_CTL_MOD) fd
    (Z.lor (Z.lor EPOLLET c.(fc_events)) ev) s.(m_epfd) = (true, e) ->
  let s1 := set_fdContexts (<[Z.to_nat fd := set_events (Z.lor c.(fc_events) ev) c]> (m_fdContexts s))
    (set_pending (m_pendingEventCount s + 1) (set_epfd e s)) in
  let put x := set_context fd (put_event_context ev (mkEventContext (local_of tid (io_process s)).(l_scheduler) x.1 x.2)) in
  add_to_context tid fd ev cb s =
    match cb with
    | Some cb => (put (None, Some cb);; mret 0%Z) s1
    | None => (f ← on_fibers tid GetThis; put (Some f, None);;
               b ← on_fibers tid (get_fiber f); assert (bool_decide (b.(m_state) = RUNNING));; mret 0%Z) s1
    end.
Proof.
  intros Hfd Hc Hok Ha Hhas Hctl. cbv zeta. unfold add_to_context.
  erewrite bind_run by by apply get_context_run. rewrite Hhas.
  erewrite bind_run by by apply ctl_run. cbn [negb]. erewrite bind_run by done.
  erewrite bind_run by by apply set_context_run. erewrite bind_run by by apply getEventContext_run.
  pose proof (context_slot _ _ _ Hok Ha) as Hslot. rewrite Hhas in Hslot. rewrite Hslot. cbn [empty_context].
  erewrite bind_run by done. erewrite bind_run by done. by destruct cb.
Qed.

Lemma add_to_context_ok tfd tid fd ev cb s c n s' :
  io_ok tfd s -> (0 <= fd)%Z -> fd ≠ tfd -> s.(m_fdContexts) !! Z.to_nat fd = Some c -> an_event ev ->
  (local_of tid (io_process s)).(l_scheduler) = true ->
  add_to_context tid fd ev cb s = (Ret n, s') -> io_ok tfd s'.
Proof.
  intros Hok Hfd Htfd Hc Ha Hsch Hrun. pose proof (ok_contexts _ _ Hok _ _ Hc) as Hcok.
  assert (Z.to_nat fd < length (m_fdContexts s)) as Hlt by by eapply lookup_lt_Some.
  destruct (has (fc_events c) ev) eqn:Hhas.
  { unfold add_to_context in Hrun. erewrite bind_run in Hrun by by apply get_context_run. rewrite Hhas in Hrun.
    by injection Hrun as _ <-. }
  destruct (epoll_ctl (if bool_decide (c.(fc_events) = 0)%Z then EPOLL_CTL_ADD else EPOLL_CTL_MOD) fd
    (Z.lor (Z.lor EPOLLET c.(fc_events)) ev) s.(m_epfd)) as [[] e] eqn:Hctl.
  2:{ unfold add_to_context in Hrun. erewrite bind_run in Hrun by by apply get_context_run. rewrite Hhas in Hrun.
      erewrite bind_run in Hrun by by apply ctl_run. injection Hrun as _ <-. apply io_ok_epfd; [done|]. by eapply ctl_fail. }
  rewrite (add_to_context_start tid fd ev cb s c e) in Hrun by done. cbv zeta in Hrun. rewrite Hsch in Hrun.
  set (s1 := set_fdContexts _ _) in Hrun.
  assert (∀ f k s2 s3, same_io s1 s2 -> slot_ok true (mkEventContext (W := W) true f k) ->
    (set_context fd (put_event_context ev (mkEventContext true f k)) s2) = (Ret tt, s3) -> io_ok tfd s3) as Hput.
  { intros f k s2 s3 (Hc2 & Hp2 & He2 & _) Hslot Hset.
    erewrite set_context_run in Hset by (rewrite Hc2; cbn; by apply list_lookup_insert_eq).
    injection Hset as <-. apply ctl_ok in Hctl as [Hself Hother].
    assert (interest (m_epfd s1) fd = Some (Z.lor (Z.lor EPOLLET (fc_events c)) ev)) as Hself1.
    { unfold s1. cbn. rewrite Hself. by case_bool_decide. }
    eapply (with_event_io tfd fd ev (mkEventContext true f k) c s); try done; cbn.
    - rewrite Hc2. cbn. by rewrite list_insert_insert_eq.
    - by rewrite He2.
    - intros fd' Hne. rewrite He2. by apply Hother. }
  destruct cb as [cb|].
  - unfold mbind, prog_bind in Hrun. destruct (set_context _ _ s1) as [[[]|?|?] s2] eqn:Hset; [|done|done].
    injection Hrun as _ <-. eapply Hput; [apply same_io_refl| |exact Hset]. split; [done|]. left. by split.
  - unfold mbind, prog_bind in Hrun. destruct (on_fibers tid GetThis s1) as [[f|?|?] s2] eqn:Hget; [|done|done].
    apply keeps_on_base in Hget. destruct (set_context _ _ s2) as [[[]|?|?] s3] eqn:Hset; [|done|done].
    apply Hput in Hset; [|done|by split; [|right; split; [|by eexists]]].
    destruct (on_fibers tid (get_fiber f) s3) as [[b|?|?] s4] eqn:Hgf; [|done|done]. apply keeps_on_base in Hgf.
    destruct (assert _ s4) as [[[]|?|?] s5] eqn:Has; [|done|done]. apply keeps_assert in Has.
    injection Hrun as _ <-. eapply io_ok_same; [|exact Has]. by eapply io_ok_same.
Qed.

(** A context changed by taking events back, with [epoll] told so. *)
Lemma taken_back_io tfd fd c' s s' :
  io_ok tfd s -> (0 <= fd)%Z -> Z.to_nat fd < length (m_fdContexts s) -> contexts_ok s' ->
  m_fdContexts s' = <[Z.to_nat fd := c']> (m_fdContexts s) ->
  interest (m_epfd s') fd = (if bool_decide (c'.(fc_events) = 0)%Z then None else Some (Z.lor EPOLLET c'.(fc_events))) ->
  (∀ fd', fd' ≠ fd -> interest (m_epfd s') fd' = interest (m_epfd s) fd') -> io_ok tfd s'.
Proof.
  intros Hok Hfd Hlt Hok' Hcs Hself Hother. apply contexts_ok_io; [done|].
  intros fd' Hne. rewrite Hcs, wanted_insert by done. destruct (decide (fd' = fd)) as [->|Hfd'].
  - by rewrite (bool_decide_true (fd = fd)) by done.
  - rewrite (bool_decide_false (fd' = fd)), Hother by done. by apply Hok.
Qed.

(** The operation of [epoll_ctl] by which [ev] is taken back. *)
Definition less_op ev c : epoll_op :=
  if bool_decide (without c.(fc_events) ev = 0)%Z then EPOLL_CTL_DEL else EPOLL_CTL_MOD.

(** [delEvent] of a registered event. *)
Lemma delEvent_takes fd ev s c e :
  (0 <= fd)%Z -> s.(m_fdContexts) !! Z.to_nat fd = Some c -> an_event ev -> has c.(fc_events) ev = true ->
  epoll_ctl (less_op ev c) fd (Z.lor EPOLLET (without c.(fc_events) ev)) s.(m_epfd) = (true, e) ->
  delEvent fd ev s = (Ret true, set_fdContexts (<[Z.to_nat fd := less_event ev c]> (m_fdContexts s))
    (set_pending (m_pendingEventCount s - 1) (set_epfd e s))).
Proof.
  intros Hfd Hc Ha Hhas Hctl. assert (Z.to_nat fd < length (m_fdContexts s)) as Hlt by by eapply lookup_lt_Some.
  unfold delEvent. erewrite bind_run by done. unfold has_context. rewrite bool_decide_true by lia.
  erewrite bind_run by by apply get_context_run. rewrite Hhas.
  erewrite bind_run by (by apply ctl_run). cbn [negb].
  erewrite bind_run by done. erewrite bind_run by by apply set_context_run.
  erewrite bind_run by (apply get_context_run; [done|]; cbn; by apply list_lookup_insert_eq).
  erewrite bind_run by by apply getEventContext_run.
  erewrite bind_run by (apply set_context_run; cbn; by apply list_lookup_insert_eq).
  cbn. by rewrite list_insert_insert_eq.
Qed.

Lemma delEvent_run tfd fd ev s :
  io_ok tfd s -> (0 <= fd)%Z -> an_event ev -> ∃ b s', delEvent fd ev s = (Ret b, s') ∧ io_ok tfd s'.
Proof.
  intros Hok Hfd Ha. destruct (has_context fd s) eqn:Hin.
  2:{ exists false, s. split; [|done]. unfold delEvent. erewrite bind_run by done. by rewrite Hin. }
  assert (Z.to_nat fd < length (m_fdContexts s)) as Hlt by (apply bool_decide_eq_true in Hin; lia).
  pose proof Hlt as [c Hc]%lookup_lt_is_Some. destruct (has (fc_events c) ev) eqn:Hhas.
  2:{ exists false, s. split; [|done]. unfold delEvent. erewrite bind_run by done. rewrite Hin.
      erewrite bind_run by by apply get_context_run. by rewrite Hhas. }
  destruct (epoll_ctl (less_op ev c) fd (Z.lor EPOLLET (without (fc_events c) ev)) (m_epfd s)) as [[] e] eqn:Hctl.
  2:{ exists true, (set_epfd e s). split; [|apply io_ok_epfd; [done|by eapply ctl_fail]].
      unfold delEvent. erewrite bind_run by done. rewrite Hin. erewrite bind_run by by apply get_context_run.
      rewrite Hhas. by erewrite bind_run by by apply ctl_run. }
  eexists _, _. split; [by apply delEvent_takes|]. apply ctl_ok in Hctl as [Hself Hother].
  eapply (taken_back_io tfd fd (less_event ev c) s); try done.
  - eapply less_event_contexts; [by eapply io_ok_contexts|done|done|done|done|done].
  - cbn. rewrite Hself. unfold less_event, less_op. rewrite fc_events_put. cbn [fc_events set_events].
    by destruct (bool_decide (without (fc_events c) ev = 0)%Z).
Qed.

(** [cancelEvent] of a registered event. *)
Lemma cancelEvent_halts tid fd ev s c e :
  (0 <= fd)%Z -> s.(m_fdContexts) !! Z.to_nat fd = Some c -> context_ok (Z.to_nat fd) c -> an_event ev ->
  has c.(fc_events) ev = true ->
  epoll_ctl (if bool_decide (without c.(fc_events) ev = 0)%Z then EPOLL_CTL_DEL else EPOLL_CTL_MOD) fd
    (Z.lor EPOLLET (without c.(fc_events) ev)) s.(m_epfd) = (true, e) ->
  (cancelEvent tid fd ev s).1 = Halt AssertFailed.
Proof.
  intros Hfd Hc Hok Ha Hhas Hctl. assert (Z.to_nat fd < length (m_fdContexts s)) as Hlt by by eapply lookup_lt_Some.
  unfold cancelEvent. erewrite bind_run by done. unfold has_context. rewrite bool_decide_true by lia.
  erewrite bind_run by by apply get_context_run. rewrite Hhas.
  erewrite bind_run by by apply ctl_run. cbn [negb]. erewrite bind_run by done.
  erewrite bind_run by by apply set_context_run. erewrite bind_halt; [done|].
  apply trigger_asserts with (c := set_events (without (fc_events c) ev) c); [done|cbn; by apply list_lookup_insert_eq|].
  cbn. rewrite (has_without _ _ _ (ok_events _ _ Hok) Ha Ha). by rewrite bool_decide_true, andb_false_r.
Qed.

Lemma surjective_pairing_true {A} (p : bool * A) : p.1 = true -> p = (true, p.2).
Proof. by destruct p as [[] ?]. Qed.

(** A report of both events when [ev] is no longer registered and the other
    is. *)
Lemma stale_report_halts tid fd ev s c :
  (0 <= fd)%Z -> s.(m_fdContexts) !! Z.to_nat fd = Some c -> context_ok (Z.to_nat fd) c -> an_event ev ->
  c.(fc_events) = without (Z.lor READ WRITE) ev -> (∀ op fd' mask e, (epoll_ctl op fd' mask e).1 = true) ->
  (handle_event tid (FdEvent fd (Z.lor READ WRITE)) s).1 = Halt AssertFailed.
Proof.
  intros Hfd Hc Hok Ha Hev Hctl. cbn [handle_event]. erewrite bind_run by by apply get_context_run.
  change (has (Z.lor READ WRITE) (Z.lor EPOLLERR EPOLLHUP)) with false. cbv beta iota zeta.
  change (Z.lor (if has (Z.lor READ WRITE) READ then READ else NONE) (if has (Z.lor READ WRITE) WRITE then WRITE else NONE))
    with (Z.lor READ WRITE).
  rewrite bool_decide_false by (rewrite Hev; by destruct Ha as [->| ->]).
  erewrite bind_run by (by eapply ctl_run, surjective_pairing_true). cbn [negb]. set (s1 := set_epfd _ s).
  destruct Ha as [->| ->].
  - erewrite bind_halt; [done|]. unfold trigger_if. change (has (Z.lor READ WRITE) READ) with true. cbv iota.
    erewrite bind_halt; [done|]. apply (trigger_asserts tid fd READ s1 c); [done|done|by rewrite Hev].
  - destruct (trigger_if_run tid fd (Z.lor READ WRITE) READ s1 c Hfd Hc Hok an_event_READ) as (s2 & Hrun & [Hcs _ _ _ _]);
      [by rewrite Hev|]. erewrite bind_run by exact Hrun.
    unfold trigger_if. change (has (Z.lor READ WRITE) WRITE) with true. cbv iota. erewrite bind_halt; [done|].
    apply (trigger_asserts tid fd WRITE s2 (less_event READ c)); [done|..].
    + rewrite Hcs. apply list_lookup_insert_eq. by eapply lookup_lt_Some.
    + unfold less_event. by rewrite fc_events_put, Hev.
Qed.

Lemma cancelEvent_ok tfd tid fd ev s b s' :
  io_ok tfd s -> (0 <= fd)%Z -> an_event ev -> cancelEvent tid fd ev s = (Ret b, s') -> io_ok tfd s'.
Proof.
  intros Hok Hfd Ha Hrun. pose proof Hrun as Hrun'. unfold cancelEvent in Hrun. erewrite bind_run in Hrun by done.
  unfold has_context in Hrun. case_bool_decide as Hin; [|by injection Hrun as _ <-].
  assert (Z.to_nat fd < length (m_fdContexts s)) as Hlt by lia. pose proof Hlt as [c Hc]%lookup_lt_is_Some.
  erewrite bind_run in Hrun by by apply get_context_run.
  destruct (has (fc_events c) ev) eqn:Hhas; [|by injection Hrun as _ <-].
  destruct (epoll_ctl (if bool_decide (without (fc_events c) ev = 0)%Z then EPOLL_CTL_DEL else EPOLL_CTL_MOD) fd
    (Z.lor EPOLLET (without (fc_events c) ev)) (m_epfd s)) as [[] e] eqn:Hctl.
  - pose proof (cancelEvent_halts tid fd ev s c e Hfd Hc (ok_contexts _ _ Hok _ _ Hc) Ha Hhas Hctl) as Hhalt.
    by rewrite Hrun' in Hhalt.
  - erewrite bind_run in Hrun by by apply ctl_run. injection Hrun as _ <-. apply io_ok_epfd; [done|]. by eapply ctl_fail.
Qed.

(** A context after [trigger_if] on its own events. *)
Definition drop_event ev c : FdContext W := if has c.(fc_events) ev then less_event ev c else c.

Lemma trigger_own_ok tid fd ev s c :
  (0 <= fd)%Z -> s.(m_fdContexts) !! Z.to_nat fd = Some c -> contexts_ok s -> an_event ev ->
  ∃ s', trigger_if tid fd (fc_events c) ev s = (Ret tt, s') ∧ contexts_ok s' ∧
    m_fdContexts s' = <[Z.to_nat fd := drop_event ev c]> (m_fdContexts s) ∧ m_epfd s' = m_epfd s ∧
    m_tasks (sch (io_process s')) = m_tasks (sch (io_process s)) ++
      (if has (fc_events c) ev then [task_of (slot ev c)] else []).
Proof.
  intros Hfd Hc Hok Ha. pose proof (cok_contexts _ Hok _ _ Hc) as Hcok.
  destruct (trigger_if_run tid fd (fc_events c) ev s c Hfd Hc Hcok Ha (λ H, H)) as (s' & Hrun & Hs').
  exists s'. split; [done|]. unfold drop_event. destruct (has (fc_events c) ev) eqn:Hhas.
  - destruct Hs' as [Hcs Hps He Ht HP]. split_and!; try done; [|by rewrite HP].
    eapply (less_event_contexts fd ev c s); eauto.
  - subst s'. split_and!; try done; [by rewrite list_insert_id|by rewrite app_nil_r].
Qed.

Lemma has_drop ev ev' c i : context_ok i c -> an_event ev -> an_event ev' ->
  has (fc_events (drop_event ev c)) ev' = has (fc_events c) ev' && negb (bool_decide (ev = ev')).
Proof.
  intros Hok Ha Ha'. unfold drop_event. destruct (has (fc_events c) ev) eqn:Hhas.
  - unfold less_event. rewrite fc_events_put. cbn [fc_events set_events].
    rewrite (has_without _ _ _ (ok_events _ _ Hok) Ha Ha'). f_equal. f_equal.
    by apply bool_decide_ext.
  - case_bool_decide as Heq; [by rewrite <- Heq, Hhas|by rewrite andb_true_r].
Qed.

Lemma slot_drop c : slot WRITE (drop_event READ c) = fc_write c.
Proof. unfold drop_event. by destruct (has (fc_events c) READ). Qed.

(** [cancelAll] of a descriptor with events, when [epoll] lets it go. *)
Lemma cancelAll_run tfd tid fd s c e :
  io_ok tfd s -> (0 <= fd)%Z -> s.(m_fdContexts) !! Z.to_nat fd = Some c -> c.(fc_events) ≠ 0%Z ->
  epoll_ctl EPOLL_CTL_DEL fd 0 s.(m_epfd) = (true, e) ->
  ∃ s' c', cancelAll tid fd s = (Ret true, s') ∧ io_ok tfd s' ∧ c'.(fc_events) = 0%Z ∧
    m_fdContexts s' = <[Z.to_nat fd := c']> (m_fdContexts s) ∧
    m_tasks (sch (io_process s')) = m_tasks (sch (io_process s)) ++
      (if has c.(fc_events) READ then [task_of c.(fc_read)] else []) ++
      (if has c.(fc_events) WRITE then [task_of c.(fc_write)] else []).
Proof.
  intros Hok Hfd Hc Hne Hctl. assert (Z.to_nat fd < length (m_fdContexts s)) as Hlt by by eapply lookup_lt_Some.
  pose proof (ok_contexts _ _ Hok _ _ Hc) as Hcok. pose proof Hctl as [Hself Hother]%ctl_ok.
  unfold cancelAll. erewrite bind_run by done. unfold has_context. rewrite bool_decide_true by lia.
  erewrite bind_run by by apply get_context_run. rewrite bool_decide_false by done.
  erewrite bind_run by by apply ctl_run. cbn [negb].
  destruct (trigger_own_ok tid fd READ (set_epfd e s) c Hfd Hc ltac:(by destruct Hok) an_event_READ)
    as (s1 & Hrun1 & Hok1 & Hc1 & He1 & Ht1). set (c1 := drop_event READ c) in *.
  erewrite bind_run by exact Hrun1.
  assert (s1.(m_fdContexts) !! Z.to_nat fd = Some c1) as Hl1 by (rewrite Hc1; by apply list_lookup_insert_eq).
  erewrite bind_run by by apply get_context_run.
  destruct (trigger_own_ok tid fd WRITE s1 c1 Hfd Hl1 Hok1 an_event_WRITE)
    as (s2 & Hrun2 & Hok2 & Hc2 & He2 & Ht2). set (c2 := drop_event WRITE c1) in *.
  rewrite Hc1, list_insert_insert_eq in Hc2. erewrite bind_run by exact Hrun2.
  assert (s2.(m_fdContexts) !! Z.to_nat fd = Some c2) as Hl2 by (rewrite Hc2; by apply list_lookup_insert_eq).
  erewrite bind_run by by apply get_context_run.
  pose proof (has_drop READ WRITE c _ Hcok an_event_READ an_event_WRITE) as HRW.
  assert (fc_events c2 = 0%Z) as H0.
  { pose proof (cok_contexts _ Hok1 _ _ Hl1) as Hcok1. pose proof (cok_contexts _ Hok2 _ _ Hl2) as Hcok2.
    apply no_events; [apply Hcok2|unfold c2, c1..];
    rewrite !(has_drop WRITE _ _ _ Hcok1), !(has_drop READ _ _ _ Hcok) by first [apply an_event_READ|apply an_event_WRITE];
    rewrite ?(bool_decide_true (READ = READ)), ?(bool_decide_true (WRITE = WRITE)) by done;
    by rewrite ?andb_false_r, ?andb_false_l. }
  rewrite bool_decide_true by done. exists s2, c2. split; [done|]. split; [|split_and!; try done].
  - eapply (taken_back_io tfd fd c2 s); try done; rewrite He2, He1; cbn; [by rewrite Hself, H0|done].
  - rewrite Ht2, Ht1. unfold c1. rewrite HRW, slot_drop, <- app_assoc.
    rewrite (bool_decide_false (READ = WRITE)), andb_true_r by done. done.
Qed.

Lemma cancelAll_total tfd tid fd s :
  io_ok tfd s -> (0 <= fd)%Z -> ∃ b s', cancelAll tid fd s = (Ret b, s') ∧ io_ok tfd s'.
Proof.
  intros Hok Hfd. destruct (has_context fd s) eqn:Hin.
  2:{ exists false, s. split; [|done]. unfold cancelAll. erewrite bind_run by done. by rewrite Hin. }
  assert (Z.to_nat fd < length (m_fdContexts s)) as [c Hc]%lookup_lt_is_Some by (apply bool_decide_eq_true in Hin; lia).
  destruct (decide (fc_events c = 0)%Z) as [H0|H0].
  { exists false, s. split; [|done]. unfold cancelAll. erewrite bind_run by done. rewrite Hin.
    erewrite bind_run by by apply get_context_run. by rewrite bool_decide_true. }
  destruct (epoll_ctl EPOLL_CTL_DEL fd 0 (m_epfd s)) as [[] e] eqn:Hctl.
  - destruct (cancelAll_run tfd tid fd s c e Hok Hfd Hc H0 Hctl) as (s2 & c' & Hr & Hok2 & _). by exists true, s2.
  - exists true, (set_epfd e s). split; [|apply io_ok_epfd; [done|by eapply ctl_fail]].
    unfold cancelAll. erewrite bind_run by done. rewrite Hin.
    erewrite bind_run by by apply get_context_run. rewrite bool_decide_false by done. by erewrite bind_run by by apply ctl_run.
Qed.

(** ** A whole turn of [idle] *)

Lemma idle_body_run tfd tid s :
  io_ok tfd s -> timers_calm s.(io_timers) ->
  (∀ t e l e', epoll_wait t e = (Ready l, e') -> ∀ fd ev, FdEvent fd ev ∈ l -> fd ≠ tfd) ->
  ∃ l s1 s2 s', wait_events s = (Ret l, s1) ∧ io_idle_body tid s = (Ret tt, s') ∧ io_ok tfd s' ∧
    m_fdContexts s2 = m_fdContexts s ∧
    m_tasks (sch (io_process s2)) = m_tasks (sch (io_process s)) ++
      map (λ cb, mkTask None cb (-1)) (expiring s1.(io_timers)) ∧
    turns l s2 s' ∧ io_ok tfd s2 ∧ NoDup (omap event_fd l) ∧ ∀ x : epoll_event, x ∈ l -> report_ok tfd s2 x.
Proof.
  intros Hok Hcalm Htfd. unfold io_idle_body, wait_events.
  destruct (wait_loop_run tfd (S (interruptions (m_epfd s))) s Hok (proj1 Hcalm) ltac:(lia))
    as (l & s1 & Hrun1 & [Hw1 Hw2 Hw3 Hw4] & Hl).
  destruct (expired_timers_run tid s1) as (s2 & Hrun2 & Hc2 & Hp2 & He2 & Ht2 & Htasks2); [by eapply timers_calm_kept|].
  assert (io_ok tfd s2) as Hok2.
  { apply Hw1 in Hok as [? ? ? ?]. by split; rewrite ?Hc2, ?Hp2, ?He2. }
  assert (NoDup (omap event_fd l) ∧ ∀ x : epoll_event, x ∈ l -> report_ok tfd s2 x) as [Hnd Hrep].
  { destruct Hl as [->|(t & e & e' & Hwait & Hint)]; [split; [constructor|]; by intros x ?%not_elem_of_nil|].
    split; [by eapply wait_once|]. intros x Hx.
    assert (report_ok tfd s x) as Hrx by (eapply wait_report_ok; eauto).
    destruct x as [|fd events]; [done|]. cbn in *. by rewrite Hc2, Hw2. }
  destruct (handle_events_run tfd tid l s2 Hok2 Hnd Hrep) as (s' & Hrun' & Hok' & Hturns).
  exists l, s1, s2, s'. split; [done|]. split.
  { erewrite bind_run by exact Hrun1. by erewrite bind_run by exact Hrun2. }
  split_and!; try done; [by rewrite Hc2|by rewrite Htasks2, Hw3].
Qed.

(** The turns of other descriptors leave a context, and no task is lost. *)
Lemma turns_other l s s' fd :
  turns l s s' -> (0 <= fd)%Z -> fd ∉ omap event_fd l -> (∀ x fd', x ∈ l -> event_fd x = Some fd' -> (0 <= fd')%Z) ->
  m_fdContexts s' !! Z.to_nat fd = m_fdContexts s !! Z.to_nat fd ∧
  ∃ q, m_tasks (sch (io_process s')) = m_tasks (sch (io_process s)) ++ q.
Proof.
  intros Hturns Hfd. induction Hturns as [s|x l s s1 s' Hturn Hturns IH]; intros Hni Hpos.
  { split; [done|]. exists []. by rewrite app_nil_r. }
  destruct (turn_grows _ _ _ Hturn) as [q1 Hq1]. destruct IH as [Hc [q2 Hq2]].
  - intros Hin. apply Hni. cbn. destruct (event_fd x); [by right|done].
  - intros y fd' Hy. apply Hpos. by right.
  - split; [|exists (q1 ++ q2); by rewrite Hq2, Hq1, app_assoc].
    rewrite Hc. destruct x as [|fd1 events1]; [by destruct Hturn as [-> _]|].
    destruct Hturn as (c1 & _ & [[[-> _] _]|[-> _]]); [done|].
    pose proof (Hpos (FdEvent fd1 events1) fd1 (list_elem_of_here _ _) eq_refl).
    assert (fd ≠ fd1) by (intros ->; apply Hni; cbn; by left).
    by rewrite list_lookup_insert_ne by lia.
Qed.

Lemma has_serviced i events c ev : context_ok i c -> an_event ev -> ready events c ev = true ->
  has (fc_events (serviced events c)) ev = false.
Proof.
  intros Hok Ha Hr. pose proof (ok_events _ _ Hok) as Hev. unfold serviced, less_event.
  destruct Ha as [->| ->]; rewrite Hr; [destruct (ready events c WRITE)|destruct (ready events c READ)];
    rewrite ?fc_events_put; cbn [fc_events set_events]; rewrite ?fc_events_put; cbn [fc_events set_events];
    event_cases Hev; rewrite Hev; by vm_compute.
Qed.

Lemma ready_task events c ev : an_event ev -> ready events c ev = true -> task_of (slot ev c) ∈ ready_tasks events c.
Proof.
  unfold ready_tasks. intros [->| ->] ->; rewrite elem_of_app.
  - left. by left.
  - right. by left.
Qed.

Lemma has_ready events c ev : has events ev = true -> ready events c ev = true.
Proof. unfold ready. intros ->. by destruct (has events _). Qed.

(** An event that is reported has its turn. *)
Lemma turns_served tfd l s s' fd events ev c :
  turns l s s' -> io_ok tfd s -> NoDup (omap event_fd l) -> (∀ x fd', x ∈ l -> event_fd x = Some fd' -> (0 <= fd')%Z) ->
  (∀ op fd' mask e, (epoll_ctl op fd' mask e).1 = true) ->
  FdEvent fd events ∈ l -> an_event ev -> has events ev = true -> m_fdContexts s !! Z.to_nat fd = Some c ->
  task_of (slot ev c) ∈ m_tasks (sch (io_process s')) ∧
  ∃ c', m_fdContexts s' !! Z.to_nat fd = Some c' ∧ has c'.(fc_events) ev = false.
Proof.
  intros Hturns Hok Hnd Hpos Hctl Hin Ha Hev Hc. apply ok_contexts with (1 := Hok) in Hc as Hcok. clear Hok.
  induction Hturns as [s|x l s s1 s' Hturn Hturns IH]; [by apply not_elem_of_nil in Hin|].
  apply elem_of_cons in Hin as [<-|Hin].
  - cbn in Hnd. apply NoDup_cons in Hnd as [Hni _].
    destruct (turns_other _ _ _ fd Hturns) as [Hc' [q Hq]]; [by eapply Hpos; [left|]|done|by intros; eapply Hpos; [right|]|].
    destruct Hturn as (c1 & Hc1 & Hdone). rewrite Hc in Hc1. injection Hc1 as <-. apply has_ready with (c := c) in Hev.
    destruct Hdone as [[_ [[HR HW]|(op & mask & Hf)]]|[Hcs Ht]].
    + destruct Ha as [->| ->]; congruence.
    + by rewrite Hctl in Hf.
    + split.
      * rewrite Hq, Ht, !elem_of_app. left. right. by apply ready_task.
      * eexists. rewrite Hc', Hcs. split; [by apply list_lookup_insert_eq; eapply lookup_lt_Some|by eapply has_serviced].
  - apply IH; try done.
    + cbn in Hnd. destruct (event_fd x); [by apply NoDup_cons in Hnd as [_ ?]|done].
    + intros y fd' Hy. apply Hpos. by right.
    + destruct x as [|fd1 events1]; [by destruct Hturn as [-> _]|].
      cbn in Hnd. apply NoDup_cons in Hnd as [Hni _].
      assert (fd ≠ fd1) by (intros ->; apply Hni, list_elem_of_omap; by eexists).
      assert (0 <= fd1)%Z by by eapply Hpos; [left|].
      assert (0 <= fd)%Z by by eapply (Hpos (FdEvent fd events)); [right|].
      destruct Hturn as (c1 & _ & [[[-> _] _]|[-> _]]); [done|]. by rewrite list_lookup_insert_ne by lia.
Qed.

(** The step of [addEvent] that makes sure of a context. *)
Lemma addEvent_context tfd fd s :
  io_ok tfd s -> (0 <= fd)%Z -> ∃ s1 c,
    (if has_context fd s then mret tt else contextResize (Z.to_nat (fd * 3 / 2))) s = (Ret tt, s1) ∧
    io_ok tfd s1 ∧ m_fdContexts s1 !! Z.to_nat fd = Some c ∧ io_timers s1 = io_timers s ∧ io_process s1 = io_process s ∧
    (∀ i c', m_fdContexts s !! i = Some c' -> m_fdContexts s1 !! i = Some c') ∧
    (∀ i c', m_fdContexts s !! i = None -> m_fdContexts s1 !! i = Some c' -> c'.(fc_events) = 0%Z).
Proof.
  intros Hok Hfd. unfold has_context. case_bool_decide as Hin.
  - assert (Z.to_nat fd < length (m_fdContexts s)) as [c Hc]%lookup_lt_is_Some by lia. exists s, c. split_and!; try done. intros i c'. congruence.
  - pose proof (ok_size _ _ Hok). assert (fd + 1 <= fd * 3 / 2)%Z by (apply Z.div_le_lower_bound; lia).
    eexists _, _. split; [done|]. split; [apply resize_ok_io; [done|lia]|]. split_and!; try done.
    + cbn. rewrite resize_contexts_lookup by lia. rewrite (lookup_ge_None_2 (m_fdContexts s)) by lia.
      by rewrite bool_decide_true by lia.
    + intros i c' Hc'. cbn. rewrite resize_contexts_lookup by lia. by rewrite Hc'.
    + intros i c' Hi. cbn. rewrite resize_contexts_lookup, Hi by lia. case_bool_decide; [|done]. by intros [= <-].
Qed.

Lemma addEvent_ok tfd tid fd ev cb s n s' :
  io_ok tfd s -> (0 <= fd)%Z -> fd ≠ tfd -> an_event ev -> (local_of tid (io_process s)).(l_scheduler) = true ->
  addEvent tid fd ev cb s = (Ret n, s') -> io_ok tfd s'.
Proof.
  intros Hok Hfd Htfd Ha Hsch Hrun. unfold addEvent in Hrun. erewrite bind_run in Hrun by done.
  destruct (addEvent_context tfd fd s Hok Hfd) as (s1 & c & Hpre & Hok1 & Hc & Ht & HP & _).
  erewrite bind_run in Hrun by exact Hpre. eapply add_to_context_ok; [exact Hok1|..|exact Hrun]; try done. by rewrite HP.
Qed.

(** What is registered for an event of a descriptor. *)
Definition registered_as s fd ev (cb : callback W) : Prop :=
  ∃ c, m_fdContexts s !! Z.to_nat fd = Some c ∧ has c.(fc_events) ev = true ∧
    task_of (slot ev c) = mkTask None (Some cb) (-1).
Definition unregistered s fd ev : Prop :=
  ∀ c, m_fdContexts s !! Z.to_nat fd = Some c -> has c.(fc_events) ev = false.

(** [addEvent] with a callback returns, and a callback that it accepts is
    registered; unless [epoll_ctl] fails it accepts every first one. The other
    descriptors keep their contexts. *)
Lemma addEvent_callback tfd tid fd ev cb s :
  io_ok tfd s -> (0 <= fd)%Z -> an_event ev -> (local_of tid (io_process s)).(l_scheduler) = true ->
  ∃ n s', addEvent tid fd ev (Some cb) s = (Ret n, s') ∧ io_process s' = io_process s ∧
  (∀ i c, i ≠ Z.to_nat fd -> m_fdContexts s !! i = Some c -> m_fdContexts s' !! i = Some c) ∧
  (∀ i c, i ≠ Z.to_nat fd -> m_fdContexts s !! i = None -> m_fdContexts s' !! i = Some c -> c.(fc_events) = 0%Z) ∧
  ((∀ op fd' mask e, (epoll_ctl op fd' mask e).1 = true) -> unregistered s fd ev -> n = 0%Z) ∧
  (n = 0%Z -> io_timers s' = io_timers s ∧ registered_as s' fd ev cb).
Proof.
  intros Hok Hfd Ha Hsch. unfold addEvent. erewrite bind_run by done.
  destruct (addEvent_context tfd fd s Hok Hfd) as (s1 & c & Hpre & Hok1 & Hc & Ht & HP & Hkeep & Hfresh).
  erewrite bind_run by exact Hpre.
  assert (Z.to_nat fd < length (m_fdContexts s1)) as Hlt by by eapply lookup_lt_Some.
  pose proof (ok_contexts _ _ Hok1 _ _ Hc) as Hcok.
  destruct (has (fc_events c) ev) eqn:Hhas.
  { exists (-1)%Z, s1. split; [unfold add_to_context; erewrite bind_run by (by apply get_context_run); by rewrite Hhas|].
    split_and!; [done|naive_solver|naive_solver| |done]. intros _ Hun. destruct (m_fdContexts s !! Z.to_nat fd) as [c'|] eqn:Hc'.
    - apply Hkeep in Hc' as Hc1. rewrite Hc in Hc1. injection Hc1 as <-. by rewrite (Hun _ Hc') in Hhas.
    - rewrite (Hfresh _ _ Hc' Hc) in Hhas. by destruct Ha as [->| ->]. }
  destruct (epoll_ctl (if bool_decide (c.(fc_events) = 0)%Z then EPOLL_CTL_ADD else EPOLL_CTL_MOD) fd
    (Z.lor (Z.lor EPOLLET c.(fc_events)) ev) s1.(m_epfd)) as [[] e] eqn:Hctl.
  2:{ exists (-1)%Z. eexists. split; [unfold add_to_context; erewrite bind_run by (by apply get_context_run);
        rewrite Hhas; by erewrite bind_run by by apply ctl_run|]. split_and!; [done|naive_solver|naive_solver| |done].
      intros Hgood. specialize (Hgood (if bool_decide (c.(fc_events) = 0)%Z then EPOLL_CTL_ADD else EPOLL_CTL_MOD) fd
        (Z.lor (Z.lor EPOLLET c.(fc_events)) ev) s1.(m_epfd)). by rewrite Hctl in Hgood. }
  rewrite (add_to_context_start tid fd ev (Some cb) s1 c e) by done. cbv zeta. rewrite HP, Hsch.
  erewrite bind_run by by apply set_context_run; cbn; apply list_lookup_insert_eq.
  eexists _, _. split; [done|]. cbn. rewrite list_insert_insert_eq. split_and!; [done| | |done|].
  - intros i c' Hi Hc'. rewrite list_lookup_insert_ne by done. by apply Hkeep.
  - intros i c' Hi. rewrite list_lookup_insert_ne by done. by apply Hfresh.
  - intros _. split; [done|]. eexists. cbn. split; [by apply list_lookup_insert_eq|]. rewrite fc_events_put.
    split; [|by destruct Ha as [->| ->]]. cbn [set_events fc_events].
    rewrite (has_lor _ _ ev (ok_events _ _ Hcok) Ha Ha), Hhas. by destruct Ha as [->| ->].
Qed.

End facts.

(** ** The theorems *)

Section theorems.
Context {W E : Type} {HE : Epoll E} {HL : EpollLaws E}.
Implicit Types (s : IOManager W E) (tid fd ev : Z) (c : FdContext W).


(** C33. A callback registered with [addEvent] for a descriptor is served: if
    the wait of the next turn of [idle] reports the event, and [epoll_ctl] does
    not fail, the turn ends with the callback queued, whatever else the turn
    serves, and with the event no longer registered. *)
Theorem registered_event_served tfd tid tid' fd ev events cb s s1 s2 l :
  io_ok tfd s -> timers_calm s.(io_timers) -> (0 <= fd)%Z -> fd ≠ tfd -> an_event ev ->
  (local_of tid (io_process s)).(l_scheduler) = true ->
  (∀ t e l e', epoll_wait t e = (Ready l, e') -> ∀ fd ev, FdEvent fd ev ∈ l -> fd ≠ tfd) ->
  (∀ op fd' mask e, (epoll_ctl op fd' mask e).1 = true) ->
  addEvent tid fd ev (Some cb) s = (Ret 0%Z, s1) ->
  wait_events s1 = (Ret l, s2) -> FdEvent fd events ∈ l -> has events ev = true ->
  ∃ s' c', io_idle_body tid' s1 = (Ret tt, s') ∧
    mkTask None (Some cb) (-1) ∈ m_tasks (sch (io_process s')) ∧
    m_fdContexts s' !! Z.to_nat fd = Some c' ∧ has c'.(fc_events) ev = false.
Proof.
  intros Hok Hcalm Hfd Htfd Ha Hsch Hnt Hctl Hadd Hwait Hin Hev.
  destruct (addEvent_callback tfd tid fd ev cb s) as (n & s1' & Hadd' & _ & _ & _ & _ & Hacc); try done.
  rewrite Hadd in Hadd'. injection Hadd' as <- <-. destruct (Hacc eq_refl) as (Ht & c & Hc & _ & Htask).
  assert (io_ok tfd s1) as Hok1 by by eapply addEvent_ok.
  destruct (idle_body_run tfd tid' s1 Hok1) as (l' & s3 & s4 & s' & Hwait' & Hrun & _ & Hcs & _ & Hturns & Hok4 & Hnd & Hrep);
    [by rewrite Ht|done|].
  rewrite Hwait in Hwait'. injection Hwait' as <- <-. rewrite <-Hcs in Hc.
  destruct (Hrep _ Hin) as (_ & _ & c0 & Hc0 & _). rewrite Hc in Hc0. injection Hc0 as <-.
  destruct (turns_served tfd l s4 s' fd events ev c) as (Hserved & c' & Hc' & Hno); try done.
  - intros x fd' Hx Hxfd. pose proof (Hrep _ Hx) as Hrx. destruct x; [done|]. injection Hxfd as ->. by destruct Hrx.
  - rewrite Htask in Hserved. by exists s', c'.
Qed.

(** ** Reachable states *)

(** A manager that was made while nothing was watched. *)
Definition io_start (tfd : Z) s : Prop :=
  ∃ tid threads use_caller name ids s0,
    m_fdContexts s0 = [] ∧ m_pendingEventCount s0 = 0%Z ∧ (∀ fd, interest s0.(m_epfd) fd = None) ∧
    new_IOManager tid threads use_caller name tfd ids s0 = (Ret tt, s).

(** The operations, when they return, with descriptors that are not negative
    nor the pipe's; the timers and the scheduler go on by themselves. *)
Inductive io_step (tfd : Z) s : IOManager W E -> Prop :=
| step_addEvent tid fd ev cb n s' : (0 <= fd)%Z -> fd ≠ tfd -> an_event ev ->
    (local_of tid (io_process s)).(l_scheduler) = true -> addEvent tid fd ev cb s = (Ret n, s') -> io_step tfd s s'
| step_delEvent fd ev b s' : (0 <= fd)%Z -> an_event ev -> delEvent fd ev s = (Ret b, s') -> io_step tfd s s'
| step_cancelEvent tid fd ev b s' : (0 <= fd)%Z -> an_event ev -> cancelEvent tid fd ev s = (Ret b, s') -> io_step tfd s s'
| step_cancelAll tid fd b s' : (0 <= fd)%Z -> cancelAll tid fd s = (Ret b, s') -> io_step tfd s s'
| step_idle tid s' : timers_calm s.(io_timers) -> io_idle_body tid s = (Ret tt, s') -> io_step tfd s s'
| step_timers t : io_step tfd s (set_io_timers t s)
| step_process P : io_step tfd s (set_process P s).

Lemma io_start_ok tfd s : io_start tfd s -> io_ok tfd s.
Proof.
  intros (tid & n & b & name & ids & s0 & Hc & Hp & Hi & Hrun). unfold new_IOManager in Hrun.
  unfold mbind, prog_bind in Hrun. destruct (new_Scheduler tid n b name s0) as [[[]|?|?] s1] eqn:Hnew; [|done|done].
  apply keeps_new_Scheduler in Hnew as (Hc1 & Hp1 & He1 & _).
  destruct (ctl EPOLL_CTL_ADD tfd (Z.lor READ EPOLLET) s1) as [[rt|?|?] s2] eqn:Hctl; [|done|done].
  destruct (assert (negb rt) s2) as [[[]|?|?] s3] eqn:Hassert; [|done|done].
  destruct (epoll_ctl EPOLL_CTL_ADD tfd (Z.lor READ EPOLLET) s1.(m_epfd)) as [ok e] eqn:He.
  rewrite (ctl_run _ _ _ _ _ _ He) in Hctl. injection Hctl as <- <-. destruct ok; [|done]. injection Hassert as <-.
  change (contextResize 32 (set_epfd e s1)) with
    (Ret (E := std_exception) tt, set_fdContexts (resize_contexts 32 (m_fdContexts s1)) (set_epfd e s1)) in Hrun.
  cbv beta iota in Hrun. apply keeps_start in Hrun. eapply io_ok_same; [|exact Hrun].
  assert (∀ l fd, l = [] -> wanted (resize_contexts (W := W) 32 l) fd = None) as Hw.
  { intros l fd ->. rewrite resize_wanted by (cbn; lia). unfold wanted. by case_bool_decide. }
  rewrite Hc in Hc1. split; cbn [m_fdContexts m_pendingEventCount m_epfd set_fdContexts set_epfd].
  - intros i c. rewrite Hc1, resize_contexts_lookup by (cbn; lia). cbn. case_bool_decide; [|done].
    intros [= <-]. apply new_FdContext_ok.
  - rewrite Hp1, Hp, resize_registered by (rewrite Hc1; cbn; lia). by rewrite Hc1.
  - intros fd Hfd. apply ctl_ok in He as [_ Hother]. by rewrite Hw, Hother, He1, Hi by done.
  - rewrite Hc1. apply (bool_decide_unpack _). by vm_compute.
Qed.

Lemma io_step_ok tfd s s' :
  (∀ t e l e', epoll_wait t e = (Ready l, e') -> ∀ fd ev, FdEvent fd ev ∈ l -> fd ≠ tfd) ->
  io_step tfd s s' -> io_ok tfd s -> io_ok tfd s'.
Proof.
  intros Hnt Hstep Hok. destruct Hstep as [tid fd ev cb n s' ? ? ? ? Hrun|fd ev b s' Hfd Ha Hrun|tid fd ev b s' ? ? Hrun|
    tid fd b s' Hfd Hrun|tid s' Hcalm Hrun|t|P].
  - by eapply addEvent_ok.
  - destruct (delEvent_run tfd fd ev s Hok Hfd Ha) as (b' & s1 & Hrun' & Hok1). rewrite Hrun in Hrun'. by injection Hrun' as _ ->.
  - by eapply cancelEvent_ok.
  - destruct (cancelAll_total tfd tid fd s Hok Hfd) as (b' & s1 & Hrun' & Hok1). rewrite Hrun in Hrun'. by injection Hrun' as _ ->.
  - destruct (idle_body_run tfd tid s Hok Hcalm Hnt) as (l & s1 & s2 & s3 & _ & Hrun' & Hok1 & _).
    rewrite Hrun in Hrun'. by injection Hrun' as ->.
  - by destruct Hok.
  - by destruct Hok.
Qed.


(** C35. Two ways to a failed assertion. [cancelEvent] takes the event out of
    the context and then triggers it, so it ends the process whenever there is
    an event to cancel and [epoll_ctl] succeeds. And a report that was read
    before one of its two events was taken back, by [delEvent] on another
    thread, ends the process when it is served. *)
Theorem cancelled_event_asserts tfd tid fd ev s c :
  io_ok tfd s -> (0 <= fd)%Z -> m_fdContexts s !! Z.to_nat fd = Some c -> an_event ev ->
  (∀ op fd' mask e, (epoll_ctl op fd' mask e).1 = true) ->
  (has c.(fc_events) ev = true -> (cancelEvent tid fd ev s).1 = Halt AssertFailed) ∧
  (c.(fc_events) = Z.lor READ WRITE -> ∃ s', delEvent fd ev s = (Ret true, s') ∧
    (handle_event tid (FdEvent fd (Z.lor READ WRITE)) s').1 = Halt AssertFailed).
Proof.
  intros Hok Hfd Hc Ha Hctl. pose proof (ok_contexts _ _ Hok _ _ Hc) as Hcok. split.
  - intros Hhas. by eapply cancelEvent_halts, surjective_pairing_true.
  - intros Hboth. assert (has (fc_events c) ev = true) as Hhas by (rewrite Hboth; by destruct Ha as [->| ->]).
    eexists. split; [by eapply delEvent_takes, surjective_pairing_true|].
    apply (stale_report_halts tid fd ev _ (less_event ev c)); try done.
    + cbn. apply list_lookup_insert_eq. by eapply lookup_lt_Some.
    + by apply less_event_ok.
    + unfold less_event. by rewrite fc_events_put, Hboth.
Qed.

End theorems.

(** ** Where [Scheduler::stop] applies *)

Lemma io_stopping_run {W E} {HE : Epoll E} (r : IOManager W E) :
  m_timers (io_timers r) = [] -> m_pendingEventCount r = 0%Z ->
  io_stopping r = (Ret (m_stopping (sch (io_process r)) && bool_decide (length (m_tasks (sch (io_process r))) = 0)
    && bool_decide (m_activeThreadCount (sch (io_process r)) = 0)%Z), set_io_timers (set_tickled false (io_timers r)) r).
Proof.
  intros Ht Hp. unfold io_stopping.
  assert (on_timers getNextTimer r = (Ret (E := std_exception) u64_max,
    set_io_timers (set_tickled false (io_timers r)) r)) as Hnext.
  { unfold on_timers. erewrite bind_run by done.
    erewrite bind_run by (apply zoom_run; unfold getNextTimer; erewrite bind_run by done;
      erewrite bind_run by done; cbn [m_timers set_tickled]; by rewrite Ht).
    erewrite bind_run by done. rewrite bool_decide_false by (cbn; lia). by erewrite bind_run by done. }
  erewrite bind_run by exact Hnext. rewrite bool_decide_true by done. erewrite bind_run by done.
  cbn [m_pendingEventCount set_io_timers]. rewrite Hp. reflexivity.
Qed.

(** While no timer is set and no event is pending, an [IOManager] is as quiet as
    a [Scheduler], and what is proved of [stop] holds of it. *)
#[export] Instance io_laws W E {HE : Epoll E} : SchedulerLaws W (IOManager W E).
Proof.
  refine {| quiet (r : IOManager W E) := m_timers (io_timers r) = [] ∧ m_pendingEventCount r = 0%Z |}; try done.
  - intros tid r [Ht Hp]. destruct (io_tickle_run r) as (r' & Hrun & (_ & Hp' & _ & Ht') & HP).
    eapply returns_run; [exact Hrun|]. cbn. by rewrite HP, Ht', Hp'.
  - intros tid r [Ht Hp]. eapply returns_run; [by apply io_stopping_run|]. done.
Defined.

(** ** A concrete [epoll] *)

(** The interest list, the descriptors that are ready with their bits, and the
    signals still to come; descriptor 3 is the pipe. *)
Record sample_epoll := mkSampleEpoll {
  watched : gmap Z Z;
  ready_fds : Z -> Z;
  signals : nat
}.

Definition sample_ctl (op : epoll_op) (fd ev : Z) (e : sample_epoll) : bool * sample_epoll :=
  (true, mkSampleEpoll (match op with EPOLL_CTL_DEL => delete fd e.(watched) | _ => <[fd := ev]> e.(watched) end)
    e.(ready_fds) e.(signals)).

(** Errors and hang-ups are reported unasked. *)
Definition sample_event (e : sample_epoll) (x : Z * Z) : epoll_event :=
  if bool_decide (x.1 = 3%Z) then TickleEvent
  else FdEvent x.1 (Z.land (e.(ready_fds) x.1) (Z.lor x.2 (Z.lor EPOLLERR EPOLLHUP))).
Definition sample_wait (_ : Z) (e : sample_epoll) : wait_answer * sample_epoll :=
  match e.(signals) with
  | S n => (Interrupted, mkSampleEpoll e.(watched) e.(ready_fds) n)
  | 0 => (Ready (sample_event e <$> map_to_list e.(watched)), e)
  end.

#[export] Instance sample_epoll_ops : Epoll sample_epoll := {|
  epoll_ctl := sample_ctl;
  epoll_wait := sample_wait;
  interruptions := signals
|}.

Lemma sample_events_once e (l : list (Z * Z)) :
  NoDup l.*1 -> NoDup (omap (λ x, match x with FdEvent fd _ => Some fd | TickleEvent => None end) (sample_event e <$> l)).
Proof.
  induction l as [|[fd mask] l IH]; [intros; constructor|]. cbn. intros [Hni Hnd]%NoDup_cons.
  unfold sample_event at 1. cbn [fst]. case_bool_decide; [auto|]. constructor; [|auto].
  intros (x & Hx & Hfd)%list_elem_of_omap. apply list_elem_of_fmap in Hx as (y & -> & Hy).
  apply Hni, list_elem_of_fmap. exists y. split; [|done]. unfold sample_event in Hfd. case_bool_decide; congruence.
Qed.

#[export] Instance sample_epoll_laws : EpollLaws sample_epoll.
Proof.
  refine {| interest e fd := e.(watched) !! fd |}.
  - done.
  - intros op fd ev e e' [= <-]. cbn. split; [destruct op; by rewrite ?lookup_insert_eq, ?lookup_delete_eq|].
    intros fd' Hne. destruct op; by rewrite ?lookup_insert_ne, ?lookup_delete_ne.
  - intros t e answer e' Hw fd. cbn in Hw. unfold sample_wait in Hw. destruct (signals e); by injection Hw as _ <-.
  - intros t e l e' Hw fd ev Hin. cbn in Hw. unfold sample_wait in Hw. destruct (signals e); [|done].
    injection Hw as <- _. apply list_elem_of_fmap in Hin as ([fd' mask] & Heq & Hmem). unfold sample_event in Heq.
    cbn [fst snd] in Heq. case_bool_decide; [done|]. injection Heq as -> ->. apply elem_of_map_to_list in Hmem.
    exists mask. split; [done|]. split; [rewrite !has_READ|rewrite !has_WRITE];
      rewrite Z.land_spec, Z.lor_spec; intros [_ Hb]%andb_true_iff; by rewrite orb_false_r in Hb.
  - intros t e l e' Hw. cbn in Hw. unfold sample_wait in Hw. destruct (signals e); [|done]. injection Hw as <- _.
    apply sample_events_once, NoDup_fst_map_to_list.
  - intros t e e' Hw. cbn in Hw |- *. unfold sample_wait in Hw. destruct (signals e); [done|]. injection Hw as <-. cbn. lia.
Defined.

Lemma sample_pipe t (e : sample_epoll) l e' : epoll_wait t e = (Ready l, e') -> ∀ fd ev, FdEvent fd ev ∈ l -> fd ≠ 3%Z.
Proof.
  intros Hw fd ev Hin. cbn in Hw. unfold sample_wait in Hw. destruct (signals e); [|done]. injection Hw as <- _.
  apply list_elem_of_fmap in Hin as (x & Heq & _). unfold sample_event in Heq. case_bool_decide; congruence.
Qed.

(** A manager made on thread 7; one signal is to come, and descriptor 40 is
    ready to be read, and has hung up. *)
Definition sample_before : IOManager (list nat) sample_epoll :=
  mkIOManager (fresh_process []) (mkTimerManager [] [] false 0 0 (λ _, 0%Z) 0) [] 0 0
    (mkSampleEpoll ∅ (λ fd, if bool_decide (fd = 40%Z) then 17%Z else 0%Z) 1).
Definition sample_io : IOManager (list nat) sample_epoll :=
  (new_IOManager 7 1 true "io" 3 [] sample_before).2.
(** With work registered for both events of descriptor 40. *)
Definition sample_registered : IOManager (list nat) sample_epoll :=
  ((addEvent 7 40 READ (Some (log 1 Return));; addEvent 7 40 WRITE (Some (log 2 Return))) sample_io).2.

Lemma run_fst {A B} (p : A * B) a : p.1 = a -> p = (a, p.2).
Proof. by destruct p; intros <-. Qed.

Lemma sample_io_start : io_start 3 sample_io.
Proof.
  exists 7%Z, 1, true, "io", [], sample_before. split; [done|]. split; [done|]. split; [done|].
  unfold sample_io. apply run_fst. vm_compute. reflexivity.
Qed.

Lemma sample_io_ok : io_ok 3 sample_io.
Proof. apply io_start_ok, sample_io_start. Qed.

Lemma sample_calm (s : IOManager (list nat) sample_epoll) :
  io_timers s = io_timers sample_before -> timers_calm (io_timers s).
Proof.
  intros ->. split; [split; constructor|]. split; [by intros p t ?%not_elem_of_nil|]. intros n. apply Z.leb_le. by vm_compute.
Qed.

Lemma sample_registered_ok : io_ok 3 sample_registered.
Proof.
  unfold sample_registered.
  destruct (addEvent_callback 3 7 40 READ (log 1 Return) sample_io sample_io_ok) as (n & s1 & Hrun1 & _);
    [done|apply an_event_READ|vm_compute; reflexivity|]. erewrite bind_run by exact Hrun1.
  assert (io_ok 3 s1) as Hok1.
  { eapply addEvent_ok; [apply sample_io_ok| | |apply an_event_READ| |exact Hrun1]; [done|done|vm_compute; reflexivity]. }
  assert (s1 = (addEvent 7 40 READ (Some (log 1 Return)) sample_io).2) as Hs1 by by rewrite Hrun1.
  destruct (addEvent_callback 3 7 40 WRITE (log 2 Return) s1 Hok1) as (n2 & s2 & Hrun2 & _);
    [done|apply an_event_WRITE|rewrite Hs1; vm_compute; reflexivity|]. rewrite Hrun2.
  eapply addEvent_ok; [exact Hok1| | |apply an_event_WRITE| |exact Hrun2]; [done|done|rewrite Hs1; vm_compute; reflexivity].
Qed.


Lemma registered_event_served_witness :
  let s1 := (addEvent 7 40 READ (Some (log 1 Return)) sample_io).2 in
  ∃ s' c', io_idle_body 7 s1 = (Ret tt, s') ∧ mkTask None (Some (log 1 Return)) (-1) ∈ m_tasks (sch (io_process s')) ∧
    m_fdContexts s' !! 40 = Some c' ∧ has c'.(fc_events) READ = false.
Proof.
  intros s1. refine (registered_event_served 3 7 7 40 READ 17 (log 1 Return) sample_io s1 (wait_events s1).2
    [TickleEvent; FdEvent 40 17] sample_io_ok _ _ _ an_event_READ _ sample_pipe _ _ _ _ _).
  - apply sample_calm. vm_compute. reflexivity.
  - discriminate.
  - discriminate.
  - vm_compute. reflexivity.
  - reflexivity.
  - apply run_fst; vm_compute; reflexivity.
  - apply run_fst; vm_compute; reflexivity.
  - right. left.
  - reflexivity.
Defined.


(** The context of descriptor 40. *)
Definition sample_context : FdContext (list nat) :=
  mkFdContext (mkEventContext true None (Some (log 1 Return))) (mkEventContext true None (Some (log 2 Return))) 40 5.

Lemma cancelled_event_asserts_witness :
  (cancelEvent 7 40 READ sample_registered).1 = Halt AssertFailed ∧
  ∃ s', delEvent 40 READ sample_registered = (Ret true, s') ∧
    (handle_event 7 (FdEvent 40 (Z.lor READ WRITE)) s').1 = Halt AssertFailed.
Proof.
  destruct (cancelled_event_asserts 3 7 40 READ sample_registered sample_context) as [Hc Hd].
  - exact sample_registered_ok.
  - discriminate.
  - vm_compute. reflexivity.
  - exact an_event_READ.
  - reflexivity.
  - split; [apply Hc; reflexivity|apply Hd; reflexivity].
Defined.
