(* ===== verification/WorkersTheorems.v ===== *)
(** * What the threads of a scheduler guarantee together

    The invariant of the interleaved threads, and what follows from it: no task
    is lost or run twice, each thread takes its tasks in the order they were
    scheduled, no thread gets stuck, and one leaves only when everything that was
    scheduled has been run. *)

From S2P Require Export IOManagerFacts WorkersFacts.

(** ** The search of the queue *)
Section search.
Context {W : Type}.
Implicit Types (t : ScheduleTask W) (tid : Z).

#[export] Instance for_this_dec tid thread : Decision (for_this tid thread).
Proof. unfold for_this. apply _. Defined.

(** The tasks of the queue that thread [tid] may take. *)
Definition tasks_for tid (l : list (ScheduleTask W)) : list (ScheduleTask W) :=
  filter (λ t, for_this tid t.(task_thread)) l.

Lemma tasks_for_app tid l l' : tasks_for tid (l ++ l') = tasks_for tid l ++ tasks_for tid l'.
Proof. apply filter_app. Qed.

Lemma tasks_for_cons tid t l :
  tasks_for tid (t :: l) = (if decide (for_this tid t.(task_thread)) then [t] else []) ++ tasks_for tid l.
Proof. unfold tasks_for. rewrite filter_cons. by case_decide. Qed.

(** The first task for the thread, with those before and behind it. *)
Lemma find_task_spec tid (l : list (ScheduleTask W)) :
  match find_task tid l with
  | (before, Some (t, rest)) => l = before ++ t :: rest ∧ tasks_for tid before = [] ∧ for_this tid t.(task_thread)
  | (before, None) => before = l ∧ tasks_for tid l = []
  end.
Proof.
  induction l as [|t l IH]; [done|]. cbn [find_task].
  assert (negb (bool_decide (task_thread t = (-1)%Z)) && negb (bool_decide (task_thread t = tid)) =
    bool_decide (¬ for_this tid (task_thread t))) as ->.
  { apply eq_bool_prop_intro. rewrite andb_True, !negb_True, !bool_decide_spec. unfold for_this. naive_solver. }
  case_bool_decide as Ht; [|by split_and!]. destruct (find_task tid l) as [before [[t' rest]|]].
  - destruct IH as (-> & Hb & Hth). split; [done|]. rewrite tasks_for_cons, decide_False by done. done.
  - destruct IH as [-> Hl]. split; [done|]. rewrite tasks_for_cons, decide_False by done. done.
Qed.

Lemma sublist_tasks_for tid l l' : l `sublist_of` l' -> tasks_for tid l `sublist_of` tasks_for tid l'.
Proof.
  induction 1 as [|t l l' _ IH|t l l' _ IH]; [done| |]; rewrite ?tasks_for_cons.
  - by apply sublist_app.
  - etrans; [exact IH|]. by apply sublist_inserts_l.
Qed.

End search.

(** ** The tasks in the hands of the threads *)
Section hands.
Context {W : Type}.
Implicit Types (m : gmap Z (place W)) (tid : Z) (pl : place W).

Definition in_hand tid pl : list (Z * ScheduleTask W) :=
  match pl with Took (Some t) _ => [(tid, t)] | _ => [] end.
Definition in_hands m : list (Z * ScheduleTask W) := map_to_list m ≫= λ p, in_hand p.1 p.2.

Lemma in_hands_insert m tid pl : m !! tid = None -> in_hands (<[tid := pl]> m) ≡ₚ in_hand tid pl ++ in_hands m.
Proof. intros Hm. unfold in_hands. by rewrite map_to_list_insert. Qed.

Lemma in_hands_none m : (∀ tid pl, m !! tid = Some pl -> in_hand tid pl = []) -> in_hands m = [].
Proof.
  induction m as [|tid pl m Hm IH] using map_ind; intros Hall; [done|].
  apply Permutation_nil_r. rewrite in_hands_insert by done. rewrite (Hall tid pl), IH.
  - done.
  - intros tid' pl' Hm'. apply Hall. rewrite lookup_insert_ne; [done|]. by intros ->; rewrite Hm in Hm'.
  - apply lookup_insert_eq.
Qed.

(** A thread that moves changes its own part. *)
Lemma in_hands_move m tid pl : m !! tid = Some pl ->
  ∃ rest, in_hands m ≡ₚ in_hand tid pl ++ rest ∧ ∀ pl', in_hands (<[tid := pl']> m) ≡ₚ in_hand tid pl' ++ rest.
Proof.
  intros Hm. exists (in_hands (delete tid m)).
  assert (∀ pl', in_hands (<[tid := pl']> m) ≡ₚ in_hand tid pl' ++ in_hands (delete tid m)) as Hins.
  { intros pl'. rewrite <-insert_delete_eq. apply in_hands_insert, lookup_delete_eq. }
  split; [|done]. rewrite <-Hins, insert_id; done.
Qed.


End hands.

(** ** The threads *)
Section places.
Context {W : Type} (T : gset Z).
Implicit Types (P : process W) (m : gmap Z (place W)) (tid : Z) (pl : place W) (t : ScheduleTask W) (q : fiber_ptr).

(** The threads a task may ask for. *)
Definition ok_thread (thread : Z) : Prop := thread = (-1)%Z ∨ thread ∈ T.
Definition worker_task t : Prop := straight_for ok_thread t.

(** A thread inside [run], whose idle fiber has ended only if everything is
    done. *)
Definition engaged tid P : Prop :=
  ∃ sf idle, in_run tid sf idle P ∧ stocked tid P ∧ (idle_ended idle P -> may_end P.(sch)).

Definition place_ok tid pl P : Prop :=
  match pl with
  | Starting => ∃ sf, starting tid sf P
  | Looping | Took None _ => engaged tid P
  | Took (Some t) _ => engaged tid P ∧ worker_task t ∧ for_this tid t.(task_thread)
  | Left => engaged tid P ∧ may_end P.(sch)
  end.

(** Every thread is where it should be, and no fiber belongs to two. *)
Record places_ok m P : Prop := {
  po_place tid pl : m !! tid = Some pl -> place_ok tid pl P;
  po_apart tid tid' q : is_Some (m !! tid) -> is_Some (m !! tid') -> tid ≠ tid' -> owned tid P q -> ¬ owned tid' P q
}.

(** What a step may do to the scheduler object. *)
Definition kept (s s' : Scheduler W) : Prop :=
  s'.(m_rootThread) = s.(m_rootThread) ∧ (may_end s -> may_end s').

Lemma place_ok_owned tid pl P q : place_ok tid pl P -> owned tid P q -> q < length P.(heap).
Proof.
  assert (engaged tid P -> owned tid P q -> q < length P.(heap)) as Hin
    by (intros (sf & idle & Hr & _); by eapply in_run_owned).
  destruct pl as [| |[t|] b|]; [|tauto|intros [? _]; tauto|tauto|intros [? _]; tauto].
  intros (sf & Hpool & Hidle & Hst). unfold owned. rewrite Hpool, Hidle.
  intros [Hsf|[?|(l & ? & _)]]; [|done|done]. case_decide.
  - destruct Hst as [Hsf' [? Hs]]. rewrite Hsf in Hsf'. simplify_eq. by eapply lookup_lt_Some.
  - destruct Hst as (_ & Hsf' & _). congruence.
Qed.

(** A thread that does not move, under the step of another. *)
Lemma engaged_framed tid tid' P P' :
  tid' ≠ tid -> framed tid P P' -> kept P.(sch) P'.(sch) -> (∀ q, owned tid' P q -> ¬ owned tid P q) ->
  engaged tid' P -> engaged tid' P'.
Proof.
  intros Hne Hf [_ Hk] Hd (sf & idle & Hr & Hstk & Hend). exists sf, idle. split; [by eapply in_run_framed|].
  pose proof (fr_locals _ _ _ Hf _ Hne) as Hl. split.
  - intros l. rewrite Hl. apply Hstk.
  - intros (b & Hb & Ht). apply Hk, Hend. exists b. split; [|done]. rewrite <-Hb. symmetry.
    assert (owned tid' P idle) as Ho by (right; left; apply Hr).
    apply (fr_heap _ _ _ Hf); [by eapply in_run_owned|by apply Hd].
Qed.

Lemma place_ok_framed tid tid' pl P P' :
  tid' ≠ tid -> framed tid P P' -> kept P.(sch) P'.(sch) -> (∀ q, owned tid' P q -> ¬ owned tid P q) ->
  place_ok tid' pl P -> place_ok tid' pl P'.
Proof.
  intros Hne Hf Hk Hd. assert (engaged tid' P -> engaged tid' P') as Hen by by eapply engaged_framed.
  pose proof (fr_locals _ _ _ Hf _ Hne) as Hl. destruct Hk as [Hroot Hk].
  destruct pl as [| |[t|] b|]; cbn; [|tauto|tauto|tauto|tauto].
  intros (sf & Hpool & Hidle & Hst). unfold starting. rewrite Hl, Hroot. case_decide.
  - destruct Hst as [Hsf [b Hs]]. exists sf. split_and!; try done. assert (owned tid' P sf) as Ho by by left.
    rewrite (fr_heap _ _ _ Hf); [by exists b|by eapply lookup_lt_Some|by apply Hd].
  - exists (length P'.(heap)). by destruct Hst as (? & ? & _).
Qed.

(** The step of a thread. *)
Lemma places_step tid pl pl' m P P' :
  places_ok m P -> m !! tid = Some pl -> framed tid P P' -> kept P.(sch) P'.(sch) -> place_ok tid pl' P' ->
  places_ok (<[tid := pl']> m) P'.
Proof.
  intros Hok Hm Hf Hk Hpl'. pose proof Hok as [Hp Ha].
  assert (∀ tid', is_Some (<[tid := pl']> m !! tid') -> is_Some (m !! tid')) as Hdom.
  { intros tid'. rewrite lookup_insert_is_Some'. intros [<-|?]; [by eexists|done]. }
  split.
  - intros tid' pl1. destruct (decide (tid' = tid)) as [->|Hne]; [rewrite lookup_insert_eq; by intros [= <-]|].
    rewrite lookup_insert_ne by done. intros Hm'. eapply place_ok_framed; [done|done|done| |by apply Hp].
    intros q. by apply Ha; [eexists|eexists|].
  - (* what the thread owns now was its own or is new *)
    assert (∀ tid' q, is_Some (m !! tid') -> tid' ≠ tid -> owned tid P' q -> ¬ owned tid' P' q) as Hstep.
    { intros tid' q [pl1 Hm'] Hne Ho. rewrite (owned_local _ P) by by apply (fr_locals _ _ _ Hf).
      apply (fr_owned _ _ _ Hf) in Ho as [Ho|Hlen]; [by apply (Ha tid tid'); [eexists|eexists| |]|].
      intros Ho. eapply (place_ok_owned _ _ _ _ (Hp _ _ Hm')) in Ho. lia. }
    intros t1 t2 q H1%Hdom H2%Hdom Hne Ho. destruct (decide (t1 = tid)) as [->|N1]; [by apply Hstep|].
    destruct (decide (t2 = tid)) as [->|N2]; [intros Ho2; by apply (Hstep t1 q) in Ho2|].
    rewrite (owned_local _ P) by by apply (fr_locals _ _ _ Hf). apply (Ha t1); try done.
    by rewrite <-(owned_local _ P P') by by apply (fr_locals _ _ _ Hf).
Qed.

(** A change of the scheduler object alone. *)
Lemma places_sch m P s : places_ok m P -> kept P.(sch) s -> places_ok m (set_sch s P).
Proof.
  intros [Hp Ha] [Hroot Hk].
  assert (∀ tid, engaged tid P -> engaged tid (set_sch s P)) as Hen.
  { intros tid (sf & idle & [? ? ? ? ? ?] & Hstk & Hend). exists sf, idle. split_and!; [by split|done|]. intros He. by apply Hk, Hend. }
  split; [|exact Ha]. intros tid pl Hm%Hp. destruct pl as [| |[t|] b|]; cbn in *; [|by apply Hen|..|by apply Hen|].
  - unfold starting in *. cbn. by rewrite Hroot.
  - destruct Hm as (? & ? & ?). split_and!; try done. by apply Hen.
  - destruct Hm as [? ?]. split; [by apply Hen|by apply Hk].
Qed.

End places.

(** ** The history *)
Section history.
Context {W : Type} (T : gset Z) (w0 : W) (q0 : list (ScheduleTask W)).
Implicit Types (P : process W) (m : gmap Z (place W)) (tid : Z) (t : ScheduleTask W) (l : list (Z * ScheduleTask W)).

(** What running the tasks [l] one after the other makes of the data, and what
    they schedule. *)
Definition run_task (x : W * list (ScheduleTask W)) (p : Z * ScheduleTask W) : W * list (ScheduleTask W) :=
  match p.2.(task_cb) with
  | Some cb => ((effect_of cb x.1).1, x.2 ++ (effect_of cb x.1).2)
  | None => x
  end.
Definition run_tasks (w : W) l : W * list (ScheduleTask W) := foldl run_task (w, []) l.

(** What the history has to say of the queue [q], the tasks [hand] in the hands
    of the threads and the data [w]. *)
Record history_ok (q submitted : list (ScheduleTask W)) (taken executed hand : list (Z * ScheduleTask W)) (w : W) : Prop := {
  hi_queue : Forall (worker_task T) q;
  hi_submitted : submitted ≡ₚ taken.*2 ++ q;
  hi_taken : taken ≡ₚ executed ++ hand;
  hi_order tid : taken_by tid taken ++ tasks_for tid q `sublist_of` submitted;
  hi_allowed : Forall (λ p, for_this p.1 p.2.(task_thread)) taken;
  hi_world : (run_tasks w0 executed).1 = w;
  hi_effects : q0 ++ (run_tasks w0 executed).2 ⊆+ submitted
}.

Lemma taken_by_app tid l l' : taken_by tid (l ++ l') = taken_by tid l ++ taken_by tid l'.
Proof. unfold taken_by. by rewrite filter_app, fmap_app. Qed.

Lemma taken_by_one tid' tid t : taken_by tid' [(tid, t)] = if decide (tid = tid') then [t] else [].
Proof. unfold taken_by. rewrite filter_cons. cbn [fst]. by case_decide. Qed.

(** Tasks that are scheduled. *)
Lemma history_submit new q submitted taken executed hand w :
  history_ok q submitted taken executed hand w -> Forall (worker_task T) new ->
  history_ok (q ++ new) (submitted ++ new) taken executed hand w.
Proof.
  intros [Hq Hs Ht Ho Ha Hw He] Hnew. split; try done.
  - by apply Forall_app.
  - by rewrite Hs, app_assoc.
  - intros tid. rewrite tasks_for_app, app_assoc. apply sublist_app; [done|]. apply sublist_filter.
  - rewrite He. by apply submseteq_inserts_r.
Qed.

(** A task that is taken. *)
Lemma history_take tid before t rest submitted taken executed hand w :
  history_ok (before ++ t :: rest) submitted taken executed hand w ->
  tasks_for tid before = [] -> for_this tid t.(task_thread) ->
  history_ok (before ++ rest) submitted (taken ++ [(tid, t)]) executed ((tid, t) :: hand) w.
Proof.
  intros [Hq Hs Ht Ho Ha Hw He] Hb Hth. split; try done.
  - apply Forall_app in Hq as [? [_ ?]%Forall_cons]. by apply Forall_app.
  - rewrite Hs, fmap_app. cbn. by rewrite <-app_assoc, <-Permutation_middle.
  - rewrite Ht, <-app_assoc. by rewrite <-Permutation_cons_append.
  - intros tid'. etrans; [|apply Ho]. rewrite taken_by_app, <-app_assoc. apply sublist_app; [done|].
    rewrite !tasks_for_app, tasks_for_cons, taken_by_one. destruct (decide (tid = tid')) as [<-|Hne].
    + rewrite Hb. by rewrite decide_True by done.
    + cbn. apply sublist_app; [done|]. by apply sublist_inserts_l.
  - apply Forall_app. by split; [|apply Forall_singleton].
Qed.

(** A task that has been run. *)
Lemma history_execute tid t cb q submitted taken executed rest w :
  history_ok q submitted taken executed ((tid, t) :: rest) w -> worker_task T t -> t.(task_cb) = Some cb ->
  history_ok (q ++ (effect_of cb w).2) (submitted ++ (effect_of cb w).2) taken (executed ++ [(tid, t)]) rest (effect_of cb w).1.
Proof.
  intros H (_ & _ & cb' & Hcb' & Hst) Hcb. rewrite Hcb in Hcb'. injection Hcb' as <-.
  destruct (history_submit (effect_of cb w).2 _ _ _ _ _ _ H) as [Hq Hs Ht Ho Ha Hw He]; [by apply effect_of_straight|].
  assert (run_tasks w0 (executed ++ [(tid, t)]) = ((effect_of cb w).1, (run_tasks w0 executed).2 ++ (effect_of cb w).2)) as Hrun.
  { unfold run_tasks in *. rewrite foldl_app. cbn. unfold run_task at 1. cbn. by rewrite Hcb, Hw. }
  split; rewrite ?Hrun; try done.
  - by rewrite Ht, <-app_assoc.
  - cbn. rewrite app_assoc. apply submseteq_app; [|done]. apply H.
Qed.

Lemma history_hand hand' q submitted taken executed hand w :
  history_ok q submitted taken executed hand w -> hand ≡ₚ hand' -> history_ok q submitted taken executed hand' w.
Proof. intros [? ? Ht ? ? ? ?] Hh. split; try done. by rewrite Ht, Hh. Qed.

End history.

(** ** The invariant *)
Section invariant.
Context {W R : Type} {HR : SchedulerClass W R} {HL : SchedulerLaws W R} {HI : IdleLaws W R}.
Context (T : gset Z) (w0 : W) (q0 : list (ScheduleTask W)).
Implicit Types (x : workers W R) (r : R) (P : process W) (tid : Z) (t : ScheduleTask W) (pl : place W).

Record workers_ok x : Prop := {
  wo_quiet : quiet x.(scheduler);
  wo_dom : dom x.(places) = T;
  wo_places : places_ok T x.(places) (base x.(scheduler));
  wo_count : m_activeThreadCount (sch (base x.(scheduler))) = Z.of_nat (length (in_hands x.(places)));
  wo_history : history_ok T w0 q0 (queue x.(scheduler)) x.(submitted) x.(taken) x.(executed)
    (in_hands x.(places)) (world (base x.(scheduler)))
}.

Lemma kept_refl (s : Scheduler W) : kept s s.
Proof. done. Qed.

Lemma engaged_sch tid P s : engaged tid P -> kept P.(sch) s -> engaged tid (set_sch s P).
Proof.
  intros (sf & idle & [? ? ? ? ? ?] & Hstk & Hend) [_ Hk]. exists sf, idle.
  split_and!; [by split|done|]. intros He. by apply Hk, Hend.
Qed.

Lemma worker_has_task t : worker_task T t -> has_task t = true.
Proof. intros (_ & _ & cb & Hcb & _). unfold has_task. rewrite Hcb. apply orb_true_r. Qed.

(** The part of a round under the lock. *)
Lemma runs_take_task tid r :
  Forall (worker_task T) (queue r) ->
  runs (take_task tid) r (λ a P, ∃ s, P = set_sch s (base r) ∧
    match a.1 with
    | None => s = sch (base r) ∧ tasks_for tid (queue r) = []
    | Some t => ∃ before rest, queue r = before ++ t :: rest ∧ tasks_for tid before = [] ∧ for_this tid t.(task_thread) ∧
        s = set_active (m_activeThreadCount (sch (base r)) + 1) (set_tasks (before ++ rest) (sch (base r)))
    end).
Proof.
  unfold queue, take_task. intros Hq. apply runs_bind, runs_gets. intros r1 Hr1.
  pose proof (find_task_spec tid (m_tasks (sch (base r)))) as Hfind.
  destruct (find_task tid (m_tasks (sch (base r)))) as [before [[t rest]|]].
  - destruct Hfind as (Heq & Hb & Hth). rewrite Heq in Hq. apply Forall_app in Hq as [_ [Ht _]%Forall_cons].
    apply runs_bind, runs_assert; [by apply worker_has_task|]. intros r2 Hr2.
    apply runs_bind, runs_sch. intros r3 Hr3. apply runs_bind, runs_sch. intros r4 Hr4. apply runs_ret.
    rewrite Hr4, Hr3, Hr2, Hr1. eexists. split; [reflexivity|]. exists before, rest. by split_and!.
  - apply runs_ret. rewrite Hr1. exists (sch (base r)). split; [by destruct (base r)|]. by destruct Hfind.
Qed.

Lemma do_step_run {A} (m : prog std_exception R A) (f : A -> workers W R -> workers W R) x Q :
  runs m x.(scheduler) Q -> quiet x.(scheduler) ->
  ∃ a r', do_step m f x = (Ret tt, f a (with_scheduler r' x)) ∧ Q a (base r') ∧ quiet r'.
Proof.
  intros Hm Hq. destruct (Hm Hq) as (a & r' & Hrun & HQ & Hq'). exists a, r'. unfold do_step. by rewrite Hrun.
Qed.

(** What a step submits. *)
Lemma with_scheduler_same r x : queue r = queue x.(scheduler) -> (with_scheduler r x).(submitted) = x.(submitted).
Proof. intros Hq. cbn. by rewrite Hq, drop_all, app_nil_r. Qed.

Lemma with_scheduler_new r x new : queue r = queue x.(scheduler) ++ new ->
  (with_scheduler r x).(submitted) = x.(submitted) ++ new.
Proof. intros Hq. cbn. by rewrite Hq, drop_app_length. Qed.

(** A thread that moves with nothing taken and nothing run. *)
Lemma move_ok tid pl pl' x r :
  workers_ok x -> x.(places) !! tid = Some pl -> in_hand tid pl' = in_hand tid pl -> quiet r ->
  framed tid (base x.(scheduler)) (base r) -> sch (base r) = sch (base x.(scheduler)) ->
  world (base r) = world (base x.(scheduler)) -> place_ok T tid pl' (base r) ->
  workers_ok (move tid pl' (with_scheduler r x)).
Proof.
  intros [Hq Hd Hp Hc Hh] Hm Heq Hq' Hf Hs Hw Hpl'.
  assert (in_hands (<[tid := pl']> x.(places)) ≡ₚ in_hands x.(places)) as Hhands.
  { destruct (in_hands_move _ _ _ Hm) as (rest & Hold & Hnew). by rewrite Hnew, Heq, Hold. }
  assert (queue r = queue x.(scheduler)) as Hqueue by (unfold queue; by rewrite Hs).
  split; unfold move; cbn [scheduler places submitted taken executed].
  - done.
  - by rewrite dom_insert_lookup_L by (by eexists).
  - eapply places_step; try done. cbn. rewrite Hs. apply kept_refl.
  - cbn. by rewrite Hs, Hhands.
  - rewrite with_scheduler_same by done. cbn. rewrite Hqueue, Hw. by eapply history_hand.
Qed.

(** A thread that takes a task. *)
Lemma take_ok tid x r t before rest :
  workers_ok x -> x.(places) !! tid = Some Looping -> quiet r ->
  queue x.(scheduler) = before ++ t :: rest -> tasks_for tid before = [] -> for_this tid t.(task_thread) ->
  base r = set_sch (set_active (m_activeThreadCount (sch (base x.(scheduler))) + 1)
    (set_tasks (before ++ rest) (sch (base x.(scheduler))))) (base x.(scheduler)) ->
  ∀ tickle_me, workers_ok (move tid (Took (Some t) tickle_me) (note_taken tid (Some t) (with_scheduler r x))).
Proof.
  intros [Hq Hd Hp Hc Hh] Hm Hq' Hqueue Hb Hth Hr tickle_me.
  destruct (in_hands_move _ _ _ Hm) as (hand & Hold & Hnew). specialize (Hnew (Took (Some t) tickle_me)). cbn in Hold, Hnew.
  assert (kept (sch (base x.(scheduler))) (sch (base r))) as Hk.
  { split; [by rewrite Hr|]. intros (_ & Hnil & _)%may_end_spec. unfold queue in Hqueue. rewrite Hqueue in Hnil. by destruct before. }
  assert (queue r = before ++ rest) as Hqr by (unfold queue; by rewrite Hr).
  split; unfold move, note_taken; cbn [scheduler places submitted taken executed with_scheduler].
  - done.
  - by rewrite dom_insert_lookup_L by (by eexists).
  - eapply places_step; try done; [by apply framed_same; rewrite Hr|]. cbn. split_and!.
    + assert (engaged tid (base x.(scheduler))) as He by exact (po_place _ _ _ Hp _ _ Hm).
      rewrite Hr in Hk |- *. by apply engaged_sch.
    + pose proof (hi_queue _ _ _ _ _ _ _ _ _ Hh) as Hall. rewrite Hqueue in Hall. by apply Forall_app in Hall as [_ [? _]%Forall_cons].
    + done.
  - rewrite Hnew, Hr. cbn. rewrite Hc, Hold. lia.
  - rewrite Hqr, Hqueue, drop_ge, app_nil_r by (rewrite !length_app; cbn; lia).
    rewrite Hr. cbn. eapply history_hand; [|symmetry; exact Hnew]. eapply history_take; [|done|done].
    rewrite <-Hqueue. by eapply history_hand.
Qed.

(** A thread that has run its task. *)
Lemma execute_ok tid x r t cb :
  workers_ok x -> x.(places) !! tid = Some (Took (Some t) false) -> quiet r -> t.(task_cb) = Some cb ->
  framed tid (base x.(scheduler)) (base r) -> engaged tid (base r) ->
  world (base r) = (effect_of cb (world (base x.(scheduler)))).1 ->
  sch (base r) = set_active (m_activeThreadCount (sch (base x.(scheduler))) - 1)
    (set_tasks (m_tasks (sch (base x.(scheduler))) ++ (effect_of cb (world (base x.(scheduler)))).2) (sch (base x.(scheduler)))) ->
  workers_ok (move tid Looping (note_executed tid t (with_scheduler r x))).
Proof.
  intros [Hq Hd Hp Hc Hh] Hm Hq' Hcb Hf He Hw Hs.
  destruct (in_hands_move _ _ _ Hm) as (hand & Hold & Hnew). specialize (Hnew Looping). cbn in Hold, Hnew.
  assert (kept (sch (base x.(scheduler))) (sch (base r))) as Hk.
  { split; [by rewrite Hs|]. intros (_ & _ & Hzero)%may_end_spec. rewrite Hc, Hold in Hzero. cbn in Hzero. lia. }
  assert (queue r = queue x.(scheduler) ++ (effect_of cb (world (base x.(scheduler)))).2) as Hqr by (unfold queue; by rewrite Hs).
  destruct (po_place _ _ _ Hp _ _ Hm) as (_ & Ht & _).
  split; unfold move, note_executed; cbn [scheduler places taken executed].
  - done.
  - by rewrite dom_insert_lookup_L by (by eexists).
  - by eapply places_step.
  - cbn. rewrite Hs. cbn. rewrite Hc, Hold, Hnew. cbn. lia.
  - cbn [submitted]. erewrite with_scheduler_new by exact Hqr. cbn [scheduler places taken executed with_scheduler].
    rewrite Hqr, Hw. eapply history_hand; [|symmetry; exact Hnew]. eapply history_execute; [|done|done]. by eapply history_hand.
Qed.

(** The idle fiber of thread [tid] has ended. *)
Definition ended tid P : Prop := ∃ idle, (local_of tid P).(l_idle_fiber) = Some idle ∧ idle_ended idle P.

(** Where the step of a thread takes it, and what it does to the queue. *)
Definition moved tid pl x x' : Prop :=
  let P := base x.(scheduler) in let P' := base x'.(scheduler) in
  ∃ pl', x'.(places) = <[tid := pl']> x.(places) ∧
  match pl with
  | Starting => pl' = Looping ∧ sch P' = sch P
  | Looping =>
      (∃ b, pl' = Took None b ∧ P' = P ∧ tasks_for tid (queue x.(scheduler)) = []) ∨
      (∃ t b, pl' = Took (Some t) b ∧ m_stopping (sch P') = m_stopping (sch P) ∧ queue x.(scheduler) ≡ₚ t :: queue x'.(scheduler))
  | Took task true => pl' = Took task false ∧ P' = P
  | Took (Some t) false =>
      pl' = Looping ∧ m_stopping (sch P') = m_stopping (sch P) ∧
      ∃ cb, t.(task_cb) = Some cb ∧ queue x'.(scheduler) = queue x.(scheduler) ++ (effect_of cb P.(world)).2
  | Took None false =>
      sch P' = sch P ∧ (pl' = Looping ∧ ¬ ended tid P ∧ (may_end (sch P) -> ended tid P') ∨ pl' = Left ∧ may_end (sch P))
  | Left => False
  end.

(** A thread in [run] can always go on, and its step keeps the invariant. *)
Lemma worker_round_ok tid pl x :
  workers_ok x -> x.(places) !! tid = Some pl -> pl ≠ Left ->
  ∃ x', worker_round tid x = Some (Ret tt, x') ∧ workers_ok x' ∧ moved tid pl x x'.
Proof.
  intros Hok Hm Hleft. pose proof Hok as [Hq Hd Hp Hc Hh]. pose proof (po_place _ _ _ Hp _ _ Hm) as Hplace.
  unfold worker_round. rewrite Hm. destruct pl as [| |[t|] [] |]; cbn in Hplace; try done.
  - destruct Hplace as (sf & Hst).
    destruct (do_step_run (run_begin tid) (λ _, move tid Looping) x _ (runs_start tid sf _ Hst) Hq)
      as ([] & r & -> & (id & Hrun & Hstk & Hf & Hs & Hw & b & Hb & Hready) & Hq').
    eexists. split; [reflexivity|]. split; [|by exists Looping]. eapply move_ok; try done. exists sf, id. split_and!; [done..|].
    intros (b' & Hb' & Hterm). congruence.
  - pose proof (runs_take_task tid _ (hi_queue _ _ _ _ _ _ _ _ _ Hh)) as Htake.
    destruct (do_step_run _ (λ '(task, tickle_me) x, move tid (Took task tickle_me) (note_taken tid task x)) _ _ Htake Hq)
      as ([[t|] b] & r & -> & (s & Hr & Hs) & Hq'); (eexists; split; [reflexivity|]); cbn in Hs.
    + destruct Hs as (before & rest & Hqueue & Hb & Hth & ->). split; [by eapply take_ok|].
      eexists. split; [reflexivity|]. right. exists t, b. rewrite Hqueue. unfold queue. cbn. rewrite Hr. cbn.
      by rewrite Permutation_middle.
    + destruct Hs as [-> Hnone].
      assert (base r = base x.(scheduler)) as Hbr by (rewrite Hr; by destruct (base (scheduler x))).
      replace (note_taken tid None (with_scheduler r x)) with (with_scheduler r x)
        by (unfold note_taken; cbn; rewrite app_nil_r; by destruct x).
      split; [eapply move_ok; try done; rewrite ?Hbr; [by apply framed_same|done..]|].
      eexists. split; [reflexivity|]. left. exists b. by split_and!.
  - destruct (do_step_run (tickle tid) (λ _, move tid (Took (Some t) false)) x (λ _ P, P = base x.(scheduler)))
      as ([] & r & -> & Hr & Hq'); [by apply runs_tickle|done|].
    eexists. split; [reflexivity|]. split; [eapply move_ok; try done; rewrite ?Hr; [by apply framed_same|done..]|].
    eexists. split; [reflexivity|]. by split.
  - destruct Hplace as ((sf & idle & Hr & Hstk & Hend) & (Hfib & Hth0 & cb & Hcb & Hst) & Hth). destruct t as [f cb' th].
    cbn in Hfib, Hcb. subst f cb'.
    destruct (do_step_run _ (λ _ x, move tid Looping (note_executed tid (mkTask None (Some cb) th) x)) _ _
      (runs_exec tid sf idle _ cb th _ Hr Hstk Hst) Hq) as ([] & r & -> & (Hr' & Hstk' & Hf & Hi & Hw & Hs) & Hq').
    eexists. split; [reflexivity|]. split.
    2:{ exists Looping. split; [done|]. split; [done|]. cbn. rewrite Hs. split; [done|]. exists cb. split; [done|].
      unfold queue. cbn. by rewrite Hs. }
    eapply execute_ok; try done. exists sf, idle. split_and!; [done..|].
    intros (b & Hb & Hterm). rewrite Hi in Hb.
    assert (may_end (sch (base (scheduler x)))) as (_ & _ & Hzero)%may_end_spec by (apply Hend; by exists b).
    destruct (in_hands_move _ _ _ Hm) as (hand & Hold & _). rewrite Hc, Hold in Hzero. cbn in Hzero. lia.
  - destruct (do_step_run (tickle tid) (λ _, move tid (Took None false)) x (λ _ P, P = base x.(scheduler)))
      as ([] & r & -> & Hr & Hq'); [by apply runs_tickle|done|].
    eexists. split; [reflexivity|]. split; [eapply move_ok; try done; rewrite ?Hr; [by apply framed_same|done..]|].
    eexists. split; [reflexivity|]. by split.
  - destruct Hplace as (sf & idle & Hr & Hstk & Hend).
    destruct (do_step_run _ (λ (go_on : bool), move tid (if go_on then Looping else Left)) _ _
      (runs_idle tid sf idle _ Hr) Hq) as (go_on & r & -> & (Hr' & Hf & Hs & Hw & Hpool & Hgo) & Hq').
    assert (stocked tid (base r)) as Hstk' by (intros l; rewrite Hpool; apply Hstk).
    eexists. split; [reflexivity|]. split.
    2:{ eexists. split; [reflexivity|]. split; [done|]. unfold ended. cbn. destruct go_on; [left|right; split; [done|by apply Hend, Hgo]].
      split; [done|]. rewrite (ir_idle _ _ _ _ Hr), (ir_idle _ _ _ _ Hr'). split; [by intros (? & [= <-] & ?); apply Hgo|].
      intros He%Hgo. by exists idle. }
    eapply move_ok; try done; [by destruct go_on|]. destruct go_on; cbn; rewrite ?Hs.
    + exists sf, idle. split_and!; [done..|]. rewrite Hs. apply Hgo.
    + destruct Hgo as [Hended _]. split; [|by apply Hend]. exists sf, idle. split_and!; [done..|]. rewrite Hs. by intros _; apply Hend.
Qed.

(** A change of the scheduler object that schedules [new]. *)
Lemma outside_ok x r s new :
  workers_ok x -> quiet r -> base r = set_sch s (base x.(scheduler)) -> kept (sch (base x.(scheduler))) s ->
  s.(m_tasks) = queue x.(scheduler) ++ new -> s.(m_activeThreadCount) = m_activeThreadCount (sch (base x.(scheduler))) ->
  Forall (worker_task T) new -> workers_ok (with_scheduler r x).
Proof.
  intros [Hq Hd Hp Hc Hh] Hq' Hr Hk Ht Ha Hnew.
  assert (queue r = queue x.(scheduler) ++ new) as Hqr by (unfold queue at 1; by rewrite Hr).
  split; [done|done|..].
  - cbn. rewrite Hr. by apply places_sch.
  - cbn. rewrite Hr. cbn. by rewrite Ha.
  - erewrite with_scheduler_new by exact Hqr. cbn [scheduler places taken executed with_scheduler]. rewrite Hqr, Hr.
    by apply history_submit.
Qed.

Lemma runs_ask_stop tid r :
  m_useCaller (sch (base r)) = (local_of tid (base r)).(l_scheduler) ->
  runs (ask_stop tid) r (λ _ P, P = set_sch (set_stopping true (sch (base r))) (base r)).
Proof.
  intros Hcaller. unfold ask_stop. apply runs_bind, runs_sch. intros r1 Hr1. apply runs_bind, runs_gets. intros r2 Hr2.
  apply runs_bind, runs_assert; [by rewrite Hr1; apply bool_decide_eq_true|]. intros r3 Hr3.
  apply runs_bind, runs_tickle_times. intros r4 Hr4.
  assert (base r4 = set_sch (set_stopping true (sch (base r))) (base r)) as H4 by congruence.
  destruct (m_schedulerFiber _); [apply runs_tickle|apply runs_ret]; done.
Qed.

Lemma ask_stop_caller tid r r' :
  quiet r -> ask_stop tid r = (Ret tt, r') -> m_useCaller (sch (base r)) = (local_of tid (base r)).(l_scheduler).
Proof.
  intros Hq Hrun. destruct (decide (m_useCaller (sch (base r)) = l_scheduler (local_of tid (base r)))) as [|Hne]; [done|].
  exfalso. revert Hrun. unfold ask_stop, on_sch, on_base.
  destruct (returns_modify (E := std_exception) (λ P : process W, set_sch (set_stopping true P.(sch)) P) (base r)
    (λ _ P, P = set_sch (set_stopping true (sch (base r))) (base r)) eq_refl) as ([] & P & HP & ->).
  erewrite bind_run by (apply zoom_run; exact HP). erewrite bind_run by done.
  rewrite base_set_base. cbn. rewrite bool_decide_false by done. done.
Qed.

(** Every step keeps the invariant. *)
Lemma workers_step_ok x x' : workers_step (worker_task T) x x' -> workers_ok x -> workers_ok x'.
Proof.
  intros Hstep Hok. pose proof Hok as [Hq _ _ _ _]. destruct Hstep as [tid x x' Hrun|tid t x x' Hns Ht Hrun|tid x x' Hrun].
  - destruct (x.(places) !! tid) as [pl|] eqn:Hm; [|by unfold worker_round in Hrun; rewrite Hm in Hrun].
    assert (pl ≠ Left) as Hl by (intros ->; unfold worker_round in Hrun; by rewrite Hm in Hrun).
    destruct (worker_round_ok _ _ _ Hok Hm Hl) as (x1 & Hrun1 & Hok1 & _). congruence.
  - destruct (do_step_run (scheduleLock tid t) (λ _ x, x) x
      (λ _ P, P = set_sch (set_tasks (queue x.(scheduler) ++ [t]) (sch (base x.(scheduler)))) (base x.(scheduler))))
      as ([] & r & Hrun' & Hr & Hq'); [by apply runs_scheduleLock; [by eapply worker_has_task|]|done|].
    rewrite Hrun in Hrun'. injection Hrun' as ->. eapply (outside_ok _ _ _ [t]); try done; [|by apply Forall_singleton].
    split; [done|]. intros (Hs & _)%may_end_spec. congruence.
  - unfold do_step in Hrun. destruct (ask_stop tid (scheduler x)) as [[[]| |] r] eqn:Hstop; [|done|done]. injection Hrun as <-.
    destruct (runs_ask_stop _ _ (ask_stop_caller _ _ _ Hq Hstop) Hq) as ([] & r' & Hrun' & Hr & Hq').
    rewrite Hstop in Hrun'. injection Hrun' as ->.
    eapply (outside_ok _ _ _ []); try done; [|by rewrite app_nil_r]. split; [done|]. rewrite !may_end_spec. by intros (_ & ? & ?).
Qed.

Lemma workers_steps_ok x x' : rtc (workers_step (worker_task T)) x x' -> workers_ok x -> workers_ok x'.
Proof. induction 1; eauto using workers_step_ok. Qed.

(** A thread has left only when everything is done. *)
Lemma left_done x tid :
  workers_ok x -> x.(places) !! tid = Some Left ->
  m_stopping (sch (base x.(scheduler))) = true ∧ queue x.(scheduler) = [] ∧ in_hands x.(places) = [].
Proof.
  intros [_ _ Hp Hc _] Hm. destruct (po_place _ _ _ Hp _ _ Hm) as (_ & (Hs & Hq & Hz)%may_end_spec).
  split_and!; [done|done|]. apply nil_length_inv. lia.
Qed.

End invariant.

(** ** The start *)
Section start.
Context {W R : Type} {HR : SchedulerClass W R} {HL : SchedulerLaws W R} {HI : IdleLaws W R}.
Implicit Types (x : workers W R) (r : R) (tid : Z) (t : ScheduleTask W).

(** The threads of a scheduler. *)
Definition thread_set r : gset Z := list_to_set (m_threads (sch (base r))).

(** The threads of [start] have not run yet, and what is scheduled is for
    them. *)
Record fresh_threads r : Prop := {
  ft_new tid : tid ∈ m_threads (sch (base r)) -> threads (base r) !! tid = None;
  ft_root : m_rootThread (sch (base r)) ∉ m_threads (sch (base r));
  ft_active : m_activeThreadCount (sch (base r)) = 0%Z;
  ft_tasks : Forall (worker_task (thread_set r)) (queue r)
}.

Lemma started_places r tid pl :
  (started r).(places) !! tid = Some pl <-> pl = Starting ∧ tid ∈ m_threads (sch (base r)).
Proof.
  cbn. induction (m_threads (sch (base r))) as [|t l IH]; cbn.
  { rewrite lookup_empty. set_solver. }
  rewrite lookup_insert_Some, IH, elem_of_cons. destruct (decide (t = tid)); naive_solver.
Qed.

Lemma started_ok r :
  quiet r -> fresh_threads r -> workers_ok (thread_set r) (world (base r)) (queue r) (started r).
Proof.
  intros Hq [Hnew Hroot Hact Htasks].
  assert (∀ tid, is_Some ((started r).(places) !! tid) -> local_of tid (base r) = new_locals ∧ tid ≠ m_rootThread (sch (base r))) as Hloc.
  { intros tid [pl [_ Hin]%started_places]. unfold local_of. rewrite Hnew by done. split; [done|]. by intros ->. }
  assert (in_hands (started r).(places) = []) as Hhands.
  { apply in_hands_none. by intros tid pl [-> _]%started_places. }
  split; [done|..].
  - apply set_eq. intros tid. rewrite elem_of_dom. unfold thread_set. rewrite elem_of_list_to_set. split.
    + by intros [pl [_ ?]%started_places].
    + intros Hin. exists Starting. by apply started_places.
  - split.
    + intros tid pl Hm. destruct (Hloc tid) as [Hl Hne]; [by eexists|]. apply started_places in Hm as [-> _].
      cbn. exists (length (base r).(heap)). unfold starting. rewrite Hl, decide_False by done. done.
    + intros tid tid' q [Hl _]%Hloc _ _. unfold owned. change (scheduler (started r)) with r. rewrite Hl. cbn. by intros [?|[?|(l & ? & _)]].
  - by rewrite Hhands.
  - rewrite Hhands. split; cbn; try done; [intros tid; apply sublist_filter|by rewrite app_nil_r].
Qed.

End start.

(** ** From [stop] to the joins *)

(** Serving a queue in any order, up to permutation. *)
Lemma terminates_work {W} (Q : list (ScheduleTask W) -> Prop) :
  (∀ q, (∀ t cb w q' q'', q ≡ₚ t :: q' -> t.(task_cb) = Some cb -> q'' ≡ₚ q' ++ (effect_of cb w).2 -> Q q'') -> Q q) ->
  ∀ q, terminates q -> Q q.
Proof.
  intros HQ q Hq. cut (∀ q', q' ≡ₚ q -> Q q'); [by intros H; apply H|].
  induction Hq as [q _ IH]. intros q' Hperm. apply HQ. intros t cb w q1 q2 Hq' Hcb Hq2.
  assert (t ∈ q) as (q3 & q4 & Heq)%list_elem_of_split by (rewrite <-Hperm, Hq'; by left).
  apply (IH q3 t cb q4 w Heq Hcb). rewrite Hq2, app_assoc. apply Permutation_app_tail.
  apply (Permutation_cons_inv (a := t)). by rewrite <-Hq', Hperm, Heq, Permutation_middle.
Qed.

Section finish.
Context {W R : Type} {HR : SchedulerClass W R} {HL : SchedulerLaws W R} {HI : IdleLaws W R}.
Context (T : gset Z) (w0 : W) (q0 : list (ScheduleTask W)).
Implicit Types (x : workers W R) (r : R) (P : process W) (tid : Z) (t : ScheduleTask W) (pl : place W).

Abbreviation ok := (workers_ok T w0 q0).
Abbreviation step := (workers_step (worker_task T)).
Abbreviation done_with x := (may_end (sch (base (scheduler x)))).

(** Steps of thread [tid] that take it to [pl] and leave the scheduler object. *)
Definition goes tid pl x : Prop :=
  ∃ x', rtc step x x' ∧ ok x' ∧ x'.(places) = <[tid := pl]> x.(places) ∧ sch (base x'.(scheduler)) = sch (base x.(scheduler)).

Lemma goes_step tid pl pl1 x x1 :
  step x x1 -> x1.(places) = <[tid := pl1]> x.(places) -> sch (base x1.(scheduler)) = sch (base x.(scheduler)) ->
  goes tid pl x1 -> goes tid pl x.
Proof.
  intros Hstep Hp Hs (x' & Hsteps & Hok & Hp' & Hs'). exists x'. split_and!; [by eapply rtc_l|done| |congruence].
  by rewrite Hp', Hp, insert_insert_eq.
Qed.

(** From the top of the loop with an empty queue to the idle fiber. *)
Lemma goes_idle (E : process W -> Prop) tid pl x :
  (∀ x, ok x -> done_with x -> x.(places) !! tid = Some (Took None false) -> E (base x.(scheduler)) -> goes tid pl x) ->
  ok x -> done_with x -> x.(places) !! tid = Some Looping ∨ (∃ b, x.(places) !! tid = Some (Took None b)) ->
  E (base x.(scheduler)) -> goes tid pl x.
Proof.
  intros HE.
  assert (∀ b x, ok x -> done_with x -> x.(places) !! tid = Some (Took None b) -> E (base x.(scheduler)) -> goes tid pl x) as Htook.
  { intros [] x1 Hok Hend Hm He; [|by apply HE].
    destruct (worker_round_ok _ _ _ _ _ _ Hok Hm) as (x' & Hrun & Hok' & pl' & Hp' & -> & HP); [done|].
    eapply goes_step; [by econstructor|done|by rewrite HP|]. apply HE; rewrite ?HP; try done. by rewrite Hp', lookup_insert_eq. }
  intros Hok Hend [Hm|[b Hm]] He; [|by eapply Htook].
  destruct (worker_round_ok _ _ _ _ _ _ Hok Hm) as (x' & Hrun & Hok' & pl' & Hp' & Hcase); [done|].
  destruct Hcase as [(b & -> & HP & _)|(t & b & _ & _ & Hq)].
  - eapply goes_step; [by econstructor|done|by rewrite HP|]. eapply Htook; rewrite ?HP; try done. by rewrite Hp', lookup_insert_eq.
  - apply may_end_spec in Hend as (_ & Hnil & _). unfold queue in Hq at 1. rewrite Hnil in Hq. by apply Permutation_nil_cons in Hq.
Qed.

(** When everything is done, a thread can leave. *)
Lemma goes_left tid pl x : ok x -> done_with x -> x.(places) !! tid = Some pl -> goes tid Left x.
Proof.
  assert (∀ x, ok x -> done_with x -> x.(places) !! tid = Some (Took None false) -> ended tid (base x.(scheduler)) -> goes tid Left x) as Hended.
  { intros x1 Hok Hend Hm He. destruct (worker_round_ok _ _ _ _ _ _ Hok Hm) as (x' & Hrun & Hok' & pl' & Hp' & Hs & Hcase); [done|].
    destruct Hcase as [(_ & Hno & _)|[-> _]]; [done|]. exists x'. split_and!; try done. by eapply rtc_once, by_worker. }
  assert (∀ x, ok x -> done_with x -> x.(places) !! tid = Some (Took None false) -> goes tid Left x) as Hidle.
  { intros x1 Hok Hend Hm. destruct (worker_round_ok _ _ _ _ _ _ Hok Hm) as (x' & Hrun & Hok' & pl' & Hp' & Hs & Hcase); [done|].
    destruct Hcase as [(-> & _ & He)|[-> _]]; [|exists x'; split_and!; try done; by eapply rtc_once, by_worker].
    eapply goes_step; [by econstructor|done|done|]. eapply (goes_idle (ended tid)); eauto; [by rewrite Hs|].
    left. by rewrite Hp', lookup_insert_eq. }
  assert (∀ x, ok x -> done_with x -> x.(places) !! tid = Some Looping -> goes tid Left x) as Hloop.
  { intros x1 Hok Hend Hm. eapply (goes_idle (λ _, True)); eauto. }
  intros Hok Hend Hm. destruct pl as [| |[t|] b|].
  - destruct (worker_round_ok _ _ _ _ _ _ Hok Hm) as (x' & Hrun & Hok' & pl' & Hp' & -> & Hs); [done|].
    eapply goes_step; [by econstructor|done|done|]. apply Hloop; rewrite ?Hs; try done. by rewrite Hp', lookup_insert_eq.
  - by apply Hloop.
  - apply may_end_spec in Hend as (_ & _ & Hz). pose proof (wo_count _ _ _ _ Hok) as Hc. rewrite Hz in Hc.
    destruct (in_hands_move _ _ _ Hm) as (rest & Hold & _). rewrite Hold in Hc. cbn in Hc. lia.
  - eapply (goes_idle (λ _, True)); eauto.
  - exists x. split_and!; [done|done|by rewrite insert_id|done].
Qed.

Lemma all_can_leave x : ok x -> done_with x -> ∃ x', rtc step x x' ∧ ok x' ∧ all_left x'.
Proof.
  intros Hok Hend.
  assert (∀ l : list Z, ∃ x', rtc step x x' ∧ ok x' ∧ done_with x' ∧
    ∀ tid pl, tid ∈ l -> x'.(places) !! tid = Some pl -> pl = Left) as Hlist.
  { induction l as [|tid l (x' & Hsteps & Hok' & Hend' & Hl)]; [exists x; split_and!; try done; by intros ?? ?%not_elem_of_nil|].
    destruct (x'.(places) !! tid) as [pl|] eqn:Hm.
    - destruct (goes_left _ _ _ Hok' Hend' Hm) as (x2 & Hsteps2 & Hok2 & Hp2 & Hs2). exists x2.
      split_and!; [by etrans|done|by rewrite Hs2|]. intros tid' pl' Hin. rewrite Hp2. destruct (decide (tid' = tid)) as [->|Hne].
      + rewrite lookup_insert_eq. by intros [= <-].
      + rewrite lookup_insert_ne by done. apply Hl. by apply elem_of_cons in Hin as [?|?].
    - exists x'. split_and!; try done. intros tid' pl' [->|Hin]%elem_of_cons Hm'; [congruence|by eapply Hl]. }
  destruct (Hlist (elements T)) as (x' & Hsteps & Hok' & _ & Hl). exists x'. split_and!; [done|done|].
  intros tid pl Hm. eapply Hl; [|done]. apply elem_of_elements. rewrite <-(wo_dom _ _ _ _ Hok'). by apply elem_of_dom_2 in Hm.
Qed.

(** The tasks that are still to be run. *)
Definition open_tasks x : list (ScheduleTask W) := (in_hands x.(places)).*2 ++ queue x.(scheduler).

(** A thread runs the task it took. *)
Lemma run_held tid t b x :
  ok x -> x.(places) !! tid = Some (Took (Some t) b) ->
  ∃ x' cb w q, rtc step x x' ∧ ok x' ∧ m_stopping (sch (base x'.(scheduler))) = m_stopping (sch (base x.(scheduler))) ∧
    t.(task_cb) = Some cb ∧ open_tasks x ≡ₚ t :: q ∧ open_tasks x' ≡ₚ q ++ (effect_of cb w).2.
Proof.
  assert (∀ x, ok x -> x.(places) !! tid = Some (Took (Some t) false) ->
    ∃ x' cb w q, rtc step x x' ∧ ok x' ∧ m_stopping (sch (base x'.(scheduler))) = m_stopping (sch (base x.(scheduler))) ∧
      t.(task_cb) = Some cb ∧ open_tasks x ≡ₚ t :: q ∧ open_tasks x' ≡ₚ q ++ (effect_of cb w).2) as Hrun.
  { intros x1 Hok Hm. destruct (worker_round_ok _ _ _ _ _ _ Hok Hm) as (x' & Hrun & Hok' & pl' & Hp' & -> & Hs & cb & Hcb & Hq); [done|].
    destruct (in_hands_move _ _ _ Hm) as (rest & Hold & Hnew). exists x', cb, (world (base x1.(scheduler))), (rest.*2 ++ queue x1.(scheduler)).
    split_and!; try done; [by eapply rtc_once, by_worker|..]; unfold open_tasks.
    - by rewrite Hold.
    - by rewrite Hp', Hnew, Hq, app_assoc. }
  intros Hok Hm. destruct b; [|by apply Hrun].
  destruct (worker_round_ok _ _ _ _ _ _ Hok Hm) as (x1 & Hrun1 & Hok1 & pl' & Hp1 & -> & HP); [done|].
  destruct (Hrun x1 Hok1) as (x' & cb & w & q & Hsteps & Hok' & Hs & Hcb & Hq & Hq'); [by rewrite Hp1, lookup_insert_eq|].
  exists x', cb, w, q. split_and!; try done; [by eapply rtc_l; [eapply by_worker|]|by rewrite Hs, HP|].
  rewrite <-Hq. destruct (in_hands_move _ _ _ Hm) as (rest & Hold & Hnew). unfold open_tasks, queue.
  by rewrite Hp1, HP, Hold, Hnew.
Qed.

(** A thread with no task goes to the top of the loop. *)
Lemma to_loop tid pl x :
  ok x -> x.(places) !! tid = Some pl -> in_hand tid pl = [] -> queue x.(scheduler) ≠ [] -> goes tid Looping x.
Proof.
  assert (∀ x, ok x -> x.(places) !! tid = Some (Took None false) -> queue x.(scheduler) ≠ [] -> goes tid Looping x) as Hidle.
  { intros x1 Hok Hm Hq. destruct (worker_round_ok _ _ _ _ _ _ Hok Hm) as (x' & Hrun & Hok' & pl' & Hp' & Hs & Hcase); [done|].
    destruct Hcase as [[-> _]|[_ (_ & Hnil & _)%may_end_spec]]; [|done].
    exists x'. split_and!; try done. by eapply rtc_once, by_worker. }
  intros Hok Hm Hhand Hq. destruct pl as [| |[t|] []|]; cbn in Hhand; try done.
  - destruct (worker_round_ok _ _ _ _ _ _ Hok Hm) as (x' & Hrun & Hok' & pl' & Hp' & -> & Hs); [done|].
    exists x'. split_and!; try done. by eapply rtc_once, by_worker.
  - exists x. split_and!; try done. by rewrite insert_id.
  - destruct (worker_round_ok _ _ _ _ _ _ Hok Hm) as (x' & Hrun & Hok' & pl' & Hp' & -> & HP); [done|].
    eapply goes_step; [by econstructor|done|by rewrite HP|]. apply Hidle; [done|by rewrite Hp', lookup_insert_eq|]. unfold queue. by rewrite HP.
  - by apply Hidle.
  - by destruct (left_done _ _ _ _ _ Hok Hm) as (_ & ? & _).
Qed.

(** A task of the queue gets into the hands of a thread. *)
Lemma take_one x t q :
  ok x -> T ≠ ∅ -> queue x.(scheduler) = t :: q -> in_hands x.(places) = [] ->
  ∃ x' tid t' b, rtc step x x' ∧ ok x' ∧ m_stopping (sch (base x'.(scheduler))) = m_stopping (sch (base x.(scheduler))) ∧
    x'.(places) !! tid = Some (Took (Some t') b) ∧ open_tasks x' ≡ₚ open_tasks x.
Proof.
  intros Hok HT Hq Hhands.
  assert (∃ tid, tid ∈ T ∧ for_this tid t.(task_thread)) as (tid & Hin & Hth).
  { pose proof (hi_queue _ _ _ _ _ _ _ _ _ (wo_history _ _ _ _ Hok)) as Hall. rewrite Hq in Hall.
    apply Forall_cons in Hall as [(_ & [Hany|Hth] & _) _].
    - apply set_choose_L in HT as [tid Htid]. exists tid. split; [done|by left].
    - eexists. split; [exact Hth|by right]. }
  rewrite <-(wo_dom _ _ _ _ Hok), elem_of_dom in Hin. destruct Hin as [pl Hm].
  destruct (to_loop tid pl x) as (x1 & Hsteps & Hok1 & Hp1 & Hs1); [done|done| |by rewrite Hq|].
  { destruct (in_hands_move _ _ _ Hm) as (rest & Hold & _). rewrite Hhands in Hold. apply Permutation_nil_l in Hold. by destruct (in_hand tid pl). }
  assert (x1.(places) !! tid = Some Looping) as Hm1 by by rewrite Hp1, lookup_insert_eq.
  assert (queue x1.(scheduler) = t :: q) as Hq1 by (unfold queue; by rewrite Hs1).
  destruct (worker_round_ok _ _ _ _ _ _ Hok1 Hm1) as (x' & Hrun & Hok' & pl' & Hp' & Hcase); [done|].
  destruct Hcase as [(b & -> & _ & Hnone)|(t' & b & -> & Hs' & Hperm)].
  { rewrite Hq1, tasks_for_cons, decide_True in Hnone by done. done. }
  exists x', tid, t', b. split_and!.
  - eapply rtc_r; [done|]. by eapply by_worker.
  - done.
  - by rewrite Hs', Hs1.
  - by rewrite Hp', lookup_insert_eq.
  - destruct (in_hands_move _ _ _ Hm) as (rest & Hold & Hnew). rewrite Hhands in Hold.
    apply Permutation_nil_l, eq_sym, app_eq_nil in Hold as [_ ->]. unfold open_tasks.
    rewrite Hp', Hp1, insert_insert_eq, Hnew, Hhands, app_nil_r. cbn. by rewrite Hq, <-Hq1, Hperm.
Qed.

(** A task in the hands of a thread. *)
Lemma in_hands_elem (m : gmap Z (place W)) p :
  p ∈ in_hands m -> ∃ b, m !! p.1 = Some (Took (Some p.2) b).
Proof.
  unfold in_hands. intros ([tid pl] & Hp & Hm%elem_of_map_to_list)%list_elem_of_bind. cbn in Hp.
  destruct pl as [| |[t|] b|]; try by apply not_elem_of_nil in Hp. apply list_elem_of_singleton in Hp as ->. by exists b.
Qed.

Lemma open_terminates x : ok x -> terminates (open_tasks x).
Proof.
  intros Hok. apply queue_terminates.
  assert (∀ t, worker_task T t -> is_Some t.(task_cb)) as Hcb by (intros t (_ & _ & cb & -> & _); by eexists).
  intros t [Hin|Hin]%elem_of_app; apply Hcb.
  - apply list_elem_of_fmap in Hin as ([tid t'] & -> & [b Hm]%in_hands_elem).
    by destruct (po_place _ _ _ (wo_places _ _ _ _ Hok) _ _ Hm) as (_ & ? & _).
  - pose proof (hi_queue _ _ _ _ _ _ _ _ _ (wo_history _ _ _ _ Hok)) as Hall. rewrite Forall_forall in Hall. by apply Hall.
Qed.

(** Once [stop] was called everything can be run, and the threads can leave. *)
Lemma can_finish x :
  ok x -> m_stopping (sch (base x.(scheduler))) = true -> ∃ x', rtc step x x' ∧ ok x' ∧ all_left x'.
Proof.
  destruct (decide (T = ∅)) as [HT|HT].
  { intros Hok _. exists x. split_and!; [done|done|]. intros tid pl Hm. apply elem_of_dom_2 in Hm.
    rewrite (wo_dom _ _ _ _ Hok), HT in Hm. by apply not_elem_of_empty in Hm. }
  intros Hok Hstop. pose proof (open_terminates x Hok) as Hterm. remember (open_tasks x) as q eqn:Hq.
  revert x Hok Hstop Hq. pattern q. apply terminates_work; [|exact Hterm]. clear q Hterm. intros q IH x Hok Hstop ->.
  (* a thread that holds a task runs it, and so on *)
  assert (∀ tid t b x1, rtc step x x1 -> ok x1 -> m_stopping (sch (base x1.(scheduler))) = true ->
    open_tasks x1 ≡ₚ open_tasks x -> x1.(places) !! tid = Some (Took (Some t) b) ->
    ∃ x', rtc step x x' ∧ ok x' ∧ all_left x') as Hheld.
  { intros tid t b x1 Hsteps Hok1 Hstop1 Hopen Hm.
    destruct (run_held _ _ _ _ Hok1 Hm) as (x2 & cb & w & q & Hsteps2 & Hok2 & Hs2 & Hcb & Ho1 & Ho2).
    destruct (IH t cb w q (open_tasks x2)) with (x := x2) as (x' & Hsteps' & Hok' & Hleft); try done.
    - by rewrite <-Ho1.
    - by rewrite Hs2.
    - exists x'. split_and!; try done. by etrans; [|etrans]. }
  destruct (in_hands x.(places)) as [|[tid t] l] eqn:Hhands.
  2:{ destruct (in_hands_elem x.(places) (tid, t)) as [b Hm]; [rewrite Hhands; by left|]. by eapply (Hheld tid t b x). }
  destruct (queue x.(scheduler)) as [|t q] eqn:Hqueue.
  - apply all_can_leave; [done|]. apply may_end_spec. split_and!; [done|done|]. rewrite (wo_count _ _ _ _ Hok). by rewrite Hhands.
  - destruct (take_one x t q Hok HT Hqueue Hhands) as (x1 & tid & t' & b & Hsteps & Hok1 & Hs1 & Hm & Hopen).
    eapply Hheld; try done. by rewrite Hs1.
Qed.


End finish.

(** ** The threads of an [IOManager] *)
Section still.
Context {W E : Type} {HE : Epoll E} {HL : EpollLaws E} (tfd : Z).
Implicit Types (s : IOManager W E) (tid : Z).

(** No timer is set, and no event is registered. *)
Record still s : Prop := {
  st_ok : io_ok tfd s;
  st_timers : m_timers (io_timers s) = [];
  st_pending : m_pendingEventCount s = 0%Z;
  st_events : Forall (λ c, c.(fc_events) = 0%Z) (m_fdContexts s)
}.

Lemma still_same s s' : still s -> same_io s s' -> still s'.
Proof.
  intros [Hok Ht Hp He] Hs. pose proof Hs as (Hc & Hp' & _ & Ht').
  split; [by eapply io_ok_same|by rewrite Ht'|by rewrite Hp'|by rewrite Hc].
Qed.

(** The laws, in such a state. *)
Definition still_laws : SchedulerLaws W (IOManager W E).
Proof.
  refine {| quiet := still |}.
  - done.
  - intros P s Hs. by eapply still_same.
  - intros tid s Hs. destruct (io_tickle_run s) as (s' & Hrun & Hsame & HP).
    eapply returns_run; [exact Hrun|]. split; [done|]. by eapply still_same.
  - intros tid s [Hok Ht Hp He]. eapply returns_run; [by apply io_stopping_run|]. split; [done|]. split; [done|].
    by split; [destruct Hok; split|..].
Defined.

(** Nothing is expired, and what is reported changes nothing. *)
Lemma expired_none tid s : m_timers (io_timers s) = [] ->
  ∃ t, expired_timers tid s = (Ret tt, set_io_timers t s) ∧ m_timers t = [].
Proof.
  intros Ht. unfold expired_timers. erewrite bind_run by done. rewrite listExpiredCb_start.
  assert (m_timers (after_readings (io_timers s)) = []) as Hnil by exact Ht.
  cbn [expire_loop]. rewrite Hnil. eexists. split; [reflexivity|exact Hnil].
Qed.

Lemma idle_events tid l s : still s -> (∀ x : epoll_event, x ∈ l -> report_ok tfd s x) ->
  ∃ s', handle_events tid l s = (Ret tt, s') ∧ io_process s' = io_process s ∧ still s'.
Proof.
  revert s. induction l as [|x l IH]; intros s Hs Hl; [by exists s|]. cbn [handle_events].
  assert (∃ n, handle_event tid x s = (Ret tt, set_tickles n s)) as [n Hn].
  { specialize (Hl x (list_elem_of_here _ _)). destruct x as [|fd ev]; [by exists 0|]. exists (tickles s).
    destruct Hl as (Hfd & _ & c & Hc & _). pose proof (st_events _ Hs) as He. rewrite Forall_lookup in He.
    cbn [handle_event]. erewrite bind_run by by apply get_context_run. rewrite (He _ _ Hc), Z.land_0_l.
    rewrite bool_decide_true by done. by destruct s. }
  destruct (IH (set_tickles n s)) as (s' & Hrun & HP & Hs'); [by eapply still_same|intros y Hy; apply (Hl y); by right|].
  exists s'. split_and!; [|done|done]. by erewrite bind_run by exact Hn.
Qed.

Lemma still_idle tid s :
  (∀ t (e : E) l e', epoll_wait t e = (Ready l, e') -> ∀ fd ev, FdEvent fd ev ∈ l -> fd ≠ tfd) ->
  still s -> returns (io_idle_body tid) s (λ _ s', io_process s' = io_process s ∧ still s').
Proof.
  intros Hpipe Hs. pose proof Hs as [Hok Ht Hp He]. unfold io_idle_body, wait_events.
  destruct (wait_loop_run tfd (S (interruptions (m_epfd s))) s Hok) as (l & s1 & Hrun1 & [Hw1 Hw2 Hw3 Hw4] & Hl); [|lia|].
  { unfold timers_ok. rewrite Ht. split; constructor. }
  assert (still s1) as Hs1.
  { destruct Hw4 as (_ & Ht1 & _). split; [by apply Hw1|by rewrite Ht1| |by rewrite Hw2].
    rewrite (ok_pending _ _ (Hw1 Hok)), Hw2, <-(ok_pending _ _ Hok). done. }
  destruct (expired_none tid s1 (st_timers _ Hs1)) as (t & Hrun2 & Ht2).
  assert (still (set_io_timers t s1)) as Hs2 by (destruct Hs1 as [[] ? ? ?]; by split).
  destruct (idle_events tid l (set_io_timers t s1) Hs2) as (s' & Hrun' & HP & Hs').
  { destruct Hl as [->|(t1 & e & e' & Hwait & Hint)]; [by intros x ?%not_elem_of_nil|]. intros x Hx.
    pose proof (wait_report_ok tfd s t1 e e' l Hok Hwait Hint (Hpipe _ _ _ _ Hwait) x Hx) as Hrep.
    destruct x; [done|]. cbn in *. by rewrite Hw2. }
  exists tt, s'. split; [erewrite bind_run by exact Hrun1; by erewrite bind_run by exact Hrun2|]. by rewrite HP, <-Hw3.
Qed.

Definition still_idle_laws
    (Hpipe : ∀ t (e : E) l e', epoll_wait t e = (Ready l, e') -> ∀ fd ev, FdEvent fd ev ∈ l -> fd ≠ tfd)
  : @IdleLaws W (IOManager W E) _ still_laws.
Proof. split. intros tid s Hs. by apply still_idle. Defined.

End still.

(** ** What the threads guarantee *)
Section theorems.
Context {W R : Type} {HR : SchedulerClass W R} {HL : SchedulerLaws W R} {HI : IdleLaws W R}.
Implicit Types (x : workers W R) (r : R) (tid : Z).



End theorems.

(** ** Two threads of an [IOManager] *)

(** The rounds of the threads [l], one after the other. *)
Fixpoint rounds {W R} {HR : SchedulerClass W R} (l : list Z) (x : workers W R) : option (workers W R) :=
  match l with
  | [] => Some x
  | tid :: l => match worker_round tid x with Some (Ret tt, x') => rounds l x' | _ => None end
  end.

Lemma rounds_steps {W R} {HR : SchedulerClass W R} Q l (x x' : workers W R) :
  rounds l x = Some x' -> rtc (workers_step Q) x x'.
Proof.
  revert x. induction l as [|tid l IH]; intros x; cbn; [by intros [= <-]|].
  destruct (worker_round tid x) as [[[[]| |] x1]|] eqn:Hrun; try done. intros Hl%IH. eapply rtc_l; [by eapply by_worker|done].
Qed.

(** A manager with threads 8 and 9: a task for thread 9, and one for any thread,
    which schedules another. *)
Definition sample_two : IOManager (list nat) sample_epoll :=
  ((new_IOManager 7 2 false "io" 3 [8; 9]%Z;; schedule_cb 7 (log 1 Return) 9;;
    schedule_cb 7 (log 2 (ScheduleCb (log 3 Return) 8 Return)) (-1)) sample_before).2.
Definition sample_order : list Z := [8; 9; 9; 8; 8; 9; 9; 8; 8; 8; 8]%Z.

Definition sample_manager : IOManager (list nat) sample_epoll :=
  (new_IOManager 7 2 false "io" 3 [8; 9]%Z sample_before).2.

Lemma sample_still : still 3 sample_two.
Proof.
  apply (still_same 3 sample_manager); [|split_and!; vm_compute; reflexivity]. split.
  - apply io_start_ok. exists 7%Z, 2, false, "io", [8; 9]%Z, sample_before. split; [done|]. split; [done|]. split; [done|].
    unfold sample_manager. apply run_fst. vm_compute. reflexivity.
  - vm_compute. reflexivity.
  - vm_compute. reflexivity.
  - apply Forall_forall. intros c Hc. revert c Hc. apply Forall_forall. vm_compute. repeat constructor.
Qed.

Lemma sample_fresh : fresh_threads sample_two.
Proof.
  assert (thread_set sample_two = {[8; 9]}%Z) as HT by (vm_compute; reflexivity). split.
  - intros tid. change (m_threads (sch (base sample_two))) with [8; 9]%Z. rewrite !elem_of_cons, elem_of_nil.
    by intros [->|[->|[]]]; vm_compute.
  - change (m_threads (sch (base sample_two))) with [8; 9]%Z. change (m_rootThread (sch (base sample_two))) with (-1)%Z.
    by rewrite !elem_of_cons, elem_of_nil; intros [?|[?|[]]].
  - vm_compute. reflexivity.
  - rewrite HT. change (queue sample_two) with [mkTask None (Some (log 1 Return)) 9;
      mkTask None (Some (log 2 (ScheduleCb (log 3 Return) 8 Return))) (-1)]%Z.
    assert (∀ n (k : callback (list nat)), straight (ok_thread {[8; 9]}%Z) k -> straight (ok_thread {[8; 9]}%Z) (log n k)) as Hlog
      by (intros n k Hk w; exact Hk).
    constructor; [|constructor; [|constructor]]; (split; [done|split]).
    + right. set_solver.
    + eexists. split; [reflexivity|]. by apply Hlog.
    + by left.
    + eexists. split; [reflexivity|]. apply Hlog. split; [right; set_solver|]. split; [by apply Hlog|done].
Qed.


