(* ===== verification/Hook.v ===== *)
(** * The hooked system calls

    [co-pro/corotinue-fiber-pool/hook.h] and [hook.cpp]: the calls of the C
    library that the threads of the scheduler see replaced. The original calls
    ([sleep_f], [read_f], ...) are an interface to the system, as in
    [FdManager]. A call that pauses its fiber ends with the [swapcontext] of
    [suspend] or [yield]; what the code does when it comes back is a definition
    of its own, [..._resumed]. *)

From S2P Require Export IOManager FdManager.

(** ** Constants, on Linux *)

Definition EINTR : Z := 4.
Definition EBADF : Z := 9.
Definition EAGAIN : Z := 11.
Definition ETIMEDOUT : Z := 110.
Definition EINPROGRESS : Z := 115.

Definition F_DUPFD : Z := 0.
Definition F_GETFD : Z := 1.
Definition F_SETFD : Z := 2.
Definition F_GETFL : Z := 3.
Definition F_SETFL : Z := 4.
Definition F_GETLK : Z := 5.
Definition F_SETLK : Z := 6.
Definition F_SETLKW : Z := 7.
Definition F_SETOWN : Z := 8.
Definition F_SETSIG : Z := 10.
Definition F_SETOWN_EX : Z := 15.
Definition F_GETOWN_EX : Z := 16.
Definition F_SETLEASE : Z := 1024.
Definition F_NOTIFY : Z := 1026.
Definition F_DUPFD_CLOEXEC : Z := 1030.
Definition F_SETPIPE_SZ : Z := 1031.

Definition FIONBIO : Z := 21537.
Definition SOL_SOCKET : Z := 1.
Definition SO_ERROR : Z := 4.

(** ** The original calls *)

(** The calls that go through [do_io]. *)
Inductive io_fun :=
| accept_f | read_f | readv_f | recv_f | recvfrom_f | recvmsg_f
| write_f | writev_f | send_f | sendto_f | sendmsg_f.

(** A call with its arguments; pointers are addresses, except the ones the
    hooks read through, which are what they point to. *)
Inductive syscall :=
| IoCall (f : io_fun) (fd : Z) (args : list Z)
| SleepCall (seconds : Z)
| UsleepCall (usec : Z)
| NanosleepCall (tv_sec tv_nsec : Z)
| SocketCall (domain type protocol : Z)
| ConnectCall (fd addr addrlen : Z)
| CloseCall (fd : Z)
| FcntlCall (fd cmd : Z) (arg : option Z)
| IoctlCall (fd request arg : Z)
| GetsockoptCall (fd level optname : Z)
| SetsockoptCall (fd level optname : Z) (optval : Z * Z).

(** What a call returns, the [errno] it leaves when that is -1, and the integer
    it writes through a pointer, if it does. *)
Record sys_result := mkResult { rc : Z; err : Z; out : Z }.

(** [interrupts] bounds the calls in a row that a signal interrupts. *)
Class Libc (K : Type) := {
  libc : syscall -> K -> sys_result * K;
  interrupts : K -> nat
}.

(** ** [hook_init]

    The pointers [sleep_f], [usleep_f], ... start null; [A] is an address and
    [dlsym name] what [dlsym(RTLD_NEXT, name)] answers, [None] for null. *)
Definition HOOK_FUN : list string :=
  ["sleep"; "usleep"; "nanosleep"; "socket"; "connect"; "accept"; "read"; "readv"; "recv"; "recvfrom"; "recvmsg";
   "write"; "writev"; "send"; "sendto"; "sendmsg"; "close"; "fcntl"; "ioctl"; "getsockopt"; "setsockopt"].

Record originals (A : Type) := mkOriginals {
  is_inited : bool;
  pointers : gmap string A
}.
Arguments mkOriginals {A}.
Arguments is_inited {A}.
Arguments pointers {A}.

Definition assign {A} (dlsym : string -> option A) (m : gmap string A) (name : string) : gmap string A :=
  match dlsym name with Some a => <[name := a]> m | None => delete name m end.
Definition hook_init {A} (dlsym : string -> option A) (t : originals A) : originals A :=
  if t.(is_inited) then t else mkOriginals true (foldl (assign dlsym) t.(pointers) HOOK_FUN).

(** [s_hook_initer], before [main]. *)
Definition HookIniter {A} (dlsym : string -> option A) : originals A := hook_init dlsym (mkOriginals false ∅).

(** The pointer a call goes through. *)
Definition io_name (f : io_fun) : string :=
  match f with
  | accept_f => "accept" | read_f => "read" | readv_f => "readv" | recv_f => "recv" | recvfrom_f => "recvfrom"
  | recvmsg_f => "recvmsg" | write_f => "write" | writev_f => "writev" | send_f => "send" | sendto_f => "sendto"
  | sendmsg_f => "sendmsg"
  end.
Definition call_name (c : syscall) : string :=
  match c with
  | IoCall f _ _ => io_name f
  | SleepCall _ => "sleep" | UsleepCall _ => "usleep" | NanosleepCall _ _ => "nanosleep"
  | SocketCall _ _ _ => "socket" | ConnectCall _ _ _ => "connect" | CloseCall _ => "close"
  | FcntlCall _ _ _ => "fcntl" | IoctlCall _ _ _ => "ioctl"
  | GetsockoptCall _ _ _ => "getsockopt" | SetsockoptCall _ _ _ _ => "setsockopt"
  end.

(** ** The state *)

(** The manager of I/O events, the manager of descriptors with the system,
    [errno], and the heap of [timer_info], of which the member [cancelled]; an
    object that is gone is [None]. *)
Record hooked (W E K : Type) := mkHooked {
  h_io : IOManager W E;
  h_fds : FdManager K;
  h_errno : Z;
  h_tinfos : list (option Z)
}.
Arguments mkHooked {W E K}.
Arguments h_io {W E K}.
Arguments h_fds {W E K}.
Arguments h_errno {W E K}.
Arguments h_tinfos {W E K}.

Abbreviation tinfo_ptr := nat.

Section hook.
Context {W E K : Type} {HE : Epoll E} {HK : Kernel K} {HC : Libc K}.
Implicit Types (s : hooked W E K) (tid fd : Z) (ti : tinfo_ptr).

Abbreviation hook_prog A := (prog std_exception (hooked W E K) A).

Definition set_h_io (io : IOManager W E) s : hooked W E K := mkHooked io s.(h_fds) s.(h_errno) s.(h_tinfos).
Definition set_h_fds (fds : FdManager K) s : hooked W E K := mkHooked s.(h_io) fds s.(h_errno) s.(h_tinfos).
Definition set_h_errno (e : Z) s : hooked W E K := mkHooked s.(h_io) s.(h_fds) e s.(h_tinfos).
Definition set_h_tinfos (l : list (option Z)) s : hooked W E K := mkHooked s.(h_io) s.(h_fds) s.(h_errno) l.

Definition set_kernel (k : K) (m : FdManager K) : FdManager K := mkFdManager m.(m_datas) m.(ctxs) k.
Definition set_ctxs (l : list FdCtx) (m : FdManager K) : FdManager K := mkFdManager m.(m_datas) l m.(kernel).

Definition on_io {A} (m : prog std_exception (IOManager W E) A) : hook_prog A := zoom h_io set_h_io m.
Definition on_fds {A} (m : prog std_exception (FdManager K) A) : hook_prog A := zoom h_fds set_h_fds m.

(** An original call; [errno] is set when it fails. *)
Definition call (c : syscall) : hook_prog sys_result :=
  s ← get;
  let '(r, k) := libc c s.(h_fds).(kernel) in
  modify (λ s, set_h_fds (set_kernel k s.(h_fds)) s);;
  (if bool_decide (r.(rc) = -1)%Z then modify (set_h_errno r.(err)) else mret tt);;
  mret r.
Definition call_rc (c : syscall) : hook_prog Z := r ← call c; mret r.(rc).

(** [t_hook_enable] of the thread. *)
Definition is_hook_enable tid : hook_prog bool :=
  gets (λ s, (local_of tid s.(h_io).(io_process)).(l_hook_enable)).
Definition set_hook_enable_flag tid (flag : bool) : hook_prog unit :=
  on_io (on_locals tid (set_hook_enable flag)).

(** [IOManager::GetThis()], which a method is then called on. *)
Definition this_iom tid : hook_prog bool :=
  gets (λ s, (local_of tid s.(h_io).(io_process)).(l_scheduler)).
Definition need_iom tid : hook_prog unit :=
  b ← this_iom tid;
  if b : bool then mret tt else halt UndefinedBehaviour.

(** [FdMgr::GetInstance()->get(fd)], with the context it points to. *)
Definition find_ctx fd : hook_prog (option (ctx_ptr * FdCtx)) :=
  p ← on_fds (get_ctx fd false);
  s ← get;
  match p with
  | None => mret None
  | Some p => match s.(h_fds).(ctxs) !! p with
              | Some c => mret (Some (p, c))
              | None => halt UndefinedBehaviour
              end
  end.
Definition update_ctx (p : ctx_ptr) (f : FdCtx -> FdCtx) : hook_prog unit :=
  modify (λ s, set_h_fds (set_ctxs (alter f p s.(h_fds).(ctxs)) s.(h_fds)) s).

(** ** [timer_info] *)

Definition new_tinfo : hook_prog tinfo_ptr :=
  s ← get;
  modify (set_h_tinfos (s.(h_tinfos) ++ [Some 0%Z]));;
  mret (length s.(h_tinfos)).
Definition free_tinfo ti : hook_prog unit :=
  modify (λ s, set_h_tinfos (<[ti := None]> s.(h_tinfos)) s).
Definition cancelled ti s : Z := default 0%Z (s.(h_tinfos) !! ti ≫= id).

(** The body of the function given to [addConditionTimer], run by [OnTimer]
    only while the [timer_info] is there. *)
Definition timeout_fired tid ti fd (event : Z) : hook_prog unit :=
  s ← get;
  match s.(h_tinfos) !! ti ≫= id with
  | None => mret tt
  | Some c =>
      if bool_decide (c ≠ 0)%Z then mret tt
      else
        modify (λ s, set_h_tinfos (<[ti := Some ETIMEDOUT]> s.(h_tinfos)) s);;
        on_io (cancelEvent tid fd event);;
        mret tt
  end.

(** [timer->cancel()], when there is a timer. *)
Definition cancel_timer (timer : option timer_ptr) : hook_prog unit :=
  match timer with
  | Some t => on_io (on_timers (Timer.cancel t));; mret tt
  | None => mret tt
  end.

(** The timer of a call with a timeout; [on_timeout] stands for the function
    whose body is [timeout_fired]. *)
Definition condition_timer tid (timeout : Z) (on_timeout : callback W) : hook_prog (option timer_ptr) :=
  if bool_decide (timeout = u64_max) then mret None
  else
    need_iom tid;;
    t ← on_io (on_timers (addTimer timeout on_timeout false));
    mret (Some t).

(** ** [do_io] *)

(** The call, again while it is interrupted; the fuel is enough, see
    [retrying_run]. *)
Fixpoint retrying (fuel : nat) (c : syscall) : hook_prog Z :=
  n ← call_rc c;
  s ← get;
  if bool_decide (n = -1)%Z && bool_decide (s.(h_errno) = EINTR) then
    match fuel with
    | 0 => halt Diverged
    | S fuel => retrying fuel c
    end
  else mret n.

(** The branch for [EAGAIN]. [None] is a call that waits: control went back to
    the [resume] of the fiber. [saved] stands for the rest of the call, which is
    [do_io_resumed]. *)
Definition do_io_wait tid fd (event timeout : Z) ti
    (on_timeout : callback W) (saved : context W) : hook_prog (option Z) :=
  timer ← condition_timer tid timeout on_timeout;
  need_iom tid;;
  rt ← on_io (addEvent tid fd event None);
  if bool_decide (rt = 0)%Z then
    f ← on_io (on_fibers tid GetThis);
    on_io (on_fibers tid (suspend f saved) ≫= back);;
    mret None
  else cancel_timer timer;; free_tinfo ti;; mret (Some (-1)%Z).

(** From [retry] on. *)
Definition do_io_retry tid fd (c : syscall) (event timeout : Z) ti
    (on_timeout : callback W) (saved : context W) : hook_prog (option Z) :=
  s ← get;
  n ← retrying (interrupts s.(h_fds).(kernel)) c;
  s ← get;
  if bool_decide (n = -1)%Z && bool_decide (s.(h_errno) = EAGAIN)
  then do_io_wait tid fd event timeout ti on_timeout saved
  else free_tinfo ti;; mret (Some n).

Definition do_io_resumed tid fd (c : syscall) (event timeout : Z) (timer : option timer_ptr) ti
    (on_timeout : callback W) (saved : context W) : hook_prog (option Z) :=
  cancel_timer timer;;
  s ← get;
  if bool_decide (cancelled ti s = ETIMEDOUT) then
    modify (set_h_errno ETIMEDOUT);; free_tinfo ti;; mret (Some (-1)%Z)
  else do_io_retry tid fd c event timeout ti on_timeout saved.

Definition do_io tid fd (c : syscall) (event timeout_so : Z)
    (on_timeout : callback W) (saved : context W) : hook_prog (option Z) :=
  enabled ← is_hook_enable tid;
  if negb enabled then n ← call_rc c; mret (Some n)
  else
    ctx ← find_ctx fd;
    match ctx with
    | None => n ← call_rc c; mret (Some n)
    | Some (_, ctx) =>
        if ctx.(m_isClosed) then modify (set_h_errno EBADF);; mret (Some (-1)%Z)
        else if negb ctx.(m_isSocket) || ctx.(m_userNonblock) then n ← call_rc c; mret (Some n)
        else
          ti ← new_tinfo;
          do_io_retry tid fd c event (getTimeout timeout_so ctx) ti on_timeout saved
    end.

(** ** The calls that read and write *)

Section io.
Context (on_timeout : callback W) (saved : context W).

Definition read tid fd (buf count : Z) : hook_prog (option Z) :=
  do_io tid fd (IoCall read_f fd [buf; count]) READ SO_RCVTIMEO on_timeout saved.
Definition readv tid fd (iov iovcnt : Z) : hook_prog (option Z) :=
  do_io tid fd (IoCall readv_f fd [iov; iovcnt]) READ SO_RCVTIMEO on_timeout saved.
Definition recv tid fd (buf len flags : Z) : hook_prog (option Z) :=
  do_io tid fd (IoCall recv_f fd [buf; len; flags]) READ SO_RCVTIMEO on_timeout saved.
Definition recvfrom tid fd (buf len flags src_addr addrlen : Z) : hook_prog (option Z) :=
  do_io tid fd (IoCall recvfrom_f fd [buf; len; flags; src_addr; addrlen]) READ SO_RCVTIMEO on_timeout saved.
Definition recvmsg tid fd (msg flags : Z) : hook_prog (option Z) :=
  do_io tid fd (IoCall recvmsg_f fd [msg; flags]) READ SO_RCVTIMEO on_timeout saved.
Definition write tid fd (buf count : Z) : hook_prog (option Z) :=
  do_io tid fd (IoCall write_f fd [buf; count]) WRITE SO_SNDTIMEO on_timeout saved.
Definition writev tid fd (iov iovcnt : Z) : hook_prog (option Z) :=
  do_io tid fd (IoCall writev_f fd [iov; iovcnt]) WRITE SO_SNDTIMEO on_timeout saved.
Definition send tid fd (buf len flags : Z) : hook_prog (option Z) :=
  do_io tid fd (IoCall send_f fd [buf; len; flags]) WRITE SO_SNDTIMEO on_timeout saved.
Definition sendto tid fd (buf len flags dest_addr addrlen : Z) : hook_prog (option Z) :=
  do_io tid fd (IoCall sendto_f fd [buf; len; flags; dest_addr; addrlen]) WRITE SO_SNDTIMEO on_timeout saved.
Definition sendmsg tid fd (msg flags : Z) : hook_prog (option Z) :=
  do_io tid fd (IoCall sendmsg_f fd [msg; flags]) WRITE SO_SNDTIMEO on_timeout saved.

(** [accept]: the new descriptor gets a context. *)
Definition accepted (r : option Z) : hook_prog (option Z) :=
  match r with
  | Some fd => if bool_decide (0 <= fd)%Z then on_fds (get_ctx fd true);; mret (Some fd) else mret (Some fd)
  | None => mret None
  end.
Definition accept tid sockfd (addr addrlen : Z) : hook_prog (option Z) :=
  do_io tid sockfd (IoCall accept_f sockfd [addr; addrlen]) READ SO_RCVTIMEO on_timeout saved ≫= accepted.

End io.

(** ** Sleeping *)

(** A timer that schedules this fiber again, and [yield]. *)
Definition sleep_ms tid (ms : Z) (saved : context W) : hook_prog (option Z) :=
  f ← on_io (on_fibers tid GetThis);
  need_iom tid;;
  on_io (on_timers (addTimer ms (ScheduleFiber f (-1) Return) false));;
  on_io (on_fibers tid (yield f saved) ≫= back);;
  mret None.

(** [seconds*1000] is unsigned int. *)
Definition sleep tid (seconds : Z) (saved : context W) : hook_prog (option Z) :=
  enabled ← is_hook_enable tid;
  if negb enabled then n ← call_rc (SleepCall seconds); mret (Some n)
  else sleep_ms tid (wrap_u32 (seconds * 1000)) saved.
Definition usleep tid (usec : Z) (saved : context W) : hook_prog (option Z) :=
  enabled ← is_hook_enable tid;
  if negb enabled then n ← call_rc (UsleepCall usec); mret (Some n)
  else sleep_ms tid (usec / 1000) saved.

(** The milliseconds are a [long] stored in an [int], and passed as
    [uint64_t]. *)
Definition nanosleep_ms (tv_sec tv_nsec : Z) : Z :=
  wrap_u64 (wrap_i32 (wrap_i64 (wrap_i64 (tv_sec * 1000) + (tv_nsec `quot` 1000) `quot` 1000))).
Definition nanosleep tid (tv_sec tv_nsec : Z) (saved : context W) : hook_prog (option Z) :=
  enabled ← is_hook_enable tid;
  if negb enabled then n ← call_rc (NanosleepCall tv_sec tv_nsec); mret (Some n)
  else sleep_ms tid (nanosleep_ms tv_sec tv_nsec) saved.

(** ** Sockets *)

Definition socket tid (domain type protocol : Z) : hook_prog Z :=
  enabled ← is_hook_enable tid;
  fd ← call_rc (SocketCall domain type protocol);
  if negb enabled then mret fd
  else if bool_decide (fd = -1)%Z then mret fd
  else on_fds (get_ctx fd true);; mret fd.

(** The end of [connect_with_timeout]: what became of the connection. *)
Definition connect_checked fd ti : hook_prog (option Z) :=
  r ← call (GetsockoptCall fd SOL_SOCKET SO_ERROR);
  free_tinfo ti;;
  if bool_decide (r.(rc) = -1)%Z then mret (Some (-1)%Z)
  else if bool_decide (r.(out) = 0)%Z then mret (Some 0%Z)
  else modify (set_h_errno r.(out));; mret (Some (-1)%Z).

Definition connect_resumed fd (timer : option timer_ptr) ti : hook_prog (option Z) :=
  cancel_timer timer;;
  s ← get;
  if bool_decide (cancelled ti s ≠ 0)%Z then
    modify (set_h_errno (cancelled ti s));; free_tinfo ti;; mret (Some (-1)%Z)
  else connect_checked fd ti.

Definition connect_with_timeout tid fd (addr addrlen timeout_ms : Z)
    (on_timeout : callback W) (saved : context W) : hook_prog (option Z) :=
  let original := n ← call_rc (ConnectCall fd addr addrlen); mret (Some n) in
  enabled ← is_hook_enable tid;
  if negb enabled then original
  else
    ctx ← find_ctx fd;
    match ctx with
    | None => modify (set_h_errno EBADF);; mret (Some (-1)%Z)
    | Some (_, ctx) =>
        if ctx.(m_isClosed) then modify (set_h_errno EBADF);; mret (Some (-1)%Z)
        else if negb ctx.(m_isSocket) then original
        else if ctx.(m_userNonblock) then original
        else
          n ← call_rc (ConnectCall fd addr addrlen);
          s ← get;
          if bool_decide (n = 0)%Z then mret (Some 0%Z)
          else if bool_decide (n ≠ -1)%Z || bool_decide (s.(h_errno) ≠ EINPROGRESS) then mret (Some n)
          else
            ti ← new_tinfo;
            timer ← condition_timer tid timeout_ms on_timeout;
            need_iom tid;;
            rt ← on_io (addEvent tid fd WRITE None);
            if bool_decide (rt = 0)%Z then
              f ← on_io (on_fibers tid GetThis);
              on_io (on_fibers tid (yield f saved) ≫= back);;
              mret None
            else cancel_timer timer;; connect_checked fd ti
    end.

(** [s_connect_timeout] is -1. *)
Definition connect tid sockfd (addr addrlen : Z) (on_timeout : callback W) (saved : context W) : hook_prog (option Z) :=
  connect_with_timeout tid sockfd addr addrlen u64_max on_timeout saved.

Definition close tid fd : hook_prog Z :=
  enabled ← is_hook_enable tid;
  if negb enabled then call_rc (CloseCall fd)
  else
    ctx ← find_ctx fd;
    (match ctx with
     | Some _ =>
         iom ← this_iom tid;
         (if iom : bool then on_io (cancelAll tid fd);; mret tt else mret tt);;
         on_fds (del fd)
     | None => mret tt
     end);;
    call_rc (CloseCall fd).

(** ** Flags and options *)

(** The context of an open socket. *)
Definition socket_ctx fd : hook_prog (option (ctx_ptr * FdCtx)) :=
  ctx ← find_ctx fd;
  mret (match ctx with
        | Some (p, c) => if c.(m_isClosed) || negb c.(m_isSocket) then None else Some (p, c)
        | None => None
        end).

(** The commands whose argument is handed on. *)
Definition with_argument (cmd : Z) : bool :=
  bool_decide (cmd ∈ [F_DUPFD; F_DUPFD_CLOEXEC; F_SETFD; F_SETOWN; F_SETSIG; F_SETLEASE; F_NOTIFY; F_SETPIPE_SZ;
    F_SETLK; F_SETLKW; F_GETLK; F_GETOWN_EX; F_SETOWN_EX]).

Definition fcntl_setfl fd (arg : Z) : hook_prog Z :=
  ctx ← socket_ctx fd;
  match ctx with
  | None => call_rc (FcntlCall fd F_SETFL (Some arg))
  | Some (p, c) =>
      update_ctx p (setUserNonblock (has_flag arg O_NONBLOCK));;
      call_rc (FcntlCall fd F_SETFL
        (Some (if c.(m_sysNonblock) then Z.lor arg O_NONBLOCK else Z.ldiff arg O_NONBLOCK)))
  end.

Definition fcntl_getfl fd : hook_prog Z :=
  arg ← call_rc (FcntlCall fd F_GETFL None);
  ctx ← socket_ctx fd;
  match ctx with
  | None => mret arg
  | Some (_, c) => mret (if c.(m_userNonblock) then Z.lor arg O_NONBLOCK else Z.ldiff arg O_NONBLOCK)
  end.

(** [fcntl(fd, cmd, arg)]; every other command is called without [arg]. *)
Definition fcntl fd (cmd arg : Z) : hook_prog Z :=
  if bool_decide (cmd = F_SETFL) then fcntl_setfl fd arg
  else if bool_decide (cmd = F_GETFL) then fcntl_getfl fd
  else if with_argument cmd then call_rc (FcntlCall fd cmd (Some arg))
  else call_rc (FcntlCall fd cmd None).

(** [ioctl(fd, request, arg)], where [arg] is the integer pointed to. *)
Definition ioctl fd (request arg : Z) : hook_prog Z :=
  (if bool_decide (request = FIONBIO) then
     ctx ← socket_ctx fd;
     match ctx with
     | Some (p, _) => update_ctx p (setUserNonblock (bool_decide (arg ≠ 0)%Z))
     | None => mret tt
     end
   else mret tt);;
  call_rc (IoctlCall fd request arg).

Definition getsockopt fd (level optname : Z) : hook_prog sys_result :=
  call (GetsockoptCall fd level optname).

(** The [timeval] in milliseconds, as [uint64_t]. *)
Definition timeval_ms (v : Z * Z) : Z := wrap_u64 (wrap_i64 (wrap_i64 (v.1 * 1000) + v.2 `quot` 1000)).

Definition setsockopt tid fd (level optname : Z) (optval : Z * Z) : hook_prog Z :=
  enabled ← is_hook_enable tid;
  if negb enabled then call_rc (SetsockoptCall fd level optname optval)
  else
    (if bool_decide (level = SOL_SOCKET) && (bool_decide (optname = SO_RCVTIMEO) || bool_decide (optname = SO_SNDTIMEO)) then
       ctx ← find_ctx fd;
       match ctx with
       | Some (p, _) => update_ctx p (setTimeout optname (timeval_ms optval))
       | None => mret tt
       end
     else mret tt);;
    call_rc (SetsockoptCall fd level optname optval).

End hook.
