(* ===== verification/HookFacts.v ===== *)
(** * Facts on the hooked system calls

    What [fcntl] shows of the flag [O_NONBLOCK] against what the system has,
    what [do_io] does on each of its branches, and what [close] leaves behind. *)

From S2P Require Export Hook IOManagerFacts.

(** What the system promises of the original calls: the two [fcntl] commands
    are those of [Kernel], where a descriptor that is open has flags; and after
    [interrupts] interrupted calls in a row one is not. *)
Class LibcLaws (K : Type) {HK : Kernel K} {HC : Libc K} := {
  getfl_call k fd b : fstat k fd = Some b -> getfl k fd ≠ (-1)%Z ∧
    ∃ e o, libc (FcntlCall fd F_GETFL None) k = (mkResult (getfl k fd) e o, k);
  setfl_call k fd v b : fstat k fd = Some b ->
    ∃ e o, libc (FcntlCall fd F_SETFL (Some v)) k = (mkResult 0 e o, setfl fd v k);
  libc_interrupted c k r k' : libc c k = (r, k') -> r.(rc) = (-1)%Z -> r.(err) = EINTR ->
    interrupts k' < interrupts k
}.

(** ** The pointers to the original calls *)

Lemma assign_lookup {A} (dlsym : string -> option A) m name x :
  assign dlsym m name !! x = if decide (x = name) then dlsym name else m !! x.
Proof.
  unfold assign. destruct (decide (x = name)) as [->|Hne]; destruct (dlsym name) eqn:Hd;
    by rewrite ?lookup_insert_eq, ?lookup_delete_eq, ?lookup_insert_ne, ?lookup_delete_ne by done.
Qed.

Lemma assign_all_lookup {A} (dlsym : string -> option A) names m x :
  foldl (assign dlsym) m names !! x = if decide (x ∈ names) then dlsym x else m !! x.
Proof.
  revert m. induction names as [|name names IH]; intros m; [done|]. cbn [foldl]. rewrite IH, assign_lookup.
  destruct (decide (x ∈ names)) as [Hin|Hni].
  - rewrite decide_True by by right. done.
  - destruct (decide (x = name)) as [->|Hne]; [by rewrite decide_True by by left|].
    rewrite decide_False by by intros [|]%elem_of_cons. done.
Qed.

Lemma call_name_hooked c : call_name c ∈ HOOK_FUN.
Proof. destruct c as [[]| | | | | | | | | |]; cbn; set_solver. Qed.

(** Before [main], every hooked call has the address of the function it
    replaces, and later calls of [hook_init] change nothing. *)
Lemma hook_init_resolves {A} (dlsym dlsym' : string -> option A) c :
  (HookIniter dlsym).(pointers) !! call_name c = dlsym (call_name c) ∧
  hook_init dlsym' (HookIniter dlsym) = HookIniter dlsym.
Proof.
  split; [|done]. unfold HookIniter, hook_init. cbn [pointers is_inited]. rewrite assign_all_lookup.
  by rewrite decide_True by apply call_name_hooked.
Qed.

Section facts.
Context {W E K : Type} {HE : Epoll E} {HK : Kernel K} {HC : Libc K}.
Implicit Types (s : hooked W E K) (tid fd : Z).

(** ** Steps *)

(** The state with another system state, and another [errno] if the call
    failed. *)
Definition after_call (r : sys_result) (k : K) s : hooked W E K :=
  let s := set_h_fds (set_kernel k s.(h_fds)) s in
  if bool_decide (r.(rc) = -1)%Z then set_h_errno r.(err) s else s.

Lemma call_run c s r k : libc c s.(h_fds).(kernel) = (r, k) -> call c s = (Ret r, after_call r k s).
Proof.
  intros Hc. unfold call. erewrite bind_run by done. rewrite Hc. erewrite bind_run by done.
  unfold after_call. by case_bool_decide.
Qed.

Lemma call_rc_run c s r k : libc c s.(h_fds).(kernel) = (r, k) -> call_rc c s = (Ret r.(rc), after_call r k s).
Proof. intros Hc. unfold call_rc. by erewrite bind_run by by apply call_run. Qed.

Lemma after_call_io r k s : h_io (after_call r k s) = h_io s.
Proof. unfold after_call. by case_bool_decide. Qed.
Lemma after_call_fds r k s : h_fds (after_call r k s) = set_kernel k (h_fds s).
Proof. unfold after_call. by case_bool_decide. Qed.
Lemma after_call_tinfos r k s : h_tinfos (after_call r k s) = h_tinfos s.
Proof. unfold after_call. by case_bool_decide. Qed.

(** The context of a descriptor. *)
Definition has_ctx s fd (p : ctx_ptr) (c : FdCtx) : Prop :=
  lookup_fd s.(h_fds) fd = Some p ∧ s.(h_fds).(ctxs) !! p = Some c.

(** A manager that has not grown beyond what a descriptor can be. *)
Definition fds_ok (m : FdManager K) : Prop :=
  2 ≤ length m.(m_datas) ∧ (Z.of_nat (length m.(m_datas)) <= 2 ^ 63)%Z.

Lemma find_ctx_run s fd p c : (0 <= fd <= int_max)%Z -> has_ctx s fd p c ->
  find_ctx fd s = (Ret (Some (p, c)), s).
Proof.
  intros Hfd [Hp Hc]. unfold find_ctx, on_fds. erewrite bind_run.
  2:{ apply zoom_run. by apply get_ctx_lookup. }
  erewrite bind_run by done. rewrite Hp. destruct s as [io fds e t]. cbn in *. by rewrite Hc.
Qed.

Lemma socket_ctx_run s fd p c : (0 <= fd <= int_max)%Z -> has_ctx s fd p c ->
  c.(m_isClosed) = false -> c.(m_isSocket) = true -> socket_ctx fd s = (Ret (Some (p, c)), s).
Proof. intros Hfd Hc Hcl Hs. unfold socket_ctx. erewrite bind_run by by apply find_ctx_run. cbv iota. by rewrite Hcl, Hs. Qed.

(** ** The flag *)

Lemma has_flag_testbit v : has_flag v O_NONBLOCK = Z.testbit v 11.
Proof. by apply (has_bit v 11). Qed.

Lemma has_flag_ldiff v : has_flag (Z.ldiff v O_NONBLOCK) O_NONBLOCK = false.
Proof. rewrite has_flag_testbit, Z.ldiff_spec. change (Z.testbit O_NONBLOCK 11) with true. apply andb_false_r. Qed.

(** What the user is shown. *)
Definition shown (user : bool) (v : Z) : Z := if user then Z.lor v O_NONBLOCK else Z.ldiff v O_NONBLOCK.

Lemma has_flag_shown user v : has_flag (shown user v) O_NONBLOCK = user.
Proof. destruct user; [apply has_flag_lor|apply has_flag_ldiff]. Qed.

(** ** Interrupted calls *)

(** The first answer that is not an interruption. *)
Inductive answers (c : syscall) (k : K) : sys_result -> K -> Prop :=
| answers_last r k' : libc c k = (r, k') -> ¬ (r.(rc) = (-1)%Z ∧ r.(err) = EINTR) -> answers c k r k'
| answers_again r k1 r' k' : libc c k = (r, k1) -> r.(rc) = (-1)%Z -> r.(err) = EINTR ->
    answers c k1 r' k' -> answers c k r' k'.

(** A state after calls to the system that leave the answer [r]. *)
Record called (r : sys_result) (k : K) s s' : Prop := {
  cd_io : h_io s' = h_io s;
  cd_fds : h_fds s' = set_kernel k (h_fds s);
  cd_tinfos : h_tinfos s' = h_tinfos s;
  cd_errno : r.(rc) = (-1)%Z -> h_errno s' = r.(err)
}.

Lemma after_call_called r k s : called r k s (after_call r k s).
Proof. split; unfold after_call; case_bool_decide; done. Qed.

Lemma called_trans r k r' k' s s1 s' : called r k s s1 -> called r' k' s1 s' -> called r' k' s s'.
Proof. intros [Hi Hf Ht _] [Hi' Hf' Ht' He']. split; [congruence| |congruence|done]. by rewrite Hf', Hf. Qed.

Lemma retrying_run {HL : LibcLaws K} fuel c s : interrupts s.(h_fds).(kernel) ≤ fuel ->
  ∃ r k' s', retrying fuel c s = (Ret r.(rc), s') ∧ answers c s.(h_fds).(kernel) r k' ∧ called r k' s s'.
Proof.
  revert s. induction fuel as [|fuel IH]; intros s Hfuel; cbn [retrying];
    destruct (libc c s.(h_fds).(kernel)) as [r k1] eqn:Hc; erewrite bind_run by (by apply call_rc_run);
    erewrite bind_run by done; pose proof (after_call_called r k1 s) as Hs1; set (s1 := after_call r k1 s) in *.
  all: destruct (decide (r.(rc) = (-1)%Z ∧ r.(err) = EINTR)) as [[Hrc Herr]|Hlast].
  all: try (exists r, k1, s1; split; [|split; [by constructor|done]];
    destruct (decide (r.(rc) = (-1)%Z)) as [Hrc|Hrc];
      [rewrite (cd_errno _ _ _ _ Hs1 Hrc), (bool_decide_false (err r = EINTR)) by naive_solver; by rewrite andb_false_r|
       by rewrite (bool_decide_false (rc r = (-1)%Z))]).
  - pose proof (libc_interrupted _ _ _ _ Hc Hrc Herr). lia.
  - pose proof (libc_interrupted _ _ _ _ Hc Hrc Herr).
    rewrite (cd_errno _ _ _ _ Hs1 Hrc), !bool_decide_true by done. cbn [andb].
    destruct (IH s1) as (r' & k' & s' & Hrun & Hans & Hs').
    { rewrite (cd_fds _ _ _ _ Hs1). cbn. lia. }
    rewrite (cd_fds _ _ _ _ Hs1) in Hans. exists r', k', s'. split; [done|]. split; [|by eapply called_trans].
    by eapply answers_again.
Qed.

(** ** Waiting *)

Lemma suspend_asserts (p : fiber_ptr) (saved : context W) (e : fiber_env W) b :
  e.(fibers) !! p = Some b -> (suspend p saved e).1 = Halt AssertFailed.
Proof.
  intros Hb. unfold suspend. erewrite bind_run by by apply get_fiber_run.
  case_bool_decide; [|by erewrite bind_halt by done]. erewrite bind_run by done. unfold update_fiber.
  erewrite bind_run by done. erewrite list_alter_insert by done. unfold yield. erewrite bind_run.
  2:{ apply get_fiber_run. cbn. apply list_lookup_insert_eq. by eapply lookup_lt_Some. }
  rewrite bool_decide_false by (cbn; naive_solver). by erewrite bind_halt.
Qed.

Lemma get_fiber_inv (p : fiber_ptr) (e e' : fiber_env W) b : get_fiber p e = (Ret b, e') -> e' = e ∧ e.(fibers) !! p = Some b.
Proof.
  unfold get_fiber, Fiber.deref. destruct (e.(fibers) !! p) as [b'|] eqn:Hp.
  - erewrite bind_run by (erewrite bind_run by done; cbn; by rewrite Hp). by intros [= <- <-].
  - erewrite bind_halt by (erewrite bind_run by done; cbn; by rewrite Hp). done.
Qed.

(** [GetThis] answers the fiber it leaves as the current one. *)
Lemma GetThis_current (e e' : fiber_env W) p : GetThis e = (Ret p, e') -> e'.(t_fiber) = Some p.
Proof.
  unfold GetThis. erewrite bind_run by done. destruct (t_fiber e) as [q|] eqn:Hq.
  { by intros [= <- <-]. }
  unfold mbind at 1, prog_bind at 1. destruct (new_main_fiber e) as [[m|?|?] e1]; [|done|done].
  erewrite !bind_run by done. cbn. case_bool_decide as Hm; [|done]. by intros [= <- <-].
Qed.

(** When [addEvent] accepts the current fiber, it is a fiber of the program. *)
Lemma addEvent_this tfd tid fd ev (io io' : IOManager W E) {HL : EpollLaws E} :
  io_ok tfd io -> (0 <= fd)%Z -> an_event ev -> addEvent tid fd ev None io = (Ret 0%Z, io') ->
  ∃ p b, (env_of tid (io_process io')).(t_fiber) = Some p ∧ (env_of tid (io_process io')).(fibers) !! p = Some b.
Proof.
  intros Hok Hfd Ha Hrun. unfold addEvent in Hrun. erewrite bind_run in Hrun by done.
  destruct (addEvent_context tfd fd io Hok Hfd) as (s1 & c & Hpre & Hok1 & Hc & Ht & HP & _).
  erewrite bind_run in Hrun by exact Hpre.
  destruct (has (fc_events c) ev) eqn:Hhas.
  { unfold add_to_context in Hrun. erewrite bind_run in Hrun by by apply get_context_run. by rewrite Hhas in Hrun. }
  destruct (epoll_ctl (if bool_decide (c.(fc_events) = 0)%Z then EPOLL_CTL_ADD else EPOLL_CTL_MOD) fd
    (Z.lor (Z.lor EPOLLET c.(fc_events)) ev) s1.(m_epfd)) as [[] e] eqn:Hctl.
  2:{ unfold add_to_context in Hrun. erewrite bind_run in Hrun by by apply get_context_run. rewrite Hhas in Hrun.
      by erewrite bind_run in Hrun by by apply ctl_run. }
  rewrite (add_to_context_start tid fd ev None s1 c e) in Hrun by (try done; by eapply ok_contexts).
  cbv zeta in Hrun. set (s2 := set_fdContexts _ _) in Hrun.
  unfold mbind at 1, prog_bind at 1 in Hrun.
  destruct (on_fibers tid GetThis s2) as [[p|?|?] s3] eqn:Hget; [|done|done].
  unfold mbind at 1, prog_bind at 1, set_context at 1, modify at 1 in Hrun.
  unfold mbind at 1, prog_bind at 1 in Hrun.
  set (s4 := set_fdContexts _ s3) in Hrun.
  destruct (on_fibers tid (get_fiber p) s4) as [[b|?|?] s5] eqn:Hb; [|done|done].
  unfold on_fibers, on_base, zoom in Hget, Hb. cbn in Hget, Hb.
  destruct (GetThis _) as [o e1] eqn:Hthis. injection Hget as -> <-. apply GetThis_current in Hthis.
  cbn in Hb. autorewrite with locals in Hb. destruct (get_fiber p e1) as [o e2] eqn:Hfib.
  injection Hb as -> <-. apply get_fiber_inv in Hfib as [-> Hfib].
  unfold mbind, prog_bind in Hrun. destruct (bool_decide _); [|done]. injection Hrun as <-.
  exists p, b. cbn. by autorewrite with locals.
Qed.

(** ** The timer of a call *)

(** Programs that leave the timers. *)
Definition timers_left {A} (m : prog std_exception (IOManager W E) A) : Prop :=
  ∀ io o io', m io = (o, io') -> io_timers io' = io_timers io.

Lemma timers_left_same {A} (m : prog std_exception (IOManager W E) A) : (∀ io, io_timers (m io).2 = io_timers io) -> timers_left m.
Proof. intros Hm io o io' Hrun. by rewrite <-(Hm io), Hrun. Qed.

Lemma timers_left_bind {A B} (m : prog std_exception (IOManager W E) A) (f : A -> prog std_exception (IOManager W E) B) :
  timers_left m -> (∀ a, timers_left (f a)) -> timers_left (m ≫= f).
Proof.
  intros Hm Hf io o io' Hrun. unfold mbind, prog_bind in Hrun. destruct (m io) as [[a|e|w] io1] eqn:Hio; apply Hm in Hio.
  - apply Hf in Hrun. congruence.
  - injection Hrun as _ <-. done.
  - injection Hrun as _ <-. done.
Qed.

Lemma timers_left_base {A} (m : prog std_exception (process W) A) : timers_left (on_base m).
Proof. apply timers_left_same. intros io. unfold on_base, zoom. by destruct (m _). Qed.

Lemma timers_left_ctl op fd ev : timers_left (ctl (W := W) op fd ev).
Proof. apply timers_left_same. intros io. unfold ctl. erewrite bind_run by done. by destruct (epoll_ctl _ _ _ _). Qed.

Lemma timers_left_get_context fd : timers_left (get_context (W := W) (E := E) fd).
Proof.
  apply timers_left_same. intros io. unfold get_context. erewrite bind_run by done.
  case_bool_decide; [done|]. by destruct (_ !! _).
Qed.

Lemma timers_left_addEvent tid fd ev cb : timers_left (addEvent (W := W) (E := E) tid fd ev cb).
Proof.
  assert (∀ A (a : A), timers_left (mret a)) as Hret by (intros; by apply timers_left_same).
  assert (∀ b, timers_left (assert b)) as Has by (intros []; by apply timers_left_same).
  unfold addEvent. apply timers_left_bind; [by apply timers_left_same|]. intros io0.
  apply timers_left_bind; [destruct (has_context fd io0); [apply Hret|by apply timers_left_same]|]. intros _.
  unfold add_to_context. apply timers_left_bind; [apply timers_left_get_context|]. intros c.
  destruct (has _ _); [apply Hret|]. apply timers_left_bind; [apply timers_left_ctl|]. intros []; [apply Hret|].
  apply timers_left_bind; [by apply timers_left_same|]. intros _. apply timers_left_bind; [by apply timers_left_same|]. intros _.
  apply timers_left_bind; [apply timers_left_bind; [apply Has|intros _; apply Hret]|]. intros x.
  apply timers_left_bind; [apply Has|]. intros _. apply timers_left_bind; [by apply timers_left_same|]. intros P.
  destruct cb; [apply timers_left_bind; [by apply timers_left_same|intros _; apply Hret]|].
  apply timers_left_bind; [apply timers_left_base|]. intros f. apply timers_left_bind; [by apply timers_left_same|]. intros _.
  apply timers_left_bind; [apply timers_left_base|]. intros b. apply timers_left_bind; [apply Has|]. intros _. apply Hret.
Qed.

(** Part of the state that a program of the timers leaves. *)
Lemma on_timers_run {A} (m : prog std_exception (TimerManager (callback W)) A) (io : IOManager W E) a t :
  m (io_timers io) = (Ret a, t) -> ∃ io', on_timers m io = (Ret a, io') ∧ io_timers io' = t ∧
    io_process io' = io_process io ∧ (∀ tfd {HL : EpollLaws E}, io_ok tfd io -> io_ok tfd io').
Proof.
  intros Hm. unfold on_timers. erewrite bind_run by done. erewrite bind_run by by apply zoom_run.
  erewrite bind_run by done. set (io1 := set_io_timers t io).
  assert (∀ tfd {HL : EpollLaws E}, io_ok tfd io -> io_ok tfd io1) as Hok by by intros tfd HL [].
  case_bool_decide.
  - destruct (io_tickle_run io1) as (io2 & Hrun & Hsame & HP). erewrite bind_run by exact Hrun.
    exists io2. split; [done|]. split; [by destruct Hsame as (_ & _ & _ & ->)|]. split; [by rewrite HP|].
    intros tfd HL ?. eapply io_ok_same; [by apply Hok|done].
  - by exists io1.
Qed.

Lemma addTimer_run (t : TimerManager (callback W)) ms cb :
  ∃ p t', addTimer ms cb false t = (Ret p, t') ∧ is_Some (t'.(timer_heap) !! p).
Proof.
  unfold addTimer. erewrite bind_run by done. erewrite bind_run by done. erewrite bind_run by done.
  cbn [timer_heap set_heap_ next_reading]. set (t1 := set_heap_ _ _).
  assert (is_Some (t1.(timer_heap) !! length (timer_heap t))) as Hin.
  { apply lookup_lt_is_Some. cbn. rewrite length_app. cbn. lia. }
  unfold addTimer_ptr. destruct (set_insert (timer_heap t1) (length (timer_heap t)) (m_timers t1)) as [it l] eqn:Hins.
  exists (length (timer_heap t)).
  destruct (bool_decide (head l = Some it) && negb (m_tickled t1)) eqn:Hfront; eexists; (split; [
    erewrite bind_run; [reflexivity|]; erewrite bind_run by done; rewrite Hins; cbv zeta; rewrite Hfront; reflexivity|done]).
Qed.

Lemma cancel_run (t : TimerManager (callback W)) p : is_Some (t.(timer_heap) !! p) -> ∃ b t', Timer.cancel p t = (Ret b, t').
Proof.
  intros [x Hx]. unfold Timer.cancel. erewrite bind_run.
  2:{ unfold get_timer. erewrite bind_run by done. by rewrite Hx. }
  destruct (m_cb x); [|by exists false, t]. erewrite bind_run by done. erewrite bind_run by done.
  destruct (set_find _ _ _); [|by eexists _, _]. erewrite bind_run by done. by eexists _, _.
Qed.

(** The timer of a call is set, when there is a timeout, and can be taken back
    from any state that has the same timers. *)
Lemma condition_timer_run tid timeout cb s :
  (local_of tid s.(h_io).(io_process)).(l_scheduler) = true ->
  ∃ timer io1, condition_timer tid timeout cb s = (Ret timer, set_h_io io1 s) ∧
    io_process io1 = io_process s.(h_io) ∧ (∀ tfd {HL : EpollLaws E}, io_ok tfd s.(h_io) -> io_ok tfd io1) ∧
    (timeout = u64_max -> io1 = s.(h_io)) ∧
    ∀ s2, io_timers s2.(h_io) = io_timers io1 ->
      ∃ io3, cancel_timer timer s2 = (Ret tt, set_h_io io3 s2).
Proof.
  intros Hsch. unfold condition_timer. case_bool_decide as Ht.
  { exists None, s.(h_io). split; [by destruct s|]. split_and!; try done. intros s2 _. exists s2.(h_io). by destruct s2. }
  unfold need_iom, this_iom.
  erewrite bind_run by (erewrite bind_run by done; cbn beta; rewrite Hsch; reflexivity).
  destruct (addTimer_run (io_timers s.(h_io)) timeout cb) as (p & t & Hadd & Hin).
  destruct (on_timers_run _ _ _ _ Hadd) as (io1 & Hrun & Ht1 & HP & Hok).
  unfold on_io. erewrite bind_run by (apply zoom_run; exact Hrun).
  exists (Some p), io1. split; [done|]. split; [done|]. split; [done|]. split; [done|].
  intros s2 Hs2. rewrite Ht1 in Hs2. rewrite <-Hs2 in Hin. destruct (cancel_run _ _ Hin) as (b & t' & Hc).
  destruct (on_timers_run _ _ _ _ Hc) as (io3 & Hrun3 & _). exists io3.
  unfold cancel_timer, on_io. by erewrite bind_run by (apply zoom_run; exact Hrun3).
Qed.

(** ** [do_io] once the descriptor is known to be a blocking socket *)

Lemma retry_done {HLc : LibcLaws K} tid fd c ev timeout ti cb saved s : ∃ r k' s1,
  retrying (interrupts s.(h_fds).(kernel)) c s = (Ret r.(rc), s1) ∧
  answers c s.(h_fds).(kernel) r k' ∧ called r k' s s1 ∧
  do_io_retry tid fd c ev timeout ti cb saved s =
    if decide (r.(rc) = (-1)%Z ∧ r.(err) = EAGAIN) then
      do_io_wait tid fd ev timeout ti cb saved s1
    else (Ret (Some r.(rc)), set_h_tinfos (<[ti := None]> (h_tinfos s1)) s1).
Proof.
  destruct (retrying_run (interrupts s.(h_fds).(kernel)) c s) as (r & k' & s1 & Hrun & Hans & Hs1); [done|].
  exists r, k', s1. split_and!; try done. unfold do_io_retry. erewrite bind_run by done.
  erewrite bind_run by exact Hrun. erewrite bind_run by done.
  destruct (decide (r.(rc) = (-1)%Z ∧ r.(err) = EAGAIN)) as [[Hrc Herr]|Hne].
  - by rewrite (cd_errno _ _ _ _ Hs1 Hrc), !bool_decide_true by done.
  - destruct (decide (r.(rc) = (-1)%Z)) as [Hrc|Hrc].
    + rewrite (cd_errno _ _ _ _ Hs1 Hrc), (bool_decide_false (err r = EAGAIN)), andb_false_r by naive_solver. done.
    + by rewrite (bool_decide_false (rc r = (-1)%Z)).
Qed.

(** The branch for [EAGAIN]. *)
Lemma would_block {HL : EpollLaws E} tfd tid fd ev timeout ti cb saved s :
  io_ok tfd s.(h_io) -> (0 <= fd)%Z -> an_event ev -> (local_of tid s.(h_io).(io_process)).(l_scheduler) = true ->
  ∃ io1, io_process io1 = io_process s.(h_io) ∧ io_ok tfd io1 ∧ (timeout = u64_max -> io1 = s.(h_io)) ∧
    ∀ n io2, addEvent tid fd ev None io1 = (Ret n, io2) ->
    (n = 0%Z -> (do_io_wait tid fd ev timeout ti cb saved s).1 = Halt AssertFailed) ∧
    (n ≠ 0%Z -> ∃ s', do_io_wait tid fd ev timeout ti cb saved s = (Ret (Some (-1)%Z), s') ∧
      h_fds s' = h_fds s ∧ h_errno s' = h_errno s).
Proof.
  intros Hok Hfd Ha Hsch. destruct (condition_timer_run tid timeout cb s Hsch) as (timer & io1 & Hrun & HP & Hok1 & Hinf & Hcancel).
  exists io1. split_and!; [done|by apply Hok1|done|]. intros n io2 Hadd.
  pose proof (timers_left_addEvent _ _ _ _ _ _ _ Hadd) as Htimers.
  assert (do_io_wait tid fd ev timeout ti cb saved s =
    (if bool_decide (n = 0)%Z then f ← on_io (on_fibers tid GetThis); on_io (on_fibers tid (suspend f saved) ≫= back);; mret None
     else cancel_timer timer;; free_tinfo ti;; mret (Some (-1)%Z)) (set_h_io io2 (set_h_io io1 s))) as Hwait.
  { unfold do_io_wait. erewrite bind_run by exact Hrun. unfold need_iom, this_iom.
    erewrite bind_run by (erewrite bind_run by done; cbn; rewrite HP, Hsch; reflexivity).
    unfold on_io at 1. by erewrite bind_run by (apply zoom_run; exact Hadd). }
  rewrite Hwait. split; intros Hn.
  - subst n. rewrite bool_decide_true by done. destruct (addEvent_this tfd tid fd ev io1 io2) as (p & b & Hp & Hb); try done; [by apply Hok1|].
    unfold on_io, on_fibers, on_base. erewrite bind_run.
    2:{ apply zoom_run, zoom_run, zoom_run, GetThis_run. exact Hp. }
    erewrite bind_halt; [done|]. apply zoom_run. erewrite bind_halt; [done|]. apply zoom_run, zoom_run.
    rewrite (surjective_pairing (suspend _ _ _)). f_equal. cbn. autorewrite with locals. by eapply suspend_asserts.
  - rewrite bool_decide_false by done. destruct (Hcancel (set_h_io io2 (set_h_io io1 s))) as (io3 & Hc); [done|].
    erewrite bind_run by exact Hc. by eexists.
Qed.

(** The branches of [do_io] on a descriptor with a context. *)
Lemma do_io_start tid fd c ev so cb saved s p ctx :
  (0 <= fd <= int_max)%Z -> has_ctx s fd p ctx -> (local_of tid s.(h_io).(io_process)).(l_hook_enable) = true ->
  do_io tid fd c ev so cb saved s =
    if ctx.(m_isClosed) then (Ret (Some (-1)%Z), set_h_errno EBADF s)
    else if negb ctx.(m_isSocket) || ctx.(m_userNonblock) then (n ← call_rc c; mret (Some n)) s
    else do_io_retry tid fd c ev (getTimeout so ctx) (length s.(h_tinfos)) cb saved
           (set_h_tinfos (s.(h_tinfos) ++ [Some 0%Z]) s).
Proof.
  intros Hfd Hctx Hen. unfold do_io, is_hook_enable. erewrite bind_run by done. rewrite Hen. cbn [negb].
  erewrite bind_run by by apply find_ctx_run. cbv iota.
  destruct (m_isClosed ctx); [done|]. destruct (negb _ || _); [done|]. by erewrite bind_run by done.
Qed.

(** ** [close] *)

Lemma cancelAll_clears {HL : EpollLaws E} tfd tid fd (io : IOManager W E) :
  io_ok tfd io -> (0 <= fd)%Z -> (∀ op fd' mask e, (epoll_ctl op fd' mask e).1 = true) ->
  ∃ b io', cancelAll tid fd io = (Ret b, io') ∧ io_ok tfd io' ∧
    (∀ c, m_fdContexts io' !! Z.to_nat fd = Some c -> c.(fc_events) = 0%Z) ∧
    ∀ c, m_fdContexts io !! Z.to_nat fd = Some c -> ∀ ev, an_event ev -> has c.(fc_events) ev = true ->
      task_of (slot ev c) ∈ m_tasks (sch (io_process io')).
Proof.
  intros Hok Hfd Hctl. destruct (cancelAll_total tfd tid fd io Hok Hfd) as (b & io' & Hrun & Hok').
  exists b, io'. split; [done|]. split; [done|].
  destruct (m_fdContexts io !! Z.to_nat fd) as [c|] eqn:Hc.
  - destruct (decide (fc_events c = 0)%Z) as [H0|H0].
    + assert (io' = io) as ->.
      { unfold cancelAll in Hrun. erewrite bind_run in Hrun by done. destruct (has_context fd io); [|by injection Hrun].
        erewrite bind_run in Hrun by by apply get_context_run. rewrite bool_decide_true in Hrun by done. by injection Hrun. }
      split; [naive_solver|]. intros c' [= <-] ev Ha. rewrite H0. by destruct Ha as [->| ->].
    + destruct (cancelAll_run tfd tid fd io c (epoll_ctl EPOLL_CTL_DEL fd 0 (m_epfd io)).2 Hok Hfd Hc H0) as
        (io2 & c2 & Hrun2 & _ & Hz & Hcs & Ht); [by apply surjective_pairing_true|].
      rewrite Hrun in Hrun2. injection Hrun2 as _ <-. split.
      * rewrite Hcs, list_lookup_insert_eq by by eapply lookup_lt_Some. by intros c' [= <-].
      * intros c' [= <-] ev Ha Hhas. rewrite Ht, !elem_of_app.
        destruct Ha as [->| ->]; rewrite Hhas; [right; left; by left|right; right; by left].
  - split; [|done]. intros c Hc'. exfalso. unfold cancelAll in Hrun. erewrite bind_run in Hrun by done.
    unfold has_context in Hrun. rewrite bool_decide_false in Hrun by (apply lookup_ge_None in Hc; lia).
    injection Hrun as _ <-. congruence.
Qed.

(** A hooked [close] of a descriptor with a context. *)
Lemma close_run {HL : EpollLaws E} tfd tid fd s p ctx :
  io_ok tfd s.(h_io) -> (0 <= fd <= int_max)%Z -> has_ctx s fd p ctx ->
  (local_of tid s.(h_io).(io_process)).(l_hook_enable) = true ->
  (local_of tid s.(h_io).(io_process)).(l_scheduler) = true ->
  (∀ op fd' mask e, (epoll_ctl op fd' mask e).1 = true) ->
  ∃ s', close tid fd s = (Ret (libc (CloseCall fd) s.(h_fds).(kernel)).1.(rc), s') ∧
    io_ok tfd s'.(h_io) ∧
    (∀ c, m_fdContexts s'.(h_io) !! Z.to_nat fd = Some c -> c.(fc_events) = 0%Z) ∧
    (∀ c, m_fdContexts s.(h_io) !! Z.to_nat fd = Some c -> ∀ ev, an_event ev -> has c.(fc_events) ev = true ->
      task_of (slot ev c) ∈ m_tasks (sch (io_process s'.(h_io)))) ∧
    lookup_fd s'.(h_fds) fd = None ∧
    (∀ fd', fd' ≠ fd -> lookup_fd s'.(h_fds) fd' = lookup_fd s.(h_fds) fd') ∧
    kernel s'.(h_fds) = (libc (CloseCall fd) s.(h_fds).(kernel)).2.
Proof.
  intros Hok Hfd Hctx Hen Hsch Hctl.
  destruct (cancelAll_clears tfd tid fd s.(h_io) Hok) as (b & io1 & Hrun1 & Hok1 & Hclear & Htasks); [lia|done|].
  destruct (del_run fd s.(h_fds) Hfd) as (fds1 & Hdel & Hnone & Hothers & _ & Hctxs & Hker).
  destruct (libc (CloseCall fd) s.(h_fds).(kernel)) as [r k] eqn:Hc. cbn [fst].
  set (s2 := set_h_fds fds1 (set_h_io io1 s)). exists (after_call r k s2).
  rewrite after_call_io, after_call_fds. cbn [snd]. split_and!; try done.
  unfold close, is_hook_enable. erewrite bind_run by done. rewrite Hen. cbn [negb].
  erewrite bind_run by by apply find_ctx_run. cbv iota.
  erewrite bind_run.
  2:{ unfold this_iom. erewrite bind_run by done. rewrite Hsch. unfold on_io.
      erewrite bind_run by (erewrite bind_run by (apply zoom_run; exact Hrun1); reflexivity).
      unfold on_fds. apply zoom_run. exact Hdel. }
  apply call_rc_run. cbn. by rewrite Hker.
Qed.

End facts.

(** ** The theorems *)

Section theorems.
Context {W E K : Type} {HE : Epoll E} {HK : Kernel K} {HC : Libc K}.
Context {HL : EpollLaws E} {HKl : KernelLaws K} {HLc : LibcLaws K}.
Implicit Types (s : hooked W E K) (tid fd : Z).

(** The flag [O_NONBLOCK] as the user sees it is the one the user set: on
    an open socket [fcntl(F_SETFL)] followed by [fcntl(F_GETFL)] gives it back,
    while the flag the system has stays set, so that the hooked calls never
    block the thread; the other bits shown are the system's. *)
Theorem nonblock_roundtrip fd s p c b arg any :
  (0 <= fd <= int_max)%Z -> has_ctx s fd p c -> c.(m_isClosed) = false -> c.(m_isSocket) = true ->
  c.(m_sysNonblock) = true -> fstat s.(h_fds).(kernel) fd = Some b ->
  ∃ s1 v, fcntl fd F_SETFL arg s = (Ret 0%Z, s1) ∧ has_flag (getfl s1.(h_fds).(kernel) fd) O_NONBLOCK = true ∧
    fcntl fd F_GETFL any s1 = (Ret v, s1) ∧ has_flag v O_NONBLOCK = has_flag arg O_NONBLOCK ∧
    Z.ldiff v O_NONBLOCK = Z.ldiff (getfl s1.(h_fds).(kernel) fd) O_NONBLOCK ∧ h_io s1 = h_io s.
Proof.
  intros Hfd Hctx Hcl Hsock Hsys Hstat. set (k := s.(h_fds).(kernel)) in *. set (user := has_flag arg O_NONBLOCK).
  destruct (setfl_call k fd (Z.lor arg O_NONBLOCK) b Hstat) as (e & o & Hset).
  set (c1 := setUserNonblock user c). set (k1 := setfl fd (Z.lor arg O_NONBLOCK) k) in *.
  set (fds1 := mkFdManager (m_datas s.(h_fds)) (alter (setUserNonblock user) p (ctxs s.(h_fds))) k1).
  set (s1 := set_h_fds fds1 s). exists s1, (shown user (getfl k1 fd)).
  assert (fstat k1 fd = Some b) as Hstat1 by (unfold k1; by rewrite fstat_setfl).
  assert (has_ctx s1 fd p c1) as Hctx1.
  { destruct Hctx as [Hp Hc]. split; [done|]. cbn. by rewrite list_lookup_alter_eq, Hc. }
  destruct (getfl_call k1 fd b Hstat1) as (Hvalid & e1 & o1 & Hget). split_and!.
  - unfold fcntl. rewrite bool_decide_true by done. unfold fcntl_setfl.
    erewrite bind_run by by apply socket_ctx_run. cbv iota. rewrite Hsys. erewrite bind_run by done.
    erewrite call_rc_run by exact Hset. done.
  - cbn. unfold has_flag, k1. rewrite (getfl_setfl k fd _ b) by done. apply has_flag_lor.
  - unfold fcntl. unfold fcntl_getfl. change (bool_decide (F_GETFL = F_SETFL)) with false. change (bool_decide (F_GETFL = F_GETFL)) with true. cbv iota.
    assert (call_rc (FcntlCall fd F_GETFL None) s1 = (Ret (getfl k1 fd), s1)) as Hcall.
    { erewrite call_rc_run by exact Hget. unfold after_call. cbn [rc].
      by rewrite (bool_decide_false (getfl k1 fd = (-1)%Z)). }
    erewrite bind_run by exact Hcall. by erewrite bind_run by by apply socket_ctx_run.
  - apply has_flag_shown.
  - apply Z.bits_inj'. intros i Hi. unfold shown. cbn. destruct user; rewrite !Z.ldiff_spec, ?Z.lor_spec, ?Z.ldiff_spec;
      by destruct (Z.testbit (getfl k1 fd) i), (Z.testbit O_NONBLOCK i).
  - done.
Qed.


(** A hooked [close] of a descriptor with a context leaves nothing behind:
    while [epoll_ctl] does not fail, no event of the descriptor is registered,
    the tasks that waited for one are queued, the contexts, the pending count
    and the [epoll] instance agree, and the descriptor has no context; and it
    answers what the system's [close] answers. Other descriptors keep theirs. *)
Theorem close_releases tfd tid fd s p ctx :
  io_ok tfd s.(h_io) -> (0 <= fd <= int_max)%Z -> has_ctx s fd p ctx ->
  (local_of tid s.(h_io).(io_process)).(l_hook_enable) = true ->
  (local_of tid s.(h_io).(io_process)).(l_scheduler) = true ->
  (∀ op fd' mask e, (epoll_ctl op fd' mask e).1 = true) ->
  ∃ s', close tid fd s = (Ret (libc (CloseCall fd) s.(h_fds).(kernel)).1.(rc), s') ∧
    io_ok tfd s'.(h_io) ∧
    (∀ c, m_fdContexts s'.(h_io) !! Z.to_nat fd = Some c -> c.(fc_events) = 0%Z) ∧
    (∀ c, m_fdContexts s.(h_io) !! Z.to_nat fd = Some c -> ∀ ev, an_event ev -> has c.(fc_events) ev = true ->
      task_of (slot ev c) ∈ m_tasks (sch (io_process s'.(h_io)))) ∧
    lookup_fd s'.(h_fds) fd = None ∧
    ∀ fd', fd' ≠ fd -> lookup_fd s'.(h_fds) fd' = lookup_fd s.(h_fds) fd'.
Proof.
  intros Hok Hfd Hctx Hen Hsch Hctl.
  destruct (close_run tfd tid fd s p ctx) as (s' & ? & ? & ? & ? & ? & ? & _); try done. by exists s'.
Qed.

End theorems.

(** ** A concrete system *)

(** The flags are those of [sample_kernel]; a read gives 5 bytes, a write would
    block, every other call succeeds. *)
Definition sample_libc (c : syscall) (k : sample_kernel) : sys_result * sample_kernel :=
  match c with
  | FcntlCall fd cmd arg =>
      if bool_decide (cmd = F_GETFL) then (mkResult (getfl k fd) EBADF 0, k)
      else match arg with Some v => (mkResult 0 0 0, setfl fd v k) | None => (mkResult 0 0 0, k) end
  | IoCall read_f _ _ => (mkResult 5 0 0, k)
  | IoCall write_f _ _ => (mkResult (-1) EAGAIN 0, k)
  | _ => (mkResult 0 0 0, k)
  end.

#[export] Instance sample_libc_ops : Libc sample_kernel := {| libc := sample_libc; interrupts _ := 0 |}.

#[export] Instance sample_libc_laws : LibcLaws sample_kernel.
Proof.
  split.
  - intros k fd b Hstat. split; [|by eexists _, _]. cbn in *. case_bool_decide as Hfd; [|done].
    rewrite bool_decide_true by lia.
    assert (Z.to_nat fd < length k) as [v Hv]%lookup_lt_is_Some by (unfold sample_kernel in *; lia).
    rewrite Hv. cbn. assert (0 <= Z.land v 4095)%Z by (apply Z.land_nonneg; right; lia). lia.
  - intros. by eexists _, _.
  - intros c k r k' Hc Hrc He. exfalso.
    destruct c as [[] ? ?|?|?|? ?|? ? ?|? ? ?|?|? cmd []|? ? ?|? ? ?|? ? ? ?]; cbn in Hc;
      repeat case_bool_decide; injection Hc as <- _; done.
Defined.

(** Thread 7 of [sample_io], hooked and in the fiber of [run], with socket 40
    open. *)
Definition sample_hooked : hooked (list nat) sample_epoll sample_kernel :=
  let start := mkHooked sample_io (new_FdManager (replicate 64 0%Z : sample_kernel)) 0 [] in
  ((set_hook_enable_flag 7 true;; on_fds (get_ctx 40 true)) start).2.
Definition sample_ctx : FdCtx := mkFdCtx true true true false false 40 u64_max u64_max.

Lemma sample_hooked_ctx : has_ctx sample_hooked 40 0 sample_ctx.
Proof. split; vm_compute; reflexivity. Qed.

Lemma sample_hooked_ok : io_ok 3 sample_hooked.(h_io).
Proof. eapply io_ok_same; [exact sample_io_ok|]. split_and!; vm_compute; reflexivity. Qed.

Lemma nonblock_roundtrip_witness : ∃ s1 v, fcntl 40 F_SETFL 2 sample_hooked = (Ret 0%Z, s1) ∧
  fcntl 40 F_GETFL 0 s1 = (Ret v, s1) ∧ has_flag v O_NONBLOCK = false.
Proof.
  destruct (nonblock_roundtrip 40 sample_hooked 0 sample_ctx true 2 0) as (s1 & v & H1 & _ & H2 & H3 & _).
  - split; discriminate.
  - exact sample_hooked_ctx.
  - reflexivity.
  - reflexivity.
  - reflexivity.
  - vm_compute. reflexivity.
  - exists s1, v. split; [exact H1|]. split; [exact H2|]. rewrite H3. vm_compute. reflexivity.
Defined.


(** Closing socket 40 while work waits for its events. *)
Lemma close_releases_witness :
  let s := set_h_io sample_registered sample_hooked in
  let s := (set_hook_enable_flag 7 true s).2 in
  ∃ n s', close 7 40 s = (Ret n, s') ∧ lookup_fd s'.(h_fds) 40 = None ∧
    mkTask None (Some (log 1 Return)) (-1) ∈ m_tasks (sch (io_process s'.(h_io))).
Proof.
  intros s0 s. destruct (close_releases 3 7 40 s 0 sample_ctx) as (s' & Hrun & _ & _ & Htasks & Hnone & _).
  - eapply io_ok_same; [exact sample_registered_ok|]. split_and!; vm_compute; reflexivity.
  - split; discriminate.
  - split; vm_compute; reflexivity.
  - vm_compute. reflexivity.
  - vm_compute. reflexivity.
  - reflexivity.
  - eexists _, s'. split; [exact Hrun|]. split; [exact Hnone|].
    apply (Htasks sample_context) with (ev := READ); [vm_compute; reflexivity|exact an_event_READ|reflexivity].
Defined.
