(* ===== verification/DbPool.v ===== *)
(** * Database connections and their pool

    [HTTP/include/utils/db/], [HTTP/src/utils/db/] and
    [HTTP/include/utils/MySqlUtil.h]: a connection over the MySQL driver, the
    pool that lends connections, and the two calls of the utility. The driver
    is an interface on a state [D]; a connection of it is a [C]. The connections
    are objects on a heap, and a [shared_ptr<DbConnection>] is an index into it.
    What happens under the lock of the pool is one step. *)

From S2P Require Export CppString.

(** ** The driver *)

(** What the code asks of a connection of the driver. *)
Inductive sql_op :=
| SetSchema (database : bytes)
| SetClientOption (key value : bytes)
| Execute (text : bytes)
| Reconnect
| GetAutoCommit
| Rollback
| SetAutoCommit (on : bool)
| GetMoreResults
| ConsumeResultSet
| ExecuteQuery (text : bytes) (params : list (nat * bytes))
| ExecuteUpdate (text : bytes) (params : list (nat * bytes)).

(** A row of a result, by column, and the answers. *)
Abbreviation row := (gmap bytes bytes).
Inductive sql_answer :=
| Done
| Flag (b : bool)
| Rows (rows : list row)
| Count (n : Z).

(** A driver: every operation answers, or throws [sql::SQLException], of which
    the text; [more_results] bounds the results a connection has left, and
    [row_int] is [getInt] of a column. *)
Class SqlDriver (D C : Type) := {
  sql_connect : bytes -> bytes -> bytes -> D -> (option C + string) * D;
  sql : C -> sql_op -> D -> (sql_answer + string) * D;
  more_results : C -> D -> nat;
  row_int : row -> bytes -> Z + string
}.

(** ** Connections *)

Record DbConnection (C : Type) := mkDbConnection {
  conn_ : option C;
  conn_host : bytes;
  conn_user : bytes;
  conn_password : bytes;
  conn_database : bytes
}.
Arguments mkDbConnection {C}.
Arguments conn_ {C}.
Arguments conn_host {C}.
Arguments conn_user {C}.
Arguments conn_password {C}.
Arguments conn_database {C}.

Abbreviation conn_ptr := nat.

(** The members of the pool; [check_thread] tells whether [checkThread_] was
    started. *)
Record DbConnectionPool := mkDbConnectionPool {
  pool_host : bytes;
  pool_user : bytes;
  pool_password : bytes;
  pool_database : bytes;
  connections_ : list conn_ptr;
  initialized_ : bool;
  check_thread : bool
}.

(** The pool, the connections that were made, and the driver. *)
Record db_state (D C : Type) := mkDbState {
  db_pool : DbConnectionPool;
  db_conns : list (DbConnection C);
  db_driver : D
}.
Arguments mkDbState {D C}.
Arguments db_pool {D C}.
Arguments db_conns {D C}.
Arguments db_driver {D C}.

Section database.
Context {D C : Type} {HD : SqlDriver D C}.
Implicit Types (s : db_state D C) (c : DbConnection C) (p : conn_ptr).

Abbreviation db_prog A := (prog std_exception (db_state D C) A).
(** Programs that may throw an [SQLException]. *)
Abbreviation sql_prog A := (prog string (db_state D C) A).

Definition set_pool (l : DbConnectionPool) s : db_state D C := mkDbState l s.(db_conns) s.(db_driver).
Definition set_conns (h : list (DbConnection C)) s : db_state D C := mkDbState s.(db_pool) h s.(db_driver).
Definition set_driver (d : D) s : db_state D C := mkDbState s.(db_pool) s.(db_conns) d.

Definition set_conn_ (x : option C) c : DbConnection C :=
  mkDbConnection x c.(conn_host) c.(conn_user) c.(conn_password) c.(conn_database).

(** [DbException], and any other [std::exception], by its text. *)
Definition DbException (what : string) : std_exception := OtherException what.

(** [try { m } catch (const sql::SQLException& e) { h(e) }]. *)
Definition catch_sql {A} (m : sql_prog A) (h : string -> db_prog A) : db_prog A := λ s,
  match m s with
  | (Ret a, s') => (Ret a, s')
  | (Throw e, s') => h e s'
  | (Halt w, s') => (Halt w, s')
  end.

(** A call to the driver, and one through a pointer to a connection. *)
Definition driver_call {A} (f : D -> (A + string) * D) : sql_prog A := λ s,
  match f s.(db_driver) with
  | (inl a, d) => (Ret a, set_driver d s)
  | (inr e, d) => (Throw e, set_driver d s)
  end.
Definition on_conn (x : option C) (op : sql_op) : sql_prog sql_answer :=
  match x with
  | Some x => driver_call (sql x op)
  | None => halt UndefinedBehaviour
  end.

(** [p->...], for a pointer to a connection object. *)
Definition get_conn {E} p : prog E (db_state D C) (DbConnection C) :=
  s ← get;
  match s.(db_conns) !! p with Some c => mret c | None => halt UndefinedBehaviour end.

(** The constructor; the object is there once it has not thrown. *)
Definition connect_steps (host user password database : bytes) : sql_prog (option C) :=
  x ← driver_call (sql_connect host user password);
  match x with
  | None => mret None
  | Some _ =>
      on_conn x (SetSchema database);;
      on_conn x (SetClientOption (lit "OPT_RECONNECT") (lit "true"));;
      on_conn x (SetClientOption (lit "OPT_CONNECT_TIMEOUT") (lit "10"));;
      on_conn x (SetClientOption (lit "multi_statements") (lit "false"));;
      on_conn x (Execute (lit "SET NAMES utf8mb4"));;
      mret x
  end.
Definition new_DbConnection (host user password database : bytes) : db_prog conn_ptr :=
  x ← catch_sql (connect_steps host user password database) (λ e, throw (DbException e));
  s ← get;
  modify (set_conns (s.(db_conns) ++ [mkDbConnection x host user password database]));;
  mret (length s.(db_conns)).

Definition ping p : db_prog bool :=
  c ← get_conn p;
  catch_sql (on_conn c.(conn_) (ExecuteQuery (lit "SELECT 1") []);; mret true) (λ _, mret false).

Definition isValid p : db_prog bool :=
  c ← get_conn p;
  catch_sql
    (match c.(conn_) with
     | None => mret false
     | x => on_conn x (Execute (lit "SELECT 1"));; mret true
     end)
    (λ _, mret false).

Definition reconnect p : db_prog unit :=
  c ← get_conn p;
  catch_sql
    (match c.(conn_) with
     | Some x => driver_call (sql x Reconnect);; mret tt
     | None =>
         x ← driver_call (sql_connect c.(conn_host) c.(conn_user) c.(conn_password));
         modify (λ s, set_conns (alter (set_conn_ x) p s.(db_conns)) s);;
         on_conn x (SetSchema c.(conn_database));;
         mret tt
     end)
    (λ e, throw (DbException e)).

(** The loop over the results that are left. *)
Fixpoint drain_results (fuel : nat) (x : option C) : sql_prog unit :=
  more ← on_conn x GetMoreResults;
  match more, fuel with
  | Flag true, 0 => halt Diverged
  | Flag true, S fuel => on_conn x ConsumeResultSet;; drain_results fuel x
  | _, _ => mret tt
  end.

Definition cleanup_steps (x : C) : sql_prog unit :=
  auto ← driver_call (sql x GetAutoCommit);
  (match auto with
   | Flag false => driver_call (sql x Rollback);; driver_call (sql x (SetAutoCommit true));; mret tt
   | _ => mret tt
   end);;
  s ← get;
  drain_results (more_results x s.(db_driver)) (Some x).

(** [cleanup], which swallows what [reconnect] throws; the destructor adds
    nothing to it. *)
Definition cleanup p : db_prog unit :=
  c ← get_conn p;
  catch_sql (match c.(conn_) with Some x => cleanup_steps x | None => mret tt end)
    (λ _, catch (reconnect p) (λ _, mret tt)).

(** An argument of a prepared statement, and [bindParams]. *)
Inductive param := PNumber (n : Z) | PString (s : bytes).
Fixpoint bindParams (index : nat) (args : list param) : list (nat * bytes) :=
  match args with
  | [] => []
  | PNumber n :: args => (index, to_string n) :: bindParams (index + 1) args
  | PString s :: args => (index, s) :: bindParams (index + 1) args
  end.

Definition conn_executeQuery p (text : bytes) (args : list param) : db_prog (list row) :=
  c ← get_conn p;
  catch_sql
    (r ← on_conn c.(conn_) (ExecuteQuery text (bindParams 1 args));
     mret (match r with Rows l => l | _ => [] end))
    (λ e, throw (DbException e)).
Definition conn_executeUpdate p (text : bytes) (args : list param) : db_prog Z :=
  c ← get_conn p;
  catch_sql
    (r ← on_conn c.(conn_) (ExecuteUpdate text (bindParams 1 args));
     mret (match r with Count n => n | _ => 0%Z end))
    (λ e, throw (DbException e)).

(** ** The pool *)

Definition on_pool (f : DbConnectionPool -> DbConnectionPool) : db_prog unit :=
  modify (λ s, set_pool (f s.(db_pool)) s).
Definition set_connections (l : list conn_ptr) (q : DbConnectionPool) : DbConnectionPool :=
  mkDbConnectionPool q.(pool_host) q.(pool_user) q.(pool_password) q.(pool_database) l q.(initialized_) q.(check_thread).
Definition push_connection p (q : DbConnectionPool) : DbConnectionPool := set_connections (q.(connections_) ++ [p]) q.
Definition set_credentials (host user password database : bytes) (q : DbConnectionPool) : DbConnectionPool :=
  mkDbConnectionPool host user password database q.(connections_) q.(initialized_) q.(check_thread).
Definition set_initialized (q : DbConnectionPool) : DbConnectionPool :=
  mkDbConnectionPool q.(pool_host) q.(pool_user) q.(pool_password) q.(pool_database) q.(connections_) true q.(check_thread).
Definition startCheckThread (q : DbConnectionPool) : DbConnectionPool :=
  mkDbConnectionPool q.(pool_host) q.(pool_user) q.(pool_password) q.(pool_database) q.(connections_) q.(initialized_) true.

Definition new_DbConnectionPool : DbConnectionPool := mkDbConnectionPool [] [] [] [] [] false false.

Definition createConnection : db_prog conn_ptr :=
  s ← get;
  let q := s.(db_pool) in
  new_DbConnection q.(pool_host) q.(pool_user) q.(pool_password) q.(pool_database).

Fixpoint create_loop (n : nat) : db_prog unit :=
  match n with
  | 0 => mret tt
  | S n => p ← createConnection; on_pool (push_connection p);; create_loop n
  end.

Definition pool_init (host user password database : bytes) (poolSize : nat) : db_prog unit :=
  s ← get;
  if s.(db_pool).(initialized_) then mret tt
  else
    on_pool (set_credentials host user password database);;
    create_loop poolSize;;
    on_pool set_initialized;;
    on_pool startCheckThread.

(** The part of [getConnection] under the lock; [None] waits on [cv_]. *)
Definition take_connection : db_prog (option conn_ptr) :=
  s ← get;
  match s.(db_pool).(connections_) with
  | [] => if s.(db_pool).(initialized_) then mret None
          else throw (DbException "Connection pool not initialized")
  | p :: l => on_pool (set_connections l);; mret (Some p)
  end.

(** The deleter of what [getConnection] returns. *)
Definition give_back_connection p : db_prog unit := on_pool (push_connection p).

(** [None] is a thread that waits for a connection. *)
Definition getConnection : db_prog (option conn_ptr) :=
  conn ← take_connection;
  match conn with
  | None => mret None
  | Some p =>
      catch
        (alive ← ping p;
         (if alive : bool then mret tt else reconnect p);;
         mret (Some p))
        (λ e, on_pool (push_connection p);; throw e)
  end.

(** The destructor of the pool. *)
Definition delete_DbConnectionPool : db_prog unit := on_pool (set_connections []).

(** The check of one connection, and one round of [checkConnections] over the
    connections that were in the queue. *)
Definition check_connection p : db_prog unit :=
  alive ← ping p;
  if alive : bool then mret tt else catch (reconnect p) (λ _, mret tt).
Fixpoint check_loop (l : list conn_ptr) : db_prog unit :=
  match l with
  | [] => mret tt
  | p :: l => check_connection p;; check_loop l
  end.
Definition checkConnections_round : db_prog unit :=
  s ← get;
  check_loop s.(db_pool).(connections_).

(** ** [MySqlUtil] *)

(** The connection goes back when the call is over, however it ends; to wait
    for ever is to diverge. *)
Definition with_connection {A} (f : conn_ptr -> db_prog A) : db_prog A :=
  conn ← getConnection;
  match conn with
  | None => halt Diverged
  | Some p =>
      a ← catch (f p) (λ e, give_back_connection p;; throw e);
      give_back_connection p;;
      mret a
  end.

Definition util_executeQuery (text : bytes) (args : list param) : db_prog (list row) :=
  with_connection (λ p, conn_executeQuery p text args).
Definition util_executeUpdate (text : bytes) (args : list param) : db_prog Z :=
  with_connection (λ p, conn_executeUpdate p text args).

End database.

(** ** What the rest of the server uses of it *)

(** A database, as the handlers see it: a query and an update, by their text,
    and the integer in a column of a row. *)
Class Database (S : Type) := {
  executeQuery : bytes -> prog std_exception S (list row);
  executeUpdate : bytes -> prog std_exception S Z;
  getInt : row -> bytes -> Z + string
}.

#[export] Instance mysql_database D C {HD : SqlDriver D C} : Database (db_state D C) := {|
  executeQuery text := util_executeQuery text [];
  executeUpdate text := util_executeUpdate text [];
  getInt := row_int
|}.
