(* ===== verification/DbPoolFacts.v ===== *)
(** * Facts on the pool of database connections

    No connection is lost or lent twice, whatever the threads do and however the
    driver fails. *)

From S2P Require Export DbPool.

(** What the driver promises: a connection it makes is not null,
    and the integer of a column is an [int]. *)
Class SqlDriverLaws (D C : Type) {HD : SqlDriver D C} := {
  connect_some host user password d x d' : sql_connect host user password d = (inl x, d') -> is_Some x;
  row_int_int (r : row) col n : row_int r col = inl n -> (int_min <= n <= int_max)%Z
}.

Section facts.
Context {D C : Type} {HD : SqlDriver D C}.
Implicit Types (s : db_state D C) (p : conn_ptr) (lent : list conn_ptr).

(** Everything but the driver is as before. *)
Definition same_db s s' : Prop := s'.(db_pool) = s.(db_pool) ∧ s'.(db_conns) = s.(db_conns).

Lemma same_db_trans s s' s'' : same_db s s' -> same_db s' s'' -> same_db s s''.
Proof. intros [? ?] [? ?]. split; congruence. Qed.

(** A program that returns or throws, and leaves everything but the driver. *)
Definition calm {E A} (m : prog E (db_state D C) A) s : Prop :=
  ∃ o s', m s = (o, s') ∧ (∀ w, o ≠ Halt w) ∧ same_db s s'.

Lemma calm_ret {E A} (a : A) s : calm (E := E) (mret a) s.
Proof. by exists (Ret a), s. Qed.

Lemma calm_bind {E A B} (m : prog E (db_state D C) A) (f : A -> prog E (db_state D C) B) s :
  calm m s -> (∀ a s', same_db s s' -> calm (f a) s') -> calm (m ≫= f) s.
Proof.
  intros (o & s' & Hm & Ho & Hs) Hf. unfold calm, mbind, prog_bind. rewrite Hm. destruct o as [a|e|w].
  - destruct (Hf a s' Hs) as (o & s'' & Hrun & Ho' & Hs'). exists o, s''. eauto using same_db_trans.
  - by exists (Throw e), s'.
  - by destruct (Ho w).
Qed.

Lemma calm_driver {A} (f : D -> (A + string) * D) s : calm (driver_call f) s.
Proof. unfold calm, driver_call. destruct (f _) as [[a|e] d]; [by exists (Ret a), (set_driver d s)|by exists (Throw e), (set_driver d s)]. Qed.

Lemma calm_catch_sql {A} (m : prog string (db_state D C) A) h s :
  calm m s -> (∀ e s', same_db s s' -> calm (h e) s') -> calm (catch_sql m h) s.
Proof.
  intros (o & s' & Hm & Ho & Hs) Hh. unfold calm, catch_sql. rewrite Hm. destruct o as [a|e|w].
  - by exists (Ret a), s'.
  - destruct (Hh e s' Hs) as (o & s'' & Hrun & Ho' & Hs'). exists o, s''. eauto using same_db_trans.
  - by destruct (Ho w).
Qed.

Lemma calm_throw {E A} (e : E) s : calm (A := A) (throw e) s.
Proof. by exists (Throw e), s. Qed.

(** A connection object with a connection of the driver. *)
Definition live s p : Prop := ∃ c x, s.(db_conns) !! p = Some c ∧ c.(conn_) = Some x.

Lemma live_same s s' p : same_db s s' -> live s p -> live s' p.
Proof. intros [_ Hc] (c & x & ? & ?). exists c, x. by rewrite Hc. Qed.

Lemma get_conn_run {E} s p c : s.(db_conns) !! p = Some c -> get_conn (E := E) p s = (Ret c, s).
Proof. intros Hc. unfold get_conn. erewrite bind_run by done. by rewrite Hc. Qed.

Lemma calm_conn {A} (f : DbConnection C -> prog std_exception (db_state D C) A) s p :
  live s p -> (∀ c x, c.(conn_) = Some x -> calm (f c) s) -> calm (c ← get_conn p; f c) s.
Proof.
  intros (c & x & Hc & Hx) Hf. unfold calm. erewrite bind_run by by apply get_conn_run. by eapply Hf.
Qed.

Lemma ping_calm s p : live s p -> ∃ b s', ping p s = (Ret b, s') ∧ same_db s s'.
Proof.
  intros (c & x & Hc & Hx). unfold ping. erewrite bind_run by by apply get_conn_run. rewrite Hx.
  unfold catch_sql, on_conn.
  destruct (calm_bind (driver_call (sql x (ExecuteQuery (lit "SELECT 1") []))) (λ _, mret true) s)
    as (o & s' & -> & Ho & Hs); [apply calm_driver|intros; apply calm_ret|].
  destruct o as [b|e|w]; [by exists b, s'|by exists false, s'|by destruct (Ho w)].
Qed.

Lemma reconnect_calm s p : live s p -> calm (reconnect p) s.
Proof.
  intros Hl. apply calm_conn; [done|]. intros c x ->. apply calm_catch_sql.
  - apply calm_bind; [apply calm_driver|intros; apply calm_ret].
  - intros. apply calm_throw.
Qed.

Lemma conn_executeQuery_calm s p text args : live s p -> calm (conn_executeQuery p text args) s.
Proof.
  intros Hl. apply calm_conn; [done|]. intros c x ->. apply calm_catch_sql.
  - apply calm_bind; [apply calm_driver|intros; apply calm_ret].
  - intros. apply calm_throw.
Qed.

Lemma conn_executeUpdate_calm s p text args : live s p -> calm (conn_executeUpdate p text args) s.
Proof.
  intros Hl. apply calm_conn; [done|]. intros c x ->. apply calm_catch_sql.
  - apply calm_bind; [apply calm_driver|intros; apply calm_ret].
  - intros. apply calm_throw.
Qed.

Lemma check_connection_calm s p : live s p -> ∃ s', check_connection p s = (Ret tt, s') ∧ same_db s s'.
Proof.
  intros Hl. destruct (ping_calm s p Hl) as (b & s1 & Hrun & Hs1). unfold check_connection.
  erewrite bind_run by exact Hrun. destruct b; [by exists s1|].
  destruct (reconnect_calm s1 p) as (o & s2 & Hrec & Ho & Hs2); [by eapply live_same|].
  destruct o as [[]|e|w].
  - exists s2. split; [by apply catch_ret|by eapply same_db_trans].
  - exists s2. split; [by erewrite catch_throw|by eapply same_db_trans].
  - by destruct (Ho w).
Qed.

(** ** The invariant *)

(** The connections in the queue and the ones that are lent are all that were
    made, each once, and none is null. *)
Record pool_inv s lent : Prop := {
  inv_all : s.(db_pool).(connections_) ++ lent ≡ₚ seq 0 (length s.(db_conns));
  inv_live p : p < length s.(db_conns) -> live s p
}.

Lemma inv_same s s' lent : pool_inv s lent -> same_db s s' -> pool_inv s' lent.
Proof.
  intros [Ha Hl] Hs. pose proof Hs as [Hp Hc]. split.
  - by rewrite Hp, Hc.
  - intros p. rewrite Hc. intros Hlt. by eapply live_same, Hl.
Qed.

Lemma inv_in s lent p : pool_inv s lent -> p ∈ s.(db_pool).(connections_) ++ lent -> live s p.
Proof. intros [Ha Hl] Hin. apply Hl. rewrite Ha in Hin. apply elem_of_seq in Hin. lia. Qed.

Lemma inv_push s lent p : pool_inv s (p :: lent) -> pool_inv (set_pool (push_connection p s.(db_pool)) s) lent.
Proof.
  intros [Ha Hl]. split; [|exact Hl]. cbn. rewrite <-Ha, <-app_assoc. done.
Qed.

(** [getConnection] on every branch. *)
Lemma getConnection_run s lent : pool_inv s lent ->
  match s.(db_pool).(connections_) with
  | [] => getConnection s = (if s.(db_pool).(initialized_) then Ret None
                             else Throw (DbException "Connection pool not initialized"), s)
  | p :: l => (∃ s', getConnection s = (Ret (Some p), s') ∧ s'.(db_pool) = set_connections l s.(db_pool) ∧
                db_conns s' = db_conns s) ∨
              (∃ e s', getConnection s = (Throw e, s') ∧ s'.(db_pool) = set_connections (l ++ [p]) s.(db_pool) ∧
                db_conns s' = db_conns s)
  end.
Proof.
  intros Hinv. unfold getConnection, take_connection. destruct (connections_ (db_pool s)) as [|p l] eqn:Hq.
  - destruct (initialized_ (db_pool s)) eqn:Hi.
    + rewrite (bind_run _ _ s None s); [done|]. erewrite bind_run by done. by rewrite Hq, Hi.
    + rewrite (bind_throw _ _ s (DbException "Connection pool not initialized") s); [done|].
      erewrite bind_run by done. by rewrite Hq, Hi.
  - set (s1 := set_pool (set_connections l (db_pool s)) s). rewrite (bind_run _ _ s (Some p) s1).
    2:{ erewrite bind_run by done. by rewrite Hq. }
    assert (live s1 p) as Hl. { apply (inv_in s lent); [done|]. rewrite Hq. by left. }
    destruct (ping_calm s1 p Hl) as (b & s2 & Hping & Hs2). pose proof Hs2 as [Hp2 Hc2]. destruct b.
    + left. exists s2. split; [|by rewrite Hp2, Hc2]. apply catch_ret. by erewrite bind_run by exact Hping.
    + destruct (reconnect_calm s2 p) as (o & s3 & Hrec & Ho & Hp3 & Hc3); [by eapply live_same|]. destruct o as [[]|e|w].
      * left. exists s3. split; [|by rewrite Hp3, Hc3, Hp2, Hc2].
        apply catch_ret. erewrite bind_run by exact Hping. by erewrite bind_run by exact Hrec.
      * right. exists e, (set_pool (push_connection p s3.(db_pool)) s3). split; [|cbn; by rewrite Hp3, Hc3, Hp2, Hc2].
        erewrite catch_throw; [done|]. erewrite bind_run by exact Hping. by erewrite bind_throw by exact Hrec.
      * by destruct (Ho w).
Qed.

Lemma getConnection_inv s lent o s' : pool_inv s lent -> getConnection s = (o, s') ->
  pool_inv s' (match o with Ret (Some p) => p :: lent | _ => lent end) ∧
  match o with
  | Ret (Some p) => p ∉ lent
  | Ret None => s.(db_pool).(connections_) = [] ∧ s.(db_pool).(initialized_) = true ∧ s' = s
  | Throw _ => s'.(db_pool).(connections_) ≡ₚ s.(db_pool).(connections_)
  | Halt _ => False
  end.
Proof.
  intros Hinv Hrun. pose proof (getConnection_run s lent Hinv) as H.
  destruct (connections_ (db_pool s)) as [|p l] eqn:Hq.
  - rewrite Hrun in H. destruct (initialized_ (db_pool s)); injection H as -> ->; [done|]. by rewrite Hq.
  - destruct Hinv as [Ha Hl]. rewrite Hq in Ha.
    assert (∀ q s1 lent', db_pool s1 = set_connections q (db_pool s) -> db_conns s1 = db_conns s -> q ++ lent' ≡ₚ (p :: l) ++ lent ->
      pool_inv s1 lent') as Hinv'.
    { intros q s1 lent' Hp Hc Hperm. split; [by rewrite Hp, Hc; cbn; rewrite Hperm|].
      intros p' Hp'. rewrite Hc in Hp'. destruct (Hl p' Hp') as (c & x & ? & ?). exists c, x. by rewrite Hc. }
    destruct H as [(s1 & Hg & Hp & Hc)|(e & s1 & Hg & Hp & Hc)]; rewrite Hrun in Hg; injection Hg as -> ->.
    + split; [eapply Hinv'; [done..|]; apply Permutation_sym, Permutation_middle|].
      intros Hin. assert (NoDup (p :: l ++ lent)) as [Hni _]%NoDup_cons by (rewrite Ha; apply NoDup_seq).
      apply Hni, elem_of_app. by right.
    + split; [eapply Hinv'; [done..|]; rewrite <-app_assoc; cbn; apply Permutation_sym, Permutation_middle|].
      rewrite Hp. cbn. by rewrite Permutation_app_comm.
Qed.

(** Making connections. *)
Lemma calm_on_conn (x : C) op s : calm (on_conn (Some x) op) s.
Proof. apply calm_driver. Qed.

Lemma connect_steps_calm {HL : SqlDriverLaws D C} host user password database s :
  calm (connect_steps host user password database) s ∧
  ∀ x s', connect_steps host user password database s = (Ret x, s') -> is_Some x.
Proof.
  split.
  - apply calm_bind; [apply calm_driver|]. intros [x|] s1 _; [|apply calm_ret].
    repeat (apply calm_bind; [apply calm_on_conn|]; intros ? ? _). apply calm_ret.
  - intros x s' Hrun. unfold connect_steps, mbind, prog_bind in Hrun. unfold driver_call at 1 in Hrun.
    destruct (sql_connect host user password (db_driver s)) as [[y|e] d] eqn:Hc; [|done].
    apply connect_some in Hc as [z ->]. unfold on_conn, driver_call in Hrun.
    repeat (match type of Hrun with context [sql ?a ?b ?c] => destruct (sql a b c) as [[?|?] ?] end; [|done]).
    by injection Hrun as <- _.
Qed.

Lemma new_DbConnection_run {HL : SqlDriverLaws D C} host user password database s :
  (∃ e s', new_DbConnection host user password database s = (Throw e, s') ∧ same_db s s') ∨
  (∃ x s', new_DbConnection host user password database s = (Ret (length s.(db_conns)), s') ∧
    db_pool s' = db_pool s ∧ db_conns s' = db_conns s ++ [mkDbConnection (Some x) host user password database]).
Proof.
  destruct (connect_steps_calm host user password database s) as [(o & s1 & Hrun & Ho & Hp & Hc) Hsome].
  unfold new_DbConnection. destruct o as [x|e|w].
  - right. destruct (Hsome x s1 Hrun) as [y ->]. eexists y, _. split.
    + erewrite bind_run by (unfold catch_sql; by rewrite Hrun). rewrite <-Hc. by repeat erewrite bind_run by done.
    + cbn. by rewrite Hp, Hc.
  - left. exists (DbException e), s1. split; [|done]. by erewrite bind_throw by (unfold catch_sql; by rewrite Hrun).
  - by destruct (Ho w).
Qed.

Lemma create_loop_inv {HL : SqlDriverLaws D C} n lent s o s' :
  pool_inv s lent -> create_loop n s = (o, s') -> pool_inv s' lent ∧ ∀ w, o ≠ Halt w.
Proof.
  revert s. induction n as [|n IH]; intros s Hinv Hrun; cbn [create_loop] in Hrun; [by injection Hrun as <- <-|].
  unfold createConnection in Hrun.
  destruct (new_DbConnection_run (pool_host (db_pool s)) (pool_user (db_pool s)) (pool_password (db_pool s)) (pool_database (db_pool s)) s)
    as [(e & s1 & Hnew & Hs1)|(x & s1 & Hnew & Hp & Hc)].
  - erewrite bind_throw in Hrun by by erewrite bind_run by done. injection Hrun as <- <-. split; [by eapply inv_same|done].
  - erewrite bind_run in Hrun by by erewrite bind_run by done. erewrite bind_run in Hrun by done.
    apply (IH (set_pool (push_connection (length (db_conns s)) (db_pool s1)) s1)); [|exact Hrun].
    destruct Hinv as [Ha Hl]. split; cbn; rewrite Hc, ?length_app; cbn.
    + rewrite Hp, Nat.add_1_r, seq_S, <-Ha, <-app_assoc, <-app_assoc. cbn. apply Permutation_app_head.
      apply Permutation_cons_append.
    + intros p Hlt. unfold live. cbn. rewrite Hc. destruct (decide (p < length (db_conns s))) as [Hold|Hnew'].
      * destruct (Hl p Hold) as (c & y & Hcp & Hy). exists c, y. split; [by apply lookup_app_l_Some|done].
      * replace p with (length (db_conns s)) by lia. eexists _, x. by rewrite list_lookup_middle.
Qed.

Lemma pool_init_inv {HL : SqlDriverLaws D C} host user password database n lent s o s' :
  pool_inv s lent -> pool_init host user password database n s = (o, s') -> pool_inv s' lent ∧ ∀ w, o ≠ Halt w.
Proof.
  intros Hinv Hrun. unfold pool_init in Hrun. erewrite bind_run in Hrun by done.
  destruct (initialized_ (db_pool s)); [by injection Hrun as <- <-|].
  erewrite bind_run in Hrun by done. set (s0 := set_pool _ s) in Hrun.
  assert (pool_inv s0 lent) as H0 by by destruct Hinv.
  unfold mbind at 1, prog_bind at 1 in Hrun. destruct (create_loop n s0) as [o1 s1] eqn:Hloop.
  apply (create_loop_inv _ lent) in Hloop as [Hinv1 Ho]; [|done]. destruct o1 as [[]|e|w].
  - injection Hrun as <- <-. split; [by destruct Hinv1|done].
  - injection Hrun as <- <-. by split.
  - by destruct (Ho w).
Qed.

(** A call through the utility, for what is done with the connection. *)
Lemma with_connection_run {A} (f : conn_ptr -> prog std_exception (db_state D C) A) s :
  (∀ p s', live s' p -> calm (f p) s') -> pool_inv s [] -> s.(db_pool).(connections_) ≠ [] ->
  ∃ o s', with_connection f s = (o, s') ∧ (∀ w, o ≠ Halt w) ∧ pool_inv s' [] ∧
    s'.(db_pool).(connections_) ≡ₚ s.(db_pool).(connections_).
Proof.
  intros Hf Hinv Hne. destruct (getConnection s) as [o1 s1] eqn:Hget. pose proof (getConnection_inv s [] o1 s1 Hinv Hget) as [Hinv1 Hres].
  unfold with_connection. destruct o1 as [[p|]|e|w].
  - erewrite bind_run by exact Hget. destruct (Hf p s1) as (o & s2 & Hrun & Ho & Hp2 & Hc2).
    { eapply inv_in; [done|]. apply elem_of_app. right. by left. }
    assert (pool_inv s2 [p]) as Hinv2 by (eapply inv_same; [done|by split]).
    set (s3 := set_pool (push_connection p s2.(db_pool)) s2). apply inv_push in Hinv2.
    assert (s3.(db_pool).(connections_) ≡ₚ s.(db_pool).(connections_)) as Hperm.
    { cbn. pose proof (getConnection_run s [] Hinv) as H. rewrite Hp2.
      destruct (connections_ (db_pool s)) as [|p' l]; [done|].
      destruct H as [(s1' & Hg & Hp1 & _)|(e & s1' & Hg & _)]; rewrite Hget in Hg; [|done]. injection Hg as -> ->.
      rewrite Hp1. cbn. apply Permutation_sym, Permutation_cons_append. }
    destruct o as [a|e|w].
    + exists (Ret a), s3. split; [|done]. erewrite bind_run by by apply catch_ret. done.
    + exists (Throw e), s3. split; [|done]. by erewrite bind_throw by (by erewrite catch_throw by exact Hrun).
    + by destruct (Ho w).
  - by destruct Hres.
  - exists (Throw e), s1. split; [by erewrite bind_throw by exact Hget|done].
  - done.
Qed.

End facts.

(** ** The theorem *)

Section theorems.
Context {D C : Type} {HD : SqlDriver D C} {HL : SqlDriverLaws D C}.
Implicit Types (s : db_state D C) (p : conn_ptr) (lent : list conn_ptr).

(** Steps of the threads, with the connections that are lent: a thread inits
    the pool, gets a connection, uses it, gives it back, or checks a connection
    that is in the queue or was; the driver goes on by itself. *)
Inductive pool_step : db_state D C * list conn_ptr -> db_state D C * list conn_ptr -> Prop :=
| step_init host user password database n s lent o s' :
    pool_init host user password database n s = (o, s') -> pool_step (s, lent) (s', lent)
| step_get p s lent s' : getConnection s = (Ret (Some p), s') -> pool_step (s, lent) (s', p :: lent)
| step_get_fails e s lent s' : getConnection s = (Throw e, s') -> pool_step (s, lent) (s', lent)
| step_query p text args s lent o s' : p ∈ lent ->
    conn_executeQuery p text args s = (o, s') -> pool_step (s, lent) (s', lent)
| step_update p text args s lent o s' : p ∈ lent ->
    conn_executeUpdate p text args s = (o, s') -> pool_step (s, lent) (s', lent)
| step_give_back p s lent lent' s' : lent ≡ₚ p :: lent' ->
    give_back_connection p s = (Ret tt, s') -> pool_step (s, lent) (s', lent')
| step_check p s lent o s' : p < length s.(db_conns) ->
    check_connection p s = (o, s') -> pool_step (s, lent) (s', lent)
| step_driver d s lent : pool_step (s, lent) (set_driver d s, lent).

Lemma pool_step_inv x y : pool_step x y -> pool_inv x.1 x.2 -> pool_inv y.1 y.2.
Proof.
  assert (∀ s lent A (o : outcome std_exception A) s' (m : prog std_exception (db_state D C) A), calm m s -> m s = (o, s') -> pool_inv s lent -> pool_inv s' lent) as Hcalm.
  { intros s lent A o s' m (o1 & s1 & Hm & _ & Hs) Hrun Hinv. rewrite Hrun in Hm. injection Hm as -> ->. by eapply inv_same. }
  intros Hstep Hinv. destruct Hstep as [h u pw db n s lent o s' Hrun|p s lent s' Hrun|e s lent s' Hrun|p text args s lent o s' Hin Hrun|
    p text args s lent o s' Hin Hrun|p s lent lent' s' Hperm Hrun|p s lent o s' Hlt Hrun|d s lent]; cbn in *.
  - by eapply pool_init_inv in Hrun as [? _].
  - by apply (getConnection_inv s lent _ _ Hinv) in Hrun as [? _].
  - by apply (getConnection_inv s lent _ _ Hinv) in Hrun as [? _].
  - eapply Hcalm; [|exact Hrun|done]. apply conn_executeQuery_calm. eapply inv_in; [done|]. apply elem_of_app. by right.
  - eapply Hcalm; [|exact Hrun|done]. apply conn_executeUpdate_calm. eapply inv_in; [done|]. apply elem_of_app. by right.
  - injection Hrun as <-. apply inv_push. destruct Hinv as [Ha Hl]. split; [by rewrite <-Hperm|done].
  - destruct (check_connection_calm s p) as (s1 & Hc & Hs1); [by apply Hinv|]. rewrite Hrun in Hc. injection Hc as -> ->. by eapply inv_same.
  - by destruct Hinv.
Qed.

(** C39. Whatever the threads do, and however the driver fails, the pool loses
    no connection and lends none twice: the connections in the queue and the
    ones that are lent are the ones that were made, each once. [getConnection]
    lends one that nobody has, or puts the one it could not reconnect back
    before it throws, or, when there is none, waits (or throws before [init]);
    it never goes through a null pointer. While nothing is lent, a query of
    [MySqlUtil] never waits and gives the connection back however it ends. *)
Theorem db_pool_reachable_ok d s lent :
  rtc pool_step (mkDbState new_DbConnectionPool [] d, []) (s, lent) ->
  NoDup (s.(db_pool).(connections_) ++ lent) ∧
  (∀ p, p ∈ s.(db_pool).(connections_) ++ lent <-> p < length s.(db_conns)) ∧
  (∀ o s', getConnection s = (o, s') ->
    match o with
    | Ret (Some p) => p ∉ lent
    | Ret None => s.(db_pool).(connections_) = [] ∧ s.(db_pool).(initialized_) = true ∧ s' = s
    | Throw _ => s'.(db_pool).(connections_) ≡ₚ s.(db_pool).(connections_)
    | Halt _ => False
    end) ∧
  (lent = [] -> s.(db_pool).(connections_) ≠ [] -> ∀ text args, ∃ o s', util_executeQuery text args s = (o, s') ∧
    (∀ w, o ≠ Halt w) ∧ s'.(db_pool).(connections_) ≡ₚ s.(db_pool).(connections_)).
Proof.
  intros Hsteps. assert (∀ x y, rtc pool_step x y -> pool_inv x.1 x.2 -> pool_inv y.1 y.2) as Hrtc.
  { intros x y Hxy. induction Hxy; [done|]. intros Hinv. by eapply IHHxy, pool_step_inv. }
  assert (pool_inv s lent) as Hinv.
  { apply (Hrtc _ _ Hsteps). split; [done|]. cbn. lia. }
  pose proof Hinv as [Ha Hl]. split_and!.
  - rewrite Ha. apply NoDup_seq.
  - intros p. rewrite Ha, elem_of_seq. lia.
  - intros o s' Hrun. by apply (getConnection_inv s lent o s' Hinv Hrun).
  - intros -> Hne text args. destruct (with_connection_run (λ p, conn_executeQuery p text args) s) as (o & s' & ? & ? & _ & ?); try done.
    + intros p s' Hlive. by apply conn_executeQuery_calm.
    + by exists o, s'.
Qed.

End theorems.

(** ** A concrete driver *)

(** It numbers its connections, and answers queries with one row; every 64th
    operation fails. *)
Definition sample_sql (op : sql_op) (d : nat) : (sql_answer + string) * nat :=
  (if bool_decide (d `mod` 64 = 63) then inr "gone"%string
   else inl (match op with ExecuteQuery _ _ => Rows [∅] | ExecuteUpdate _ _ => Count 1 | _ => Done end), S d).
#[export] Instance sample_driver : SqlDriver nat nat := {|
  sql_connect _ _ _ d := (inl (Some d), d);
  sql _ op d := sample_sql op d;
  more_results _ _ := 0;
  row_int _ _ := inr "no such column"%string
|}.
#[export] Instance sample_driver_laws : SqlDriverLaws nat nat.
Proof. split; [|done]. intros host user password d x d' [= <- <-]. by eexists. Defined.

(** A pool of one connection, and the thread that has it. *)
Definition sample_db : db_state nat nat :=
  (pool_init (lit "h") (lit "u") (lit "p") (lit "d") 1 (mkDbState new_DbConnectionPool [] 0)).2.
Definition sample_lent : db_state nat nat := (getConnection (set_driver 62 sample_db)).2.

Lemma db_pool_reachable_ok_witness :
  NoDup (connections_ (db_pool sample_lent) ++ [0]) ∧
  (∃ o s', util_executeQuery (lit "SELECT 1") [] sample_db = (o, s') ∧
    connections_ (db_pool s') ≡ₚ connections_ (db_pool sample_db)).
Proof.
  assert (pool_step (mkDbState (D := nat) (C := nat) new_DbConnectionPool [] 0, []) (sample_db, [])) as Hinit.
  { eapply (step_init (lit "h") (lit "u") (lit "p") (lit "d") 1). apply surjective_pairing. }
  split.
  - destruct (db_pool_reachable_ok 0 sample_lent [0]) as [Hnd _]; [|exact Hnd].
    eapply rtc_l; [exact Hinit|]. eapply rtc_l; [apply (step_driver 62)|]. apply rtc_once.
    apply (step_get 0). vm_compute. reflexivity.
  - destruct (db_pool_reachable_ok 0 sample_db []) as (_ & _ & _ & Hq); [by apply rtc_once|].
    destruct (Hq eq_refl) with (text := lit "SELECT 1") (args := @nil param) as (o & s' & Hrun & _ & Hperm);
      [vm_compute; discriminate|]. exists o, s'. exact (conj Hrun Hperm).
Defined.
