(* ===== verification/Gomoku.v ===== *)
(** * The Gomoku server

    [WebAPP/Gomoku/include/GomokuServer.h], [src/GomokuServer.cpp], the
    handlers of [src/handlers/], and [HTTP/include/utils/FileUtils.h]. The state
    is the server's maps with the sessions, the database and the file system. A
    [shared_ptr<AiGame>] is held by the map only. The JSON library and the
    database are interfaces. A handler is one step. *)

From S2P Require Export Session HttpServer AiGame DbPool.

(** ** JSON *)

(** The values the code builds. *)
Inductive json_value :=
| JString (s : bytes)
| JInt (n : Z)
| JBool (b : bool)
| JArray (l : list json_value)
| JObject (l : list (bytes * json_value)).

(** [nlohmann::json]: parsing, the conversions of [j[key]] to [std::string] and
    [int], and [dump] with an indent, -1 meaning none; each may throw, with a
    text. *)
Class Json (J : Type) := {
  json_parse : bytes -> J + string;
  member_string : J -> bytes -> bytes + string;
  member_int : J -> bytes -> Z + string;
  dump : Z -> json_value -> bytes + string
}.

(** ** Files *)

(** The content of the files that can be opened. *)
Abbreviation files := (bytes -> option bytes).

(** [FileUtil]: what is open, if anything. *)
Definition FileUtil : Type := option bytes.
Definition open_file (fs : files) (path : bytes) : FileUtil := fs path.
Definition isValid (f : FileUtil) : bool := bool_decide (is_Some f).
Definition resetDefaultFile (fs : files) (_ : FileUtil) : FileUtil :=
  open_file fs (lit "/Gomoku/GomokuServer/resource/NotFound.html").
(** [tellg] answers -1 on a stream that is not open. *)
Definition file_size (f : FileUtil) : Z :=
  match f with Some content => Z.of_nat (length content) | None => u64_max end.
(** [std::vector<char> buffer(fileUtils.size()); fileUtils.readFile(buffer);]
    as a string; a vector has at most [PTRDIFF_MAX] elements. *)
Definition readFile (f : FileUtil) : bytes + string :=
  if bool_decide (file_size f <= 2 ^ 63 - 1)%Z then inl (default [] f)
  else inr "cannot create std::vector larger than max_size()"%string.

(** The file a handler serves: the one it names, or the default one. *)
Definition served_file (fs : files) (path : bytes) : FileUtil :=
  let f := open_file fs path in
  if isValid f then f else resetDefaultFile fs f.

Definition resource (name : string) : bytes :=
  lit "/home/yebidang/workplace/HttpServer/WebAPP/Gomoku/resource/" ++ lit name.

(** ** The server *)

(** [rands] are the answers of the random engine of the computer player. *)
Record GomokuServer (D : Type) := mkGomokuServer {
  sessions_of : World MemorySessionStorage;
  game_map_ : gmap Z AiGame;
  online_users : gmap Z bool;
  maxOnline_ : Z;
  mysql_ : D;
  file_system : files;
  rands : nat -> nat;
  rands_used : nat
}.
Arguments mkGomokuServer {D}.
Arguments sessions_of {D}.
Arguments game_map_ {D}.
Arguments online_users {D}.
Arguments maxOnline_ {D}.
Arguments mysql_ {D}.
Arguments file_system {D}.
Arguments rands {D}.
Arguments rands_used {D}.

(** [GameType]. *)
Definition MAN_VS_AI : Z := 1.
Definition MAN_VS_MAN : Z := 2.

Section gomoku.
Context {D J : Type} {HDb : Database D} {HJ : Json J} {HS : StdSort pos}.
Implicit Types (w : GomokuServer D) (req : HttpRequest).

Abbreviation handler_prog A := (prog thrown (GomokuServer D * HttpResponse) A).

Definition set_sessions (x : World MemorySessionStorage) w : GomokuServer D :=
  mkGomokuServer x w.(game_map_) w.(online_users) w.(maxOnline_) w.(mysql_) w.(file_system) w.(rands) w.(rands_used).
Definition set_games (x : gmap Z AiGame) w : GomokuServer D :=
  mkGomokuServer w.(sessions_of) x w.(online_users) w.(maxOnline_) w.(mysql_) w.(file_system) w.(rands) w.(rands_used).
Definition set_online (x : gmap Z bool) w : GomokuServer D :=
  mkGomokuServer w.(sessions_of) w.(game_map_) x w.(maxOnline_) w.(mysql_) w.(file_system) w.(rands) w.(rands_used).
Definition set_maxOnline (x : Z) w : GomokuServer D :=
  mkGomokuServer w.(sessions_of) w.(game_map_) w.(online_users) x w.(mysql_) w.(file_system) w.(rands) w.(rands_used).
Definition set_mysql (x : D) w : GomokuServer D :=
  mkGomokuServer w.(sessions_of) w.(game_map_) w.(online_users) w.(maxOnline_) x w.(file_system) w.(rands) w.(rands_used).
Definition use_rand w : GomokuServer D :=
  mkGomokuServer w.(sessions_of) w.(game_map_) w.(online_users) w.(maxOnline_) w.(mysql_) w.(file_system) w.(rands) (w.(rands_used) + 1).

(** ** Parts of the state *)

Definition on_resp (f : HttpResponse -> HttpResponse) : handler_prog unit := modify (λ '(w, r), (w, f r)).
Definition on_server (f : GomokuServer D -> GomokuServer D) : handler_prog unit := modify (λ '(w, r), (f w, r)).

(** A call that may throw a standard exception. *)
Definition std_prog {S A} (view : GomokuServer D -> S) (put_back : S -> GomokuServer D -> GomokuServer D)
    (m : prog std_exception S A) : handler_prog A := λ '(w, r),
  match m (view w) with
  | (Ret a, s) => (Ret a, (put_back s w, r))
  | (Throw e, s) => (Throw (ThrownStd e), (put_back s w, r))
  | (Halt x, s) => (Halt x, (put_back s w, r))
  end.
Definition on_sessions {A} : session_prog MemorySessionStorage A -> handler_prog A := std_prog sessions_of set_sessions.
Definition on_mysql {A} : prog std_exception D A -> handler_prog A := std_prog mysql_ set_mysql.

(** A call of a library that answers or throws, with its text. *)
Definition lib {A} (x : A + string) : handler_prog A :=
  match x with inl a => mret a | inr e => throw (ThrownStd (OtherException e)) end.
Definition outcome_of {A} (o : outcome std_exception A) : handler_prog A :=
  match o with Ret a => mret a | Throw e => throw (ThrownStd e) | Halt x => halt x end.

(** [try { m } catch (const std::exception& e) { h(e) }]. *)
Definition try_std {A} (m : handler_prog A) (h : std_exception -> handler_prog A) : handler_prog A :=
  catch m (λ e, match e with ThrownStd e => h e | ThrownResponse r => throw (ThrownResponse r) end).

(** [getSessionManager()->getSession(req, resp)]. *)
Definition get_session req : handler_prog session_ptr := λ '(w, r),
  match getSession req r w.(sessions_of) with
  | (Ret (p, r'), s) => (Ret p, (set_sessions s w, r'))
  | (Throw e, s) => (Throw (ThrownStd e), (set_sessions s w, r))
  | (Halt x, s) => (Halt x, (set_sessions s w, r))
  end.

(** [json["status"] = ...; json["message"] = ...;] *)
Definition status_message (status message : bytes) : json_value :=
  JObject [(lit "status", JString status); (lit "message", JString message)].

(** [setStatusLine], [setCloseConnection], [setContentType], [setContentLength]
    and [setBody], the sequence the handlers end with. *)
Definition reply req (code : HttpStatusCode) (message : bytes) (close : bool) (contentType body : bytes) : handler_prog unit :=
  on_resp (λ r, Response.setBody body (Response.setContentLength (Z.of_nat (length body))
    (Response.setContentType contentType (Response.setCloseConnection close
      (Response.setStatusLine code message req.(version_) r))))).

(** ** [packageResp] *)

Definition packageResp (version : bytes) (statusCode : HttpStatusCode) (statusMessage : bytes) (close : bool)
    (body contentType : bytes) (contentlength : Z) : handler_prog unit :=
  on_resp (λ r, Response.setCloseConnection close (Response.setStatusMessage statusMessage
    (Response.setContentLength (wrap_u64 contentlength) (Response.setBody body (Response.setStatusCode statusCode
      (Response.setContentType contentType (Response.setStatusLine statusCode statusMessage version r))))))).

(** The length of a string as an [int]. *)
Definition int_length (b : bytes) : Z := wrap_i32 (Z.of_nat (length b)).

(** ** Games *)

(** [game_map_[userId] = std::make_shared<AiGame>(userId)], after an [erase]. *)
Definition start_game (userId : Z) : handler_prog unit :=
  on_server (λ w, set_games (<[userId := new_AiGame userId]> (delete userId w.(game_map_))) w).

(** A program on the game of [userId]. *)
Definition on_game {A} (userId : Z) (m : nat -> prog std_exception AiGame A) : handler_prog A := λ '(w, r),
  match w.(game_map_) !! userId with
  | None => (Halt UndefinedBehaviour, (w, r))
  | Some g =>
      match m (w.(rands) w.(rands_used)) g with
      | (Ret a, g) => (Ret a, (set_games (<[userId := g]> w.(game_map_)) w, r))
      | (Throw e, g) => (Throw (ThrownStd e), (set_games (<[userId := g]> w.(game_map_)) w, r))
      | (Halt x, g) => (Halt x, (set_games (<[userId := g]> w.(game_map_)) w, r))
      end
  end.
Definition read_game (userId : Z) : handler_prog AiGame := on_game userId (λ _, get).

(** [getBoard()], in JSON. *)
Definition cell_text (c : cell) : bytes :=
  match c with EMPTY => lit " " | AI_PLAYER => lit "white" | HUMAN_PLAYER => lit "black" end.
Definition board_json (b : board) : json_value :=
  JArray (map (λ r, JArray (map (λ c, JString (cell_text c)) r)) b).

(** The end of a turn of the game: the board, who won, whose turn it is, and
    after the computer's move that move. *)
Definition turn_json (g : AiGame) (winner next_turn : bytes) (with_move : bool) : json_value :=
  JObject ([(lit "status", JString (lit "ok")); (lit "board", board_json g.(board_));
            (lit "winner", JString winner); (lit "next_turn", JString next_turn)] ++
    (if with_move then [(lit "last_move", JObject [(lit "x", JInt g.(lastMove_).1); (lit "y", JInt g.(lastMove_).2)])]
     else [])).

(** ** The handlers *)

(** Not logged in, in the handlers that get the arguments of [packageResp]
    right, and in those that do not. *)
Definition unauthorized_start req : handler_prog unit :=
  errorRespStr ← lib (dump 4 (status_message (lit "error") (lit "Unauthorized")));
  packageResp req.(version_) k400BadRequest (lit "Unauthorized") true errorRespStr (lit "application/json")
    (int_length errorRespStr).
Definition unauthorized_swapped req : handler_prog unit :=
  errorBody ← lib (dump 4 (status_message (lit "error") (lit "Unauthorized")));
  packageResp req.(version_) k401Unauthorized (lit "Unauthorized") true (lit "application/json") errorBody
    (int_length errorBody).

Definition EntryHandler req : handler_prog unit :=
  '(w, _) ← get;
  let f := served_file w.(file_system) (resource "entry.html") in
  if bool_decide (file_size f = 0)%Z || bool_decide (int_max < file_size f)%Z then
    on_resp (λ r, Response.setCloseConnection true (Response.setStatusMessage (lit "Invalid File Size")
      (Response.setStatusCode k500InternalServerError r)))
  else
    htmlContent ← lib (readFile f);
    packageResp req.(version_) k200Ok (lit "OK") false (lit "text/html") htmlContent (int_length htmlContent).

Definition MenuHandler req : handler_prog unit :=
  '(w, _) ← get;
  buf ← lib (readFile (served_file w.(file_system) (resource "menu.html")));
  on_resp (λ r, Response.setCloseConnection false (Response.setContentLength (Z.of_nat (length buf))
    (Response.setBody buf (Response.setContentType (lit "text/html")
      (Response.setStatusLine k200Ok (lit "OK") req.(version_) r))))).

Definition GameBackendHandler req : handler_prog unit :=
  '(w, _) ← get;
  buf ← lib (readFile (served_file w.(file_system) (resource "Backend.html")));
  on_resp (λ r, Response.setCloseConnection false (Response.setBody buf (Response.setContentLength (Z.of_nat (length buf))
    (Response.setContentType (lit "text/html") (Response.setStatusLine k200Ok (lit "OK") req.(version_) r))))).

(** The text of the query is put together from its parts. *)
Definition login_sql (username password : bytes) : bytes :=
  lit "SELECT * FROM users WHERE username = '" ++ username ++ lit "' AND password = '" ++ password ++ lit "'".
Definition queryUser (username password : bytes) : handler_prog Z :=
  res ← on_mysql (executeQuery (login_sql username password));
  match res with
  | row :: _ => lib (getInt row (lit "id"))
  | [] => mret (-1)%Z
  end.

Definition updateMaxOnline (online : Z) w : GomokuServer D := set_maxOnline (Z.max w.(maxOnline_) online) w.
(** [online_users.size()], as an [int]. *)
Definition getCurrentOnline w : Z := wrap_i32 (Z.of_nat (size w.(online_users))).

(** The content type is JSON, and there is a body. *)
Definition json_request req : bool :=
  negb (bool_decide (getHeader (lit "Content-Type") req = [])) &&
  bool_decide (getHeader (lit "Content-Type") req = lit "application/json") &&
  negb (bool_decide (req.(content_) = [])).
Definition no_json req : handler_prog unit := reply req k400BadRequest (lit "Bad Request") true (lit "application/json") [].

Definition is_online (userId : Z) w : bool := default false (w.(online_users) !! userId).

(** The user is known: the session is marked, and then the user is let in, or
    refused as already online. *)
Definition login_known req (userId : Z) (username : bytes) : handler_prog unit :=
  session ← get_session req;
  on_sessions (setValue session (lit "userId") (to_string userId));;
  on_sessions (setValue session (lit "username") username);;
  on_sessions (setValue session (lit "isLoggedIn") (lit "true"));;
  '(w, _) ← get;
  if negb (is_online userId w) then
    on_server (λ w, set_online (<[userId := true]> w.(online_users)) w);;
    on_server (λ w, updateMaxOnline (getCurrentOnline w) w);;
    successBody ← lib (dump 4 (JObject [(lit "success", JBool true); (lit "userId", JInt userId)]));
    reply req k200Ok (lit "OK") false (lit "application/json") successBody
  else
    failureBody ← lib (dump 4 (JObject [(lit "success", JBool false); (lit "error", JString (lit "账号已在其他地方登录"))]));
    reply req k403Forbidden (lit "Forbidden") true (lit "application/json") failureBody.

Definition LoginHandler req : handler_prog unit :=
  if negb (json_request req) then no_json req
  else
    try_std
      (parsed ← lib (json_parse (J := J) req.(content_));
       username ← lib (member_string parsed (lit "username"));
       password ← lib (member_string parsed (lit "password"));
       userId ← queryUser username password;
       if bool_decide (userId ≠ -1)%Z then login_known req userId username
       else
         failureBody ← lib (dump 4 (status_message (lit "error") (lit "Invalid username or password")));
         reply req k401Unauthorized (lit "Unauthorized") false (lit "application/json") failureBody)
      (λ e,
       failureBody ← lib (dump 4 (status_message (lit "error") (lit (what e))));
       reply req k400BadRequest (lit "Bad Request") true (lit "application/json") failureBody).

Definition LogoutHandler req : handler_prog unit :=
  if negb (json_request req) then no_json req
  else
    try_std
      (session ← get_session req;
       v ← on_sessions (getValue session (lit "userId"));
       userId ← outcome_of (stoi v);
       on_sessions (clear session);;
       s ← on_sessions (deref session);
       on_sessions (destroySession s.(sessionId_));;
       parsed ← lib (json_parse (J := J) req.(content_));
       gameType ← lib (member_int parsed (lit "gameType"));
       on_server (λ w, set_online (delete userId w.(online_users)) w);;
       (if bool_decide (gameType = MAN_VS_AI) then on_server (λ w, set_games (delete userId w.(game_map_)) w) else mret tt);;
       responseBody ← lib (dump 4 (JObject [(lit "message", JString (lit "Logout successful"))]));
       reply req k200Ok (lit "OK") true (lit "application/json") responseBody)
      (λ e,
       responseBody ← lib (dump 4 (status_message (lit "error") (lit (what e))));
       reply req k500InternalServerError (lit "Internal Server Error") true (lit "application/json") responseBody).

Definition isUserExit (username : bytes) : handler_prog bool :=
  res ← on_mysql (executeQuery (lit "SELECT * FROM users WHERE username = '" ++ username ++ lit "'"));
  mret (bool_decide (res ≠ [])).
Definition insertUser (username password : bytes) : handler_prog Z :=
  exists_ ← isUserExit username;
  if negb exists_ then
    on_mysql (executeUpdate (lit "INSERT INTO users (username, password) VALUES ('" ++ username ++ lit "', '" ++ password ++ lit "')"));;
    res ← on_mysql (executeQuery (lit "SELECT id FROM users WHERE username = '" ++ username ++ lit "'"));
    match res with
    | row :: _ => lib (getInt row (lit "id"))
    | [] => mret (-1)%Z
    end
  else mret (-1)%Z.

Definition RegisterHandler req : handler_prog unit :=
  parsed ← lib (json_parse (J := J) req.(content_));
  username ← lib (member_string parsed (lit "username"));
  password ← lib (member_string parsed (lit "password"));
  userId ← insertUser username password;
  if bool_decide (userId = -1)%Z then
    errorBody ← lib (dump 4 (status_message (lit "error") (lit "username already exists")));
    packageResp req.(version_) k409Conflict (lit "Confilct") false (lit "application/json") errorBody (int_length errorBody)
  else
    successBody ← lib (dump 4 (JObject [(lit "status", JString (lit "success"));
      (lit "message", JString (lit "register success")); (lit "userId", JInt userId)]));
    packageResp req.(version_) k200Ok (lit "OK") false (lit "application/json") successBody (int_length successBody).

(** [session->getValue("isLoggedIn") != "true"], and the user's id. *)
Definition logged_in (session : session_ptr) : handler_prog bool :=
  v ← on_sessions (getValue session (lit "isLoggedIn"));
  mret (bool_decide (v = lit "true")).
Definition session_user (session : session_ptr) : handler_prog Z :=
  v ← on_sessions (getValue session (lit "userId"));
  outcome_of (stoi v).

Definition AiGameStartHandler req : handler_prog unit :=
  session ← get_session req;
  ok ← logged_in session;
  if negb ok then unauthorized_start req
  else
    userId ← session_user session;
    start_game userId;;
    '(w, _) ← get;
    htmlContent ← lib (readFile (served_file w.(file_system) (resource "ChessGameVsAi.html")));
    reply req k200Ok (lit "OK") false (lit "text/html") htmlContent.

(** ** A move *)

(** The answer that ends a game; the game is then forgotten. *)
Definition finish_turn req (userId : Z) (winner : bytes) (with_move : bool) : handler_prog unit :=
  g ← read_game userId;
  respBodyStr ← lib (dump (-1) (turn_json g winner (lit "none") with_move));
  reply req k200Ok (lit "OK") false (lit "application/json") respBodyStr;;
  on_server (λ w, set_games (delete userId w.(game_map_)) w).

(** After the computer's move. *)
Definition after_ai req (userId : Z) : handler_prog unit :=
  g ← read_game userId;
  if isGameOver g then finish_turn req userId g.(winner_) true
  else if isDraw g then finish_turn req userId (lit "draw") true
  else
    respBodyStr ← lib (dump (-1) (turn_json g (lit "none") (lit "human") true));
    reply req k200Ok (lit "OK") false (lit "application/json") respBodyStr.

(** After the user's move, and the computer's turn. *)
Definition after_human req (userId : Z) : handler_prog unit :=
  g ← read_game userId;
  if isGameOver g then finish_turn req userId g.(winner_) false
  else if isDraw g then finish_turn req userId (lit "draw") false
  else on_game userId aiMove;; on_server use_rand;; after_ai req userId.

Definition make_move req (userId x y : Z) : handler_prog unit :=
  '(w, _) ← get;
  (if bool_decide (w.(game_map_) !! userId = None)
   then on_server (λ w, set_games (<[userId := new_AiGame userId]> w.(game_map_)) w) else mret tt);;
  moved ← on_game userId (λ _, humanMove x y);
  if negb moved then
    errorBody ← lib (dump (-1) (status_message (lit "error") (lit "Invalid move")));
    reply req k400BadRequest (lit "Bad Request") false (lit "application/json") errorBody
  else after_human req userId.

Definition AiMoveHandler req : handler_prog unit :=
  try_std
    (session ← get_session req;
     ok ← logged_in session;
     if negb ok then unauthorized_swapped req
     else
       userId ← session_user session;
       request ← lib (json_parse (J := J) req.(content_));
       x ← lib (member_int request (lit "x"));
       y ← lib (member_int request (lit "y"));
       make_move req userId x y)
    (λ e,
     errorBody ← lib (dump (-1) (status_message (lit "error") (lit (what e))));
     packageResp req.(version_) k500InternalServerError (lit "Internal Server Error") false (lit "application/json")
       errorBody (int_length errorBody)).

Definition restartChessGameVsAi req : handler_prog unit :=
  session ← get_session req;
  ok ← logged_in session;
  if negb ok then unauthorized_swapped req
  else
    userId ← session_user session;
    start_game userId;;
    successBody ← lib (dump 4 (status_message (lit "ok") (lit "Restarted chess game vs AI")));
    packageResp req.(version_) k200Ok (lit "OK") true (lit "application/json") successBody (int_length successBody).

Definition getUserTotal : handler_prog Z :=
  res ← on_mysql (executeQuery (lit "SELECT COUNT(*) as count FROM users"));
  match res with
  | row :: _ => lib (getInt row (lit "count"))
  | [] => mret 0%Z
  end.

Definition getBackendData req : handler_prog unit :=
  try_std
    ('(w, _) ← get;
     totalUsers ← getUserTotal;
     respBodyStr ← lib (dump 4 (JObject [(lit "currentOnline", JInt (getCurrentOnline w));
       (lit "maxOnline", JInt w.(maxOnline_)); (lit "totalUsers", JInt totalUsers)]));
     on_resp (λ r, Response.setCloseConnection false (Response.setContentLength (Z.of_nat (length respBodyStr))
       (Response.setBody respBodyStr (Response.setContentType (lit "application/json")
         (Response.setStatusLine k200Ok (lit "OK") req.(version_) r))))))
    (λ e,
     errorBodyStr ← lib (dump 4 (JObject [(lit "error", JString (lit "Internal Server Error")); (lit "message", JString (lit (what e)))]));
     on_resp (λ r, Response.setCloseConnection true (Response.setContentLength (Z.of_nat (length errorBodyStr))
       (Response.setBody errorBodyStr (Response.setContentType (lit "application/json")
         (Response.setStatusLine k500InternalServerError (lit "Internal Server Error") req.(version_) r)))))).

(** ** Initialisation *)

Definition initializeRouter {CTX} (s : Server.HttpServer (GomokuServer D) CTX) : Server.HttpServer (GomokuServer D) CTX :=
  Server.Get (lit "/backend_data") getBackendData
  (Server.GetHandler (lit "/backend") GameBackendHandler
  (Server.Get (lit "/aiBot/restart") restartChessGameVsAi
  (Server.PostHandler (lit "/aiBot/move") AiMoveHandler
  (Server.GetHandler (lit "/aiBot/start") AiGameStartHandler
  (Server.GetHandler (lit "/menu") MenuHandler
  (Server.PostHandler (lit "/user/logout") LogoutHandler
  (Server.PostHandler (lit "/register") RegisterHandler
  (Server.PostHandler (lit "/login") LoginHandler
  (Server.GetHandler (lit "/entry") EntryHandler
  (Server.GetHandler (lit "/") EntryHandler s)))))))))).

Definition initializeMiddleware {CTX} (s : Server.HttpServer (GomokuServer D) CTX) : Server.HttpServer (GomokuServer D) CTX :=
  Server.add_middleware (Some (CorsMiddleware defaultConfig)) s.

(** [server_]: the constructor takes the option of the port for [useSsl]. *)
Definition server_ (CTX : Type) (option : bool) : Server.HttpServer (GomokuServer D) CTX :=
  initializeMiddleware (initializeRouter (Server.new_HttpServer option)).

(** The server when it has been made, over a database, a clock, a source of
    session ids, the files and the random numbers of the player. *)
Definition new_GomokuServer (db : D) (clock : nat -> Z) (ids : nat -> fin 16) (fs : files) (rnd : nat -> nat) : GomokuServer D :=
  mkGomokuServer (mkWorld [] ∅ clock 0 ids 0) ∅ ∅ 0 db fs rnd 0.

End gomoku.
