(* ===== verification/GomokuFacts.v ===== *)
(** * Facts on the Gomoku server

    Every request is answered and keeps the server's invariant; the games a
    request can touch; a login; a move. *)

From S2P Require Export Gomoku HttpServerFacts AiGameFacts DbPoolFacts.

(** ** What a handler leaves

    From [w] a handler never halts; what it returns meets [Q] with the state it
    leaves, and the state in which it throws meets [I]. *)
Section safe.
Context {W R : Type}.
Implicit Types (I : W -> Prop) (w : W) (r : R).

Definition safe {A} I (m : prog thrown (W * R) A) w r (Q : A -> W -> Prop) : Prop :=
  match m (w, r) with
  | (Ret a, (w', _)) => Q a w'
  | (Throw _, (w', _)) => I w'
  | (Halt _, _) => False
  end.

Lemma safe_ret {A} I (a : A) w r (Q : A -> W -> Prop) : Q a w -> safe I (mret a) w r Q.
Proof. done. Qed.

Lemma safe_bind {A B} I (m : prog thrown (W * R) A) (f : A -> prog thrown (W * R) B) w r Q :
  safe I m w r (λ a w', ∀ r', safe I (f a) w' r' Q) -> safe I (m ≫= f) w r Q.
Proof. unfold safe, mbind, prog_bind. destruct (m (w, r)) as [[] [w' r']]; [intros H; apply (H r')|done..]. Qed.

Lemma safe_mono {A} I (m : prog thrown (W * R) A) w r (Q Q' : A -> W -> Prop) :
  safe I m w r Q -> (∀ a w', Q a w' -> Q' a w') -> safe I m w r Q'.
Proof. unfold safe. destruct (m (w, r)) as [[] [w' r']]; auto. Qed.

Lemma safe_catch {A} I (m : prog thrown (W * R) A) h w r Q :
  safe I m w r Q -> (∀ e w' r', I w' -> safe I (h e) w' r' Q) -> safe I (catch m h) w r Q.
Proof. unfold safe, catch. destruct (m (w, r)) as [[] [w' r']]; [done|intros HI Hh; by apply Hh|done]. Qed.

Lemma safe_throw {A} I e w r (Q : A -> W -> Prop) : I w -> safe I (throw e) w r Q.
Proof. done. Qed.

Lemma safe_get I w r (Q : W * R -> W -> Prop) : Q (w, r) w -> safe I get w r Q.
Proof. done. Qed.

Lemma safe_run {A} I (m : prog thrown (W * R) A) w r a w' r' (Q : A -> W -> Prop) :
  m (w, r) = (Ret a, (w', r')) -> Q a w' -> safe I m w r Q.
Proof. unfold safe. by intros ->. Qed.

End safe.

(** ** The invariant *)

(** What the server relies on of its database: a call returns or throws, in
    what [db_ok] describes, and [getInt] answers an [int]. *)
Class DatabaseLaws (D : Type) {HDb : Database D} := {
  db_ok : D -> Prop;
  query_ok text d o d' : db_ok d -> executeQuery text d = (o, d') -> db_ok d' ∧ ∀ x, o ≠ Halt x;
  update_ok text d o d' : db_ok d -> executeUpdate text d = (o, d') -> db_ok d' ∧ ∀ x, o ≠ Halt x;
  getInt_int (x : row) col n : getInt x col = inl n -> (int_min <= n <= int_max)%Z
}.

(** A session that is marked as logged in names its user. *)
Definition session_ok (s : Session) : Prop :=
  s.(data_) !! lit "isLoggedIn" = Some (lit "true") ->
  ∃ id, (int_min <= id <= int_max)%Z ∧ s.(data_) !! lit "userId" = Some (to_string id).

Implicit Types (x : World MemorySessionStorage) (p : session_ptr) (s : Session).

Definition sessions_ok x : Prop := storage_ok x ∧ ∀ p s, x.(heap) !! p = Some s -> session_ok s.

(** A pointer a handler has: to a managed session, stored under its id. *)
Definition session_at p s x : Prop :=
  x.(heap) !! p = Some s ∧ s.(sessionManager_) = true ∧ x.(storage_) !! s.(sessionId_) = Some p.

Section sessions.

Definition with_data (data : gmap bytes bytes) s : Session :=
  mkSession s.(sessionId_) data s.(expiryTime_) s.(maxAge_) s.(sessionManager_).
Definition store_data p (data : gmap bytes bytes) s x : World MemorySessionStorage :=
  set_heap (<[p := with_data data s]> x.(heap)) x.

Lemma store_data_ok p data s x :
  sessions_ok x -> session_at p s x -> session_ok (with_data data s) ->
  sessions_ok (store_data p data s x) ∧ session_at p (with_data data s) (store_data p data s x).
Proof.
  intros [Hst Hss] (Hp & Hm & Hid) Hs. pose proof (lookup_lt_Some _ _ _ Hp) as Hlt. unfold store_data. split; [split|].
  - intros id q Hq. destruct (Hst id q Hq) as (sq & Hsq & Hsid). destruct (decide (q = p)) as [->|Hne].
    + rewrite Hp in Hsq. injection Hsq as <-. exists (with_data data s). split; [by apply list_lookup_insert_eq|done].
    + exists sq. split; [|done]. cbn [set_heap heap]. by rewrite list_lookup_insert_ne.
  - intros q sq Hq. cbn [set_heap heap] in Hq. destruct (decide (q = p)) as [->|Hne].
    + rewrite list_lookup_insert_eq in Hq by done. by injection Hq as <-.
    + rewrite list_lookup_insert_ne in Hq by done. by eapply Hss.
  - split_and!; [by apply list_lookup_insert_eq|done|done].
Qed.

Lemma setValue_run p key value s x :
  session_at p s x -> setValue p key value x = (Ret tt, store_data p (<[key := value]> s.(data_)) s x).
Proof.
  intros (Hp & Hm & Hid). unfold setValue. erewrite bind_run by (by apply deref_run). erewrite (bind_run (assign _ _)) by done.
  rewrite Hm. unfold updateSessionId. cbn [save memory_storage]. unfold Memory.save.
  rewrite (list_alter_insert _ _ _ _ Hp).
  erewrite bind_run by (apply deref_run; cbn [set_heap heap]; apply list_lookup_insert_eq; by eapply lookup_lt_Some).
  unfold modify. cbn. by rewrite insert_id by done.
Qed.

Lemma getValue_run p key s x : session_at p s x -> getValue p key x = (Ret (find_or_empty key s.(data_)), x).
Proof. intros (Hp & _). unfold getValue. by erewrite bind_run by by apply deref_run. Qed.

Lemma clear_run p s x : session_at p s x -> clear p x = (Ret tt, store_data p ∅ s x).
Proof.
  intros (Hp & Hm & Hid). unfold clear. erewrite bind_run by by apply deref_run. unfold assign, modify.
  by rewrite (list_alter_insert _ _ _ _ Hp).
Qed.

Lemma destroySession_run p s x :
  session_at p s x -> destroySession s.(sessionId_) x = (Ret tt, set_storage (delete s.(sessionId_) x.(storage_)) x).
Proof.
  intros (_ & _ & Hid). change (Memory.remove s.(sessionId_) x = (Ret tt, set_storage (delete s.(sessionId_) x.(storage_)) x)).
  unfold Memory.remove. erewrite (bind_run (gets _)) by done. by rewrite Hid.
Qed.

Lemma delete_session_ok id x : sessions_ok x -> sessions_ok (set_storage (delete id x.(storage_)) x).
Proof. intros [Hst Hss]. split; [|done]. intros i q Hq. cbn in Hq. apply lookup_delete_Some in Hq as [_ Hq]. by apply Hst. Qed.

Lemma empty_session_ok : session_ok (mkSession [] ∅ 0 0 true).
Proof. intros H. cbn in H. by rewrite lookup_empty in H. Qed.

(** [getSession] in the invariant: the session the cookie names, with its data,
    or a new one without data. *)
Lemma getSession_ok req resp x :
  sessions_ok x -> ∃ p s x' resp', getSession req resp x = (Ret (p, resp'), x') ∧ sessions_ok x' ∧ session_at p s x' ∧
    match cookie_session req x with
    | Some q => p = q ∧ resp' = resp ∧ s.(sessionId_) = getSessionIdFromCookie req ∧ data_ <$> x.(heap) !! q = Some s.(data_)
    | None => s.(data_) = ∅
    end.
Proof.
  intros [Hst Hss]. assert (∀ p s x', session_result x x' p s (getSessionIdFromCookie req) -> session_ok s ->
    sessions_ok x' ∧ session_at p s x') as Hres.
  { intros p s x' (Hp & Hm & Hid & _ & Hst' & Hheap & _) Hs. split; [split; [done|]|by split_and!].
    intros q sq Hq. destruct (decide (q = p)) as [->|Hne].
    - rewrite Hp in Hq. by injection Hq as <-.
    - rewrite Hheap in Hq by done. by eapply Hss. }
  destruct (cookie_session req x) as [q|] eqn:Hc.
  - destruct (cookie_session_stored req x q Hst Hc) as [s Hs].
    destruct (getSession_known req resp x q s Hst Hc Hs) as (x' & t & Hrun & Hr).
    apply Hres in Hr as [Hok Hat]; [|exact (Hss q s Hs)]. eexists q, _, x', resp. split_and!; try done; [|by rewrite Hs].
    pose proof (look_up_run req x Hst) as Hlook. rewrite Hc in Hlook. destruct Hlook as [_ Hid].
    destruct (Hst _ _ Hid) as (s1 & Hs1 & <-). rewrite Hs in Hs1. by injection Hs1 as <-.
  - destruct (getSession_new req resp x Hst Hc) as (x' & t & Hrun & Hr).
    apply Hres in Hr as [Hok Hat]; [|exact empty_session_ok]. by eexists _, _, x', _.
Qed.

End sessions.

(** ** The invariant of the server, and what a request may touch *)
Section server.
Context {D J : Type} {HDb : Database D} {HL : DatabaseLaws D} {HJ : Json J} {HS : StdSort pos}.
Implicit Types (w : GomokuServer D) (r : HttpResponse) (req : HttpRequest) (u : Z) (g : AiGame).

(** The sessions and the games are well formed, the record of users online is
    at least the present number, and the database is usable. *)
Record server_ok w : Prop := {
  sv_sessions : sessions_ok w.(sessions_of);
  sv_games : map_Forall (λ _ g, game_ok g) w.(game_map_);
  sv_online : (Z.of_nat (size w.(online_users)) `min` int_max <= w.(maxOnline_) <= int_max)%Z;
  sv_mysql : db_ok w.(mysql_)
}.

(** The request comes with the cookie of a session of user [u]. *)
Definition owns req w u : Prop :=
  ∃ p s, cookie_session req w.(sessions_of) = Some p ∧ w.(sessions_of).(heap) !! p = Some s ∧
    stoi (find_or_empty (lit "userId") s.(data_)) = Ret u.

(** What holds at every point of a request that came in state [w0]. *)
Definition during req w0 w : Prop :=
  server_ok w ∧ ∀ u, ¬ owns req w0 u -> w.(game_map_) !! u = w0.(game_map_) !! u.

Lemma server_ok_sessions x w : server_ok w -> sessions_ok x -> server_ok (set_sessions x w).
Proof. by intros [] ?. Qed.

Lemma server_ok_game u g w : server_ok w -> game_ok g -> server_ok (set_games (<[u := g]> w.(game_map_)) w).
Proof. intros [? ? ? ?] ?. split; try done. by apply map_Forall_insert_2. Qed.

Lemma server_ok_forget u w : server_ok w -> server_ok (set_games (delete u w.(game_map_)) w).
Proof. intros [? ? ? ?]. split; try done. by apply map_Forall_delete. Qed.

Lemma server_ok_leave u w : server_ok w -> server_ok (set_online (delete u w.(online_users)) w).
Proof.
  intros [? ? [? ?] ?]. split; try done. cbn. split; [|done].
  assert (size (delete u w.(online_users)) ≤ size w.(online_users)) by (apply map_subseteq_size, delete_subseteq). lia.
Qed.

Lemma server_ok_enter u w :
  server_ok w ->
  server_ok (updateMaxOnline (getCurrentOnline (set_online (<[u := true]> w.(online_users)) w)) (set_online (<[u := true]> w.(online_users)) w)).
Proof.
  intros [? ? [Hlo Hhi] ?]. split; try done. cbn. unfold getCurrentOnline. cbn. set (n := size (<[u := true]> _)).
  assert (n ≤ S (size w.(online_users))) as Hn.
  { unfold n. destruct (w.(online_users) !! u) eqn:Hu; [rewrite map_size_insert_Some by done; lia|by rewrite map_size_insert_None]. }
  unfold int_max, wrap_i32 in *. Z.to_euclidean_division_equations. lia.
Qed.

Lemma find_or_empty_some (key v : bytes) (m : gmap bytes bytes) : m !! key = Some v -> find_or_empty key m = v.
Proof. unfold find_or_empty. by intros ->. Qed.

Section request.
Context (req : HttpRequest) (w0 : GomokuServer D).
Abbreviation I := (during req w0).

(** ** One rule per construct *)

Lemma safe_on_resp f w r (Q : unit -> GomokuServer D -> Prop) : Q tt w -> safe I (on_resp f) w r Q.
Proof. done. Qed.

Lemma safe_on_server f w r (Q : unit -> GomokuServer D -> Prop) : Q tt (f w) -> safe I (on_server f) w r Q.
Proof. done. Qed.

Lemma safe_lib {A} (x : A + string) w r (Q : A -> GomokuServer D -> Prop) :
  I w -> (∀ a, x = inl a -> Q a w) -> safe I (lib x) w r Q.
Proof. intros HI HQ. destruct x; [by apply HQ|done]. Qed.

Lemma safe_try {A} (m : prog thrown (GomokuServer D * HttpResponse) A) h w r Q :
  safe I m w r Q -> (∀ e w' r', I w' -> safe I (h e) w' r' Q) -> safe I (try_std m h) w r Q.
Proof. intros Hm Hh. apply safe_catch; [done|]. intros [res|e] w' r' HI; [done|by apply Hh]. Qed.

Lemma safe_sessions {A} (m : session_prog MemorySessionStorage A) w r a x (Q : A -> GomokuServer D -> Prop) :
  m w.(sessions_of) = (Ret a, x) -> Q a (set_sessions x w) -> safe I (on_sessions m) w r Q.
Proof. intros Hm HQ. unfold safe, on_sessions, std_prog. by rewrite Hm. Qed.

Lemma safe_stoi v w r (Q : Z -> GomokuServer D -> Prop) :
  I w -> (∀ n, stoi v = Ret n -> Q n w) -> safe I (outcome_of (stoi v)) w r Q.
Proof.
  intros HI HQ. assert (∀ f, stoi v ≠ Halt f) as Hv.
  { intros f. unfold stoi, stoi_unsigned. repeat case_match; done. }
  destruct (stoi v) as [n|e|f] eqn:Hs; [by apply HQ|done|by destruct (Hv f)].
Qed.

Lemma during_mysql d w : I w -> db_ok d -> I (set_mysql d w).
Proof. intros [[] ?] ?. split; [by split|done]. Qed.

Lemma safe_mysql {A} (m : prog std_exception D A) w r (Q : A -> GomokuServer D -> Prop) :
  I w -> (∀ o d, m w.(mysql_) = (o, d) -> db_ok d ∧ ∀ f, o ≠ Halt f) ->
  (∀ a d, db_ok d -> I (set_mysql d w) -> Q a (set_mysql d w)) -> safe I (on_mysql m) w r Q.
Proof.
  intros HI Hm HQ. unfold safe, on_mysql, std_prog. destruct (m _) as [o d] eqn:Hrun.
  destruct (Hm o d eq_refl) as [Hd Ho]. pose proof (during_mysql d w HI Hd).
  destruct o as [a|e|f]; [by apply HQ|done|by destruct (Ho f)].
Qed.

Lemma safe_query (text : bytes) w r (Q : list row -> GomokuServer D -> Prop) :
  I w -> (∀ rows d, I (set_mysql d w) -> Q rows (set_mysql d w)) -> safe I (on_mysql (executeQuery text)) w r Q.
Proof. intros HI HQ. apply safe_mysql; [done|intros o d; by apply query_ok, HI|auto]. Qed.

Lemma safe_update (text : bytes) w r (Q : Z -> GomokuServer D -> Prop) :
  I w -> (∀ n d, I (set_mysql d w) -> Q n (set_mysql d w)) -> safe I (on_mysql (executeUpdate text)) w r Q.
Proof. intros HI HQ. apply safe_mysql; [done|intros o d; by apply update_ok, HI|auto]. Qed.

Lemma during_sessions x w : I w -> sessions_ok x -> I (set_sessions x w).
Proof. intros [? ?] ?. split; [by apply server_ok_sessions|done]. Qed.

(** A session a handler got; its user owns the request, when the sessions are
    the ones it came with. *)
Definition has_session p s w : Prop :=
  I w ∧ session_at p s w.(sessions_of) ∧ ∀ u, stoi (find_or_empty (lit "userId") s.(data_)) = Ret u -> owns req w0 u.

Lemma safe_get_session w r (Q : session_ptr -> GomokuServer D -> Prop) :
  I w -> (∀ p s x, sessions_ok x -> session_at p s x -> (w = w0 -> has_session p s (set_sessions x w)) -> Q p (set_sessions x w)) ->
  safe I (get_session req) w r Q.
Proof.
  intros HI HQ. destruct (getSession_ok req r w.(sessions_of)) as (p & s & x & r' & Hrun & Hok & Hat & Hc); [apply HI|].
  unfold safe, get_session. rewrite Hrun. apply (HQ p s x Hok Hat). intros ->.
  split_and!; [by apply during_sessions|done|]. intros u Hu.
  destruct (cookie_session req (sessions_of w0)) as [q|] eqn:Hq.
  - destruct Hc as (_ & _ & _ & Hd). apply fmap_Some in Hd as (s0 & Hs0 & Hd). exists q, s0. by rewrite <-Hd.
  - by rewrite Hc in Hu.
Qed.

Lemma set_sessions_same w : set_sessions w.(sessions_of) w = w.
Proof. by destruct w. Qed.

Lemma safe_getValue p s key w r (Q : bytes -> GomokuServer D -> Prop) :
  session_at p s w.(sessions_of) -> Q (find_or_empty key s.(data_)) w -> safe I (on_sessions (getValue p key)) w r Q.
Proof. intros Hat HQ. eapply safe_sessions; [by apply getValue_run|]. by rewrite set_sessions_same. Qed.

Lemma safe_store p (data : gmap bytes bytes) s (m : session_prog MemorySessionStorage unit) w r (Q : unit -> GomokuServer D -> Prop) :
  I w -> session_at p s w.(sessions_of) -> session_ok (with_data data s) ->
  m w.(sessions_of) = (Ret tt, store_data p data s w.(sessions_of)) ->
  (∀ w', I w' -> session_at p (with_data data s) w'.(sessions_of) -> Q tt w') -> safe I (on_sessions m) w r Q.
Proof.
  intros HI Hat Hs Hrun HQ. eapply safe_sessions; [exact Hrun|].
  destruct (store_data_ok p data s w.(sessions_of)) as [Hx Hat']; [apply HI|done|done|].
  apply HQ; [by apply during_sessions|done].
Qed.

Lemma safe_setValue p (key value : bytes) s w r (Q : unit -> GomokuServer D -> Prop) :
  I w -> session_at p s w.(sessions_of) -> session_ok (with_data (<[key := value]> s.(data_)) s) ->
  (∀ w', I w' -> session_at p (with_data (<[key := value]> s.(data_)) s) w'.(sessions_of) -> Q tt w') ->
  safe I (on_sessions (setValue p key value)) w r Q.
Proof. intros HI Hat Hs HQ. eapply safe_store; [done..|by apply setValue_run|done]. Qed.

Lemma safe_destroySession p s w r (Q : unit -> GomokuServer D -> Prop) :
  I w -> session_at p s w.(sessions_of) -> (∀ w', I w' -> Q tt w') ->
  safe I (on_sessions (destroySession s.(sessionId_))) w r Q.
Proof.
  intros HI Hat HQ. eapply safe_sessions; [by eapply destroySession_run|].
  apply HQ, during_sessions; [done|]. apply delete_session_ok, HI.
Qed.

Lemma safe_logged_in p s w r (Q : bool -> GomokuServer D -> Prop) :
  session_at p s w.(sessions_of) -> Q (bool_decide (find_or_empty (lit "isLoggedIn") s.(data_) = lit "true")) w ->
  safe I (logged_in p) w r Q.
Proof. intros Hat HQ. apply safe_bind, (safe_getValue p s); [done|]. intros r'. by apply safe_ret. Qed.

Lemma safe_session_user p s w r (Q : Z -> GomokuServer D -> Prop) :
  has_session p s w -> (∀ u, owns req w0 u -> Q u w) -> safe I (session_user p) w r Q.
Proof.
  intros (HI & Hat & Hown) HQ. apply safe_bind, (safe_getValue p s); [done|]. intros r'.
  apply safe_stoi; [done|]. intros u Hu. by apply HQ, Hown.
Qed.

Lemma safe_on_game {A} u (m : nat -> prog std_exception AiGame A) w r g a g' (Q : A -> GomokuServer D -> Prop) :
  w.(game_map_) !! u = Some g -> m (w.(rands) w.(rands_used)) g = (Ret a, g') ->
  Q a (set_games (<[u := g']> w.(game_map_)) w) -> safe I (on_game u m) w r Q.
Proof. intros Hg Hm HQ. unfold safe, on_game. by rewrite Hg, Hm. Qed.

Lemma safe_read_game u w r g (Q : AiGame -> GomokuServer D -> Prop) :
  w.(game_map_) !! u = Some g -> Q g w -> safe I (read_game u) w r Q.
Proof.
  intros Hg HQ. eapply safe_on_game; [done|done|]. rewrite insert_id by done. by destruct w.
Qed.

Lemma during_game u g w : I w -> game_ok g -> owns req w0 u -> I (set_games (<[u := g]> w.(game_map_)) w).
Proof.
  intros [Hok Hfr] Hg Hown. split; [by apply server_ok_game|]. intros v Hv. cbn.
  rewrite lookup_insert_ne by (by intros ->). by apply Hfr.
Qed.

Lemma during_forget u w : I w -> owns req w0 u -> I (set_games (delete u w.(game_map_)) w).
Proof.
  intros [Hok Hfr] Hown. split; [by apply server_ok_forget|]. intros v Hv. cbn.
  rewrite lookup_delete_ne by (by intros ->). by apply Hfr.
Qed.

Lemma safe_start_game u w r (Q : unit -> GomokuServer D -> Prop) :
  I w -> owns req w0 u -> (∀ w', I w' -> Q tt w') -> safe I (start_game u) w r Q.
Proof.
  intros HI Hown HQ. apply safe_on_server, HQ. rewrite insert_delete_eq.
  apply during_game; [done|apply new_game_ok|done].
Qed.

End request.

Lemma during_refl req w : server_ok w -> during req w w.
Proof. by split. Qed.

(** A step of a handler: the construct at its head, by its rule. *)
Ltac safe_step :=
  lazymatch goal with
  | |- ∀ _ : HttpResponse, _ => intros ?
  | |- safe _ (mret _) _ _ _ => apply safe_ret
  | |- safe _ (_ ≫= _) _ _ _ => apply safe_bind
  | |- safe _ (on_resp _) _ _ _ => apply safe_on_resp
  | |- safe _ (packageResp _ _ _ _ _ _ _) _ _ _ => apply safe_on_resp
  | |- safe _ (reply _ _ _ _ _ _) _ _ _ => apply safe_on_resp
  | |- safe _ (no_json _) _ _ _ => apply safe_on_resp
  | |- safe _ (on_server _) _ _ _ => apply safe_on_server
  | |- safe _ get _ _ _ => apply safe_get
  | |- safe _ (lib _) _ _ _ => apply safe_lib; [solve [auto using during_refl]|intros ? _]
  | |- safe _ (on_mysql (executeQuery _)) _ _ _ => apply safe_query; [solve [auto using during_refl]|intros ? ? ?]
  | |- safe _ (on_mysql (executeUpdate _)) _ _ _ => apply safe_update; [solve [auto using during_refl]|intros ? ? ?]
  | |- safe _ (try_std _ _) _ _ _ => apply safe_try; [|intros ? ? ? ?]
  | |- safe _ (if ?b then _ else _) _ _ _ => destruct b
  | |- safe _ (match ?x with _ => _ end) _ _ _ => destruct x
  | |- safe _ (let _ := _ in _) _ _ _ => intros ?
  | |- during _ _ _ => solve [auto using during_refl]
  end; cbn beta iota.
Ltac safe_auto := repeat safe_step.

(** ** The handlers *)

Definition handler_safe (h : handler (GomokuServer D)) : Prop :=
  ∀ req w r, server_ok w -> safe (during req w) (h req) w r (λ _, during req w).

Lemma EntryHandler_safe : handler_safe EntryHandler.
Proof. intros req w r Hok. unfold EntryHandler. safe_auto. Qed.
Lemma MenuHandler_safe : handler_safe MenuHandler.
Proof. intros req w r Hok. unfold MenuHandler. safe_auto. Qed.
Lemma GameBackendHandler_safe : handler_safe GameBackendHandler.
Proof. intros req w r Hok. unfold GameBackendHandler. safe_auto. Qed.
Lemma RegisterHandler_safe : handler_safe (RegisterHandler (J := J)).
Proof. intros req w r Hok. unfold RegisterHandler, insertUser, isUserExit. safe_auto. Qed.
Lemma getBackendData_safe : handler_safe (getBackendData (J := J)).
Proof. intros req w r Hok. unfold getBackendData, getUserTotal. safe_auto. Qed.

(** *** Logging in *)

Lemma during_enter req w0 u w :
  during req w0 w ->
  during req w0 (updateMaxOnline (getCurrentOnline (set_online (<[u := true]> w.(online_users)) w))
    (set_online (<[u := true]> w.(online_users)) w)).
Proof. intros [Hok Hfr]. split; [by apply server_ok_enter|done]. Qed.

Lemma login_known_safe req w0 id (username : bytes) w r :
  during req w0 w -> (int_min <= id <= int_max)%Z ->
  safe (during req w0) (login_known (J := J) req id username) w r (λ _, during req w0).
Proof.
  intros HI Hid. unfold login_known. apply safe_bind, safe_get_session; [done|]. intros p s x Hx Hat _ r1.
  assert (∀ (key v : bytes) (data : gmap bytes bytes), key ≠ lit "userId" -> data !! lit "userId" = Some (to_string id) ->
    session_ok (with_data (<[key := v]> data) s)) as Hkey.
  { intros key v data Hne Hd _. exists id. split; [done|]. cbn. by rewrite lookup_insert_ne. }
  apply safe_bind, (safe_setValue _ _ p _ _ s); [by apply during_sessions|done| |].
  { intros _. exists id. split; [done|]. cbn. by rewrite lookup_insert_eq. }
  intros w1 HI1 Hat1 r2. apply safe_bind. eapply safe_setValue; [done|exact Hat1| |].
  { apply Hkey; [done|]. cbn. by rewrite lookup_insert_eq. }
  intros w2 HI2 Hat2 r3. apply safe_bind. eapply safe_setValue; [done|exact Hat2| |].
  { apply Hkey; [done|]. cbn. rewrite lookup_insert_ne by done. by rewrite lookup_insert_eq. }
  intros w3 HI3 _ r4. apply safe_bind, safe_get. intros r5. cbn iota beta. destruct (negb _); [|safe_auto].
  apply safe_bind, safe_on_server. intros r6. apply safe_bind, safe_on_server. intros r7.
  pose proof (during_enter req w0 id w3 HI3). safe_auto.
Qed.

Lemma safe_queryUser req w0 (username password : bytes) w r (Q : Z -> GomokuServer D -> Prop) :
  during req w0 w ->
  (∀ id w', during req w0 w' -> id = (-1)%Z ∨ (int_min <= id <= int_max)%Z -> Q id w') ->
  safe (during req w0) (queryUser username password) w r Q.
Proof.
  intros HI HQ. unfold queryUser. apply safe_bind, safe_query; [done|]. intros [|x rows] d HI' r'; cbn beta iota.
  - apply safe_ret, HQ; [done|by left].
  - apply safe_lib; [done|]. intros id Hid. apply HQ; [done|right; by eapply getInt_int].
Qed.

Lemma LoginHandler_safe : handler_safe (LoginHandler (J := J)).
Proof.
  intros req w r Hok. unfold LoginHandler. destruct (negb _); [safe_auto|].
  apply safe_try; [|intros; safe_auto]. do 9 safe_step. apply safe_bind, safe_queryUser; [by apply during_refl|].
  intros id w' HI Hid r1. case_bool_decide; [|safe_auto]. apply login_known_safe; [done|]. by destruct Hid.
Qed.

(** *** Logging out *)

Lemma LogoutHandler_safe : handler_safe (LogoutHandler (J := J)).
Proof.
  intros req w r Hok. unfold LogoutHandler. destruct (negb _); [safe_auto|].
  apply safe_try; [|intros; safe_auto]. apply safe_bind, safe_get_session; [by apply during_refl|].
  intros p s x Hx Hat Hown r1. destruct (Hown eq_refl) as (HI & _ & Huser). clear Hown.
  apply safe_bind, (safe_getValue _ _ p s); [done|]. intros r2.
  apply safe_bind, safe_stoi; [done|]. intros u Hu%Huser r3.
  apply safe_bind. eapply (safe_store _ _ p ∅ s); [done|done| |by apply clear_run|].
  { intros Hl. cbn in Hl. by rewrite lookup_empty in Hl. }
  intros w1 HI1 Hat1 r4. apply safe_bind. eapply safe_sessions; [apply deref_run, Hat1|]. rewrite set_sessions_same.
  intros r5. apply safe_bind, (safe_destroySession _ _ p (with_data ∅ s)); [done|done|].
  intros w2 HI2 r6. do 6 safe_step. apply safe_bind, safe_on_server.
  assert (during req w (set_online (delete u w2.(online_users)) w2)) as HI3
    by (destruct HI2; split; [by apply server_ok_leave|done]).
  pose proof (during_forget _ _ _ _ HI3 Hu). safe_auto.
Qed.

(** *** Games *)

Lemma AiGameStartHandler_safe : handler_safe (AiGameStartHandler (J := J)).
Proof.
  intros req w r Hok. unfold AiGameStartHandler, unauthorized_start.
  apply safe_bind, safe_get_session; [by apply during_refl|].
  intros p s x Hx Hat Hown r1. specialize (Hown eq_refl). pose proof (proj1 Hown).
  apply safe_bind, (safe_logged_in _ _ p s); [done|]. intros r2. destruct (negb _); [safe_auto|].
  apply safe_bind, (safe_session_user _ _ p s); [done|]. intros u Hu r3.
  apply safe_bind, safe_start_game; [done|done|]. intros w1 HI1 r4. safe_auto.
Qed.

Lemma restartChessGameVsAi_safe : handler_safe (restartChessGameVsAi (J := J)).
Proof.
  intros req w r Hok. unfold restartChessGameVsAi, unauthorized_swapped.
  apply safe_bind, safe_get_session; [by apply during_refl|].
  intros p s x Hx Hat Hown r1. specialize (Hown eq_refl). pose proof (proj1 Hown).
  apply safe_bind, (safe_logged_in _ _ p s); [done|]. intros r2. destruct (negb _); [safe_auto|].
  apply safe_bind, (safe_session_user _ _ p s); [done|]. intros u Hu r3.
  apply safe_bind, safe_start_game; [done|done|]. intros w1 HI1 r4. safe_auto.
Qed.

(** *** A move *)

Lemma humanMove_run g (x y : Z) :
  humanMove x y g =
    if isValidMove g x y then (Ret true, place x y HUMAN_PLAYER (lit "human") g) else (Ret false, g).
Proof. unfold humanMove. rewrite (bind_run get _ g g g) by done. by destruct (isValidMove g x y). Qed.

Lemma human_place_ok g (x y : Z) :
  game_ok g -> isValidMove g x y = true -> game_ok (place x y HUMAN_PLAYER (lit "human") g).
Proof. intros Hok (Hin & Hat & Hgo & _)%isValidMove_spec. by apply (place_ok g x y HUMAN_PLAYER). Qed.

(** The game after the computer's answer to [g]. *)
Definition answered (rand : nat) g : AiGame :=
  let m := (getBestMove false g.(moveCount_) rand g.(board_)).1 in
  if g.(gameOver_) || isDraw g then g else place m.1 m.2 AI_PLAYER (lit "ai") g.

Lemma aiMove_answered rand g : game_ok g -> aiMove rand g = (Ret tt, answered rand g) ∧ game_ok (answered rand g).
Proof.
  intros Hok. destruct (aiMove_run rand g Hok) as [Hrun Hempty]. split.
  - rewrite Hrun. unfold answered. by destruct (gameOver_ g || isDraw g).
  - apply (game_step_ok g); [|done]. apply (step_ai rand g (Ret tt)). rewrite Hrun. unfold answered.
    by destruct (gameOver_ g || isDraw g).
Qed.

Section move.
Context (req : HttpRequest) (w0 : GomokuServer D) (u : Z) (Hown : owns req w0 u).

(** The server has the game [g] of the user. *)
Definition playing g w : Prop := during req w0 w ∧ w.(game_map_) !! u = Some g.

Lemma playing_game g g' w : playing g w -> game_ok g' -> playing g' (set_games (<[u := g']> w.(game_map_)) w).
Proof. intros [HI _] Hok. split; [by apply during_game|]. cbn. by rewrite lookup_insert_eq. Qed.

Lemma playing_ok g w : playing g w -> game_ok g.
Proof. intros [HI Hg]. by eapply (sv_games w (proj1 HI)). Qed.

Lemma finish_turn_safe (winner : bytes) (with_move : bool) g w r :
  playing g w -> safe (during req w0) (finish_turn (J := J) req u winner with_move) w r (λ _, during req w0).
Proof.
  intros [HI Hg]. unfold finish_turn. apply safe_bind. eapply safe_read_game; [exact Hg|]. intros r1.
  pose proof (during_forget _ _ _ _ HI Hown). safe_auto.
Qed.

Lemma after_ai_safe g w r :
  playing g w -> safe (during req w0) (after_ai (J := J) req u) w r (λ _, during req w0).
Proof.
  intros Hp. pose proof Hp as [HI Hg]. unfold after_ai. apply safe_bind. eapply safe_read_game; [exact Hg|]. intros r1.
  destruct (isGameOver g); [by eapply finish_turn_safe|]. destruct (isDraw g); [by eapply finish_turn_safe|]. safe_auto.
Qed.

Lemma after_human_safe g w r :
  playing g w -> safe (during req w0) (after_human (J := J) req u) w r (λ _, during req w0).
Proof.
  intros Hp. pose proof Hp as [HI Hg]. unfold after_human. apply safe_bind. eapply safe_read_game; [exact Hg|]. intros r1.
  destruct (isGameOver g); [by eapply finish_turn_safe|]. destruct (isDraw g); [by eapply finish_turn_safe|].
  destruct (aiMove_answered (w.(rands) w.(rands_used)) g) as [Hai Hok]; [by eapply playing_ok|].
  apply safe_bind. eapply safe_on_game; [exact Hg|exact Hai|]. intros r2. apply safe_bind, safe_on_server. intros r3.
  apply (after_ai_safe (answered (w.(rands) w.(rands_used)) g)).
  destruct (playing_game g _ w Hp Hok) as [[[] ?] ?]. split; [split; [by split|done]|done].
Qed.

Lemma make_move_safe (x y : Z) w r :
  during req w0 w -> safe (during req w0) (make_move (J := J) req u x y) w r (λ _, during req w0).
Proof.
  intros HI. unfold make_move. apply safe_bind, safe_get. intros r1. cbn beta iota. apply safe_bind.
  apply (safe_mono _ _ _ _ (λ _ w', ∃ g, playing g w')).
  { case_bool_decide as Hnone.
    - apply safe_on_server. exists (new_AiGame u). split; [by apply during_game; [|apply new_game_ok|]|].
      cbn. by rewrite lookup_insert_eq.
    - destruct (w.(game_map_) !! u) as [g|] eqn:Hg; [|done]. apply safe_ret. by exists g. }
  intros [] w1 (g & Hp) r2. pose proof (playing_ok g w1 Hp) as Hok. apply safe_bind.
  pose proof (humanMove_run g x y) as Hrun. pose proof (human_place_ok g x y Hok) as Hplace.
  destruct (isValidMove g x y); (eapply safe_on_game; [apply Hp|exact Hrun|]; intros r3; cbn [negb]).
  - eapply after_human_safe. apply (playing_game g); [done|by apply Hplace].
  - destruct (playing_game g g w1 Hp Hok) as [HI1 _]. safe_auto.
Qed.

End move.

Lemma AiMoveHandler_safe : handler_safe (AiMoveHandler (J := J)).
Proof.
  intros req w r Hok. unfold AiMoveHandler, unauthorized_swapped. apply safe_try; [|intros; safe_auto].
  apply safe_bind, safe_get_session; [by apply during_refl|].
  intros p s x Hx Hat Hown r1. specialize (Hown eq_refl). pose proof (proj1 Hown).
  apply safe_bind, (safe_logged_in _ _ p s); [done|]. intros r2. destruct (negb _); [safe_auto|].
  apply safe_bind, (safe_session_user _ _ p s); [done|]. intros u Hu r3.
  do 9 safe_step. by apply make_move_safe.
Qed.

(** ** The server *)

Context {CTX : Type} (option : bool).
Abbreviation gomoku_router := (server_ (D := D) (J := J) CTX option).(Server.routes).
Abbreviation gomoku_chain := (server_ (D := D) (J := J) CTX option).(Server.middlewares).

Lemma gomoku_route_safe req w r :
  server_ok w -> safe (during req w) (route gomoku_router req) w r (λ _, during req w).
Proof.
  intros Hok. unfold route.
  assert (map_Forall (λ _, handler_safe) gomoku_router.(handlers_)) as Hh.
  { cbn. repeat apply map_Forall_insert_2; auto using EntryHandler_safe, LoginHandler_safe, RegisterHandler_safe,
      LogoutHandler_safe, MenuHandler_safe, AiGameStartHandler_safe, AiMoveHandler_safe, GameBackendHandler_safe.
    apply map_Forall_empty. }
  assert (map_Forall (λ _, handler_safe) gomoku_router.(callbacks_)) as Hc.
  { cbn. repeat apply map_Forall_insert_2; auto using restartChessGameVsAi_safe, getBackendData_safe.
    apply map_Forall_empty. }
  destruct (handlers_ gomoku_router !! _) as [h|] eqn:Hl.
  { apply safe_bind. eapply safe_mono; [by apply (Hh _ h Hl)|]. by intros. }
  destruct (callbacks_ gomoku_router !! _) as [h|] eqn:Hl'.
  { apply safe_bind. eapply safe_mono; [by apply (Hc _ h Hl')|]. by intros. }
  apply safe_ret. by apply during_refl.
Qed.

Lemma run_before_gomoku req w r :
  run_before gomoku_chain req (w, r) =
    if decide (req.(method_) = kOptions)
    then (Throw (ThrownResponse (handlePrefightRequest defaultConfig req (new_response true))), (w, r))
    else (Ret req, (w, r)).
Proof.
  change gomoku_chain with [Some (CorsMiddleware (W := GomokuServer D) defaultConfig)].
  unfold run_before. cbn [processBefore before CorsMiddleware].
  unfold cors_before. prog_unfold. by destruct (decide (req.(method_) = kOptions)).
Qed.

Lemma handleRequest_safe req w r :
  server_ok w -> ∃ w' r', handleRequest gomoku_router gomoku_chain req (w, r) = (Ret tt, (w', r')) ∧ during req w w'.
Proof.
  intros Hok. assert (safe (during req w) (handleRequest gomoku_router gomoku_chain req) w r (λ _, during req w)) as Hsafe.
  { unfold safe. rewrite handleRequest_eq. apply (safe_catch (during req w)); [|by intros [] w' r' ?].
    apply safe_bind. unfold safe at 1. rewrite run_before_gomoku.
    destruct (decide _); [by apply during_refl|]. intros r1. apply safe_bind, safe_bind.
    eapply safe_mono; [by apply gomoku_route_safe|]. intros [] w1 HI r2.
    - apply safe_ret. by intros r3.
    - by intros r3. }
  unfold safe in Hsafe. pose proof (handleRequest_no_throw gomoku_router gomoku_chain req (w, r)) as Hno.
  destruct (handleRequest _ _ req (w, r)) as [[[]|e|f] [w' r']]; [by exists w', r'|by destruct (Hno e)|done].
Qed.

End server.
