(* ===== verification/GomokuTheorems.v ===== *)
(** * Theorems on the Gomoku server

    Every reachable server answers every request; a request changes the game of
    its own user only; what a login and a move answer. *)

From S2P Require Export GomokuFacts.

(** ** The pool of connections is a database *)

#[export] Instance mysql_database_laws D C {HD : SqlDriver D C} {HL : SqlDriverLaws D C} : DatabaseLaws (db_state D C).
Proof.
  refine {| db_ok s := pool_inv s [] ∧ s.(db_pool).(connections_) ≠ [] |}.
  - intros text s o s' [Hinv Hne] Hrun.
    destruct (with_connection_run (λ p, conn_executeQuery p text []) s) as (o1 & s1 & Hrun1 & Ho & Hinv1 & Hperm); [|done..|].
    { intros p s1 Hlive. by apply conn_executeQuery_calm. }
    cbn in Hrun. unfold util_executeQuery in Hrun. rewrite Hrun1 in Hrun. injection Hrun as <- <-.
    split; [split; [done|]|done]. intros Hnil. rewrite Hnil in Hperm. by apply Permutation_nil_l in Hperm.
  - intros text s o s' [Hinv Hne] Hrun.
    destruct (with_connection_run (λ p, conn_executeUpdate p text []) s) as (o1 & s1 & Hrun1 & Ho & Hinv1 & Hperm); [|done..|].
    { intros p s1 Hlive. by apply conn_executeUpdate_calm. }
    cbn in Hrun. unfold util_executeUpdate in Hrun. rewrite Hrun1 in Hrun. injection Hrun as <- <-.
    split; [split; [done|]|done]. intros Hnil. rewrite Hnil in Hperm. by apply Permutation_nil_l in Hperm.
  - intros x col n. by apply row_int_int.
Defined.

(** ** What the parts of a handler return *)
Section runs.
Context {D J : Type} {HDb : Database D} {HL : DatabaseLaws D} {HJ : Json J} {HS : StdSort pos}.
Implicit Types (w : GomokuServer D) (r : HttpResponse) (req : HttpRequest) (u : Z) (g : AiGame).

Lemma on_sessions_run {A} (m : session_prog MemorySessionStorage A) w r a x :
  m w.(sessions_of) = (Ret a, x) -> on_sessions m (w, r) = (Ret a, (set_sessions x w, r)).
Proof. intros Hm. unfold on_sessions, std_prog. by rewrite Hm. Qed.

Lemma on_mysql_run {A} (m : prog std_exception D A) w r a d :
  m w.(mysql_) = (Ret a, d) -> on_mysql m (w, r) = (Ret a, (set_mysql d w, r)).
Proof. intros Hm. unfold on_mysql, std_prog. by rewrite Hm. Qed.

Lemma on_game_run {A} u (m : nat -> prog std_exception AiGame A) w r g a g' :
  w.(game_map_) !! u = Some g -> m (w.(rands) w.(rands_used)) g = (Ret a, g') ->
  on_game u m (w, r) = (Ret a, (set_games (<[u := g']> w.(game_map_)) w, r)).
Proof. intros Hg Hm. unfold on_game. by rewrite Hg, Hm. Qed.

Lemma read_game_run u w r g : w.(game_map_) !! u = Some g -> read_game u (w, r) = (Ret g, (w, r)).
Proof.
  intros Hg. unfold read_game. erewrite on_game_run by done. rewrite insert_id by done. by destruct w.
Qed.

Lemma lib_run {A} (x : A + string) (a : A) w r : x = inl a -> lib x (w, r) = (Ret a, (w, r)).
Proof. by intros ->. Qed.

Lemma try_ret {A} (m : prog thrown (GomokuServer D * HttpResponse) A) h σ a σ' :
  m σ = (Ret a, σ') -> try_std m h σ = (Ret a, σ').
Proof. apply catch_ret. Qed.

Lemma try_throw {A} (m : prog thrown (GomokuServer D * HttpResponse) A) h σ e σ' :
  m σ = (Throw (ThrownStd e), σ') -> try_std m h σ = h e σ'.
Proof. intros Hm. unfold try_std. by rewrite (catch_throw _ _ _ _ _ Hm). Qed.

Lemma get_session_run req w r :
  server_ok w -> ∃ p s x r', get_session req (w, r) = (Ret p, (set_sessions x w, r')) ∧
    sessions_ok x ∧ session_at p s x ∧
    match cookie_session req w.(sessions_of) with
    | Some q => p = q ∧ r' = r ∧ s.(sessionId_) = getSessionIdFromCookie req ∧ data_ <$> w.(sessions_of).(heap) !! q = Some s.(data_)
    | None => s.(data_) = ∅
    end.
Proof.
  intros Hok. destruct (getSession_ok req r w.(sessions_of)) as (p & s & x & r' & Hrun & Hx & Hat & Hc); [apply Hok|].
  exists p, s, x, r'. split_and!; try done. unfold get_session. by rewrite Hrun.
Qed.

(** One [setValue] of a handler, and the session after it. *)
Lemma setValue_step p (key value : bytes) s x w r :
  session_at p s x ->
  ∃ x', on_sessions (setValue p key value) (set_sessions x w, r) = (Ret tt, (set_sessions x' w, r)) ∧
    session_at p (with_data (<[key := value]> s.(data_)) s) x'.
Proof.
  intros Hat. exists (store_data p (<[key := value]> s.(data_)) s x). split.
  - apply (on_sessions_run _ (set_sessions x w)). by apply setValue_run.
  - destruct Hat as (Hp & Hm & Hid). split_and!; [|done|done]. apply list_lookup_insert_eq. by eapply lookup_lt_Some.
Qed.

(** The session of a user who logs in. *)
Definition marked (id : Z) (username : bytes) s : Prop :=
  s.(data_) !! lit "isLoggedIn" = Some (lit "true") ∧ s.(data_) !! lit "userId" = Some (to_string id) ∧
  s.(data_) !! lit "username" = Some username.

Lemma login_known_run req (id : Z) (username ok_body refused_body : bytes) w r :
  server_ok w ->
  dump (J := J) 4 (JObject [(lit "success", JBool true); (lit "userId", JInt id)]) = inl ok_body ->
  dump (J := J) 4 (JObject [(lit "success", JBool false); (lit "error", JString (lit "账号已在其他地方登录"))]) = inl refused_body ->
  ∃ p s w' r', login_known (J := J) req id username (w, r) = (Ret tt, (w', r')) ∧
    session_at p s w'.(sessions_of) ∧ marked id username s ∧ is_online id w' = true ∧
    w'.(game_map_) = w.(game_map_) ∧
    (r'.(statusCode_), r'.(body_)) = (if is_online id w then (k403Forbidden, refused_body) else (k200Ok, ok_body)) ∧
    (∀ q, cookie_session req w.(sessions_of) = Some q -> p = q).
Proof.
  intros Hok Hyes Hno. destruct (get_session_run req w r Hok) as (p & s & x & r1 & Hget & _ & Hat & Hc).
  assert (∀ q, cookie_session req w.(sessions_of) = Some q -> p = q) as Hq
    by (intros q Hq; rewrite Hq in Hc; by destruct Hc).
  unfold login_known. rewrite (bind_run _ _ _ _ _ Hget).
  destruct (setValue_step p (lit "userId") (to_string id) _ x w r1 Hat) as (x1 & Hset1 & Hat1).
  rewrite (bind_run _ _ _ _ _ Hset1).
  destruct (setValue_step p (lit "username") username _ x1 w r1 Hat1) as (x2 & Hset2 & Hat2).
  rewrite (bind_run _ _ _ _ _ Hset2).
  destruct (setValue_step p (lit "isLoggedIn") (lit "true") _ x2 w r1 Hat2) as (x3 & Hset3 & Hat3).
  rewrite (bind_run _ _ _ _ _ Hset3).
  assert (marked id username (with_data (<[lit "isLoggedIn" := lit "true"]> (<[lit "username" := username]>
    (<[lit "userId" := to_string id]> s.(data_)))) s)) as Hm.
  { split_and!; cbn [with_data data_]; rewrite ?lookup_insert_eq; [done|..]; rewrite !lookup_insert_ne by done;
      by rewrite ?lookup_insert_eq. }
  rewrite (bind_run get _ _ _ _ eq_refl). cbn iota beta.
  change (is_online id (set_sessions x3 w)) with (is_online id w). destruct (is_online id w) eqn:Hon; cbn [negb].
  - rewrite (bind_run _ _ _ _ _ (lib_run _ _ _ _ Hno)). eexists p, _, _, _. split; [reflexivity|]. by split_and!.
  - rewrite (bind_run (on_server _) _ _ _ _ eq_refl). rewrite (bind_run (on_server _) _ _ _ _ eq_refl).
    rewrite (bind_run _ _ _ _ _ (lib_run _ _ _ _ Hyes)). eexists p, _, _, _. split; [reflexivity|]. split_and!; try done.
    unfold is_online. cbn. by rewrite lookup_insert_eq.
Qed.

(** ** A turn of the game *)

(** What a move at [(x, y)] makes of a game in which it is legal: the user's
    stone and, unless that ends the game, the computer's. *)
Definition after_user (x y : Z) g : AiGame := place x y HUMAN_PLAYER (lit "human") g.
Definition ended g : bool := isGameOver g || isDraw g.
Definition after_turn (rand : nat) (x y : Z) g : AiGame :=
  if ended (after_user x y g) then after_user x y g else answered rand (after_user x y g).

(** The answer, for the game the turn leaves. *)
Definition winner_text g : bytes := if isGameOver g then g.(winner_) else if isDraw g then lit "draw" else lit "none".
Definition turn_answer (rand : nat) (x y : Z) g : json_value :=
  turn_json (after_turn rand x y g) (winner_text (after_turn rand x y g))
    (if ended (after_turn rand x y g) then lit "none" else lit "human") (negb (ended (after_user x y g))).

(** [m] answers with [code] and [body], and leaves the games [games]. *)
Definition answers (m : prog thrown (GomokuServer D * HttpResponse) unit) w r (code : HttpStatusCode) (body : bytes)
    (games : gmap Z AiGame) : Prop :=
  ∃ w' r', m (w, r) = (Ret tt, (w', r')) ∧ r'.(statusCode_) = code ∧ r'.(body_) = body ∧ w'.(game_map_) = games.

Lemma answers_bind {A} (m : prog thrown (GomokuServer D * HttpResponse) A) f w r a w' r' code body games :
  m (w, r) = (Ret a, (w', r')) -> answers (f a) w' r' code body games -> answers (m ≫= f) w r code body games.
Proof. intros Hm. unfold answers. by rewrite (bind_run _ _ _ _ _ Hm). Qed.

Lemma finish_turn_answers req u winner with_move g w r body :
  w.(game_map_) !! u = Some g -> dump (J := J) (-1) (turn_json g winner (lit "none") with_move) = inl body ->
  answers (finish_turn (J := J) req u winner with_move) w r k200Ok body (delete u w.(game_map_)).
Proof.
  intros Hg Hdump. unfold finish_turn. eapply answers_bind; [by apply read_game_run|].
  eapply answers_bind; [by apply lib_run|]. eapply answers_bind; [done|]. by eexists _, _.
Qed.

Lemma after_ai_answers req u g w r body :
  w.(game_map_) !! u = Some g ->
  dump (J := J) (-1) (turn_json g (winner_text g) (if ended g then lit "none" else lit "human") true) = inl body ->
  answers (after_ai (J := J) req u) w r k200Ok body (if ended g then delete u w.(game_map_) else w.(game_map_)).
Proof.
  intros Hg Hdump. unfold after_ai. eapply answers_bind; [by apply read_game_run|].
  unfold ended, winner_text in *. destruct (isGameOver g); [by eapply finish_turn_answers|].
  destruct (isDraw g); [by eapply finish_turn_answers|].
  eapply answers_bind; [by apply lib_run|]. by eexists _, _.
Qed.

Lemma after_human_answers req u g w r body :
  game_ok g -> w.(game_map_) !! u = Some g ->
  let g' := if ended g then g else answered (w.(rands) w.(rands_used)) g in
  dump (J := J) (-1) (turn_json g' (winner_text g') (if ended g' then lit "none" else lit "human") (negb (ended g))) = inl body ->
  answers (after_human (J := J) req u) w r k200Ok body
    (if ended g' then delete u w.(game_map_) else <[u := g']> w.(game_map_)).
Proof.
  intros Hok Hg g' Hdump. unfold after_human. eapply answers_bind; [by apply read_game_run|].
  destruct (isGameOver g) eqn:Hover.
  { unfold g', winner_text, ended in *. rewrite Hover in *. cbn in *. rewrite Hover in *. by eapply finish_turn_answers. }
  destruct (isDraw g) eqn:Hdraw.
  { unfold g', winner_text, ended in *. rewrite Hover, Hdraw in *. cbn in *. rewrite Hover, Hdraw in *. by eapply finish_turn_answers. }
  assert (ended g = false) as Hend by (unfold ended; by rewrite Hover, Hdraw). unfold g' in *. rewrite Hend in *.
  destruct (aiMove_answered (w.(rands) w.(rands_used)) g Hok) as [Hai _].
  eapply answers_bind; [by eapply on_game_run|]. eapply answers_bind; [done|].
  set (w1 := use_rand _). replace (delete u w.(game_map_)) with (delete u w1.(game_map_)) by apply delete_insert_eq.
  apply after_ai_answers; [|done]. apply lookup_insert_eq.
Qed.

Lemma make_move_answers req u (x y : Z) w r body :
  server_ok w ->
  let g := default (new_AiGame u) (w.(game_map_) !! u) in
  let rand := w.(rands) w.(rands_used) in
  (isValidMove g x y = false ->
     dump (J := J) (-1) (status_message (lit "error") (lit "Invalid move")) = inl body ->
     answers (make_move (J := J) req u x y) w r k400BadRequest body (<[u := g]> w.(game_map_))) ∧
  (isValidMove g x y = true -> dump (J := J) (-1) (turn_answer rand x y g) = inl body ->
     answers (make_move (J := J) req u x y) w r k200Ok body
       (if ended (after_turn rand x y g) then delete u w.(game_map_) else <[u := after_turn rand x y g]> w.(game_map_))).
Proof.
  intros Hok g rand.
  assert (game_ok g) as Hg.
  { unfold g. destruct (w.(game_map_) !! u) as [g0|] eqn:Hg0; [by eapply (sv_games w Hok)|apply new_game_ok]. }
  set (w1 := set_games (<[u := g]> w.(game_map_)) w).
  assert (∀ (m : prog thrown (GomokuServer D * HttpResponse) unit) code games, answers m w1 r code body games ->
    answers ((if bool_decide (w.(game_map_) !! u = None)
              then on_server (λ w, set_games (<[u := new_AiGame u]> w.(game_map_)) w) else mret tt);; m) w r code body games) as Hstart.
  { intros m code games Hm. case_bool_decide as Hnone.
    - eapply answers_bind; [|exact Hm]. unfold on_server, modify, w1, g. by rewrite Hnone.
    - eapply answers_bind; [done|]. replace w with w1; [done|]. unfold w1, g.
      destruct (w.(game_map_) !! u) eqn:Hu; [|done]. cbn. rewrite insert_id by done. by destruct w. }
  assert (w1.(game_map_) !! u = Some g) as Hw1 by apply lookup_insert_eq.
  pose proof (humanMove_run g x y) as Hrun. unfold make_move.
  split; intros Hv Hdump; rewrite Hv in Hrun; (eapply answers_bind; [done|]); cbn beta iota; apply Hstart;
    (eapply answers_bind; [by eapply on_game_run|]); cbn [negb].
  - eapply answers_bind; [by apply lib_run|]. eexists _, _. split_and!; [done..|]. cbn. by rewrite insert_insert_eq.
  - set (w2 := set_games _ w1). pose proof (human_place_ok g x y Hg Hv) as Hp.
    assert (w2.(game_map_) = <[u := after_user x y g]> w.(game_map_)) as Hw2 by apply insert_insert_eq.
    pose proof (after_human_answers req u (after_user x y g) w2 r body Hp) as Hans.
    cbv zeta in Hans. rewrite Hw2, delete_insert_eq, insert_insert_eq in Hans. apply Hans; [apply lookup_insert_eq|done].
Qed.

End runs.

(** ** The sessions of the game handlers *)
Section session_runs.
Context {D : Type} {HDb : Database D}.
Implicit Types (w : GomokuServer D) (r : HttpResponse) (u : Z).

Lemma getValue_prog_run p s (key : bytes) w r :
  session_at p s w.(sessions_of) -> on_sessions (getValue p key) (w, r) = (Ret (find_or_empty key s.(data_)), (w, r)).
Proof.
  intros Hat. unfold on_sessions, std_prog. rewrite (getValue_run p key s) by done. by rewrite set_sessions_same.
Qed.

Lemma logged_in_run p s w r :
  session_at p s w.(sessions_of) -> s.(data_) !! lit "isLoggedIn" = Some (lit "true") -> logged_in p (w, r) = (Ret true, (w, r)).
Proof.
  intros Hat Hl. unfold logged_in. rewrite (bind_run _ _ _ _ _ (getValue_prog_run p s _ w r Hat)).
  by rewrite (find_or_empty_some _ _ _ Hl).
Qed.

Lemma session_user_run p s u w r :
  session_at p s w.(sessions_of) -> stoi (find_or_empty (lit "userId") s.(data_)) = Ret u -> session_user p (w, r) = (Ret u, (w, r)).
Proof.
  intros Hat Hu. unfold session_user. rewrite (bind_run _ _ _ _ _ (getValue_prog_run p s _ w r Hat)). by rewrite Hu.
Qed.

End session_runs.

(** ** The theorems *)
Section theorems.
Context {D J : Type} {HDb : Database D} {HL : DatabaseLaws D} {HJ : Json J} {HS : StdSort pos}.
Implicit Types (w : GomokuServer D) (r : HttpResponse) (req : HttpRequest) (u : Z) (g : AiGame) (d : D) (fs : files).

(** The server, with or without TLS; [CTX] is a TLS context. *)
Context (CTX : Type) (ssl : bool).
Definition gomoku_serve : HttpRequest -> prog thrown (GomokuServer D * HttpResponse) unit :=
  handleRequest (server_ (J := J) CTX ssl).(Server.routes) (server_ (J := J) CTX ssl).(Server.middlewares).

(** A request is served; or, meanwhile, the database, the files and the random
    engine of the player go on by themselves. *)
Inductive server_step : GomokuServer D -> GomokuServer D -> Prop :=
| step_request req r o w w' r' : gomoku_serve req (w, r) = (o, (w', r')) -> server_step w w'
| step_outside d fs rnd n w : db_ok d ->
    server_step w (mkGomokuServer w.(sessions_of) w.(game_map_) w.(online_users) w.(maxOnline_) d fs rnd n).

Lemma new_server_ok d (ticks : nat -> Z) (ids : nat -> fin 16) fs rnd :
  db_ok d -> server_ok (new_GomokuServer d ticks ids fs rnd).
Proof.
  intros Hd. split; [split|by apply map_Forall_empty| |done].
  - intros id p Hp. cbn in Hp. by rewrite lookup_empty in Hp.
  - intros p s Hp. cbn in Hp. by rewrite lookup_nil in Hp.
  - done.
Qed.

Lemma server_step_ok w w' : server_step w w' -> server_ok w -> server_ok w'.
Proof.
  intros Hstep Hok. destruct Hstep as [req r o w w' r' Hrun|d fs rnd n w Hd].
  - destruct (handleRequest_safe (J := J) (CTX := CTX) ssl req w r Hok) as (w1 & r1 & Hrun1 & Hdur).
    unfold gomoku_serve in Hrun. rewrite Hrun1 in Hrun. injection Hrun as <- <- <-. apply Hdur.
  - by destruct Hok.
Qed.

(** C7. Every server that is reachable by any requests, with any database that
    returns or throws, keeps its invariant: the stored sessions are well formed
    and one that is marked as logged in names an [int] as its user; every game
    of the map is a well-formed game; the record of users online is at least
    their present number, as far as an [int] goes. And it answers every request: whatever a handler
    throws, [handleRequest] returns, and it never reaches undefined behaviour. *)
Theorem gomoku_reachable_ok d ticks ids fs rnd w :
  db_ok d -> star server_step (new_GomokuServer d ticks ids fs rnd) w ->
  server_ok w ∧ ∀ req r, ∃ w' r', gomoku_serve req (w, r) = (Ret tt, (w', r')) ∧ server_ok w'.
Proof.
  intros Hd Hstar. assert (server_ok w) as Hok
    by (eapply star_invariant; [apply server_step_ok|exact Hstar|by apply new_server_ok]).
  split; [done|]. intros req r. destruct (handleRequest_safe (J := J) (CTX := CTX) ssl req w r Hok) as (w' & r' & Hrun & Hdur & _).
  by exists w', r'.
Qed.

(** C9. A request changes the game of one user at most: the user of the live
    session whose cookie it carries. Every other game of the map, and so every
    game when the cookie names no live session, is left as it was. *)
Theorem games_private req w r o w' r' u :
  server_ok w -> gomoku_serve req (w, r) = (o, (w', r')) -> w'.(game_map_) !! u ≠ w.(game_map_) !! u ->
  ∃ p s, cookie_session req w.(sessions_of) = Some p ∧ w.(sessions_of).(heap) !! p = Some s ∧
    stoi (find_or_empty (lit "userId") s.(data_)) = Ret u.
Proof.
  intros Hok Hrun Hne. destruct (handleRequest_safe (J := J) (CTX := CTX) ssl req w r Hok) as (w1 & r1 & Hrun1 & _ & Hframe).
  unfold gomoku_serve in Hrun. rewrite Hrun1 in Hrun. injection Hrun as <- <- <-. destruct (decide (cookie_session req w.(sessions_of) = None)) as [Hc|Hc].
  - destruct Hne. apply Hframe. intros (p & s & Hp & _). congruence.
  - destruct (cookie_session req w.(sessions_of)) as [p|] eqn:Hp; [|done].
    destruct (cookie_session_stored req _ p (proj1 (sv_sessions w Hok)) Hp) as [s Hs].
    exists p, s. split_and!; [done|done|]. destruct (decide (stoi (find_or_empty (lit "userId") s.(data_)) = Ret u)) as [|Hno]; [done|].
    destruct Hne. apply Hframe. intros (p' & s' & Hp' & Hs' & Hu). rewrite Hp in Hp'. injection Hp' as <-.
    rewrite Hs in Hs'. by injection Hs' as <-.
Qed.

(** C18. A login with the name and password of a user marks the session the
    request names (or the new one) as logged in, with the user's id and name,
    makes the user online and leaves the games alone. It answers 200 with the
    id when the user was not online yet, and 403 when the user was: but the
    session is marked in that case too. *)
Theorem login_functional req w r (j : J) (username password ok_body refused_body : bytes) (x : row) rows d (id : Z) :
  server_ok w -> json_request req = true -> json_parse req.(content_) = inl j ->
  member_string j (lit "username") = inl username -> member_string j (lit "password") = inl password ->
  executeQuery (login_sql username password) w.(mysql_) = (Ret (x :: rows), d) -> getInt x (lit "id") = inl id -> id ≠ (-1)%Z ->
  dump (J := J) 4 (JObject [(lit "success", JBool true); (lit "userId", JInt id)]) = inl ok_body ->
  dump (J := J) 4 (JObject [(lit "success", JBool false); (lit "error", JString (lit "账号已在其他地方登录"))]) = inl refused_body ->
  ∃ p s w' r', LoginHandler (J := J) req (w, r) = (Ret tt, (w', r')) ∧
    session_at p s w'.(sessions_of) ∧ marked id username s ∧ is_online id w' = true ∧
    w'.(game_map_) = w.(game_map_) ∧
    (r'.(statusCode_), r'.(body_)) = (if is_online id w then (k403Forbidden, refused_body) else (k200Ok, ok_body)) ∧
    (∀ q, cookie_session req w.(sessions_of) = Some q -> p = q).
Proof.
  intros Hok Hj Hparse Hname Hpw Hquery Hid Hne Hyes Hno.
  assert (server_ok (set_mysql d w)) as Hok'.
  { destruct Hok as [? ? ? Hdb]. split; [done..|]. by eapply query_ok in Hquery as [? _]. }
  destruct (login_known_run req id username ok_body refused_body (set_mysql d w) r Hok' Hyes Hno) as (p & s & w' & r' & Hrun & Hrest).
  exists p, s, w', r'. split; [|exact Hrest]. unfold LoginHandler. rewrite Hj. cbn [negb]. apply try_ret.
  rewrite (bind_run _ _ _ _ _ (lib_run _ _ _ _ Hparse)), (bind_run _ _ _ _ _ (lib_run _ _ _ _ Hname)),
    (bind_run _ _ _ _ _ (lib_run _ _ _ _ Hpw)).
  assert (queryUser username password (w, r) = (Ret id, (set_mysql d w, r))) as Huser.
  { unfold queryUser. rewrite (bind_run _ _ _ _ _ (on_mysql_run _ _ _ _ _ Hquery)). by apply lib_run. }
  rewrite (bind_run _ _ _ _ _ Huser). by rewrite bool_decide_true.
Qed.

(** A live session, marked as logged in, of user [u]. *)
Definition logged_in_as req w u : Prop :=
  ∃ p s, cookie_session req w.(sessions_of) = Some p ∧ w.(sessions_of).(heap) !! p = Some s ∧
    s.(data_) !! lit "isLoggedIn" = Some (lit "true") ∧ stoi (find_or_empty (lit "userId") s.(data_)) = Ret u.

Lemma get_session_user req w r u :
  server_ok w -> logged_in_as req w u -> ∃ p s x, get_session req (w, r) = (Ret p, (set_sessions x w, r)) ∧
    sessions_ok x ∧ session_at p s x ∧ s.(data_) !! lit "isLoggedIn" = Some (lit "true") ∧
    stoi (find_or_empty (lit "userId") s.(data_)) = Ret u ∧ s.(sessionId_) = getSessionIdFromCookie req.
Proof.
  intros Hok (p & s & Hc & Hs & Hl & Hu). destruct (get_session_run req w r Hok) as (p' & s' & x & r' & Hrun & Hx & Hat & Hcase).
  rewrite Hc in Hcase. destruct Hcase as (-> & -> & Hid & Hd). rewrite Hs in Hd. injection Hd as Hd.
  exists p, s', x. rewrite <-Hd. by split_and!.
Qed.

(** C8. A move of a logged-in user: in the user's game, or a new one, a move
    that is legal is answered by the user's stone and, unless that ends the
    game, the computer's; the answer shows the board after both, who won or
    that it is a draw, whose turn it is and the computer's stone, and the game
    is forgotten exactly when it is over or drawn. Any other move is answered
    400 and the game is left as it was. *)
Theorem AiMove_functional req w r u (j : J) (x y : Z) body :
  server_ok w -> logged_in_as req w u ->
  json_parse req.(content_) = inl j -> member_int j (lit "x") = inl x -> member_int j (lit "y") = inl y ->
  let g := default (new_AiGame u) (w.(game_map_) !! u) in
  let g' := after_turn (w.(rands) w.(rands_used)) x y g in
  dump (J := J) (-1) (if isValidMove g x y then turn_answer (w.(rands) w.(rands_used)) x y g
                      else status_message (lit "error") (lit "Invalid move")) = inl body ->
  answers (AiMoveHandler (J := J) req) w r (if isValidMove g x y then k200Ok else k400BadRequest) body
    (if isValidMove g x y then if ended g' then delete u w.(game_map_) else <[u := g']> w.(game_map_)
     else <[u := g]> w.(game_map_)).
Proof.
  intros Hok Hin Hparse Hx Hy g g' Hdump.
  destruct (get_session_user req w r u Hok Hin) as (p & s & x0 & Hget & Hx0 & Hat & Hl & Hu & _).
  set (w1 := set_sessions x0 w). assert (server_ok w1) as Hok1 by by apply server_ok_sessions.
  assert (answers (make_move (J := J) req u x y) w1 r (if isValidMove g x y then k200Ok else k400BadRequest) body
    (if isValidMove g x y then if ended g' then delete u w.(game_map_) else <[u := g']> w.(game_map_)
     else <[u := g]> w.(game_map_))) as (w' & r' & Hrun & Hrest).
  { destruct (make_move_answers (J := J) req u x y w1 r body Hok1) as [Hbad Hgood].
    destruct (isValidMove g x y) eqn:Hv; [by apply Hgood|by apply Hbad]. }
  exists w', r'. split; [|exact Hrest]. unfold AiMoveHandler. apply try_ret.
  rewrite (bind_run _ _ _ _ _ Hget), (bind_run _ _ _ _ _ (logged_in_run p s w1 r Hat Hl)). cbn [negb].
  rewrite (bind_run _ _ _ _ _ (session_user_run p s u w1 r Hat Hu)), (bind_run _ _ _ _ _ (lib_run _ _ _ _ Hparse)),
    (bind_run _ _ _ _ _ (lib_run _ _ _ _ Hx)), (bind_run _ _ _ _ _ (lib_run _ _ _ _ Hy)). exact Hrun.
Qed.

(** What a logout does before it reads the body: the session is destroyed. *)
Lemma logout_destroys req w r u :
  server_ok w -> logged_in_as req w u -> ∃ x, cookie_session req x = None ∧
    ∀ k : Z -> prog thrown (GomokuServer D * HttpResponse) unit,
      (session ← get_session req;
       v ← on_sessions (getValue session (lit "userId"));
       userId ← outcome_of (stoi v);
       on_sessions (clear session);;
       s ← on_sessions (deref session);
       on_sessions (destroySession s.(sessionId_));;
       k userId) (w, r) = k u (set_sessions x w, r).
Proof.
  intros Hok Hin. destruct (get_session_user req w r u Hok Hin) as (p & s & x & Hget & Hx & Hat & Hl & Hu & Hid).
  set (w1 := set_sessions x w). set (x2 := store_data p ∅ s x).
  assert (session_at p (with_data ∅ s) x2) as Hat2.
  { destruct Hat as (Hp & Hm & Hst). split_and!; [|done|done]. apply list_lookup_insert_eq. by eapply lookup_lt_Some. }
  set (x3 := set_storage (delete s.(sessionId_) x2.(storage_)) x2). exists x3. split.
  { unfold cookie_session. destruct (getSessionIdFromCookie req) as [|c id'] eqn:Hcookie; [done|].
    cbn [x3 set_storage storage_ stored memory_storage]. rewrite <-Hid. by rewrite lookup_delete_eq. }
  intros k. assert (on_sessions (clear p) (w1, r) = (Ret tt, (set_sessions x2 w, r))) as Hclear
    by (apply (on_sessions_run _ w1); by apply clear_run).
  assert (on_sessions (deref p) (set_sessions x2 w, r) = (Ret (with_data ∅ s), (set_sessions x2 w, r))) as Hderef
    by (apply (on_sessions_run _ (set_sessions x2 w)); by apply deref_run, Hat2).
  assert (on_sessions (destroySession (with_data ∅ s).(sessionId_)) (set_sessions x2 w, r) = (Ret tt, (set_sessions x3 w, r))) as Hdestroy
    by (apply (on_sessions_run _ (set_sessions x2 w)); by apply (destroySession_run p (with_data ∅ s))).
  rewrite (bind_run _ _ _ _ _ Hget), (bind_run _ _ _ _ _ (getValue_prog_run p s _ w1 r Hat)).
  rewrite (bind_run (outcome_of _) _ _ u (w1, r)) by by rewrite Hu.
  by rewrite (bind_run _ _ _ _ _ Hclear), (bind_run _ _ _ _ _ Hderef), (bind_run _ _ _ _ _ Hdestroy).
Qed.

(** A logout whose body is not JSON, or names no game type, destroys the
    session before it reads the body: it answers 500, the cookie no longer
    names a session, and the user stays online, so that later logins of that
    user are refused. *)
Theorem logout_half_done req w r u (e : string) body :
  server_ok w -> logged_in_as req w u -> json_request req = true ->
  match json_parse (J := J) req.(content_) with
  | inl j => member_int j (lit "gameType") = inr e
  | inr e' => e' = e
  end ->
  dump (J := J) 4 (status_message (lit "error") (lit e)) = inl body ->
  ∃ w' r', LogoutHandler (J := J) req (w, r) = (Ret tt, (w', r')) ∧
    r'.(statusCode_) = k500InternalServerError ∧ r'.(body_) = body ∧
    cookie_session req w'.(sessions_of) = None ∧ w'.(online_users) = w.(online_users) ∧ w'.(game_map_) = w.(game_map_).
Proof.
  intros Hok Hin Hj Hbad Hdump. destruct (logout_destroys req w r u Hok Hin) as (x & Hnone & Hrun).
  unfold LogoutHandler. rewrite Hj. cbn [negb]. rewrite (try_throw _ _ _ (OtherException e) (set_sessions x w, r)).
  - cbn [what]. rewrite (bind_run _ _ _ _ _ (lib_run _ _ _ _ Hdump)). eexists (set_sessions x w), _. by split; [reflexivity|].
  - rewrite Hrun. destruct (json_parse req.(content_)) as [j|e'].
    + rewrite (bind_run _ _ _ _ _ (lib_run _ _ _ _ eq_refl)). apply bind_throw. by rewrite Hbad.
    + apply bind_throw. by rewrite Hbad.
Qed.

End theorems.

(** ** Witnesses *)

(** One user, "bob", number 7. *)
#[export] Instance sample_users : Database unit := {|
  executeQuery _ := mret [{[ lit "id" := lit "7" ]}];
  executeUpdate _ := mret 1%Z;
  getInt x col := match stoi (find_or_empty col x) with Ret n => inl n | _ => inr "not a number"%string end
|}.
#[export] Instance sample_users_laws : DatabaseLaws unit.
Proof.
  refine {| db_ok _ := True |}.
  - by intros text d o d' _ [= <- <-].
  - by intros text d o d' _ [= <- <-].
  - intros x col n. cbn. destruct (stoi (find_or_empty col x)) as [m| |] eqn:Hm; [|done..]. intros [= <-].
    unfold stoi, stoi_unsigned in Hm. repeat case_match; by simplify_eq.
Defined.

(** Texts that stand for objects with a name, a password and the point (7, 7);
    an object is written as its first key. *)
#[export] Instance sample_json : Json bytes := {|
  json_parse text := inl text;
  member_string _ key := inl (lit "bob");
  member_int _ key := if bool_decide (key = lit "gameType") then inr "no number"%string else inl 7%Z;
  dump _ v := inl (match v with JObject ((key, _) :: _) => key | _ => [] end)
|}.

Definition sample_request (m : Method) (path cookie : bytes) : HttpRequest :=
  mkHttpRequest m (lit "HTTP/1.1") path ∅ ∅
    {[ lit "Content-Type" := lit "application/json"; lit "Cookie" := cookie ]} 2 (lit "{}") default_timestamp.

Abbreviation post := (sample_request kPost).

Definition sample_serve (req : HttpRequest) (w : GomokuServer unit) : GomokuServer unit :=
  (gomoku_serve (J := bytes) unit false req (w, new_response true)).2.1.

Definition fresh_server : GomokuServer unit :=
  new_GomokuServer tt (λ n, seconds (Z.of_nat n)) (λ n, if Nat.even n then 10%fin else 3%fin) (λ _, None) (λ _, 0).
Definition bob_cookie : bytes := lit "sessionId=a3a3a3a3a3a3a3a3a3a3a3a3a3a3a3a".
(** After bob's login. *)
Definition bob_server : GomokuServer unit := sample_serve (post (lit "/login") []) fresh_server.

Lemma sample_step req w : server_step (J := bytes) unit false w (sample_serve req w).
Proof.
  unfold sample_serve. destruct (gomoku_serve _ _ req (w, new_response true)) as [o [w' r']] eqn:Hrun.
  by eapply (step_request unit false req (new_response true) o w w' r').
Defined.

Lemma fresh_server_ok : server_ok fresh_server.
Proof. by apply new_server_ok. Defined.

Lemma bob_server_ok : server_ok bob_server.
Proof. apply (server_step_ok (J := bytes) unit false fresh_server); [apply sample_step|apply fresh_server_ok]. Defined.

Lemma bob_logged_in path : logged_in_as (post path bob_cookie) bob_server 7.
Proof.
  eexists 0, _. split_and!; [vm_compute; reflexivity|vm_compute; reflexivity|vm_compute; reflexivity|vm_compute; reflexivity].
Defined.

(** Over the pool of connections of the sample driver. *)
Lemma gomoku_reachable_ok_witness :
  let w := new_GomokuServer sample_db (λ n, seconds (Z.of_nat n)) (λ _, 10%fin) (λ _, None) (λ _, 0) in
  ∃ w' r', gomoku_serve (J := bytes) unit false
      (post (lit "/login") []) (w, new_response true) = (Ret tt, (w', r')) ∧ server_ok w'.
Proof.
  intros w.
  destruct (gomoku_reachable_ok (J := bytes) unit false sample_db (λ n, seconds (Z.of_nat n)) (λ _, 10%fin) (λ _, None) (λ _, 0) w)
    as [_ Hserve].
  - split; [|vm_compute; discriminate]. eapply (pool_init_inv (lit "h") (lit "u") (lit "p") (lit "d") 1 []);
      [|apply surjective_pairing]. split; [done|]. cbn. lia.
  - apply star_refl.
  - apply Hserve.
Defined.

Lemma games_private_witness :
  ∃ p s, cookie_session (sample_request kGet (lit "/aiBot/start") bob_cookie) bob_server.(sessions_of) = Some p ∧
    bob_server.(sessions_of).(heap) !! p = Some s ∧ stoi (find_or_empty (lit "userId") s.(data_)) = Ret 7%Z.
Proof.
  destruct (gomoku_serve (J := bytes) unit false
    (sample_request kGet (lit "/aiBot/start") bob_cookie) (bob_server, new_response true)) as [o [w' r']] eqn:Hrun.
  apply (games_private (J := bytes) unit false (sample_request kGet (lit "/aiBot/start") bob_cookie) bob_server (new_response true) o w' r' 7).
  - apply bob_server_ok.
  - exact Hrun.
  - assert (bool_decide (is_Some (w'.(game_map_) !! 7%Z)) = true) as Hsome.
    { transitivity (bool_decide (is_Some ((game_map_ (o, (w', r')).2.1) !! 7%Z))); [reflexivity|].
      rewrite <-Hrun. vm_compute. reflexivity. }
    intros Hsame. rewrite Hsame in Hsome. vm_compute in Hsome. discriminate.
Defined.

(** Bob logs in again from elsewhere. *)
Lemma login_functional_witness :
  ∃ p s w' r', LoginHandler (J := bytes) (post (lit "/login") []) (bob_server, new_response true) = (Ret tt, (w', r')) ∧
    session_at p s w'.(sessions_of) ∧ marked 7 (lit "bob") s ∧ r'.(statusCode_) = k403Forbidden.
Proof.
  destruct (login_functional (post (lit "/login") []) bob_server (new_response true) (lit "{}") (lit "bob") (lit "bob")
    (lit "success") (lit "success") {[ lit "id" := lit "7" ]} [] tt 7) as (p & s & w' & r' & Hrun & Hat & Hm & _ & _ & Hr & _).
  1: apply bob_server_ok.
  1-9: vm_compute; done.
  exists p, s, w', r'. split; [exact Hrun|]. split; [exact Hat|]. split; [exact Hm|]. vm_compute in Hr. by injection Hr.
Defined.

Lemma AiMove_functional_witness :
  ∃ games, answers (AiMoveHandler (J := bytes) (post (lit "/aiBot/move") bob_cookie)) bob_server (new_response true)
    k200Ok (lit "status") games.
Proof.
  pose proof (AiMove_functional (post (lit "/aiBot/move") bob_cookie) bob_server (new_response true) 7 (lit "{}") 7 7
    (lit "status") bob_server_ok (bob_logged_in _) eq_refl eq_refl eq_refl) as Hmove.
  assert (isValidMove (default (new_AiGame 7) (bob_server.(game_map_) !! 7%Z)) 7 7 = true) as Hv by (vm_compute; reflexivity).
  cbv zeta in Hmove. rewrite Hv in Hmove. eexists. apply Hmove. reflexivity.
Defined.

Lemma logout_half_done_witness :
  ∃ w' r', LogoutHandler (J := bytes) (post (lit "/user/logout") bob_cookie) (bob_server, new_response true) = (Ret tt, (w', r')) ∧
    cookie_session (post (lit "/user/logout") bob_cookie) w'.(sessions_of) = None ∧
    w'.(online_users) = bob_server.(online_users).
Proof.
  destruct (logout_half_done (J := bytes) (post (lit "/user/logout") bob_cookie) bob_server (new_response true) 7
    "no number" (lit "status") bob_server_ok (bob_logged_in _)) as (w' & r' & Hrun & _ & _ & Hc & Hon & _);
    [vm_compute; reflexivity|vm_compute; reflexivity|reflexivity|].
  exists w', r'. split; [exact Hrun|]. split; [exact Hc|exact Hon].
Defined.
