(* ===== verification/Overlap.v ===== *)
(** * Requests that overlap

    [main.cpp] gives the server four threads, so requests of different
    connections are handled at the same time. The handler of a move works for
    long on a game that it holds through a reference into [game_map_], which no
    lock protects: [WebAPP/Gomoku/src/handlers/AiMoveHandler.cpp], lines 36 to
    178. Here the handler is cut in two where the computer begins to think, other
    requests are served in between, and the second half goes on. *)

From S2P Require Export GomokuTheorems.

Section overlap.
Context {D J : Type} {HDb : Database D} {HL : DatabaseLaws D} {HJ : Json J} {HS : StdSort pos}.
Implicit Types (w : GomokuServer D) (r : HttpResponse) (req : HttpRequest) (u : Z) (g : AiGame).

Abbreviation handler_prog A := (prog thrown (GomokuServer D * HttpResponse) A).

(** ** The two halves of the handler of a move *)

(** The [catch] block. *)
Definition move_failed req (e : std_exception) : handler_prog unit :=
  errorBody ← lib (dump (J := J) (-1) (status_message (lit "error") (lit (what e))));
  packageResp req.(version_) k500InternalServerError (lit "Internal Server Error") false (lit "application/json")
    errorBody (int_length errorBody).

(** The [try] block up to the computer's move: the user whose game goes on, or
    [None] when the request has been answered. *)
Definition human_turn req u (x y : Z) : handler_prog (option Z) :=
  '(w, _) ← get;
  (if bool_decide (w.(game_map_) !! u = None)
   then on_server (λ w, set_games (<[u := new_AiGame u]> w.(game_map_)) w) else mret tt);;
  moved ← on_game u (λ _, humanMove x y);
  if negb moved then
    errorBody ← lib (dump (J := J) (-1) (status_message (lit "error") (lit "Invalid move")));
    reply req k400BadRequest (lit "Bad Request") false (lit "application/json") errorBody;;
    mret None
  else
    g ← read_game u;
    if isGameOver g then finish_turn (J := J) req u g.(winner_) false;; mret None
    else if isDraw g then finish_turn (J := J) req u (lit "draw") false;; mret None
    else mret (Some u).

Definition move_head req : handler_prog (option Z) :=
  session ← get_session req;
  ok ← logged_in session;
  if negb ok then unauthorized_swapped (J := J) req;; mret None
  else
    userId ← session_user session;
    request ← lib (json_parse (J := J) req.(content_));
    x ← lib (member_int request (lit "x"));
    y ← lib (member_int request (lit "y"));
    human_turn req userId x y.

(** From [game->aiMove()] on. *)
Definition move_tail req u : handler_prog unit :=
  on_game u aiMove;;
  on_server use_rand;;
  after_ai (J := J) req u.

Definition move_before req : handler_prog (option Z) := try_std (move_head req) (λ e, move_failed req e;; mret None).
Definition move_after req u : handler_prog unit := try_std (move_tail req u) (move_failed req).

(** ** The halves are the handler *)

Lemma try_halves {A} (m : handler_prog (option A)) (f : A -> handler_prog unit) h σ :
  try_std (m ≫= λ o, match o with None => mret tt | Some a => f a end) h σ =
  (try_std m (λ e, h e;; mret None) ≫= λ o, match o with None => mret tt | Some a => try_std (f a) h end) σ.
Proof.
  unfold try_std, catch, mbind, prog_bind. destruct (m σ) as [[[a|]|[e|e]|x] σ']; try done.
  by destruct (h e σ') as [[[]|e'|x] σ''].
Qed.

Lemma then_none (m : handler_prog unit) (f : Z -> handler_prog unit) σ :
  ((m;; mret None) ≫= λ o, match o with None => mret tt | Some u => f u end) σ = m σ.
Proof. unfold mbind, prog_bind. by destruct (m σ) as [[[]|e|x] σ']. Qed.

Lemma human_turn_halves req u x y σ :
  make_move (J := J) req u x y σ =
  (human_turn req u x y ≫= λ o, match o with None => mret tt | Some u => move_tail req u end) σ.
Proof.
  unfold make_move, human_turn. rewrite prog_bind_assoc. apply bind_congr. intros [w r] σ1.
  rewrite prog_bind_assoc. apply bind_congr. intros [] σ2. rewrite prog_bind_assoc. apply bind_congr. intros moved σ3.
  destruct moved; cbn [negb].
  - unfold after_human. rewrite prog_bind_assoc. apply bind_congr. intros g σ4.
    destruct (isGameOver g); [by rewrite then_none|]. destruct (isDraw g); [by rewrite then_none|done].
  - rewrite prog_bind_assoc. apply bind_congr. intros errorBody σ4. by rewrite then_none.
Qed.

Lemma AiMoveHandler_halves req σ :
  AiMoveHandler (J := J) req σ =
  (move_before req ≫= λ o, match o with None => mret tt | Some u => move_after req u end) σ.
Proof.
  unfold move_before, move_after. rewrite <-try_halves. unfold AiMoveHandler.
  change (try_std ?m _ σ) with (try_std m (move_failed req) σ) at 1.
  apply catch_congr; [|done]. unfold move_head.
  rewrite prog_bind_assoc. apply bind_congr. intros session σ1. rewrite prog_bind_assoc. apply bind_congr. intros ok σ2.
  destruct ok; cbn [negb]; [|by rewrite then_none].
  do 4 (rewrite prog_bind_assoc; apply bind_congr; intros ? ?). apply human_turn_halves.
Qed.

(** ** The first half *)

(** The game of [u] goes on, and it is the computer's turn. *)
Definition computer_to_move u g w : Prop := w.(game_map_) !! u = Some g ∧ game_ok g ∧ ended g = false.

Lemma human_turn_safe req w0 u x y w r :
  owns req w0 u -> during req w0 w ->
  safe (during req w0) (human_turn req u x y) w r (λ o w', during req w0 w' ∧ ∀ v, o = Some v -> v = u ∧ ∃ g, computer_to_move u g w').
Proof.
  intros Hown HI. unfold human_turn. apply safe_bind, safe_get. intros r1. cbn beta iota. apply safe_bind.
  apply (safe_mono _ _ _ _ (λ _ w', ∃ g, playing req w0 u g w')).
  { case_bool_decide as Hnone.
    - apply safe_on_server. exists (new_AiGame u). split; [by apply during_game; [|apply new_game_ok|]|].
      cbn. by rewrite lookup_insert_eq.
    - destruct (w.(game_map_) !! u) as [g|] eqn:Hg; [|done]. apply safe_ret. by exists g. }
  intros [] w1 (g & Hp) r2. pose proof (playing_ok req w0 u g w1 Hp) as Hok. apply safe_bind.
  pose proof (humanMove_run g x y) as Hrun. pose proof (human_place_ok g x y Hok) as Hplace.
  destruct (isValidMove g x y); (eapply safe_on_game; [apply Hp|exact Hrun|]; intros r3; cbn [negb]).
  - specialize (Hplace eq_refl). set (g' := place _ _ _ _ g) in *. set (w2 := set_games _ w1).
    assert (playing req w0 u g' w2) as Hp2 by by apply (playing_game req w0 u Hown g).
    apply safe_bind. eapply safe_read_game; [apply Hp2|]. intros r4.
    assert (∀ winner, safe (during req w0) (finish_turn (J := J) req u winner false;; mret None) w2 r4
      (λ o w', during req w0 w' ∧ ∀ v : Z, o = Some v -> v = u ∧ ∃ g, computer_to_move u g w')) as Hfin.
    { intros winner. apply safe_bind. eapply safe_mono; [by eapply finish_turn_safe|].
      intros [] w3 HI3 r5. by apply safe_ret. }
    destruct (isGameOver g') eqn:Ho; [apply Hfin|]. destruct (isDraw g') eqn:Hd; [apply Hfin|].
    apply safe_ret. split; [apply Hp2|]. intros v [= <-]. split; [done|]. exists g'. split_and!; [apply Hp2|done|].
    unfold ended. by rewrite Ho, Hd.
  - destruct (playing_game req w0 u Hown g g w1 Hp Hok) as [HI1 _]. apply safe_bind, safe_lib; [done|]. intros body _ r4.
    apply safe_bind, safe_on_resp. intros r5. by apply safe_ret.
Qed.

Lemma move_before_safe req w r :
  server_ok w -> safe (during req w) (move_before req) w r
    (λ o w', during req w w' ∧ ∀ u, o = Some u -> ∃ g, computer_to_move u g w').
Proof.
  intros Hok. apply safe_try.
  2:{ intros e w' r' HI. unfold move_failed. apply safe_bind, safe_bind, safe_lib; [done|]. intros b _ r1.
      apply safe_on_resp. intros r2. by apply safe_ret. }
  unfold move_head. apply safe_bind, safe_get_session; [by apply during_refl|].
  intros p s x Hx Hat Hown r1. specialize (Hown eq_refl). pose proof (proj1 Hown) as HI.
  apply safe_bind, (safe_logged_in _ _ p s); [done|]. intros r2. destruct (negb _).
  { unfold unauthorized_swapped. apply safe_bind, safe_bind, safe_lib; [done|]. intros b _ r3.
    apply safe_on_resp. intros r4. by apply safe_ret. }
  apply safe_bind, (safe_session_user _ _ p s); [done|]. intros u Hu r3.
  apply safe_bind, safe_lib; [done|]. intros j _ r4. apply safe_bind, safe_lib; [done|]. intros mx _ r5.
  apply safe_bind, safe_lib; [done|]. intros my _ r6.
  eapply safe_mono; [by apply human_turn_safe|]. intros o w' [HI' Ho]. split; [done|].
  intros v Hv. by destruct (Ho v Hv) as [-> ?].
Qed.

(** ** The second half *)

Lemma move_failed_run req e w r : ∃ o r', move_failed req e (w, r) = (o, (w, r')) ∧ ∀ x, o ≠ Halt x.
Proof.
  unfold move_failed. destruct (dump (J := J) (-1) _) as [b|e'].
  - rewrite (bind_run _ _ _ _ _ (lib_run _ _ _ _ eq_refl)). by eexists _, _.
  - erewrite bind_throw by done. by eexists _, _.
Qed.

(** It changes the game of [u] only, and halts only without one. *)
Lemma move_after_run req u g w r :
  game_ok g -> w.(game_map_) !! u = Some g ->
  ∃ o games r', move_after req u (w, r) = (o, (set_games games (use_rand w), r')) ∧ (∀ x, o ≠ Halt x) ∧
    (games = <[u := answered (w.(rands) w.(rands_used)) g]> w.(game_map_) ∨ games = delete u w.(game_map_)).
Proof.
  intros Hok Hg. destruct (aiMove_answered (w.(rands) w.(rands_used)) g Hok) as [Hai _]. set (g' := answered _ g) in *.
  set (games := <[u := g']> w.(game_map_)). set (w1 := set_games games (use_rand w)).
  assert (w1.(game_map_) !! u = Some g') as Hg1 by apply lookup_insert_eq.
  assert (∀ r1, ∃ o games' r', after_ai (J := J) req u (w1, r1) = (o, (set_games games' (use_rand w), r')) ∧
    (∀ x, o ≠ Halt x) ∧ (o = Ret tt ∨ ∃ e, o = Throw (ThrownStd e)) ∧ (games' = games ∨ games' = delete u w.(game_map_))) as Hafter.
  { intros r1. unfold after_ai. rewrite (bind_run _ _ _ _ _ (read_game_run u w1 r1 g' Hg1)).
    assert (∀ winner, ∃ o games' r', finish_turn (J := J) req u winner true (w1, r1) = (o, (set_games games' (use_rand w), r')) ∧
      (∀ x, o ≠ Halt x) ∧ (o = Ret tt ∨ ∃ e, o = Throw (ThrownStd e)) ∧ (games' = games ∨ games' = delete u w.(game_map_))) as Hfin.
    { intros winner. unfold finish_turn. rewrite (bind_run _ _ _ _ _ (read_game_run u w1 r1 g' Hg1)).
      destruct (dump (J := J) (-1) (turn_json g' winner (lit "none") true)) as [b|e].
      - rewrite (bind_run _ _ _ _ _ (lib_run _ _ _ _ eq_refl)). eexists _, (delete u games), _. split; [reflexivity|].
        split_and!; [done|by left|right]. apply delete_insert_eq.
      - erewrite bind_throw by done. eexists _, games, _. split; [reflexivity|]. split_and!; [done|right; by eexists|by left]. }
    destruct (isGameOver g'); [apply Hfin|]. destruct (isDraw g'); [apply Hfin|].
    destruct (dump (J := J) (-1) (turn_json g' (lit "none") (lit "human") true)) as [b|e].
    - rewrite (bind_run _ _ _ _ _ (lib_run _ _ _ _ eq_refl)). eexists _, games, _. split; [reflexivity|]. split_and!; [done|by left|by left].
    - erewrite bind_throw by done. eexists _, games, _. split; [reflexivity|]. split_and!; [done|right; by eexists|by left]. }
  assert (∀ σ, move_tail req u (w, r) = σ -> σ = after_ai (J := J) req u (w1, r)) as Htail.
  { intros σ <-. unfold move_tail. rewrite (bind_run _ _ _ _ _ (on_game_run u aiMove w r g tt g' Hg Hai)).
    by rewrite (bind_run (on_server _) _ _ _ _ eq_refl). }
  destruct (Hafter r) as (o & games' & r' & Hrun & Hno & Ho & Hgames). unfold move_after.
  destruct Ho as [->|[e ->]].
  - rewrite (try_ret _ _ _ tt (set_games games' (use_rand w), r')); [by eexists _, games', _|by rewrite (Htail _ eq_refl)].
  - rewrite (try_throw _ _ _ e (set_games games' (use_rand w), r')); [|by rewrite (Htail _ eq_refl)].
    destruct (move_failed_run req e (set_games games' (use_rand w)) r') as (o & r2 & -> & Ho). by eexists o, games', r2.
Qed.

Lemma move_after_no_game req u w r : w.(game_map_) !! u = None -> (move_after req u (w, r)).1 = Halt UndefinedBehaviour.
Proof.
  intros Hg. unfold move_after, try_std, catch, move_tail.
  assert (on_game u aiMove (w, r) = (Halt UndefinedBehaviour, (w, r))) as Hrun by (unfold on_game; by rewrite Hg).
  by rewrite (bind_halt _ _ _ _ _ Hrun).
Qed.

End overlap.

(** ** Requests in between *)

Section between.
Context {D J : Type} {HDb : Database D} {HL : DatabaseLaws D} {HJ : Json J} {HS : StdSort pos}.
Implicit Types (w : GomokuServer D) (r : HttpResponse) (req : HttpRequest) (u : Z) (g : AiGame) (d : D) (fs : files).
Context (CTX : Type) (ssl : bool).

(** What the other threads do that is not a request of user [u]: whole requests,
    the halves of moves, and what the database, the files and the random engine
    do by themselves. *)
Inductive other_step u : GomokuServer D -> GomokuServer D -> Prop :=
| other_request req r o w w' r' :
    gomoku_serve (J := J) CTX ssl req (w, r) = (o, (w', r')) -> ¬ owns req w u -> other_step u w w'
| other_begins req r o w w' r' :
    move_before (J := J) req (w, r) = (o, (w', r')) -> ¬ owns req w u -> other_step u w w'
| other_ends req v r w w' r' :
    move_after (J := J) req v (w, r) = (Ret tt, (w', r')) -> v ≠ u -> other_step u w w'
| other_outside d fs rnd n w : db_ok d ->
    other_step u w (mkGomokuServer w.(sessions_of) w.(game_map_) w.(online_users) w.(maxOnline_) d fs rnd n).

Lemma other_step_frame u w w' :
  other_step u w w' -> server_ok w -> server_ok w' ∧ w'.(game_map_) !! u = w.(game_map_) !! u.
Proof.
  intros Hstep Hok. destruct Hstep as [req r o w w' r' Hrun Hno|req r o w w' r' Hrun Hno|req v r w w' r' Hrun Hne|d fs rnd n w Hd].
  - destruct (handleRequest_safe (J := J) (CTX := CTX) ssl req w r Hok) as (w1 & r1 & Hrun1 & Hok1 & Hframe).
    unfold gomoku_serve in Hrun. rewrite Hrun1 in Hrun. injection Hrun as _ <- _. split; [done|by apply Hframe].
  - pose proof (move_before_safe (J := J) req w r Hok) as Hs. unfold safe in Hs. rewrite Hrun in Hs.
    destruct o as [o|e|x]; [destruct Hs as [[Hok1 Hframe] _]|destruct Hs as [Hok1 Hframe]|done]; (split; [done|by apply Hframe]).
  - destruct (w.(game_map_) !! v) as [g|] eqn:Hg.
    + pose proof (sv_games w Hok v g Hg) as Hgok.
      destruct (move_after_run (J := J) req v g w r Hgok Hg) as (o & games & r1 & Hrun1 & _ & Hgames).
      rewrite Hrun in Hrun1. injection Hrun1 as _ -> _. destruct (aiMove_answered (w.(rands) w.(rands_used)) g Hgok) as [_ Hans].
      destruct Hgames as [->| ->]; cbn.
      * split; [|by apply lookup_insert_ne]. destruct (server_ok_game v _ w Hok Hans). by split.
      * split; [|by apply lookup_delete_ne]. destruct (server_ok_forget v w Hok). by split.
    + pose proof (move_after_no_game (J := J) req v w r Hg) as Hhalt. by rewrite Hrun in Hhalt.
  - by destruct Hok.
Qed.

Lemma others_frame u w w' :
  star (other_step u) w w' -> server_ok w -> server_ok w' ∧ w'.(game_map_) !! u = w.(game_map_) !! u.
Proof.
  induction 1 as [w|w1 w2 w3 Hstep _ IH]; [done|]. intros Hok.
  destruct (other_step_frame u w1 w2 Hstep Hok) as [Hok2 Hg2]. destruct (IH Hok2) as [Hok3 Hg3]. split; [done|congruence].
Qed.

(** A logout of user [u] from the game against the computer forgets the game,
    whatever it answers. *)
Lemma logout_forgets req w r o w' r' u (j : J) :
  server_ok w -> logged_in_as req w u -> json_request req = true -> json_parse req.(content_) = inl j ->
  member_int j (lit "gameType") = inl MAN_VS_AI -> LogoutHandler (J := J) req (w, r) = (o, (w', r')) ->
  server_ok w' ∧ w'.(game_map_) !! u = None.
Proof.
  intros Hok Hin Hjson Hparse Htype Hrun. split.
  { pose proof (LogoutHandler_safe (J := J) req w r Hok) as Hs. unfold safe in Hs. rewrite Hrun in Hs.
    destruct o; [apply Hs|apply Hs|done]. }
  destruct (logout_destroys req w r u Hok Hin) as (x & _ & Hlogout). unfold LogoutHandler in Hrun. rewrite Hjson in Hrun. cbn [negb] in Hrun.
  unfold try_std, catch in Hrun. rewrite Hlogout in Hrun.
  rewrite (bind_run _ _ _ _ _ (lib_run _ _ _ _ Hparse)), (bind_run _ _ _ _ _ (lib_run _ _ _ _ Htype)),
    (bind_run (on_server _) _ _ _ _ eq_refl), bool_decide_true, (bind_run (on_server _) _ _ _ _ eq_refl) in Hrun by done.
  set (w2 := set_games _ _) in Hrun. assert (w2.(game_map_) !! u = None) as Hnone by apply lookup_delete_eq.
  destruct (dump (J := J) 4 (JObject _)) as [b|e].
  - rewrite (bind_run _ _ _ _ _ (lib_run _ _ _ _ eq_refl)) in Hrun. by injection Hrun as _ <- _.
  - erewrite bind_throw in Hrun by done. cbn [what] in Hrun. destruct (dump (J := J) 4 _) as [b|e'].
    + rewrite (bind_run _ _ _ _ _ (lib_run _ _ _ _ eq_refl)) in Hrun. by injection Hrun as _ <- _.
    + erewrite bind_throw in Hrun by done. by injection Hrun as _ <- _.
Qed.

(** C10. A move while other requests are handled. The handler is cut where the
    computer is to move: the first half has placed the user's stone, and the
    game goes on. Whatever the other threads do that is not a request of the same
    user, the second half finds that game as it was left, and answers with the
    computer's reply to it, as it would have alone; the game is forgotten exactly
    when it has ended, and no other game is touched. But when a logout of the
    user from the same session, or another one, comes in between, it destroys the
    game the move holds a reference to, and the second half is undefined. (A
    start or restart in between, which puts a new game in the place of the
    destroyed one, is not told apart by a look-up and not covered.) *)
Theorem overlapping_move req w r u w1 r1 :
  server_ok w -> move_before (J := J) req (w, r) = (Ret (Some u), (w1, r1)) ->
  AiMoveHandler (J := J) req (w, r) = move_after (J := J) req u (w1, r1) ∧
  ∃ g, w1.(game_map_) !! u = Some g ∧ ended g = false ∧
  ∀ w2, star (other_step u) w1 w2 ->
    (∀ body, let g' := answered (w2.(rands) w2.(rands_used)) g in
      dump (J := J) (-1) (turn_json g' (winner_text g') (if ended g' then lit "none" else lit "human") true) = inl body ->
      answers (move_after (J := J) req u) w2 r1 k200Ok body
        (if ended g' then delete u w2.(game_map_) else <[u := g']> w2.(game_map_))) ∧
    (∀ req' r' (j : J) o w3 r3 w4,
      logged_in_as req' w2 u -> json_request req' = true -> json_parse req'.(content_) = inl j ->
      member_int j (lit "gameType") = inl MAN_VS_AI ->
      LogoutHandler (J := J) req' (w2, r') = (o, (w3, r3)) -> star (other_step u) w3 w4 ->
      (move_after (J := J) req u (w4, r1)).1 = Halt UndefinedBehaviour).
Proof.
  intros Hok Hrun. split.
  { rewrite AiMoveHandler_halves. by rewrite (bind_run _ _ _ _ _ Hrun). }
  pose proof (move_before_safe (J := J) req w r Hok) as Hs. unfold safe in Hs. rewrite Hrun in Hs.
  destruct Hs as [[Hok1 _] Hsome]. destruct (Hsome u eq_refl) as (g & Hg & Hgok & Hend). exists g. split_and!; [done|done|].
  intros w2 Hstar. destruct (others_frame u w1 w2 Hstar Hok1) as [Hok2 Hg2]. rewrite Hg in Hg2. split.
  - intros body g' Hdump. destruct (after_human_answers (J := J) req u g w2 r1 body Hgok Hg2) as (w' & r' & Hans & Hrest);
      rewrite ?Hend; [exact Hdump|]. rewrite Hend in Hrest. exists w', r'. split; [|exact Hrest].
    apply try_ret. unfold move_tail. unfold after_human in Hans. rewrite (bind_run _ _ _ _ _ (read_game_run u w2 r1 g Hg2)) in Hans.
    apply orb_false_iff in Hend as [Ho Hd]. by rewrite Ho, Hd in Hans.
  - intros req' r' j o w3 r3 w4 Hin Hjson Hparse Htype Hlogout Hstar'.
    destruct (logout_forgets req' w2 r' o w3 r3 u j) as [Hok3 Hg3]; try done.
    destruct (others_frame u w3 w4 Hstar' Hok3) as [_ Hg4]. apply move_after_no_game. congruence.
Qed.

End between.

(** ** A concrete overlap

    Every text is an object with the point (7, 7) and game type 1. *)
#[export] Instance overlap_json : Json unit := {|
  json_parse _ := inl tt;
  member_string _ _ := inl (lit "bob");
  member_int _ key := inl (if bool_decide (key = lit "gameType") then 1 else 7)%Z;
  dump _ v := inl (match v with JObject ((key, _) :: _) => key | _ => [] end)
|}.

(** Bob moves; alone the move is answered, and a logout in between ends the
    process. *)
Lemma overlapping_move_witness :
  let move := post (lit "/aiBot/move") bob_cookie in
  let logout := post (lit "/user/logout") bob_cookie in
  ∃ w1 r1 games, move_before (J := unit) move (bob_server, new_response true) = (Ret (Some 7%Z), (w1, r1)) ∧
    answers (move_after (J := unit) move 7) w1 r1 k200Ok (lit "status") games ∧
    (move_after (J := unit) move 7 ((LogoutHandler (J := unit) logout (w1, r1)).2.1, r1)).1 = Halt UndefinedBehaviour.
Proof.
  intros move logout. set (σ := (move_before (J := unit) move (bob_server, new_response true)).2).
  assert (move_before (J := unit) move (bob_server, new_response true) = (Ret (Some 7%Z), (σ.1, σ.2))) as Hrun.
  { assert ((move_before (J := unit) move (bob_server, new_response true)).1 = Ret (Some 7%Z)) as H1 by (vm_compute; reflexivity).
    unfold σ. rewrite <-H1. destruct (move_before move (bob_server, new_response true)) as [o [w' r']]. reflexivity. }
  destruct (overlapping_move (J := unit) unit false move bob_server (new_response true) 7 σ.1 σ.2 bob_server_ok Hrun)
    as (_ & g & _ & _ & Hmid).
  destruct (Hmid σ.1 (star_refl _ _)) as [Halone Hlogout].
  eexists σ.1, σ.2, _. split; [exact Hrun|]. split; [apply Halone; reflexivity|].
  destruct (LogoutHandler (J := unit) logout (σ.1, σ.2)) as [o [w3 r3]] eqn:Hl.
  apply (Hlogout logout σ.2 tt o w3 r3 w3).
  - eexists 0, _. split_and!; [vm_compute; reflexivity|vm_compute; reflexivity|vm_compute; reflexivity|vm_compute; reflexivity].
  - vm_compute. reflexivity.
  - reflexivity.
  - reflexivity.
  - exact Hl.
  - apply star_refl.
Defined.
