(* ===== verification/Site.v ===== *)
(** * The running site

    [WebAPP/Gomoku/src/main.cpp]: the server of [Gomoku.v] with its connections.
    Each connection is its own [ServerConn]; the state of the application, which
    they share, is kept apart and put in when a callback runs. Connections come,
    send any characters in any pieces, and go, in any order. The site is without
    TLS, as [main] makes it. *)

From S2P Require Export GomokuTheorems.

(** ** Connections over a shared application *)
Section site.
Context {W T B : Type} `{OpenSSL T} `{MuduoBuffer B}.
Variable empty_buffer : B.
Variable router_ : Router W.
Variable middlewareChain_ : list (option (Middleware W)).
Variable object_bytes : HttpResponse -> nat -> bytes.

(** A connection without the state of the application. *)
Abbreviation connection := (ServerConn unit T B).

Record site := mkSite {
  application : W;
  conns : gmap Z (ServerConn unit T B)
}.
Implicit Types (σ : connection) (s : site) (id : Z) (data : bytes) (t : Timestamp).

Definition attach (w : W) σ : ServerConn W T B :=
  mkServerConn w σ.(tcp) σ.(context_) σ.(input_) σ.(ssl_entry).
Definition detach (x : ServerConn W T B) : connection :=
  mkServerConn tt x.(tcp) x.(context_) x.(input_) x.(ssl_entry).
Definition put_conn id (x : ServerConn W T B) s : site := mkSite x.(world) (<[id := detach x]> s.(conns)).

(** A new connection is made and [onConnection] is called; [None] when the name
    is taken. *)
Definition site_connect id s : option (outcome thrown unit * site) :=
  match s.(conns) !! id with
  | Some _ => None
  | None =>
      let x := mkServerConn s.(application) (mkTcp [] ServerOnMessage) new_context empty_buffer None in
      let '(o, x) := onConnection empty_buffer false true x in
      Some (o, put_conn id x s)
  end.

(** Data arrives on a connection. *)
Definition site_data id data t s : option (outcome thrown unit * site) :=
  match s.(conns) !! id with
  | None => None
  | Some σ =>
      match deliver empty_buffer router_ middlewareChain_ false object_bytes 0 data t (attach s.(application) σ) with
      | None => None
      | Some (o, x) => Some (o, put_conn id x s)
      end
  end.

(** A connection goes: [onConnection], and then it is no more. *)
Definition site_disconnect id s : option (outcome thrown unit * site) :=
  match s.(conns) !! id with
  | None => None
  | Some σ =>
      let '(o, x) := onConnection empty_buffer false false (attach s.(application) σ) in
      Some (o, mkSite x.(world) (delete id s.(conns)))
  end.

(** What can happen, as long as every callback returns; [app_step] is what the
    application does by itself. *)
Inductive site_step (app_step : W -> W -> Prop) : site -> site -> Prop :=
| step_connect id s s' : site_connect id s = Some (Ret tt, s') -> site_step app_step s s'
| step_data id data t s s' : site_data id data t s = Some (Ret tt, s') -> site_step app_step s s'
| step_disconnect id s s' : site_disconnect id s = Some (Ret tt, s') -> site_step app_step s s'
| step_app w' s : app_step s.(application) w' -> site_step app_step s (mkSite w' s.(conns)).

End site.
Arguments site : clear implicits.
Arguments application {W T B}.
Arguments conns {W T B}.
Arguments mkSite {W T B}.

(** ** [main]

    [opts] are the options [getopt] finds for ["p:"], with their arguments. *)

(** [atoi], 0 without digits; out of range is undefined. *)
Definition atoi (s : bytes) : outcome std_exception Z :=
  match stoi s with
  | Ret n => Ret n
  | Throw (InvalidArgument _) => Ret 0%Z
  | _ => Halt UndefinedBehaviour
  end.

Fixpoint parse_options (port : Z) (opts : list (ascii * bytes)) : outcome std_exception Z :=
  match opts with
  | [] => Ret port
  | (c, optarg) :: opts =>
      if Ascii.eqb c "p"%char then
        match atoi optarg with
        | Ret n => parse_options n opts
        | Throw e => Throw e
        | Halt x => Halt x
        end
      else parse_options port opts
  end.

Section main.
Context {D J C : Type} {HD : SqlDriver D C} {HJ : Json J} {HS : StdSort pos} {T B : Type}.

(** The port the server listens on, its name, the threads of its loop, and the
    site when it starts. *)
Record running_server := mkRunning {
  port : Z;
  serverName : bytes;
  numThreads : nat;
  the_site : site (GomokuServer (db_state D C)) T B
}.

(** What [MySqlUtil::init] throws leaves [main]. The port is converted to
    [uint16_t] by the address. *)
Definition main (opts : list (ascii * bytes)) (clock : nat -> Z) (ids : nat -> fin 16) (fs : files) (rnd : nat -> nat)
  : prog std_exception (db_state D C) running_server := λ d,
  match parse_options 8080 opts with
  | Ret p =>
      match pool_init (lit "tcp://127.0.0.1:3306") (lit "root") (lit "root") (lit "Gomoku") 10 d with
      | (Ret _, d) => (Ret (mkRunning (p `mod` 2 ^ 16)%Z (lit "HttpServer") 4
                              (mkSite (new_GomokuServer d clock ids fs rnd) ∅)), d)
      | (Throw _, d) => (Halt Terminated, d)
      | (Halt x, d) => (Halt x, d)
      end
  | Throw e => (Throw e, d)
  | Halt x => (Halt x, d)
  end.

End main.
Arguments running_server : clear implicits.
