(* ===== verification/SiteFacts.v ===== *)
(** * Facts on the running site

    Whatever arrives, in whatever pieces, on whatever connections, the site
    answers or rejects it and keeps its invariant, as long as nothing more
    arrives on a connection after it was rejected; and what does arrive there
    can end the process. *)

From S2P Require Export Site.

(** ** The parser on a context that is ready *)

(** A context the next characters can be parsed into without an assertion. *)
Definition ready_context (c : HttpContext) : Prop :=
  c.(state_) = kExpectRequestLine -> c.(request_).(method_) = kInvalid.

Lemma processVersion_no_halt line s e r w r' : processVersion line s e r ≠ (Halt w, r').
Proof. intros Hp. by apply processVersion_frame in Hp as [[_ Ho]|[Ho _]]. Qed.

Lemma processRequestLine_no_halt line r w r' :
  r.(method_) = kInvalid -> processRequestLine line r ≠ (Halt w, r').
Proof.
  intros Hm. unfold processRequestLine. case_decide; [done|]. unfold setMethod. prog_simpl.
  rewrite bool_decide_true by done. prog_simpl. case_bool_decide; prog_simpl; [|done]. case_decide; [done|].
  edestruct processTarget_frame as (p & q & ->). apply processVersion_no_halt.
Qed.

Lemma headers_done_no_halt c w c' : headers_done c ≠ (Halt w, c').
Proof.
  unfold headers_done. repeat case_decide; try done. destruct (stoi _) as [n|e|x] eqn:Hs; [by case_decide|done|].
  exfalso. unfold stoi, stoi_unsigned in Hs. repeat case_match; by simplify_eq.
Qed.

(** A round from a ready context does not halt, and one that does not reject
    leaves a ready context. *)
Lemma round_ready t c l o c' n :
  round t c l = (o, c', n) -> ready_context c ->
  (∀ w, o ≠ Halt w) ∧ (o = Ret More ∨ o = Ret (HttpContext.Done true) -> ready_context c').
Proof.
  intros Hr Hc. unfold ready_context in *. destruct (decide (c.(state_) = kExpectRequestLine)) as [Hs|Hs].
  - specialize (Hc Hs). unfold round in Hr. rewrite Hs in Hr.
    destruct (find_crlf l) as [i|]; [|injection Hr as <- <- <-; by split].
    destruct (processRequestLine (take i l) (request_ c)) as [[[]|e|w] r] eqn:Hp; injection Hr as <- <- <-.
    + by split.
    + split; [done|]. by intros [|].
    + split; [done|]. by intros [|].
    + by destruct (processRequestLine_no_halt _ _ _ _ Hc Hp).
  - split; [|intros _ Hs'; by destruct (round_stays_past_line _ _ _ _ _ _ Hr Hs)].
    intros w ->. unfold round in Hr. destruct (c.(state_)); [done| | |done].
    + destruct (find_crlf l); [|done]. repeat case_decide; try done.
      destruct (headers_done c) as [[v|e|x] c2] eqn:Hd; [done..|]. by apply headers_done_no_halt in Hd.
    + by case_decide.
Qed.

(** A request line that was rejected after its method was known, and is still
    unread. *)
Definition stale_input (c : HttpContext) (l : bytes) : Prop :=
  c.(state_) = kExpectRequestLine ∧ c.(request_).(method_) ≠ kInvalid ∧
  ∃ i, find_crlf l = Some i ∧ " "%char ∈ take i l.

Lemma processRequestLine_no_throw line r e r' : processRequestLine line r ≠ (Throw e, r').
Proof.
  unfold processRequestLine. case_decide; [done|]. unfold setMethod. prog_simpl.
  case_bool_decide; prog_simpl; [|done]. case_bool_decide; prog_simpl; [|done]. case_decide; [done|].
  edestruct processTarget_frame as (p & q & ->). intros Hp. by apply processVersion_frame in Hp as [[_ Ho]|[Ho _]].
Qed.

Lemma round_rejects t c l o c' n :
  round t c l = (o, c', n) -> ready_context c -> o ≠ Ret More -> o ≠ Ret (HttpContext.Done true) ->
  ready_context c' ∨ stale_input c' l ∧ n = None ∧ o = Ret (HttpContext.Done false).
Proof.
  intros Hr Hc Hm Hd. destruct (decide (c.(state_) = kExpectRequestLine)) as [Hs|Hs].
  2:{ left. intros Hs'. by destruct (round_stays_past_line _ _ _ _ _ _ Hr Hs). }
  specialize (Hc Hs). destruct (decide (c'.(request_).(method_) = kInvalid)) as [Hk|Hk]; [left; by intros _|right].
  pose proof Hr as Hr0. unfold round in Hr. rewrite Hs in Hr. destruct (find_crlf l) as [i|] eqn:Hi; [|by injection Hr as <-].
  destruct (processRequestLine (take i l) (request_ c)) as [[[]|e|w] r] eqn:Hp; injection Hr as <- <- <-.
  - done.
  - destruct (round_rejected_line _ _ _ _ _ Hr0 Hs Hc Hk) as (_ & Hl). by split_and!.
  - by destruct (processRequestLine_no_throw _ _ _ _ Hp).
  - by destruct (processRequestLine_no_halt _ _ _ _ Hc Hp).
Qed.

Section parser.
Context {B : Type} `{MuduoBufferLaws B}.

Lemma parse_ready t c (b : B) o c' b' :
  ready_context c -> parseRequest t (c, b) = Some (o, (c', b')) ->
  (∀ w, o ≠ Halt w) ∧ (ready_context c' ∨ stale_input c' (readable b') ∧ o = Ret false).
Proof.
  unfold parseRequest. generalize (parse_fuel (c, b)) as fuel. intros fuel. revert c b.
  induction fuel as [|fuel IH]; intros c b Hc; simpl; [done|].
  rewrite parse_step_round. destruct (round t c (readable b)) as [[o1 c1] n] eqn:Hr.
  destruct (round_ready _ _ _ _ _ _ Hr Hc) as [Hno Hready].
  pose proof (round_rejects _ _ _ _ _ _ Hr Hc) as Hrej. destruct o1 as [[|[]]|e|w].
  - apply IH, Hready. by left.
  - intros [= <- <- <-]. split; [done|]. left. apply Hready. by right.
  - intros [= <- <- <-]. split; [done|]. destruct Hrej as [?|(Hst & -> & _)]; [done..|by left|by right].
  - intros [= <- <- <-]. split; [done|]. destruct Hrej as [?|(_ & _ & Ho)]; [done..|by left|done].
  - by destruct (Hno w).
Qed.

Lemma parse_stale t c (b : B) : stale_input c (readable b) ->
  parseRequest t (c, b) = Some (Halt AssertFailed, (c, b)).
Proof.
  intros (Hs & Hm & i & Hi & Hsp). unfold parseRequest, parse_fuel. cbn [parse_loop snd].
  rewrite parse_step_round. unfold round. rewrite Hs, Hi, (processRequestLine_asserts _ _ Hsp Hm). by destruct c; cbn in *; subst.
Qed.

Lemma stale_input_app c l r : stale_input c l -> stale_input c (l ++ r).
Proof.
  intros (Hs & Hm & i & Hi & Hsp). split_and!; [done..|]. exists i. rewrite (find_crlf_app_l _ _ _ Hi).
  pose proof (find_crlf_bound _ _ Hi). by rewrite take_app_le by lia.
Qed.

End parser.

(** ** One delivery *)

Lemma round_false_state t c l c' n :
  round t c l = (Ret (HttpContext.Done false), c', n) -> c.(state_) ≠ kGotAll -> c'.(state_) ≠ kGotAll.
Proof.
  unfold round, headers_done. intros Hr Hc. repeat case_match; simplify_eq/=; congruence.
Qed.

Lemma parse_false_state {B} `{MuduoBufferLaws B} t c (b : B) c' b' :
  parseRequest t (c, b) = Some (Ret false, (c', b')) -> c.(state_) ≠ kGotAll -> c'.(state_) ≠ kGotAll.
Proof.
  unfold parseRequest. generalize (parse_fuel (c, b)) as fuel. intros fuel. revert c b.
  induction fuel as [|fuel IH]; intros c b; simpl; [done|].
  rewrite parse_step_round. destruct (round t c (readable b)) as [[o1 c1] n] eqn:Hr.
  destruct o1 as [[|ok]|e|w]; try done; intros Hl Hc.
  - eapply IH; [exact Hl|]. by eapply round_more_state.
  - injection Hl as -> <- <-. by eapply round_false_state.
Qed.

Section deliver.
Context {W T B : Type} `{OpenSSL T} `{MuduoBufferLaws B}.
Variable empty_buffer : B.
Variable router_ : Router W.
Variable middlewareChain_ : list (option (Middleware W)).
Variable object_bytes : HttpResponse -> nat -> bytes.
Implicit Types (s : site W T B) (id : Z) (data : bytes) (t : Timestamp).

(** What a connection was told when a callback returned. *)
Inductive told : list conn_call -> Prop :=
| told_nothing : told []
| told_answer resp : told (answer resp)
| told_rejected : told [Send bad_request; Shutdown].

(** Its last word was that its request is bad. *)
Definition rejected {V} (σ : ServerConn V T B) : Prop := ∃ l, σ.(tcp).(calls) = l ++ [Send bad_request; Shutdown].

(** It was rejected, and the bad request line is still unread. *)
Definition stale {V} (σ : ServerConn V T B) : Prop := stale_input σ.(context_) (readable σ.(input_)).

Record conn_ok {V} (σ : ServerConn V T B) : Prop := {
  conn_target : σ.(tcp).(target) = ServerOnMessage;
  conn_parsing : σ.(context_).(state_) ≠ kGotAll;
  conn_ready : ready_context σ.(context_) ∨ stale σ ∧ rejected σ
}.

(** The application answers every request and keeps its invariant. *)
Variable app_ok : W -> Prop.
Hypothesis Happ : ∀ req w r, app_ok w ->
  ∃ w' r', handleRequest router_ middlewareChain_ req (w, r) = (Ret tt, (w', r')) ∧ app_ok w'.
Hypothesis Hempty : readable empty_buffer = [].

Lemma deliver_ready data t (x : ServerConn W T B) :
  conn_ok x -> ready_context x.(context_) -> app_ok x.(world) ->
  ∃ x' l, deliver empty_buffer router_ middlewareChain_ false object_bytes 0 data t x = Some (Ret tt, x') ∧
    told l ∧ x'.(tcp).(calls) = x.(tcp).(calls) ++ l ∧ conn_ok x' ∧ app_ok x'.(world).
Proof.
  intros [Ht Hp _] Hr Hw. unfold deliver. cbv zeta. cbn [tcp]. rewrite Ht. rewrite onMessage_plain. unfold serve. cbn [read_buffer input_ context_].
  set (b0 := append data x.(input_)). set (x0 := mkServerConn _ _ _ _ _).
  destruct (parseRequest_is_some t x.(context_) b0 Hp) as (o & c & b & Hparse).
  pose proof (parse_ready _ _ _ _ _ _ Hr Hparse) as [Hno Hready]. rewrite Hparse.
  set (x1 := write_buffer _ _ _).
  assert (∀ x', x' = set_tcp (mkTcp (x.(tcp).(calls) ++ [Send bad_request; Shutdown]) ServerOnMessage) x1 ->
    c.(state_) ≠ kGotAll -> conn_ok x' ∧ app_ok x'.(world)) as Hrej.
  { intros x' -> Hc. split; [|done]. split; [done|done|]. destruct Hready as [?|[? _]]; [by left|right].
    split; [done|]. by exists x.(tcp).(calls). }
  assert (reject x1 =
    (Ret tt, set_tcp (mkTcp (x.(tcp).(calls) ++ [Send bad_request; Shutdown]) ServerOnMessage) x1)) as Hreject.
  { unfold reject, conn_do, modify, mbind, prog_bind. cbn.
    unfold set_tcp, call. cbn. rewrite Ht, <-app_assoc. done. }
  destruct o as [[]|e|w].
  - unfold catch_std, catch. erewrite bind_run by done. erewrite bind_run by done. erewrite bind_run by done.
    change (context_ x1) with c. unfold gotAll. case_bool_decide as Hgot.
    + destruct (Happ c.(request_) x.(world) (new_response (wants_close c.(request_)))) as (w' & resp & Hh & Hw'); [done|].
      erewrite bind_run by by apply onRequest_plain. eexists _, (answer resp). split; [reflexivity|].
      split; [constructor|]. split; [done|]. split; [|done]. split; cbn; [done|done|by left].
    + eexists x1, []. split; [reflexivity|]. split; [constructor|]. split; [by rewrite app_nil_r|].
      split; [|done]. split; [done|done|]. left. by destruct Hready as [?|[_ ?]].
  - pose proof (parse_false_state _ _ _ _ _ Hparse Hp) as Hc.
    unfold catch_std, catch. erewrite bind_run by done. erewrite bind_run by exact Hreject. erewrite bind_run by done.
    cbn [context_ set_tcp]. change (context_ x1) with c. unfold gotAll. rewrite bool_decide_false by done.
    eexists _, _. split; [reflexivity|]. split; [apply told_rejected|]. split; [done|]. by apply Hrej.
  - pose proof (parse_throw_state _ _ _ _ _ _ _ Hparse Hp) as Hc.
    unfold catch_std, catch. erewrite bind_throw by done. cbv beta iota. rewrite Hreject.
    eexists _, _. split; [reflexivity|]. split; [apply told_rejected|]. split; [done|]. by apply Hrej.
  - by destruct (Hno w).
Qed.

(** More data after a rejected line that is still unread. *)
Lemma deliver_stale data t (x : ServerConn W T B) :
  x.(tcp).(target) = ServerOnMessage -> stale x ->
  ∃ x', deliver empty_buffer router_ middlewareChain_ false object_bytes 0 data t x = Some (Halt AssertFailed, x').
Proof.
  intros Ht Hst. unfold deliver. cbv zeta. cbn [tcp]. rewrite Ht. rewrite onMessage_plain. unfold serve.
  cbn [read_buffer input_ context_]. rewrite parse_stale; [by eexists|].
  rewrite readable_append. by apply stale_input_app.
Qed.

End deliver.

(** ** The site *)
Section site.
Context {W T B : Type} `{OpenSSL T} `{MuduoBufferLaws B}.
Variable empty_buffer : B.
Variable router_ : Router W.
Variable middlewareChain_ : list (option (Middleware W)).
Variable object_bytes : HttpResponse -> nat -> bytes.
Variable app_step : W -> W -> Prop.
Variable app_ok : W -> Prop.
Hypothesis Happ : ∀ req w r, app_ok w ->
  ∃ w' r', handleRequest router_ middlewareChain_ req (w, r) = (Ret tt, (w', r')) ∧ app_ok w'.
Hypothesis Hstep : ∀ w w', app_step w w' -> app_ok w -> app_ok w'.
Hypothesis Hempty : readable empty_buffer = [].
Implicit Types (s : site W T B) (id : Z) (data : bytes) (t : Timestamp).

Abbreviation data_arrives := (site_data empty_buffer router_ middlewareChain_ object_bytes).
Abbreviation step := (site_step empty_buffer router_ middlewareChain_ object_bytes app_step).

Record site_ok s : Prop := {
  site_app : app_ok s.(application);
  site_conns : map_Forall (λ _, conn_ok) s.(conns)
}.

Lemma conn_ok_detach (x : ServerConn W T B) : conn_ok x -> conn_ok (detach x).
Proof. intros [? ? ?]. by split. Qed.

Lemma put_conn_ok id (x : ServerConn W T B) s :
  site_ok s -> conn_ok x -> app_ok x.(world) -> site_ok (put_conn id x s).
Proof. intros [_ Hc] Hx Hw. split; [done|]. apply map_Forall_insert_2; [by apply conn_ok_detach|done]. Qed.

(** What becomes of data on a connection: exactly on a stale one it ends the
    process. *)
Lemma site_data_ok id data t s σ :
  site_ok s -> s.(conns) !! id = Some σ ->
  if decide (ready_context σ.(context_)) then
    ∃ σ' l w', data_arrives id data t s = Some (Ret tt, mkSite w' (<[id := σ']> s.(conns))) ∧
      told l ∧ σ'.(tcp).(calls) = σ.(tcp).(calls) ++ l ∧ site_ok (mkSite w' (<[id := σ']> s.(conns)))
  else rejected σ ∧ ∃ s', data_arrives id data t s = Some (Halt AssertFailed, s').
Proof.
  intros Hok Hσ. unfold site_data. rewrite Hσ. pose proof (site_conns _ Hok id σ Hσ) as Hc.
  case_decide as Hr.
  - destruct (deliver_ready empty_buffer router_ middlewareChain_ object_bytes app_ok Happ Hempty data t (attach s.(application) σ))
      as (x & l & -> & Hl & Hcalls & Hx & Hw); [by destruct Hc; split|done|by apply Hok|].
    exists (detach x), l, x.(world). split_and!; [done..|]. by apply (put_conn_ok id x).
  - destruct Hc as [Ht _ [?|[Hst Hrej]]]; [done|]. split; [done|].
    destruct (deliver_stale empty_buffer router_ middlewareChain_ object_bytes data t (attach s.(application) σ)) as (x & ->); [done|done|].
    by eexists.
Qed.

Lemma site_step_ok s s' : step s s' -> site_ok s -> site_ok s'.
Proof.
  intros Hs Hok. destruct Hs as [id s s' Hc|id data t s s' Hd|id s s' Hd|w' s Ha].
  - unfold site_connect in Hc. destruct (conns s !! id) eqn:Hid; [done|]. cbn in Hc. injection Hc as <-.
    apply put_conn_ok; [done| |apply Hok]. split; [done|done|by left].
  - destruct (conns s !! id) as [σ|] eqn:Hid; [|unfold site_data in Hd; by rewrite Hid in Hd].
    pose proof (site_data_ok id data t s σ Hok Hid) as Hx. case_decide.
    + destruct Hx as (σ' & l & w' & Hd' & _ & _ & Hok'). rewrite Hd in Hd'. by injection Hd' as ->.
    + destruct Hx as (_ & s1 & Hd'). by rewrite Hd in Hd'.
  - unfold site_disconnect in Hd. destruct (conns s !! id) as [σ|] eqn:Hid; [|done]. cbn in Hd. injection Hd as <-.
    split; [apply Hok|]. apply map_Forall_delete, Hok.
  - split; [by eapply Hstep, Hok|apply Hok].
Qed.

(** A request line with an unknown version, on a new connection. *)
Definition bad_line : bytes := lit "GET / HTTP/2.0" ++ crlf.

Lemma round_bad_line t : ∃ r,
  round t new_context bad_line = (Ret (HttpContext.Done false), mkHttpContext kExpectRequestLine r, None) ∧ r.(method_) = kGet.
Proof. eexists. split; [vm_compute; reflexivity|reflexivity]. Qed.

Lemma site_bad_line id t s s1 :
  site_connect empty_buffer id s = Some (Ret tt, s1) ->
  ∃ s2 σ2, data_arrives id bad_line t s1 = Some (Ret tt, s2) ∧ s2.(conns) !! id = Some σ2 ∧
    ¬ ready_context σ2.(context_) ∧ rejected σ2.
Proof.
  unfold site_connect. destruct (conns s !! id) eqn:Hid; [done|]. cbn. intros [= <-].
  unfold site_data. cbn [conns put_conn]. rewrite lookup_insert_eq. unfold deliver. cbn [attach detach tcp target set_context].
  rewrite onMessage_plain. unfold serve.
  match goal with |- context [parseRequest _ ?x] => change x with (new_context, append bad_line empty_buffer) end.
  destruct (round_bad_line t) as (r & Hr & Hm).
  assert (parseRequest t (new_context, append bad_line empty_buffer) =
    Some (Ret false, (mkHttpContext kExpectRequestLine r, append bad_line empty_buffer))) as ->.
  { unfold parseRequest, parse_fuel. cbn [parse_loop]. rewrite parse_step_round, readable_append, Hempty. cbn [app].
    by rewrite Hr. }
  eexists _, _. split; [reflexivity|]. split; [apply lookup_insert_eq|]. split; [|by exists []].
  unfold ready_context. cbn. rewrite Hm. intros Hk. by specialize (Hk eq_refl).
Qed.

Lemma site_crash id t s :
  site_ok s -> s.(conns) !! id = None ->
  ∃ s1 s2, site_connect empty_buffer id s = Some (Ret tt, s1) ∧ data_arrives id bad_line t s1 = Some (Ret tt, s2) ∧
    ∀ data t', ∃ s3, data_arrives id data t' s2 = Some (Halt AssertFailed, s3).
Proof.
  intros Hok Hid. assert (∃ s1, site_connect empty_buffer id s = Some (Ret tt, s1)) as (s1 & Hs1)
    by (unfold site_connect; rewrite Hid; by eexists).
  destruct (site_bad_line id t s s1 Hs1) as (s2 & σ2 & Hs2 & Hσ2 & Hr & _). exists s1, s2. split_and!; [done..|].
  intros data t'. assert (site_ok s2) as Hok2.
  { eapply site_step_ok; [by apply (step_data _ _ _ _ _ id bad_line t s1)|].
    eapply site_step_ok; [by apply (step_connect _ _ _ _ _ id s)|done]. }
  pose proof (site_data_ok id data t' s2 σ2 Hok2 Hσ2) as Hd. rewrite decide_False in Hd by done. by destruct Hd.
Qed.

End site.

(** ** The Gomoku site *)
Section gomoku.
Context {D C J T B : Type} {HD : SqlDriver D C} {HDL : SqlDriverLaws D C} {HJ : Json J} {HS : StdSort pos}.
Context `{OpenSSL T} `{MuduoBufferLaws B}.
Variable empty_buffer : B.
Hypothesis Hempty : readable empty_buffer = [].
Variable object_bytes : HttpResponse -> nat -> bytes.
Implicit Types (w : GomokuServer (db_state D C)) (id : Z) (data : bytes) (t : Timestamp).

(** Meanwhile the database, the files and the random numbers go on. *)
Inductive meanwhile : GomokuServer (db_state D C) -> GomokuServer (db_state D C) -> Prop :=
| meanwhile_step d fs rnd n w : db_ok d ->
    meanwhile w (mkGomokuServer w.(sessions_of) w.(game_map_) w.(online_users) w.(maxOnline_) d fs rnd n).

Definition gomoku_data : Z -> bytes -> Timestamp -> site (GomokuServer (db_state D C)) T B ->
    option (outcome thrown unit * site (GomokuServer (db_state D C)) T B) :=
  site_data empty_buffer (server_ (J := J) unit false).(Server.routes) (server_ (J := J) unit false).(Server.middlewares) object_bytes.
Definition gomoku_step : site (GomokuServer (db_state D C)) T B -> site (GomokuServer (db_state D C)) T B -> Prop :=
  site_step empty_buffer (server_ (J := J) unit false).(Server.routes) (server_ (J := J) unit false).(Server.middlewares) object_bytes meanwhile.
Definition gomoku_site_ok : site (GomokuServer (db_state D C)) T B -> Prop := site_ok server_ok.

Lemma gomoku_answers req w r : server_ok w ->
  ∃ w' r', handleRequest (server_ (J := J) unit false).(Server.routes) (server_ (J := J) unit false).(Server.middlewares) req (w, r) = (Ret tt, (w', r')) ∧ server_ok w'.
Proof.
  intros Hok. destruct (handleRequest_safe (J := J) (CTX := unit) false req w r Hok) as (w' & r' & Hrun & Hdur).
  exists w', r'. split; [exact Hrun|apply Hdur].
Qed.

Lemma meanwhile_ok w w' : meanwhile w w' -> server_ok w -> server_ok w'.
Proof. intros [d fs rnd n w0 Hd] Hok. by destruct Hok. Qed.

Lemma create_loop_length n (s s' : db_state D C) :
  create_loop n s = (Ret tt, s') -> length s'.(db_pool).(connections_) = length s.(db_pool).(connections_) + n.
Proof.
  revert s. induction n as [|n IH]; intros s Hrun; cbn [create_loop] in Hrun; [by injection Hrun as <-|].
  unfold createConnection in Hrun.
  destruct (new_DbConnection_run (pool_host (db_pool s)) (pool_user (db_pool s)) (pool_password (db_pool s)) (pool_database (db_pool s)) s)
    as [(e & s1 & Hnew & Hs1)|(x & s1 & Hnew & Hp & Hc)].
  - by erewrite bind_throw in Hrun by by erewrite bind_run by done.
  - erewrite bind_run in Hrun by by erewrite bind_run by done. erewrite bind_run in Hrun by done.
    apply IH in Hrun. rewrite Hrun. cbn. rewrite Hp, length_app. cbn. lia.
Qed.

(** [main] over a driver, before any connection. *)
Definition starts (opts : list (ascii * bytes)) clock ids fs rnd (driver : D) (x : running_server D C T B) : Prop :=
  ∃ d, main opts clock ids fs rnd (mkDbState new_DbConnectionPool [] driver) = (Ret x, d).

Lemma main_ok opts clock ids fs rnd driver x : starts opts clock ids fs rnd driver x -> gomoku_site_ok x.(the_site).
Proof.
  intros (d & Hrun). unfold main in Hrun. destruct (parse_options 8080 opts) as [p|e|f]; [|done..].
  destruct (pool_init _ _ _ _ _ _) as [[[]|e|f] d1] eqn:Hinit; [|done..]. injection Hrun as <- <-.
  split; [|apply map_Forall_empty]. apply new_server_ok. split.
  - eapply (pool_init_inv _ _ _ _ 10 []) in Hinit; [by destruct Hinit|]. split; [done|]. cbn. lia.
  - unfold pool_init in Hinit. erewrite bind_run in Hinit by done. cbn [db_pool initialized_ new_DbConnectionPool] in Hinit.
    erewrite bind_run in Hinit by done. unfold mbind at 1, prog_bind at 1 in Hinit.
    destruct (create_loop 10 _) as [[[]|e|f] s1] eqn:Hloop; [|done..].
    apply create_loop_length in Hloop. injection Hinit as <-. cbn in *. intros Hnil. by rewrite Hnil in Hloop.
Qed.

Lemma site_reachable_ok opts clock ids fs rnd driver x s :
  starts opts clock ids fs rnd driver x -> star gomoku_step x.(the_site) s -> gomoku_site_ok s.
Proof.
  intros Hx Hstar. eapply star_invariant; [|exact Hstar|by eapply main_ok].
  intros s1 s2. apply site_step_ok; [by apply gomoku_answers|apply meanwhile_ok|done].
Qed.

(** C1. The whole site, from the command line on: in every state that [main] and
    any traffic lead to (connections that come and go, any characters cut
    anywhere, the database failing as it likes), data on a connection whose
    input is in order is handled: the callback returns, the connection is told
    nothing, or the text of one response (and a shutdown if that asks for it),
    or that its request is bad; no other connection is touched, and the
    invariant of the server (sessions, games, users online) holds again. *)
Theorem site_survives opts clock ids fs rnd driver x s id data t σ :
  starts opts clock ids fs rnd driver x -> star gomoku_step x.(the_site) s ->
  s.(conns) !! id = Some σ -> ready_context σ.(context_) ->
  ∃ σ' l w', gomoku_data id data t s = Some (Ret tt, mkSite w' (<[id := σ']> s.(conns))) ∧
    told l ∧ σ'.(tcp).(calls) = σ.(tcp).(calls) ++ l ∧ server_ok w' ∧ (ready_context σ'.(context_) ∨ rejected σ').
Proof.
  intros Hx Hstar Hσ Hr. pose proof (site_reachable_ok _ _ _ _ _ _ _ _ Hx Hstar) as Hok.
  pose proof (site_data_ok empty_buffer _ _ object_bytes server_ok gomoku_answers Hempty id data t s σ Hok Hσ) as Hd.
  rewrite decide_True in Hd by done. destruct Hd as (σ' & l & w' & Hrun & Hl & Hcalls & Hok').
  exists σ', l, w'. split_and!; try done; [apply Hok'|].
  destruct (site_conns _ _ Hok' id σ') as [_ _ [?|[_ ?]]]; [apply lookup_insert_eq|by left|by right].
Qed.

(** C11. And the rest: any client can end the process. A new connection that
    sends a request line with a version other than 1.0 and 1.1 is told that its
    request is bad, but the line stays in the buffer and its method in the
    context, so the next character it sends, whatever it is, fails the
    assertion in [setMethod]. *)
Theorem any_client_can_crash opts clock ids fs rnd driver x s id t :
  starts opts clock ids fs rnd driver x -> star gomoku_step x.(the_site) s -> s.(conns) !! id = None ->
  ∃ s1 s2, site_connect empty_buffer id s = Some (Ret tt, s1) ∧
    gomoku_data id (lit "GET / HTTP/2.0" ++ crlf) t s1 = Some (Ret tt, s2) ∧
    ∀ data t', ∃ s3, gomoku_data id data t' s2 = Some (Halt AssertFailed, s3).
Proof.
  intros Hx Hstar Hid. pose proof (site_reachable_ok _ _ _ _ _ _ _ _ Hx Hstar) as Hok.
  exact (site_crash empty_buffer _ _ object_bytes meanwhile server_ok gomoku_answers meanwhile_ok Hempty id t s Hok Hid).
Qed.

End gomoku.

(** ** Witnesses: the server on port 9000, with one connection *)

Definition sample_main : outcome std_exception (running_server nat nat plain_tls bytes) * db_state nat nat :=
  main [("p"%char, lit "9000")] (λ n, seconds (Z.of_nat n)) (λ _, 10%fin) (λ _, None) (λ _, 0)
    (mkDbState new_DbConnectionPool [] 0).
Definition no_server : running_server nat nat plain_tls bytes :=
  mkRunning 0 [] 0 (mkSite (new_GomokuServer sample_db (λ _, 0%Z) (λ _, 10%fin) (λ _, None) (λ _, 0)) ∅).
Definition sample_running : running_server nat nat plain_tls bytes :=
  match sample_main.1 with Ret x => x | _ => no_server end.
Abbreviation sample_site := (the_site sample_running).
Definition sample_connected : site (GomokuServer (db_state nat nat)) plain_tls bytes :=
  match site_connect [] 1 sample_site with Some (_, s) => s | None => sample_site end.

Lemma ret_of {E A S} (p : outcome E A * S) (x : A) :
  match p.1 with Ret _ => true | _ => false end = true -> p = (Ret (match p.1 with Ret a => a | _ => x end), p.2).
Proof. by destruct p as [[] ?]. Qed.

Lemma sample_starts : starts [("p"%char, lit "9000")] (λ n, seconds (Z.of_nat n)) (λ _, 10%fin) (λ _, None) (λ _, 0) 0 sample_running.
Proof.
  exists sample_main.2. unfold sample_main. set (m := main _ _ _ _ _ _). unfold sample_running, sample_main. fold m.
  refine (ret_of m no_server _). vm_compute. reflexivity.
Defined.

Lemma some_of {E S} (p : option (outcome E unit * S)) (x : S) :
  match p with Some (Ret _, _) => true | _ => false end = true ->
  p = Some (Ret tt, match p with Some (_, s) => s | None => x end).
Proof. by destruct p as [[[[]|e|f] s]|]. Qed.

Lemma sample_connects : site_connect [] 1 sample_site = Some (Ret tt, sample_connected).
Proof.
  unfold sample_connected. refine (some_of (site_connect [] 1 sample_site) sample_site _). vm_compute. reflexivity.
Defined.

Lemma empty_bytes : readable ([] : bytes) = [].
Proof. done. Qed.

Lemma site_survives_witness :
  ∃ σ' l w', gomoku_data (J := bytes) [] no_objects 1 (render_request sample_get) default_timestamp sample_connected =
      Some (Ret tt, mkSite w' (<[1%Z := σ']> sample_connected.(conns))) ∧ told l ∧ σ'.(tcp).(calls) = l ∧ server_ok w'.
Proof.
  destruct (site_survives (J := bytes) (T := plain_tls) (B := bytes) [] empty_bytes no_objects [("p"%char, lit "9000")]
    (λ n, seconds (Z.of_nat n)) (λ _, 10%fin) (λ _, None) (λ _, 0) 0 sample_running sample_connected 1 (render_request sample_get) default_timestamp
    (mkServerConn tt (mkTcp [] ServerOnMessage) new_context [] None)) as (σ' & l & w' & Hrun & Hl & Hcalls & Hw & _).
  - exact sample_starts.
  - apply star_one. refine (step_connect _ _ _ _ _ 1 sample_site sample_connected _). exact sample_connects.
  - vm_compute. reflexivity.
  - intros _. reflexivity.
  - exists σ', l, w'. split; [exact Hrun|]. split; [exact Hl|]. split; [exact Hcalls|exact Hw].
Defined.

Lemma any_client_can_crash_witness :
  ∃ s1 s2, site_connect [] 1 sample_site = Some (Ret tt, s1) ∧
    gomoku_data (J := bytes) [] no_objects 1 (lit "GET / HTTP/2.0" ++ crlf) default_timestamp s1 = Some (Ret tt, s2) ∧
    ∃ s3, gomoku_data (J := bytes) [] no_objects 1 (lit "x") default_timestamp s2 = Some (Halt AssertFailed, s3).
Proof.
  destruct (any_client_can_crash (J := bytes) (T := plain_tls) (B := bytes) [] empty_bytes no_objects [("p"%char, lit "9000")]
    (λ n, seconds (Z.of_nat n)) (λ _, 10%fin) (λ _, None) (λ _, 0) 0 sample_running sample_site 1 default_timestamp) as (s1 & s2 & H1 & H2 & H3).
  - exact sample_starts.
  - apply star_refl.
  - vm_compute. reflexivity.
  - exists s1, s2. split; [exact H1|]. split; [exact H2|]. apply H3.
Defined.
