(* ===== verification/EpollServer.v ===== *)
(** * The demonstration of epoll

    [co-pro/epoll/main.cpp]: a server of one thread that waits for events with
    [epoll_wait] and answers whatever a connection sends with the same text. *)

From S2P Require Export CppString.

(** ** The system

    A descriptor of the process is an integer. [sys_write] answers [None] when
    the peer has closed the connection: the signal [SIGPIPE] then ends the
    process, which does not ignore it. [sys_epoll_wait] answers the descriptors
    of the events stored in the array, [None] when it fails. *)
Class Sockets (K : Type) := {
  sys_socket : K -> Z * K;
  sys_reuseaddr : Z -> K -> Z * K;
  sys_bind : Z -> Z -> K -> Z * K;
  sys_listen : Z -> Z -> K -> Z * K;
  sys_accept : Z -> K -> Z * K;
  sys_read : Z -> Z -> K -> Z * K;
  sys_write : Z -> bytes -> K -> option Z * K;
  sys_close : Z -> K -> Z * K;
  sys_epoll_create1 : K -> Z * K;
  sys_epoll_add : Z -> Z -> K -> Z * K;
  sys_epoll_wait : Z -> nat -> K -> option (list Z) * K
}.

(** How a process ends. *)
Inductive stopped := Exited (status : Z) | Killed (signal : Z).
Definition SIGPIPE : Z := 13.

(** ** The program *)

Definition MAX_EVENTS : nat := 10.
Definition PORT : Z := 8888.

Definition epoll_response : bytes :=
  lit "HTTP/1.1 200 OK" ++ crlf ++ lit "Content-Type: text/plain" ++ crlf ++ lit "Content-Length: 1" ++ crlf ++
  lit "Connection: keep-alive" ++ crlf ++ crlf ++ lit "1".

Section server.
Context {K : Type} {HK : Sockets K}.

Abbreviation server_prog A := (prog stopped K A).

(** A call to the system. *)
Definition sys {A} (f : K -> A * K) : server_prog A := λ k, let '(a, k) := f k in (Ret a, k).
(** [if (call == -1) return -1], in [main]. *)
Definition or_exit (f : K -> Z * K) : server_prog Z :=
  r ← sys f; if bool_decide (r = -1)%Z then throw (Exited (-1)) else mret r.

(** [main], up to its loop: the descriptors [listen_fd] and [epoll_fd]. *)
Definition setup : server_prog (Z * Z) :=
  listen_fd ← or_exit sys_socket;
  sys (sys_reuseaddr listen_fd);;
  or_exit (sys_bind listen_fd PORT);;
  or_exit (sys_listen listen_fd 1024);;
  epoll_fd ← or_exit sys_epoll_create1;
  or_exit (sys_epoll_add epoll_fd listen_fd);;
  mret (listen_fd, epoll_fd).

(** An event of [listen_fd]. *)
Definition new_connection (listen_fd epoll_fd : Z) : server_prog unit :=
  conn_fd ← sys (sys_accept listen_fd);
  if bool_decide (conn_fd = -1)%Z then mret tt
  else or_exit (sys_epoll_add epoll_fd conn_fd);; mret tt.

(** An event of a connection. *)
Definition answer (fd : Z) : server_prog unit :=
  len ← sys (sys_read fd 1023);
  if bool_decide (len <= 0)%Z then sys (sys_close fd);; mret tt
  else
    n ← sys (sys_write fd epoll_response);
    match n with
    | None => throw (Killed SIGPIPE)
    | Some _ => sys (sys_close fd);; mret tt
    end.

Fixpoint serve_events (listen_fd epoll_fd : Z) (events : list Z) : server_prog unit :=
  match events with
  | [] => mret tt
  | fd :: events =>
      (if bool_decide (fd = listen_fd) then new_connection listen_fd epoll_fd else answer fd);;
      serve_events listen_fd epoll_fd events
  end.

(** A turn of the loop. *)
Definition turn (listen_fd epoll_fd : Z) : server_prog unit :=
  events ← sys (sys_epoll_wait epoll_fd MAX_EVENTS);
  match events with
  | None => throw (Exited (-1))
  | Some events => serve_events listen_fd epoll_fd events
  end.

(** The loop, whose turns follow each other while they return. *)
Definition turn_step (listen_fd epoll_fd : Z) (k k' : K) : Prop := turn listen_fd epoll_fd k = (Ret tt, k').

End server.

(** ** What the system promises

    [opened] and [interest] are the descriptors of the process and those an
    [epoll] instance watches; [history] is what a trace of the process shows of
    the calls that read, write and close. A call that fails changes no
    descriptor, [accept] and the like make one that is not in use, [epoll_wait]
    reports each watched descriptor once at most, and a closed descriptor is no
    longer watched. *)
Inductive io_event :=
| DidRead (fd len : Z)
| DidWrite (fd : Z) (data : bytes)
| DidClose (fd : Z).

Record sys_view (K : Type) := mkView {
  opened : K -> gset Z;
  interest : Z -> K -> gset Z;
  history : K -> list io_event
}.
Arguments mkView {K}.
Arguments opened {K}.
Arguments interest {K}.
Arguments history {K}.

Section laws.
Context {K : Type} {HK : Sockets K} (V : sys_view K).

(** Nothing the view shows has changed, except that [tr] was done. *)
Definition same_but (tr : list io_event) (k k' : K) : Prop :=
  V.(opened) k' = V.(opened) k ∧ (∀ e, V.(interest) e k' = V.(interest) e k) ∧ V.(history) k' = V.(history) k ++ tr.

(** A call that makes a descriptor. *)
Definition makes (r : Z) (k k' : K) : Prop :=
  (r = -1)%Z ∧ same_but [] k k' ∨
  (0 <= r)%Z ∧ r ∉ V.(opened) k ∧ V.(opened) k' = {[r]} ∪ V.(opened) k ∧
    (∀ e, e ≠ r -> V.(interest) e k' = V.(interest) e k) ∧ V.(history) k' = V.(history) k.

Record sockets_laws : Prop := {
  law_socket k r k' : sys_socket k = (r, k') -> makes r k k';
  law_reuseaddr fd k r k' : sys_reuseaddr fd k = (r, k') -> same_but [] k k';
  law_bind fd port k r k' : sys_bind fd port k = (r, k') -> same_but [] k k';
  law_listen fd n k r k' : sys_listen fd n k = (r, k') -> same_but [] k k';
  law_accept fd k r k' : sys_accept fd k = (r, k') -> makes r k k';
  law_read fd n k r k' : sys_read fd n k = (r, k') -> same_but [DidRead fd r] k k';
  law_write fd s k n k' : sys_write fd s k = (Some n, k') -> same_but [DidWrite fd s] k k';
  law_close fd k r k' : sys_close fd k = (r, k') -> fd ∈ V.(opened) k ->
    V.(opened) k' = V.(opened) k ∖ {[fd]} ∧ (∀ e, e ≠ fd -> V.(interest) e k' = V.(interest) e k ∖ {[fd]}) ∧
    V.(history) k' = V.(history) k ++ [DidClose fd];
  law_create k r k' : sys_epoll_create1 k = (r, k') -> makes r k k' ∧ (r ≠ -1 -> V.(interest) r k' = ∅)%Z;
  law_add e fd k r k' : sys_epoll_add e fd k = (r, k') -> (r = -1)%Z ∧ same_but [] k k' ∨
    (r = 0)%Z ∧ V.(opened) k' = V.(opened) k ∧ V.(interest) e k' = {[fd]} ∪ V.(interest) e k ∧ V.(history) k' = V.(history) k;
  law_wait e n k o k' : sys_epoll_wait e n k = (o, k') -> same_but [] k k' ∧
    ∀ l, o = Some l -> NoDup l ∧ length l ≤ n ∧ ∀ fd, fd ∈ l -> fd ∈ V.(interest) e k
}.

End laws.
Arguments sockets_laws {K HK}.

(** ** The loop *)

(** What is done for the events of a turn, in their order: a connection that
    sent something is answered, and every connection is closed. *)
Inductive served (listen_fd : Z) : list Z -> list io_event -> Prop :=
| served_none : served listen_fd [] []
| served_accept evs tr : served listen_fd evs tr -> served listen_fd (listen_fd :: evs) tr
| served_gone fd len evs tr : fd ≠ listen_fd -> (len <= 0)%Z -> served listen_fd evs tr ->
    served listen_fd (fd :: evs) (DidRead fd len :: DidClose fd :: tr)
| served_answered fd len evs tr : fd ≠ listen_fd -> (0 < len)%Z -> served listen_fd evs tr ->
    served listen_fd (fd :: evs) (DidRead fd len :: DidWrite fd epoll_response :: DidClose fd :: tr).

Section loop.
Context {K : Type} {HK : Sockets K} (V : sys_view K) (HV : sockets_laws V).
Variables (base : gset Z) (listen_fd epoll_fd : Z).
Implicit Types (conns : gset Z) (k : K) (evs : list Z) (tr : list io_event).

(** Between the turns: besides the descriptors the process started with, the
    two of the server and its connections are open, and those it listens on and
    the connections are watched. *)
Record serving conns k : Prop := {
  sv_opened : V.(opened) k = base ∪ {[listen_fd; epoll_fd]} ∪ conns;
  sv_interest : V.(interest) epoll_fd k = {[listen_fd]} ∪ conns;
  sv_conns : conns ## base ∪ {[listen_fd; epoll_fd]};
  sv_server : listen_fd ≠ epoll_fd
}.

Lemma serving_same conns tr k k' : serving conns k -> same_but V tr k k' -> serving conns k'.
Proof. intros [] (Ho & Hi & _). split; try done; congruence. Qed.

Lemma serving_closed conns fd r k k' : serving conns k -> fd ∈ conns -> sys_close fd k = (r, k') ->
  serving (conns ∖ {[fd]}) k' ∧ V.(history) k' = V.(history) k ++ [DidClose fd].
Proof.
  intros [Ho Hi Hc Hs] Hin Hrun. apply (law_close V HV) in Hrun as (Ho' & Hi' & Hh); [|set_solver].
  split; [|done]. split; try done.
  - rewrite Ho', Ho. set_solver.
  - rewrite Hi', Hi by set_solver. set_solver.
  - set_solver.
Qed.

(** A program of the server returns in a state of [Q], or the process ends: with
    a failed call, or on a connection its peer has closed. *)
Definition goes_on {A} (m : prog stopped K A) k (Q : A -> K -> Prop) : Prop :=
  match m k with
  | (Ret a, k') => Q a k'
  | (Throw w, _) => w = Exited (-1) ∨ w = Killed SIGPIPE
  | (Halt _, _) => False
  end.

Lemma goes_on_bind {A B} (m : prog stopped K A) (f : A -> prog stopped K B) k Q :
  goes_on m k (λ a k', goes_on (f a) k' Q) -> goes_on (m ≫= f) k Q.
Proof. unfold goes_on, mbind, prog_bind. by destruct (m k) as [[a|w|w] k1]. Qed.

Lemma goes_on_mono {A} (m : prog stopped K A) k (Q Q' : A -> K -> Prop) :
  goes_on m k Q' -> (∀ a k', Q' a k' -> Q a k') -> goes_on m k Q.
Proof. unfold goes_on. destruct (m k) as [[] ?]; auto. Qed.

Lemma goes_on_sys {A} (f : K -> A * K) k (Q : A -> K -> Prop) :
  (∀ a k', f k = (a, k') -> Q a k') -> goes_on (sys f) k Q.
Proof. unfold goes_on, sys. destruct (f k). auto. Qed.

Lemma goes_on_or_exit (f : K -> Z * K) k (Q : Z -> K -> Prop) :
  (∀ r k', f k = (r, k') -> r ≠ (-1)%Z -> Q r k') -> goes_on (or_exit f) k Q.
Proof.
  intros HQ. apply goes_on_bind, goes_on_sys. intros r k' Hr. case_bool_decide; [by left|by apply HQ].
Qed.

Lemma new_connection_spec conns k : serving conns k -> goes_on (new_connection listen_fd epoll_fd) k (λ _ k',
  V.(history) k' = V.(history) k ∧
  ∃ conns', serving conns' k' ∧ (conns' = conns ∨ ∃ fd, fd ∉ conns ∧ fd ≠ listen_fd ∧ conns' = {[fd]} ∪ conns)).
Proof.
  intros Hsv. apply goes_on_bind, goes_on_sys. intros fd k1 Hacc.
  apply (law_accept V HV) in Hacc as [[-> Hsame]|(Hfd & Hnew & Ho & Hi & Hh)].
  { split; [by rewrite (proj2 (proj2 Hsame)), app_nil_r|]. exists conns. split; [by eapply serving_same|by left]. }
  rewrite bool_decide_false by lia. apply goes_on_bind, goes_on_or_exit. intros r k2 Hadd Hr.
  apply (law_add V HV) in Hadd as [[-> _]|(_ & Ho' & Hi' & Hh')]; [done|].
  split; [congruence|]. destruct Hsv as [Hop Hin Hc Hs]. rewrite Hop in Hnew.
  exists ({[fd]} ∪ conns). split; [|right; exists fd; split_and!; [set_solver..|done]]. split; [| | |done].
  - rewrite Ho', Ho, Hop. set_solver.
  - rewrite Hi', Hi, Hin by set_solver. set_solver.
  - set_solver.
Qed.

Lemma answer_spec conns fd k : serving conns k -> fd ∈ conns -> goes_on (answer fd) k (λ _ k',
  serving (conns ∖ {[fd]}) k' ∧ ∃ tr, V.(history) k' = V.(history) k ++ tr ∧
    ∀ evs tr', served listen_fd evs tr' -> served listen_fd (fd :: evs) (tr ++ tr')).
Proof.
  intros Hsv Hin. assert (fd ≠ listen_fd) as Hne by (destruct Hsv; set_solver).
  apply goes_on_bind, goes_on_sys. intros len k1 Hr. apply (law_read V HV) in Hr.
  pose proof (serving_same _ _ _ _ Hsv Hr) as Hsv1. destruct Hr as (_ & _ & Hh1).
  case_bool_decide as Hlen; apply goes_on_bind, goes_on_sys.
  - intros r k2 Hcl. destruct (serving_closed _ _ _ _ _ Hsv1 Hin Hcl) as [Hsv2 Hh2]. split; [done|].
    exists [DidRead fd len; DidClose fd]. split; [by rewrite Hh2, Hh1, <-app_assoc|].
    intros evs tr' ?. by apply served_gone.
  - intros [n|] k2 Hw; [|by right].
    apply (law_write V HV) in Hw. pose proof (serving_same _ _ _ _ Hsv1 Hw) as Hsv2. destruct Hw as (_ & _ & Hh2).
    apply goes_on_bind, goes_on_sys. intros r k3 Hcl.
    destruct (serving_closed _ _ _ _ _ Hsv2 Hin Hcl) as [Hsv3 Hh3]. split; [done|].
    exists [DidRead fd len; DidWrite fd epoll_response; DidClose fd].
    split; [by rewrite Hh3, Hh2, Hh1, <-!app_assoc|]. intros evs tr' ?. apply served_answered; [done|lia|done].
Qed.

(** The connections after the events [evs]. *)
Definition after_events conns evs (new : gset Z) : gset Z := (conns ∖ list_to_set evs) ∪ new.
Definition one_new evs (new : gset Z) : Prop := new = ∅ ∨ listen_fd ∈ evs ∧ ∃ fd, new = {[fd]}.

Lemma serve_events_spec evs conns k :
  serving conns k -> NoDup evs -> (∀ fd, fd ∈ evs -> fd = listen_fd ∨ fd ∈ conns) ->
  goes_on (serve_events listen_fd epoll_fd evs) k (λ _ k', ∃ new tr,
    serving (after_events conns evs new) k' ∧ one_new evs new ∧
    V.(history) k' = V.(history) k ++ tr ∧ served listen_fd evs tr).
Proof.
  revert conns k. induction evs as [|fd evs IH]; intros conns k Hsv Hnd Hevs; cbn [serve_events].
  { exists ∅, []. rewrite app_nil_r. split_and!; [|by left|done|constructor].
    unfold after_events. by replace (conns ∖ _ ∪ ∅) with conns by set_solver. }
  apply NoDup_cons in Hnd as [Hfd Hnd].
  assert (∀ x, x ∈ evs -> x = listen_fd ∨ x ∈ conns) as Hrest by (intros x Hx; apply Hevs; by right).
  case_bool_decide as Hl.
  - subst fd. apply goes_on_bind. eapply goes_on_mono; [by apply new_connection_spec|]. cbv beta. intros _ k1 (Hh1 & conns1 & Hs1 & Hc).
    eapply goes_on_mono; [apply (IH conns1 k1 Hs1 Hnd)|].
    { intros x Hx. destruct (Hrest x Hx) as [|]; [by left|right]. destruct Hc as [->|(y & _ & _ & ->)]; set_solver. }
    cbv beta. intros _ k2 (new & tr & Hs2 & Hnew & Hh2 & Htr).
    assert (new = ∅) as -> by by destruct Hnew as [|[? _]].
    assert (listen_fd ∉ conns) by (destruct Hsv; set_solver).
    destruct Hc as [->|(y & Hy & Hyl & ->)].
    + exists ∅, tr. split_and!; [|by left|congruence|by constructor].
      replace (after_events conns (listen_fd :: evs) ∅) with (after_events conns evs ∅); [done|].
      unfold after_events. cbn. set_solver.
    + exists {[y]}, tr. split_and!; [|right; split; [by left|eauto]|congruence|by constructor].
      replace (after_events conns (listen_fd :: evs) {[y]}) with (after_events ({[y]} ∪ conns) evs ∅); [done|].
      assert (y ∉ evs) by (intros Hy'; by destruct (Hrest y Hy')).
      unfold after_events. cbn. set_solver.
  - assert (fd ∈ conns) as Hin by (destruct (Hevs fd); [by left|done|done]).
    apply goes_on_bind. eapply goes_on_mono; [by apply (answer_spec conns)|]. cbv beta. intros _ k1 (Hs1 & tr1 & Hh1 & Htr1).
    eapply goes_on_mono; [apply (IH _ k1 Hs1 Hnd)|].
    { intros x Hx. destruct (Hrest x Hx) as [|]; [by left|right; set_solver]. }
    cbv beta. intros _ k2 (new & tr & Hs2 & Hnew & Hh2 & Htr). exists new, (tr1 ++ tr). split_and!.
    + replace (after_events conns (fd :: evs) new) with (after_events (conns ∖ {[fd]}) evs new); [done|].
      unfold after_events. cbn. set_solver.
    + destruct Hnew as [->|[? ?]]; [by left|right]. split; [by right|done].
    + by rewrite Hh2, Hh1, app_assoc.
    + by apply Htr1.
Qed.

Lemma turn_spec conns k : serving conns k -> goes_on (turn listen_fd epoll_fd) k (λ _ k', ∃ evs new tr k1,
  sys_epoll_wait epoll_fd MAX_EVENTS k = (Some evs, k1) ∧
  serving (after_events conns evs new) k' ∧ one_new evs new ∧
  V.(history) k' = V.(history) k ++ tr ∧ served listen_fd evs tr).
Proof.
  intros Hsv. apply goes_on_bind, goes_on_sys. intros evs k1 Hwait.
  pose proof (law_wait V HV _ _ _ _ _ Hwait) as [Hsame Hevs].
  destruct evs as [evs|]; [|by left]. destruct (Hevs evs eq_refl) as (Hnd & Hlen & Hin).
  eapply goes_on_mono; [apply (serve_events_spec evs conns k1); [by eapply serving_same|done|]|].
  { intros fd Hfd. apply Hin in Hfd. destruct Hsv as [_ Hi _ _]. rewrite Hi in Hfd. set_solver. }
  cbv beta. intros _ k2 (new & tr & ? & ? & Hh & ?). exists evs, new, tr, k1. split_and!; try done.
  by rewrite Hh, (proj2 (proj2 Hsame)), app_nil_r.
Qed.

End loop.

Section theorems.
Context {K : Type} {HK : Sockets K} (V : sys_view K) (HV : sockets_laws V).

Lemma same_but_fds tr k k' k'' : same_but V tr k k' -> same_but V [] k' k'' -> same_but V tr k k''.
Proof. intros (Ho & Hi & Hh) (Ho' & Hi' & Hh'). split_and!; [congruence|intros e; by rewrite Hi', Hi|by rewrite Hh', Hh, app_nil_r]. Qed.

Lemma setup_spec k : goes_on (setup (K := K)) k (λ '(listen_fd, epoll_fd) k',
  serving V (V.(opened) k) listen_fd epoll_fd ∅ k' ∧ listen_fd ∉ V.(opened) k ∧ epoll_fd ∉ V.(opened) k).
Proof.
  apply goes_on_bind, goes_on_or_exit. intros l k1 Hl Hl1.
  apply (law_socket V HV) in Hl as [[? _]|(_ & Hnew & Ho1 & _)]; [done|].
  apply goes_on_bind, goes_on_sys. intros r2 k2 Hr2. apply (law_reuseaddr V HV) in Hr2 as (Ho2 & _).
  apply goes_on_bind, goes_on_or_exit. intros r3 k3 Hr3 _. apply (law_bind V HV) in Hr3 as (Ho3 & _).
  apply goes_on_bind, goes_on_or_exit. intros r4 k4 Hr4 _. apply (law_listen V HV) in Hr4 as (Ho4 & _).
  apply goes_on_bind, goes_on_or_exit. intros e k5 He He1.
  apply (law_create V HV) in He as [[[? _]|(_ & Hne & Ho5 & _)] Hi5]; [done|]. specialize (Hi5 He1).
  apply goes_on_bind, goes_on_or_exit. intros r6 k6 Hr6 Hr61.
  apply (law_add V HV) in Hr6 as [[? _]|(_ & Ho6 & Hi6 & _)]; [done|].
  assert (V.(opened) k4 = {[l]} ∪ V.(opened) k) as Ho by congruence. rewrite Ho in Hne.
  cbn. split_and!; [|done|set_solver]. split.
  - rewrite Ho6, Ho5, Ho. set_solver.
  - rewrite Hi6, Hi5. set_solver.
  - set_solver.
  - set_solver.
Qed.

(** C40. The demonstration of epoll serves its connections for as long as it runs and
    leaks no descriptor. Between two turns exactly the descriptors the process
    started with, the two of the server and the open connections are open, and
    [epoll] watches the listening descriptor and every open connection. A turn
    closes each connection that [epoll_wait] reported, after one read, and after
    one write of the whole answer if something was read; it opens one new
    connection at most, and only when the listening descriptor was reported. Or
    the process ends: with -1 when a call failed, or by [SIGPIPE]. *)
Theorem epoll_server_serves k0 listen_fd epoll_fd k1 k :
  setup k0 = (Ret (listen_fd, epoll_fd), k1) -> star (turn_step listen_fd epoll_fd) k1 k ->
  ∃ conns, serving V (V.(opened) k0) listen_fd epoll_fd conns k ∧
  goes_on (turn listen_fd epoll_fd) k (λ _ k', ∃ evs new tr k2,
    sys_epoll_wait epoll_fd MAX_EVENTS k = (Some evs, k2) ∧
    serving V (V.(opened) k0) listen_fd epoll_fd (after_events conns evs new) k' ∧ one_new listen_fd evs new ∧
    V.(history) k' = V.(history) k ++ tr ∧ served listen_fd evs tr).
Proof.
  intros Hsetup Hstar. pose proof (setup_spec k0) as Hs. unfold goes_on in Hs at 1. rewrite Hsetup in Hs.
  destruct Hs as [Hs _].
  assert (∃ conns, serving V (V.(opened) k0) listen_fd epoll_fd conns k) as [conns Hk].
  { apply (star_invariant _ (λ k, ∃ conns, serving V (V.(opened) k0) listen_fd epoll_fd conns k)) in Hstar; [done| |by eexists].
    intros k2 k3 Hstep [conns Hk]. pose proof (turn_spec V HV _ _ _ _ _ Hk) as Ht. unfold goes_on in Ht.
    rewrite Hstep in Ht. destruct Ht as (evs & new & _ & _ & _ & ? & _). by eexists. }
  exists conns. split; [done|]. by apply turn_spec.
Qed.

End theorems.

(** ** A concrete system

    Descriptors are given in order, each call succeeds, and the reports of
    [epoll_wait] are given. *)
Record sample_net := mkNet {
  nt_open : gset Z;
  nt_watch : gmap Z (gset Z);
  nt_history : list io_event;
  nt_next : nat;
  nt_reports : list (list Z)
}.

Definition nt_did (ev : io_event) (k : sample_net) : sample_net :=
  mkNet k.(nt_open) k.(nt_watch) (k.(nt_history) ++ [ev]) k.(nt_next) k.(nt_reports).
Definition nt_interest (e : Z) (k : sample_net) : gset Z := default ∅ (k.(nt_watch) !! e).
Definition nt_new (k : sample_net) : Z * sample_net :=
  let fd := Z.of_nat k.(nt_next) in
  if decide (fd ∈ k.(nt_open)) then ((-1)%Z, k)
  else (fd, mkNet ({[fd]} ∪ k.(nt_open)) (delete fd k.(nt_watch)) k.(nt_history) (S k.(nt_next)) k.(nt_reports)).
Definition nt_close (fd : Z) (k : sample_net) : sample_net :=
  mkNet (k.(nt_open) ∖ {[fd]}) ((.∖ {[fd]}) <$> k.(nt_watch)) (k.(nt_history) ++ [DidClose fd]) k.(nt_next) k.(nt_reports).

#[export] Instance sample_sockets : Sockets sample_net := {|
  sys_socket := nt_new;
  sys_reuseaddr _ k := (0%Z, k);
  sys_bind _ _ k := (0%Z, k);
  sys_listen _ _ k := (0%Z, k);
  sys_accept _ := nt_new;
  sys_read fd _ k := (5%Z, nt_did (DidRead fd 5) k);
  sys_write fd s k := (Some (Z.of_nat (length s)), nt_did (DidWrite fd s) k);
  sys_close fd k := (0%Z, nt_close fd k);
  sys_epoll_create1 := nt_new;
  sys_epoll_add e fd k :=
    (0%Z, mkNet k.(nt_open) (<[e := {[fd]} ∪ nt_interest e k]> k.(nt_watch)) k.(nt_history) k.(nt_next) k.(nt_reports));
  sys_epoll_wait e n k :=
    match k.(nt_reports) with
    | [] => (None, k)
    | l :: reports =>
        (Some (take n (remove_dups (base.filter (.∈ nt_interest e k) l))),
         mkNet k.(nt_open) k.(nt_watch) k.(nt_history) k.(nt_next) reports)
    end
|}.

Definition sample_view : sys_view sample_net := mkView nt_open nt_interest nt_history.

Lemma nt_new_makes k r k' : nt_new k = (r, k') -> makes sample_view r k k' ∧ (r ≠ -1 -> nt_interest r k' = ∅)%Z.
Proof.
  unfold nt_new. destruct (decide _) as [|Hfd]; intros [= <- <-].
  - split; [|done]. left. split; [done|]. split_and!; [done..|by rewrite app_nil_r].
  - split.
    + right. split_and!; [lia|done|done| |done]. intros e He. cbn. unfold nt_interest. cbn. by rewrite lookup_delete_ne by done.
    + intros _. unfold nt_interest. cbn. by rewrite lookup_delete_eq.
Qed.

Lemma sample_view_laws : sockets_laws sample_view.
Proof.
  assert (∀ k, same_but sample_view [] k k) as Hsame by (intros k; split_and!; [done..|by rewrite app_nil_r]).
  split.
  - intros k r k' Hr. by apply nt_new_makes.
  - intros fd k r k' [= <- <-]. apply Hsame.
  - intros fd port k r k' [= <- <-]. apply Hsame.
  - intros fd n k r k' [= <- <-]. apply Hsame.
  - intros fd k r k' Hr. by apply nt_new_makes.
  - by intros fd n k r k' [= <- <-].
  - by intros fd s k n k' [= <- <-].
  - intros fd k r k' [= <- <-] Hfd. split_and!; [done| |done]. intros e He. cbn. unfold nt_interest. cbn.
    rewrite lookup_fmap. destruct (_ !! e); cbn; set_solver.
  - intros k r k' Hr. by apply nt_new_makes.
  - intros e fd k r k' [= <- <-]. right. split_and!; [done..| |done]. cbn. unfold nt_interest at 1. cbn.
    by rewrite lookup_insert_eq.
  - intros e n k o k' Hw. cbn in Hw. destruct (nt_reports k) as [|l reports]; injection Hw as <- <-; [done|].
    split; [split_and!; [done..|by rewrite app_nil_r]|]. intros l' [= <-]. split_and!.
    + eapply sublist_NoDup; [apply NoDup_remove_dups|apply sublist_take].
    + rewrite length_take. lia.
    + intros fd Hfd. assert (fd ∈ remove_dups (base.filter (.∈ nt_interest e k) l)) as Hin.
      { rewrite <-(take_drop n). apply elem_of_app. by left. }
      by apply elem_of_remove_dups, list_elem_of_filter in Hin as [? _].
Qed.

(** Two clients connect; the first is answered while the third connects. *)
Definition sample_start : sample_net := mkNet {[0; 1; 2]}%Z ∅ [] 3 [[3]; [3]; [5; 3]]%Z.

Lemma epoll_server_serves_witness : ∃ k1 k conns,
  setup sample_start = (Ret (3, 4)%Z, k1) ∧ star (turn_step 3 4) k1 k ∧
  serving sample_view {[0; 1; 2]}%Z 3 4 conns k ∧
  goes_on (turn 3 4) k (λ _ k', ∃ evs new tr k2, sys_epoll_wait 4 MAX_EVENTS k = (Some evs, k2) ∧
    serving sample_view {[0; 1; 2]}%Z 3 4 (after_events conns evs new) k' ∧ one_new 3 evs new ∧
    nt_history k' = nt_history k ++ tr ∧ served 3 evs tr).
Proof.
  set (k1 := (setup sample_start).2). set (k2 := (turn 3 4 k1).2). set (k3 := (turn 3 4 k2).2).
  assert (setup sample_start = (Ret (3, 4)%Z, k1)) as Hs by (vm_compute; reflexivity).
  assert (star (turn_step 3 4) k1 k3) as Hstar.
  { apply star_step with k2; [vm_compute; reflexivity|]. apply star_one. vm_compute. reflexivity. }
  destruct (epoll_server_serves sample_view sample_view_laws sample_start 3 4 k1 k3 Hs Hstar) as (conns & Hsv & Hturn).
  exists k1, k3, conns. split; [exact Hs|]. split; [exact Hstar|]. split; [exact Hsv|]. exact Hturn.
Defined.

(** What the third turn does there. *)
Example third_turn :
  let k := (turn 3 4 (turn 3 4 (setup sample_start).2).2).2 in
  nt_history (turn 3 4 k).2 = [DidRead 5 5; DidWrite 5 epoll_response; DidClose 5]%Z ∧
  elements (nt_open (turn 3 4 k).2) ≡ₚ [0; 1; 2; 3; 4; 6; 7]%Z.
Proof. split; [vm_compute; reflexivity|]. apply (bool_decide_unpack _). vm_compute. exact I. Qed.
