(* ===== verification/LibeventServer.v ===== *)
(** * The demonstration of libevent

    [co-pro/libevent/main.cpp]: the server of [EpollServer.v] as two callbacks of
    libevent. The library is an interface: a base, and events that are allocated,
    assigned, added and freed by their pointers; [next_callback] is what
    [event_base_dispatch] calls next, [None] when it returns. A callback gets the
    descriptor and the argument of its event. [recv] and [send], without flags,
    are [sys_read] and [sys_write]. *)

From S2P Require Export EpollServer.

(** The callbacks the program hands to libevent. *)
Inductive handler := AcceptConnCb | HttpReadCb.

Definition EV_READ : Z := 2.
Definition EV_PERSIST : Z := 16.
Definition FD_SETSIZE : Z := 1024.
Definition SERVER_PORT : Z := 8080.

Class Libevent (K : Type) := {
  evutil_make_socket_nonblocking : Z -> K -> Z * K;
  event_base_new : K -> Z * K;
  event_base_free : Z -> K -> unit * K;
  event_new : option Z -> Z -> Z -> option handler -> Z -> K -> Z * K;
  event_assign : Z -> Z -> Z -> Z -> handler -> Z -> K -> Z * K;
  event_add : Z -> K -> Z * K;
  event_free : Z -> K -> unit * K;
  next_callback : Z -> K -> option (handler * Z * Z) * K
}.

Definition hello_response : bytes :=
  lit "HTTP/1.1 200 OK" ++ crlf ++ lit "Content-Type: text/plain" ++ crlf ++ lit "Content-Length: 13" ++ crlf ++
  lit "Connection: keep-alive" ++ crlf ++ crlf ++ lit "Hello, World!".

Section server.
Context {K : Type} {HK : Sockets K} {HEv : Libevent K}.

Abbreviation server_prog A := (prog stopped K A).

(** [http_read_cb(fd, events, arg)], where [arg] is an event. *)
Definition http_read_cb (fd arg : Z) : server_prog unit :=
  len ← sys (sys_read fd 1023);
  if bool_decide (len <= 0)%Z then sys (sys_close fd);; sys (event_free arg)
  else
    n ← sys (sys_write fd hello_response);
    match n with
    | None => throw (Killed SIGPIPE)
    | Some _ => sys (sys_close fd);; sys (event_free arg)
    end.

(** [accept_conn_cb(listener, event, arg)], where [arg] is the base. *)
Definition accept_conn_cb (listener arg : Z) : server_prog unit :=
  fd ← sys (sys_accept listener);
  if bool_decide (fd < 0)%Z then mret tt
  else if bool_decide (FD_SETSIZE < fd)%Z then sys (sys_close fd);; mret tt
  else
    ev ← sys (event_new None (-1) 0 None 0);
    sys (event_assign ev arg fd (Z.lor EV_READ EV_PERSIST) HttpReadCb ev);;
    sys (event_add ev);;
    mret tt.

Definition call_back (c : handler * Z * Z) : server_prog unit :=
  let '(h, fd, arg) := c in
  match h with AcceptConnCb => accept_conn_cb fd arg | HttpReadCb => http_read_cb fd arg end.

(** [if (call < 0) return -1], in [main]. *)
Definition or_return (f : K -> Z * K) : server_prog Z :=
  r ← sys f; if bool_decide (r < 0)%Z then throw (Exited (-1)) else mret r.

(** [main] up to the loop: the listening socket, the base and its event. *)
Definition libevent_setup : server_prog (Z * Z * Z) :=
  listener ← or_return sys_socket;
  sys (evutil_make_socket_nonblocking listener);;
  sys (sys_reuseaddr listener);;
  or_return (sys_bind listener SERVER_PORT);;
  or_return (sys_listen listener 1024);;
  base ← sys event_base_new;
  listener_event ← sys (event_new (Some base) listener (Z.lor EV_READ EV_PERSIST) (Some AcceptConnCb) base);
  sys (event_add listener_event);;
  mret (listener, base, listener_event).

(** A callback of [event_base_dispatch]; [false] when it returns. *)
Definition dispatch_one (base : Z) : server_prog bool :=
  c ← sys (next_callback base);
  match c with
  | None => mret false
  | Some c => call_back c;; mret true
  end.

Definition dispatch_step (base : Z) (k k' : K) : Prop := dispatch_one base k = (Ret true, k').

(** [main] after the loop. *)
Definition libevent_cleanup (listener base listener_event : Z) : server_prog Z :=
  sys (event_free listener_event);;
  sys (event_base_free base);;
  sys (sys_close listener);;
  mret 0%Z.

End server.

(** ** What libevent promises

    [ev_events] shows the events that are allocated: a pointer to its
    descriptor, callback and argument, and whether it has been added. Allocating
    gives a pointer that is not in use, and [event_base_dispatch] calls back only
    for events that were added. The library opens descriptors for a base only. *)
Record event_info := mkEvent {
  ei_fd : Z;
  ei_handler : option handler;
  ei_arg : Z;
  ei_added : bool
}.

Section laws.
Context {K : Type} {HK : Sockets K} {HEv : Libevent K} (V : sys_view K) (ev_events : K -> gmap Z event_info).

(** The calls to the system leave the events. *)
Definition events_left {A} (f : K -> A * K) : Prop := ∀ k a k', f k = (a, k') -> ev_events k' = ev_events k.
(** The calls to libevent leave the descriptors. *)
Definition fds_left (k k' : K) : Prop := V.(opened) k' = V.(opened) k ∧ V.(history) k' = V.(history) k.

Record libevent_laws : Prop := {
  left_socket : events_left sys_socket;
  left_reuseaddr fd : events_left (sys_reuseaddr fd);
  left_bind fd port : events_left (sys_bind fd port);
  left_listen fd n : events_left (sys_listen fd n);
  left_accept fd : events_left (sys_accept fd);
  left_read fd n : events_left (sys_read fd n);
  left_write fd s : events_left (sys_write fd s);
  left_close fd : events_left (sys_close fd);
  law_nonblocking fd k r k' : evutil_make_socket_nonblocking fd k = (r, k') -> fds_left k k' ∧ ev_events k' = ev_events k;
  law_base_new k b k' : event_base_new k = (b, k') -> V.(opened) k ⊆ V.(opened) k' ∧ V.(history) k' = V.(history) k ∧
    ev_events k' = ev_events k;
  law_event_new b fd fl h arg k ev k' : event_new b fd fl h arg k = (ev, k') -> fds_left k k' ∧
    ev_events k !! ev = None ∧ ev_events k' = <[ev := mkEvent fd h arg false]> (ev_events k);
  law_event_assign ev b fd fl h arg k r k' : event_assign ev b fd fl h arg k = (r, k') -> is_Some (ev_events k !! ev) ->
    fds_left k k' ∧ ev_events k' = <[ev := mkEvent fd (Some h) arg false]> (ev_events k);
  law_event_add ev x k r k' : event_add ev k = (r, k') -> ev_events k !! ev = Some x -> fds_left k k' ∧
    ev_events k' = if decide (r = 0)%Z then <[ev := mkEvent x.(ei_fd) x.(ei_handler) x.(ei_arg) true]> (ev_events k) else ev_events k;
  law_event_free ev k u k' : event_free ev k = (u, k') -> is_Some (ev_events k !! ev) ->
    fds_left k k' ∧ ev_events k' = delete ev (ev_events k);
  law_next b k o k' : next_callback b k = (o, k') -> fds_left k k' ∧ ev_events k' = ev_events k ∧
    ∀ h fd arg, o = Some (h, fd, arg) -> ∃ ev, ev_events k !! ev = Some (mkEvent fd (Some h) arg true)
}.

End laws.

(** ** The loop *)

Section loop.
Context {K : Type} {HK : Sockets K} {HEv : Libevent K} (V : sys_view K) (HV : sockets_laws V).
Context (ev_events : K -> gmap Z event_info) (HE : libevent_laws V ev_events).
Variables (base_fds : gset Z) (listener base listener_event : Z).
Implicit Types (k : K) (ev fd : Z) (x : event_info).

(** The event of connection [fd]. *)
Definition conn_event k ev fd : Prop :=
  ev ≠ listener_event ∧ ∃ a, ev_events k !! ev = Some (mkEvent fd (Some HttpReadCb) ev a).

(** Between callbacks: besides the event of the listening socket, there is one
    for each connection, whose argument is the event itself, and besides the
    descriptors there were when the loop began, exactly the connections are
    open. *)
Record dispatching k : Prop := {
  dp_listener : listener ∈ base_fds ∧ ∃ a, ev_events k !! listener_event = Some (mkEvent listener (Some AcceptConnCb) base a);
  dp_events ev x : ev_events k !! ev = Some x -> ev ≠ listener_event -> conn_event k ev x.(ei_fd);
  dp_base : base_fds ⊆ V.(opened) k;
  dp_opened fd : fd ∈ V.(opened) k -> fd ∈ base_fds ∨ ∃ ev, conn_event k ev fd;
  dp_conn ev fd : conn_event k ev fd -> fd ∈ V.(opened) k ∖ base_fds;
  dp_once ev ev' fd : conn_event k ev fd -> conn_event k ev' fd -> ev = ev'
}.

Lemma dispatching_same k k' : V.(opened) k' = V.(opened) k -> ev_events k' = ev_events k -> dispatching k -> dispatching k'.
Proof.
  intros Ho He [Hl Hev Hb Hop Hc Hi]. unfold conn_event in *. split; unfold conn_event; rewrite ?He, ?Ho; try done.
Qed.

(** A connection is closed with its event. *)
Lemma dispatching_closed k k' ev fd : dispatching k -> conn_event k ev fd ->
  V.(opened) k' = V.(opened) k ∖ {[fd]} -> ev_events k' = delete ev (ev_events k) -> dispatching k'.
Proof.
  intros [Hl Hev Hb Hop Hc Hi] Hconn Ho He. pose proof (Hc _ _ Hconn) as Hfd. pose proof Hconn as [Hne _].
  assert (∀ ev' fd', conn_event k' ev' fd' <-> ev' ≠ ev ∧ conn_event k ev' fd') as Hiff.
  { intros ev' fd'. unfold conn_event. rewrite He. destruct (decide (ev' = ev)) as [->|].
    - rewrite lookup_delete_eq. naive_solver.
    - rewrite lookup_delete_ne by done. naive_solver. }
  split.
  - rewrite He, lookup_delete_ne by done. done.
  - intros ev' x Hx Hne'. apply Hiff. rewrite He in Hx. apply lookup_delete_Some in Hx as [? Hx]. split; [done|by apply Hev].
  - rewrite Ho. set_solver.
  - intros fd' Hin. rewrite Ho in Hin. destruct (Hop fd') as [|[ev' Hev']]; [set_solver|by left|right]. exists ev'. apply Hiff.
    split; [|done]. intros ->. destruct Hev' as (_ & ? & Hx), Hconn as (_ & ? & Hy). rewrite Hx in Hy. injection Hy as -> _. set_solver.
  - intros ev' fd' [Hne' Hc']%Hiff. rewrite Ho. apply Hc in Hc' as Hin.
    assert (fd' ≠ fd); [|set_solver]. intros ->. by apply Hne', (Hi ev' ev fd).
  - intros ev1 ev2 fd' [_ ?]%Hiff [_ ?]%Hiff. by eapply Hi.
Qed.

(** A connection is opened, with a new event. *)
Lemma dispatching_opened k k' ev fd a : dispatching k -> fd ∉ V.(opened) k -> ev_events k !! ev = None ->
  V.(opened) k' = {[fd]} ∪ V.(opened) k -> ev_events k' = <[ev := mkEvent fd (Some HttpReadCb) ev a]> (ev_events k) ->
  dispatching k' ∧ conn_event k' ev fd.
Proof.
  intros [Hl Hev Hb Hop Hc Hi] Hfd Hnew Ho He. destruct Hl as [Hlb [a0 Hla]].
  assert (ev ≠ listener_event) as Hne by congruence.
  assert (∀ ev' fd', conn_event k' ev' fd' <-> (ev' = ev ∧ fd' = fd) ∨ conn_event k ev' fd') as Hiff.
  { intros ev' fd'. unfold conn_event. rewrite He. destruct (decide (ev' = ev)) as [->|].
    - rewrite lookup_insert_eq, Hnew. naive_solver.
    - rewrite lookup_insert_ne by done. naive_solver. }
  split; [|apply Hiff; by left]. split.
  - rewrite He, lookup_insert_ne by done. eauto.
  - intros ev' x Hx Hne'. apply Hiff. rewrite He in Hx. apply lookup_insert_Some in Hx as [[<- <-]|[? Hx]]; [by left|right; by apply Hev].
  - rewrite Ho. set_solver.
  - intros fd' Hin. rewrite Ho in Hin. apply elem_of_union in Hin as [Hin|Hin].
    + right. exists ev. apply Hiff. left. set_solver.
    + destruct (Hop fd' Hin) as [|[ev' ?]]; [by left|right]. exists ev'. apply Hiff. by right.
  - intros ev' fd' [[-> ->]|Hin%Hc]%Hiff; rewrite Ho; set_solver.
  - intros ev1 ev2 fd' H1%Hiff H2%Hiff. destruct H1 as [[-> ->]|H1], H2 as [[-> ?]|H2]; subst; try done.
    + apply Hc in H2. set_solver.
    + apply Hc in H1. set_solver.
    + by eapply Hi.
Qed.

(** What [http_read_cb] does for a connection. *)
Definition read_done fd len : list io_event :=
  DidRead fd len :: (if decide (0 < len)%Z then [DidWrite fd hello_response] else []) ++ [DidClose fd].

Lemma close_and_free k ev fd : dispatching k -> conn_event k ev fd ->
  goes_on (sys (sys_close fd);; sys (event_free ev)) k (λ _ k',
    dispatching k' ∧ ev_events k' !! ev = None ∧ V.(opened) k' = V.(opened) k ∖ {[fd]} ∧
    V.(history) k' = V.(history) k ++ [DidClose fd]).
Proof.
  intros Hd Hc. apply goes_on_bind, goes_on_sys. intros r k1 Hcl.
  pose proof (left_close _ _ HE _ _ _ _ Hcl) as He1.
  apply (law_close V HV) in Hcl as (Ho1 & _ & Hh1); [|by apply (dp_conn _ Hd) in Hc; set_solver].
  apply goes_on_sys. intros u k2 Hfree. apply (law_event_free _ _ HE) in Hfree as [[Ho2 Hh2] He2].
  2:{ rewrite He1. destruct Hc as (_ & a & ->). by eexists. }
  rewrite He1 in He2. split_and!; [|by rewrite He2, lookup_delete_eq|congruence|congruence].
  eapply dispatching_closed; [exact Hd|exact Hc|congruence|done].
Qed.

Lemma http_read_cb_spec k ev fd : dispatching k -> conn_event k ev fd ->
  goes_on (http_read_cb fd ev) k (λ _ k', dispatching k' ∧ ev_events k' !! ev = None ∧
    V.(opened) k' = V.(opened) k ∖ {[fd]} ∧ ∃ len, V.(history) k' = V.(history) k ++ read_done fd len).
Proof.
  intros Hd Hc. apply goes_on_bind, goes_on_sys. intros len k1 Hr.
  pose proof (left_read _ _ HE _ _ _ _ _ Hr) as He1. apply (law_read V HV) in Hr as (Ho1 & _ & Hh1).
  assert (dispatching k1) as Hd1 by by eapply dispatching_same.
  assert (conn_event k1 ev fd) as Hc1 by (unfold conn_event; by rewrite He1). case_bool_decide as Hlen.
  - eapply goes_on_mono; [by apply close_and_free|]. cbv beta. intros _ k2 (? & ? & Ho2 & Hh2).
    split_and!; [done..|congruence|]. exists len. unfold read_done. rewrite decide_False by lia. by rewrite Hh2, Hh1, <-app_assoc.
  - apply goes_on_bind, goes_on_sys. intros [n|] k2 Hw; [|by right].
    pose proof (left_write _ _ HE _ _ _ _ _ Hw) as He2. apply (law_write V HV) in Hw as (Ho2 & _ & Hh2).
    eapply goes_on_mono; [apply (close_and_free k2 ev fd); [by eapply dispatching_same|unfold conn_event in *; by rewrite He2]|].
    cbv beta. intros _ k3 (? & ? & Ho3 & Hh3). split_and!; [done..|congruence|]. exists len. unfold read_done.
    rewrite decide_True by lia. by rewrite Hh3, Hh2, Hh1, <-!app_assoc.
Qed.

(** What [accept_conn_cb] does: nothing, a connection with a descriptor that
    select could not watch is closed, or one more connection. *)
Lemma accept_conn_cb_spec k : dispatching k ->
  goes_on (accept_conn_cb listener base) k (λ _ k', dispatching k' ∧
    (V.(opened) k' = V.(opened) k ∧ ev_events k' = ev_events k ∨
     ∃ ev fd, fd ∉ V.(opened) k ∧ (0 <= fd <= FD_SETSIZE)%Z ∧ V.(opened) k' = {[fd]} ∪ V.(opened) k ∧
       ev_events k !! ev = None ∧ conn_event k' ev fd)).
Proof.
  intros Hd. apply goes_on_bind, goes_on_sys. intros fd k1 Hacc.
  pose proof (left_accept _ _ HE _ _ _ _ Hacc) as He1.
  apply (law_accept V HV) in Hacc as [[-> (Ho1 & _)]|(Hfd & Hnew & Ho1 & _)].
  { split; [by eapply dispatching_same|by left]. }
  rewrite bool_decide_false by lia. case_bool_decide as Hset.
  - apply goes_on_bind, goes_on_sys. intros r k2 Hcl. pose proof (left_close _ _ HE _ _ _ _ Hcl) as He2.
    apply (law_close V HV) in Hcl as (Ho2 & _); [|set_solver].
    assert (V.(opened) k2 = V.(opened) k) as Ho by (rewrite Ho2, Ho1; set_solver).
    split; [by eapply dispatching_same; [..|exact Hd]; congruence|left; split; congruence].
  - apply goes_on_bind, goes_on_sys. intros ev k2 Hn. apply (law_event_new _ _ HE) in Hn as ([Ho2 _] & Hfresh & He2).
    apply goes_on_bind, goes_on_sys. intros r3 k3 Ha. apply (law_event_assign _ _ HE) in Ha as ([Ho3 _] & He3);
      [|rewrite He2, lookup_insert_eq; by eexists].
    apply goes_on_bind, goes_on_sys. intros r4 k4 Hadd.
    eapply (law_event_add _ _ HE) in Hadd as ([Ho4 _] & He4); [|by rewrite He3, lookup_insert_eq].
    rewrite He1 in Hfresh, He2. rewrite He2, insert_insert_eq in He3.
    assert (∃ a, ev_events k4 = <[ev := mkEvent fd (Some HttpReadCb) ev a]> (ev_events k)) as [a He].
    { rewrite He4, He3. destruct (decide _); [exists true|by exists false]. by rewrite insert_insert_eq. }
    destruct (dispatching_opened k k4 ev fd a Hd Hnew Hfresh) as [Hd4 Hc4]; [congruence|done|].
    split; [done|right]. exists ev, fd. split_and!; try done; [lia|congruence].
Qed.

(** A callback of the loop: which one, and what holds after it. *)
Lemma dispatch_one_spec k : dispatching k -> goes_on (dispatch_one base) k (λ _ k', dispatching k').
Proof.
  intros Hd. apply goes_on_bind, goes_on_sys. intros [[[h fd] arg]|] k1 Hnext;
    apply (law_next _ _ HE) in Hnext as ([Ho1 _] & He1 & Hcb); [|by eapply dispatching_same].
  destruct (Hcb h fd arg eq_refl) as [ev Hev]. assert (dispatching k1) as Hd1 by by eapply dispatching_same.
  apply goes_on_bind. rewrite <-He1 in Hev. destruct (decide (ev = listener_event)) as [->|Hne].
  - destruct (dp_listener _ Hd1) as [_ [a Hl]]. rewrite Hev in Hl. injection Hl as -> -> -> _.
    eapply goes_on_mono; [by apply accept_conn_cb_spec|]. by intros _ k2 [? _].
  - destruct (dp_events _ Hd1 ev _ Hev Hne) as (_ & a & Hx). cbn in Hx. rewrite Hev in Hx. injection Hx as -> -> _.
    eapply goes_on_mono; [apply (http_read_cb_spec k1 ev fd Hd1)|by intros _ k2 [? _]].
    split; [done|by eexists].
Qed.

End loop.

(** ** From [main] on *)

Section theorems.
Context {K : Type} {HK : Sockets K} {HEv : Libevent K} (V : sys_view K) (HV : sockets_laws V).
Context (ev_events : K -> gmap Z event_info) (HE : libevent_laws V ev_events).

Lemma goes_on_or_return (f : K -> Z * K) k (Q : Z -> K -> Prop) :
  (∀ r k', f k = (r, k') -> (0 <= r)%Z -> Q r k') -> goes_on (or_return f) k Q.
Proof. intros HQ. apply goes_on_bind, goes_on_sys. intros r k' Hr. case_bool_decide; [by left|apply HQ; [done|lia]]. Qed.

Lemma libevent_setup_spec k : ev_events k = ∅ -> goes_on libevent_setup k (λ '(listener, base, listener_event) k',
  dispatching V ev_events (V.(opened) k') listener base listener_event k').
Proof.
  intros H0. apply goes_on_bind, goes_on_or_return. intros l k1 Hl Hl0.
  pose proof (left_socket _ _ HE _ _ _ Hl) as He1.
  apply (law_socket V HV) in Hl as [[-> _]|(_ & _ & Ho1 & _)]; [done|].
  apply goes_on_bind, goes_on_sys. intros r2 k2 Hn. apply (law_nonblocking _ _ HE) in Hn as ([Ho2 _] & He2).
  apply goes_on_bind, goes_on_sys. intros r3 k3 Hr. pose proof (left_reuseaddr _ _ HE _ _ _ _ Hr) as He3.
  apply (law_reuseaddr V HV) in Hr as (Ho3 & _).
  apply goes_on_bind, goes_on_or_return. intros r4 k4 Hb _. pose proof (left_bind _ _ HE _ _ _ _ _ Hb) as He4.
  apply (law_bind V HV) in Hb as (Ho4 & _).
  apply goes_on_bind, goes_on_or_return. intros r5 k5 Hli _. pose proof (left_listen _ _ HE _ _ _ _ _ Hli) as He5.
  apply (law_listen V HV) in Hli as (Ho5 & _).
  apply goes_on_bind, goes_on_sys. intros b k6 Hb. apply (law_base_new _ _ HE) in Hb as (Ho6 & _ & He6).
  apply goes_on_bind, goes_on_sys. intros ev k7 Hev. apply (law_event_new _ _ HE) in Hev as ([Ho7 _] & _ & He7).
  apply goes_on_bind, goes_on_sys. intros r8 k8 Hadd.
  eapply (law_event_add _ _ HE) in Hadd as ([Ho8 _] & He8); [|by rewrite He7, lookup_insert_eq].
  assert (l ∈ V.(opened) k8) as Hin by (rewrite Ho8, Ho7; apply Ho6; rewrite Ho5, Ho4, Ho3, Ho2, Ho1; set_solver).
  assert (∃ a, ev_events k8 = {[ev := mkEvent l (Some AcceptConnCb) b a]}) as [a He].
  { rewrite He8, He7, He6, He5, He4, He3, He2, He1, H0. destruct (decide _); [exists true|by exists false].
    by rewrite insert_insert_eq. }
  assert (∀ ev' fd, ¬ conn_event ev_events ev k8 ev' fd) as Hno.
  { intros ev' fd [Hne [a' Hx]]. rewrite He, lookup_singleton_ne in Hx by done. done. }
  cbn. split.
  - split; [done|]. exists a. rewrite He. apply lookup_singleton_eq.
  - intros ev' x Hx Hne. by rewrite He, lookup_singleton_ne in Hx by done.
  - done.
  - intros fd Hfd. by left.
  - intros ev' fd Hc. by destruct (Hno ev' fd).
  - intros ev' ev'' fd Hc. by destruct (Hno ev' fd).
Qed.

(** The demonstration of libevent leaks nothing and frees nothing twice. After
    any number of callbacks the open descriptors are those there were when the
    loop began and one for each connection; each connection has one event, whose
    argument is that event; and a callback of libevent for a connection, of the
    event it belongs to, reads once, answers if something was read, closes the
    descriptor and frees the event, which no event refers to any more. *)
Theorem libevent_server_serves k0 listener base listener_event k1 k :
  ev_events k0 = ∅ -> libevent_setup k0 = (Ret (listener, base, listener_event), k1) -> star (dispatch_step base) k1 k ->
  dispatching V ev_events (V.(opened) k1) listener base listener_event k ∧
  ∀ ev fd, conn_event ev_events listener_event k ev fd -> goes_on (http_read_cb fd ev) k (λ _ k',
    dispatching V ev_events (V.(opened) k1) listener base listener_event k' ∧ ev_events k' !! ev = None ∧
    V.(opened) k' = V.(opened) k ∖ {[fd]} ∧ ∃ len, V.(history) k' = V.(history) k ++ read_done fd len).
Proof.
  intros H0 Hsetup Hstar. pose proof (libevent_setup_spec k0 H0) as Hs. unfold goes_on in Hs. rewrite Hsetup in Hs.
  assert (dispatching V ev_events (V.(opened) k1) listener base listener_event k) as Hd.
  { apply (star_invariant _ (λ k, dispatching V ev_events (V.(opened) k1) listener base listener_event k)) in Hstar; [done| |done].
    intros k2 k3 Hstep Hd. pose proof (dispatch_one_spec V HV ev_events HE _ _ _ _ k2 Hd) as Hn. unfold goes_on in Hn.
    by rewrite Hstep in Hn. }
  split; [done|]. intros ev fd Hc. by apply http_read_cb_spec.
Qed.

End theorems.

(** ** A concrete libevent

    Over [sample_net]; the events that become active are given. *)
Record sample_lib := mkLib {
  sl_net : sample_net;
  sl_events : gmap Z event_info;
  sl_active : list Z
}.

Definition on_net {A} (f : sample_net -> A * sample_net) (k : sample_lib) : A * sample_lib :=
  let '(a, n) := f k.(sl_net) in (a, mkLib n k.(sl_events) k.(sl_active)).
Definition with_events (m : gmap Z event_info) (k : sample_lib) : sample_lib := mkLib k.(sl_net) m k.(sl_active).

#[export] Instance lib_sockets : Sockets sample_lib := {|
  sys_socket := on_net sys_socket;
  sys_reuseaddr fd := on_net (sys_reuseaddr fd);
  sys_bind fd port := on_net (sys_bind fd port);
  sys_listen fd n := on_net (sys_listen fd n);
  sys_accept fd := on_net (sys_accept fd);
  sys_read fd n := on_net (sys_read fd n);
  sys_write fd s := on_net (sys_write fd s);
  sys_close fd := on_net (sys_close fd);
  sys_epoll_create1 := on_net sys_epoll_create1;
  sys_epoll_add e fd := on_net (sys_epoll_add e fd);
  sys_epoll_wait e n := on_net (sys_epoll_wait e n)
|}.

#[export] Instance lib_ops : Libevent sample_lib := {|
  evutil_make_socket_nonblocking _ k := (0%Z, k);
  event_base_new k := (1%Z, k);
  event_base_free _ k := (tt, k);
  event_new _ fd _ h arg k :=
    let ev := fresh (dom k.(sl_events)) in (ev, with_events (<[ev := mkEvent fd h arg false]> k.(sl_events)) k);
  event_assign ev _ fd _ h arg k := (0%Z, with_events (<[ev := mkEvent fd (Some h) arg false]> k.(sl_events)) k);
  event_add ev k :=
    (0%Z, match k.(sl_events) !! ev with
          | Some x => with_events (<[ev := mkEvent x.(ei_fd) x.(ei_handler) x.(ei_arg) true]> k.(sl_events)) k
          | None => k
          end);
  event_free ev k := (tt, with_events (delete ev k.(sl_events)) k);
  next_callback _ k :=
    match k.(sl_active) with
    | [] => (None, k)
    | ev :: active =>
        (match k.(sl_events) !! ev with Some (mkEvent fd (Some h) arg true) => Some (h, fd, arg) | _ => None end,
         mkLib k.(sl_net) k.(sl_events) active)
    end
|}.

Definition lib_view : sys_view sample_lib :=
  mkView (λ k, nt_open k.(sl_net)) (λ e k, nt_interest e k.(sl_net)) (λ k, nt_history k.(sl_net)).

Lemma on_net_run {A} (f : sample_net -> A * sample_net) k a k' : on_net f k = (a, k') ->
  f k.(sl_net) = (a, k'.(sl_net)) ∧ k'.(sl_events) = k.(sl_events).
Proof. unfold on_net. destruct (f _) as [b n] eqn:Hf. by intros [= <- <-]. Qed.

Lemma lib_view_laws : sockets_laws lib_view.
Proof.
  split.
  - intros k r k' [Hr _]%on_net_run. exact (law_socket _ sample_view_laws _ _ _ Hr).
  - intros fd k r k' [Hr _]%on_net_run. exact (law_reuseaddr _ sample_view_laws _ _ _ _ Hr).
  - intros fd port k r k' [Hr _]%on_net_run. exact (law_bind _ sample_view_laws _ _ _ _ _ Hr).
  - intros fd n k r k' [Hr _]%on_net_run. exact (law_listen _ sample_view_laws _ _ _ _ _ Hr).
  - intros fd k r k' [Hr _]%on_net_run. exact (law_accept _ sample_view_laws _ _ _ _ Hr).
  - intros fd n k r k' [Hr _]%on_net_run. exact (law_read _ sample_view_laws _ _ _ _ _ Hr).
  - intros fd s k n k' [Hr _]%on_net_run. exact (law_write _ sample_view_laws _ _ _ _ _ Hr).
  - intros fd k r k' [Hr _]%on_net_run. exact (law_close _ sample_view_laws _ _ _ _ Hr).
  - intros k r k' [Hr _]%on_net_run. exact (law_create _ sample_view_laws _ _ _ Hr).
  - intros e fd k r k' [Hr _]%on_net_run. exact (law_add _ sample_view_laws _ _ _ _ _ Hr).
  - intros e n k o k' [Hr _]%on_net_run. exact (law_wait _ sample_view_laws _ _ _ _ _ Hr).
Qed.

Lemma lib_laws : libevent_laws lib_view sl_events.
Proof.
  split; try by intros k a k' [_ ?]%on_net_run || intros x k a k' [_ ?]%on_net_run || intros x y k a k' [_ ?]%on_net_run.
  - by intros fd k r k' [= <- <-].
  - by intros k b k' [= <- <-].
  - intros b fd fl h arg k ev k' [= <- <-]. split_and!; [done| |done]. apply not_elem_of_dom, is_fresh.
  - by intros ev b fd fl h arg k r k' [= <- <-].
  - intros ev x k r k' [= <- <-] Hx. rewrite Hx. done.
  - by intros ev k u k' [= <- <-].
  - intros b k o k' Hn. cbn in Hn. destruct (sl_active k) as [|ev active]; injection Hn as <- <-; [done|].
    split_and!; [done..|]. intros h fd arg Ho. exists ev. destruct (_ !! ev) as [[fd' [h'|] arg' []]|]; try done.
    by injection Ho as -> -> ->.
Qed.

(** A client connects and is answered. *)
Definition lib_start : sample_lib := mkLib (mkNet {[0; 1; 2]}%Z ∅ [] 3 []) ∅ [0; 1]%Z.

Lemma libevent_server_serves_witness : ∃ k1 k2,
  libevent_setup lib_start = (Ret (3, 1, 0)%Z, k1) ∧ dispatch_step 1 k1 k2 ∧
  dispatching lib_view sl_events (nt_open k1.(sl_net)) 3 1 0 k2 ∧
  goes_on (http_read_cb 4 1) k2 (λ _ k', sl_events k' !! 1%Z = None).
Proof.
  set (k1 := (libevent_setup lib_start).2). set (k2 := (dispatch_one 1 k1).2).
  assert (libevent_setup lib_start = (Ret (3, 1, 0)%Z, k1)) as Hs by (vm_compute; reflexivity).
  assert (dispatch_step 1 k1 k2) as Hstep by (vm_compute; reflexivity).
  destruct (libevent_server_serves lib_view lib_view_laws sl_events lib_laws lib_start 3 1 0 k1 k2 eq_refl Hs (star_one _ _ _ Hstep))
    as [Hd Hread].
  exists k1, k2. split; [exact Hs|]. split; [exact Hstep|]. split; [exact Hd|].
  eapply goes_on_mono; [apply (Hread 1%Z 4%Z)|].
  - split; [discriminate|]. exists true. vm_compute. reflexivity.
  - intros u k' (_ & Hn & _). exact Hn.
Defined.
