(* ===== verification/FiberServer.v ===== *)
(** * The demonstration of the fibers

    [co-pro/corotinue-fiber-pool/main.cpp]: a server on the I/O manager and the
    hooked system calls of [Hook.v]. Its two callbacks are the programs
    [test_accept] and [reader], run by the thread [tid] that took the callback
    from the queue; [None] is a call that waits. Of the listening socket's
    address only the port is kept. *)

From S2P Require Export CppString HookFacts.

Definition AF_INET : Z := 2.
Definition SOCK_STREAM : Z := 1.
Definition SO_REUSEADDR : Z := 2.

(** The calls the library does not hook: the descriptor with the port, and with
    the length of its queue. *)
Class Listening (K : Type) := {
  bind_f : Z -> Z -> K -> Z * K;
  listen_f : Z -> Z -> K -> Z * K
}.

(** The answer to every request. *)
Definition http_answer : bytes :=
  lit "HTTP/1.1 200 OK" ++ crlf ++ lit "Content-Type: text/plain" ++ crlf ++ lit "Content-Length: 13" ++ crlf ++
  lit "Connection: keep-alive" ++ crlf ++ crlf ++ lit "Hello, World!".

Section server.
Context {W E K : Type} {HE : Epoll E} {HK : Kernel K} {HC : Libc K} {HLi : Listening K}.

Abbreviation server_prog A := (prog std_exception (hooked W E K) A).

(** The callbacks as [addEvent] gets them; the addresses of the buffer, of the
    answer and of the client's address; and what the hooked calls are given for
    the case that they wait. *)
Context (accept_cb : callback W) (reader_cb : Z -> callback W).
Context (buffer response addr len : Z).
Context (on_timeout : callback W) (saved : context W).

(** [IOManager::GetThis()->addEvent(fd, READ, cb)]. *)
Definition watch_read tid fd (cb : callback W) : server_prog unit :=
  need_iom tid;;
  on_io (addEvent tid fd READ (Some cb));;
  mret tt.

Definition watch_io_read tid (sock_listen_fd : Z) : server_prog unit := watch_read tid sock_listen_fd accept_cb.

(** The function given to [addEvent] for connection [fd]; each round of its loop
    takes fuel. *)
Fixpoint reader (fuel : nat) tid fd : server_prog (option unit) :=
  ret ← recv on_timeout saved tid fd buffer 1024 0;
  match ret with
  | None => mret None
  | Some ret =>
      if bool_decide (0 < ret)%Z then
        ret ← send on_timeout saved tid fd response (Z.of_nat (length http_answer)) 0;
        match ret with
        | None => mret None
        | Some _ => close tid fd;; mret (Some tt)
        end
      else
        s ← get;
        if bool_decide (ret = 0)%Z || bool_decide (s.(h_errno) ≠ EAGAIN) then close tid fd;; mret (Some tt)
        else match fuel with
             | 0 => halt Diverged
             | S fuel => reader fuel tid fd
             end
  end.

(** [test_accept], once [accept] has answered. *)
Definition test_accept_rest tid (sock_listen_fd fd : Z) : server_prog unit :=
  (if bool_decide (fd < 0)%Z then mret tt
   else
     fcntl fd F_SETFL O_NONBLOCK;;
     watch_read tid fd (reader_cb fd));;
  watch_read tid sock_listen_fd accept_cb.

Definition test_accept tid (sock_listen_fd : Z) : server_prog (option unit) :=
  fd ← accept on_timeout saved tid sock_listen_fd addr len;
  match fd with
  | None => mret None
  | Some fd => test_accept_rest tid sock_listen_fd fd;; mret (Some tt)
  end.

(** A call to the system that is not hooked. *)
Definition direct (f : K -> Z * K) : server_prog Z :=
  s ← get;
  let '(r, k) := f s.(h_fds).(kernel) in
  modify (λ s, set_h_fds (set_kernel k s.(h_fds)) s);;
  mret r.

(** [test_iomanager] up to the end of its block: [None] is the end of the
    process, with status 1. *)
Definition test_iomanager_begin tid (tickle_fd : Z) (ids : list Z) : server_prog (option Z) :=
  sock_listen_fd ← socket tid AF_INET SOCK_STREAM 0;
  if bool_decide (sock_listen_fd < 0)%Z then mret None
  else
    setsockopt tid sock_listen_fd SOL_SOCKET SO_REUSEADDR (1, 0)%Z;;
    r ← direct (bind_f sock_listen_fd 8080);
    if bool_decide (r < 0)%Z then mret None
    else
      r ← direct (listen_f sock_listen_fd 1024);
      if bool_decide (r < 0)%Z then mret None
      else
        fcntl sock_listen_fd F_SETFL O_NONBLOCK;;
        on_io (new_IOManager tid 8 true "IOManager" tickle_fd ids);;
        on_io (addEvent tid sock_listen_fd READ (Some accept_cb));;
        mret (Some sock_listen_fd).

(** [test_iomanager], with the destructor of its [IOManager], on whose thread
    the server runs: whether that ended within the fuel. *)
Definition test_iomanager (fuel : nat) tid (tickle_fd : Z) (ids : list Z) : server_prog (option bool) :=
  r ← test_iomanager_begin tid tickle_fd ids;
  match r with
  | None => mret None
  | Some _ => ended ← on_io (delete_IOManager fuel tid); mret (Some ended)
  end.

End server.

(** ** Facts *)

Section facts.
Context {W E K : Type} {HE : Epoll E} {HK : Kernel K} {HC : Libc K}.
Context {HL : EpollLaws E} {HKl : KernelLaws K} {HLc : LibcLaws K}.
Context (accept_cb : callback W) (reader_cb : Z -> callback W).
Context (buffer response addr len : Z).
Context (on_timeout : callback W) (saved : context W).
Implicit Types (s : hooked W E K) (tid fd : Z) (k : K).

(** The thread [tid] is one of the scheduler, with the hooks on. *)
Record on_worker tid s : Prop := {
  wk_hooks : (local_of tid s.(h_io).(io_process)).(l_hook_enable) = true;
  wk_scheduler : (local_of tid s.(h_io).(io_process)).(l_scheduler) = true
}.

(** ** [watch_read] *)

Lemma watch_read_run tfd tid fd cb s :
  io_ok tfd s.(h_io) -> (0 <= fd)%Z -> fd ≠ tfd -> on_worker tid s ->
  ∃ io, watch_read tid fd cb s = (Ret tt, set_h_io io s) ∧ io_ok tfd io ∧ io_process io = io_process s.(h_io) ∧
    (∀ i c, i ≠ Z.to_nat fd -> m_fdContexts s.(h_io) !! i = Some c -> m_fdContexts io !! i = Some c) ∧
    (∀ i c, i ≠ Z.to_nat fd -> m_fdContexts s.(h_io) !! i = None -> m_fdContexts io !! i = Some c -> c.(fc_events) = 0%Z) ∧
    ((∀ op fd' mask e, (epoll_ctl op fd' mask e).1 = true) -> unregistered s.(h_io) fd READ -> registered_as io fd READ cb).
Proof.
  intros Hok Hfd Htfd [_ Hsch].
  destruct (addEvent_callback tfd tid fd READ cb s.(h_io)) as (n & io & Hrun & HP & Hkeep & Hfresh & Hn & Hreg); try done; [apply an_event_READ|].
  exists io. split_and!; [|by eapply addEvent_ok; [..|exact Hrun]; try done; apply an_event_READ|done|done|done|].
  - unfold watch_read, need_iom, this_iom.
    erewrite bind_run by (erewrite bind_run by done; cbn beta; rewrite Hsch; reflexivity).
    unfold on_io. by erewrite bind_run by (apply zoom_run; exact Hrun).
  - intros Hctl Hun. by apply Hreg, Hn.
Qed.

(** ** [reader] *)

Definition recv_call fd : syscall := IoCall recv_f fd [buffer; 1024%Z; 0%Z].
Definition send_call fd : syscall := IoCall send_f fd [response; Z.of_nat (length http_answer); 0%Z].

Definition would_block (r : sys_result) : Prop := r.(rc) = (-1)%Z ∧ r.(err) = EAGAIN.

(** [recv] says [n] times that it would block, and then answers [r]. *)
Inductive polled fd : nat -> K -> sys_result -> K -> Prop :=
| polled_done k r k' : libc (recv_call fd) k = (r, k') -> (-1 <= r.(rc))%Z -> ¬ would_block r -> polled fd 0 k r k'
| polled_again n k r k1 r' k' : libc (recv_call fd) k = (r, k1) -> would_block r -> polled fd n k1 r' k' ->
    polled fd (S n) k r' k'.

(** [recv] says at least [n] times that it would block. *)
Inductive blocks fd : nat -> K -> Prop :=
| blocks_none k : blocks fd 0 k
| blocks_again n k r k1 : libc (recv_call fd) k = (r, k1) -> would_block r -> blocks fd n k1 -> blocks fd (S n) k.

(** The system after the answer, if there is one to send, and the [close]. *)
Definition answered fd (r : sys_result) k : K :=
  (libc (CloseCall fd) (if decide (0 < r.(rc))%Z then (libc (send_call fd) k).2 else k)).2.

(** A connection of the server: a socket the user made nonblocking. *)
Definition connection s fd (p : ctx_ptr) (ctx : FdCtx) : Prop :=
  has_ctx s fd p ctx ∧ ctx.(m_isClosed) = false ∧ ctx.(m_userNonblock) = true.

Lemma called_worker tid r k s s' : called r k s s' -> on_worker tid s -> on_worker tid s'.
Proof. intros [Hio _ _ _] [? ?]. by split; rewrite Hio. Qed.

Lemma called_connection r k s s' fd p ctx : called r k s s' -> connection s fd p ctx -> connection s' fd p ctx.
Proof. intros [_ Hf _ _] ([? ?] & ? & ?). split; [|done]. by split; rewrite Hf. Qed.

(** The hooked calls on a connection are the original ones. *)
Lemma connection_call tid fd c ev so s p ctx r k :
  (0 <= fd <= int_max)%Z -> connection s fd p ctx -> on_worker tid s -> libc c s.(h_fds).(kernel) = (r, k) ->
  do_io tid fd c ev so on_timeout saved s = (Ret (Some r.(rc)), after_call r k s).
Proof.
  intros Hfd (Hctx & Hcl & Hnb) [Hen _] Hc. rewrite (do_io_start tid fd c ev so on_timeout saved s p ctx) by done.
  rewrite Hcl, Hnb, orb_true_r. by erewrite bind_run by by apply call_rc_run.
Qed.

(** What is left once the connection is closed. *)
Definition released tfd fd s s' : Prop :=
  io_ok tfd s'.(h_io) ∧ lookup_fd s'.(h_fds) fd = None ∧
  (∀ c, m_fdContexts s'.(h_io) !! Z.to_nat fd = Some c -> c.(fc_events) = 0%Z) ∧
  ∀ fd', fd' ≠ fd -> lookup_fd s'.(h_fds) fd' = lookup_fd s.(h_fds) fd'.

Lemma close_connection tfd tid fd s p ctx :
  io_ok tfd s.(h_io) -> (0 <= fd <= int_max)%Z -> connection s fd p ctx -> on_worker tid s ->
  (∀ op fd' mask e, (epoll_ctl op fd' mask e).1 = true) ->
  ∃ s', (close tid fd;; mret (Some tt)) s = (Ret (Some tt), s') ∧ released tfd fd s s' ∧
    kernel s'.(h_fds) = (libc (CloseCall fd) s.(h_fds).(kernel)).2.
Proof.
  intros Hok Hfd (Hctx & _) [Hen Hsch] Hctl.
  destruct (close_run tfd tid fd s p ctx) as (s' & Hrun & ? & ? & _ & ? & ? & ?); try done.
  exists s'. split; [by erewrite bind_run by exact Hrun|done].
Qed.

Lemma released_called tfd fd r k s s1 s' : called r k s s1 -> released tfd fd s1 s' -> released tfd fd s s'.
Proof. intros [_ Hf _ _] (? & ? & ? & Hother). split_and!; try done. intros fd' Hne. by rewrite Hother, Hf. Qed.

(** One round. *)
Lemma reader_done tfd tid fd fuel s p ctx r k :
  io_ok tfd s.(h_io) -> (0 <= fd <= int_max)%Z -> connection s fd p ctx -> on_worker tid s ->
  (∀ op fd' mask e, (epoll_ctl op fd' mask e).1 = true) ->
  libc (recv_call fd) s.(h_fds).(kernel) = (r, k) -> (-1 <= r.(rc))%Z -> ¬ would_block r ->
  ∃ s', reader buffer response on_timeout saved fuel tid fd s = (Ret (Some tt), s') ∧ released tfd fd s s' ∧
    kernel s'.(h_fds) = answered fd r k.
Proof.
  intros Hok Hfd Hconn Hwk Hctl Hc Hrc Hnb. pose proof (after_call_called r k s) as Hcd. set (s1 := after_call r k s) in *.
  pose proof (called_connection _ _ _ _ _ _ _ Hcd Hconn) as Hconn1. pose proof (called_worker _ _ _ _ _ Hcd Hwk) as Hwk1.
  assert (io_ok tfd s1.(h_io)) as Hok1 by by rewrite (cd_io _ _ _ _ Hcd).
  assert (kernel s1.(h_fds) = k) as Hk1 by by rewrite (cd_fds _ _ _ _ Hcd).
  destruct fuel; cbn [reader]; unfold recv at 1; (erewrite bind_run by by apply (connection_call tid fd _ _ _ s p ctx r k)); cbv iota; fold s1.
  all: unfold answered; case_bool_decide as Hpos; [rewrite decide_True by done|rewrite decide_False by done].
  1, 3: destruct (libc (send_call fd) k) as [r2 k2] eqn:Hsend; pose proof (after_call_called r2 k2 s1) as Hcd2;
    unfold send at 1; (erewrite bind_run by (apply (connection_call tid fd _ _ _ s1 p ctx r2 k2); [done..|by rewrite Hk1])); cbv iota;
    pose proof (called_connection _ _ _ _ _ _ _ Hcd2 Hconn1) as Hconn2; pose proof (called_worker _ _ _ _ _ Hcd2 Hwk1) as Hwk2;
    (destruct (close_connection tfd tid fd (after_call r2 k2 s1) p ctx) as (s' & Hrun & Hrel & Hk'); try done;
      [by rewrite after_call_io|]); exists s'; (split; [exact Hrun|]);
    (split; [by eapply released_called; [exact Hcd|]; eapply released_called|by rewrite Hk', after_call_fds]).
  all: erewrite bind_run by done;
    assert (bool_decide (rc r = 0)%Z || bool_decide (h_errno s1 ≠ EAGAIN) = true) as ->
      by (case_bool_decide; [done|]; assert (rc r = -1)%Z as Hm by lia; rewrite (cd_errno _ _ _ _ Hcd Hm);
          cbn; apply bool_decide_true; intros He; by apply Hnb);
    (destruct (close_connection tfd tid fd s1 p ctx) as (s' & Hrun & Hrel & Hk'); try done); exists s';
    (split; [exact Hrun|]); (split; [by eapply released_called|by rewrite Hk', Hk1]).
Qed.

Lemma reader_again tid fd fuel s p ctx r k :
  (0 <= fd <= int_max)%Z -> connection s fd p ctx -> on_worker tid s ->
  libc (recv_call fd) s.(h_fds).(kernel) = (r, k) -> would_block r ->
  reader buffer response on_timeout saved fuel tid fd s =
    match fuel with
    | 0 => (Halt Diverged, after_call r k s)
    | S fuel => reader buffer response on_timeout saved fuel tid fd (after_call r k s)
    end.
Proof.
  intros Hfd Hconn Hwk Hc [Hrc He].
  assert (h_errno (after_call r k s) = EAGAIN) as Herr by by rewrite (cd_errno _ _ _ _ (after_call_called r k s) Hrc).
  destruct fuel; cbn [reader]; unfold recv at 1; (erewrite bind_run by by apply (connection_call tid fd _ _ _ s p ctx r k)); cbv iota;
    rewrite (bool_decide_false (0 < rc r)%Z) by lia; erewrite bind_run by done;
    rewrite (bool_decide_false (rc r = 0)%Z), (bool_decide_false (h_errno _ ≠ EAGAIN)) by (naive_solver || lia); done.
Qed.

Lemma reader_run tfd tid fd n fuel s p ctx r k :
  io_ok tfd s.(h_io) -> (0 <= fd <= int_max)%Z -> connection s fd p ctx -> on_worker tid s ->
  (∀ op fd' mask e, (epoll_ctl op fd' mask e).1 = true) ->
  polled fd n s.(h_fds).(kernel) r k -> n ≤ fuel ->
  ∃ s', reader buffer response on_timeout saved fuel tid fd s = (Ret (Some tt), s') ∧ released tfd fd s s' ∧
    kernel s'.(h_fds) = answered fd r k.
Proof.
  intros Hok Hfd Hconn Hwk Hctl Hpoll. remember (kernel (h_fds s)) as k0 eqn:Hk0. revert s fuel Hok Hconn Hwk Hk0.
  induction Hpoll as [k0 r k Hc Hrc Hnb|n k0 r k1 r' k Hc Hwb Hpoll IH]; intros s fuel Hok Hconn Hwk -> Hfuel.
  { by apply (reader_done tfd tid fd fuel s p ctx r k). }
  destruct fuel as [|fuel]; [lia|]. rewrite (reader_again tid fd _ s p ctx r k1) by done.
  pose proof (after_call_called r k1 s) as Hcd.
  destruct (IH (after_call r k1 s) fuel) as (s' & Hrun & Hrel & Hk'); [by rewrite after_call_io|by eapply called_connection|
    by eapply called_worker|by rewrite after_call_fds|lia|].
  exists s'. split; [done|]. split; [by eapply released_called|done].
Qed.

Lemma reader_spins tid fd fuel s p ctx :
  (0 <= fd <= int_max)%Z -> connection s fd p ctx -> on_worker tid s -> blocks fd (S fuel) s.(h_fds).(kernel) ->
  (reader buffer response on_timeout saved fuel tid fd s).1 = Halt Diverged.
Proof.
  intros Hfd. revert s. induction fuel as [|fuel IH]; intros s Hconn Hwk Hb; inversion Hb as [|n k0 r k1 Hc Hwb Hb']; subst;
    rewrite (reader_again tid fd _ s p ctx r k1) by done; [done|].
  pose proof (after_call_called r k1 s) as Hcd.
  apply IH; [by eapply called_connection|by eapply called_worker|by rewrite after_call_fds].
Qed.

(** ** [test_accept] *)

Definition accept_call fd : syscall := IoCall accept_f fd [addr; len].

Lemma find_ctx_none fd s : (0 <= fd <= int_max)%Z -> lookup_fd s.(h_fds) fd = None -> find_ctx fd s = (Ret None, s).
Proof.
  intros Hfd Hn. unfold find_ctx, on_fds. erewrite bind_run by (apply zoom_run; by apply get_ctx_lookup).
  rewrite Hn. by destruct s.
Qed.

(** The hooked [accept] on a descriptor without a context. *)
Lemma accept_run tid lfd s r k : (0 <= lfd <= int_max)%Z -> lookup_fd s.(h_fds) lfd = None -> on_worker tid s ->
  libc (accept_call lfd) s.(h_fds).(kernel) = (r, k) ->
  accept on_timeout saved tid lfd addr len s = accepted (Some r.(rc)) (after_call r k s).
Proof.
  intros Hfd Hn [Hen _] Hc. unfold accept, do_io, is_hook_enable.
  erewrite bind_run; [reflexivity|]. erewrite bind_run by done. rewrite Hen. cbn [negb].
  erewrite bind_run by by apply find_ctx_none. cbv iota. by erewrite bind_run by by apply call_rc_run.
Qed.

(** [fcntl(fd, F_SETFL, O_NONBLOCK)] on a socket with a context. *)
Lemma fcntl_nonblock_run fd s p c :
  (0 <= fd <= int_max)%Z -> has_ctx s fd p c -> c.(m_isClosed) = false -> c.(m_isSocket) = true -> c.(m_sysNonblock) = true ->
  fstat s.(h_fds).(kernel) fd = Some true ->
  ∃ s', fcntl fd F_SETFL O_NONBLOCK s = (Ret 0%Z, s') ∧ connection s' fd p (setUserNonblock true c) ∧
    h_io s' = h_io s ∧ m_datas s'.(h_fds) = m_datas s.(h_fds) ∧
    ctxs s'.(h_fds) = <[p := setUserNonblock true c]> (ctxs s.(h_fds)).
Proof.
  intros Hfd Hctx Hcl Hs Hsys Hstat. pose proof Hctx as [Hp Hc].
  set (k := s.(h_fds).(kernel)) in *.
  destruct (setfl_call k fd (Z.lor O_NONBLOCK O_NONBLOCK) true Hstat) as (e & o & Hset).
  eexists. split.
  { unfold fcntl. rewrite bool_decide_true by done. unfold fcntl_setfl. erewrite bind_run by by apply socket_ctx_run.
    cbv iota. rewrite Hsys. erewrite bind_run by done. erewrite call_rc_run by exact Hset. cbn [rc].
    unfold after_call. cbn [rc]. rewrite bool_decide_false by done. reflexivity. }
  cbn. change (has_flag O_NONBLOCK O_NONBLOCK) with true. rewrite (list_alter_insert _ _ _ _ Hc).
  split_and!; try done. split; [|done]. split; [done|]. cbn.
  apply list_lookup_insert_eq. by eapply lookup_lt_Some.
Qed.

(** A new connection gets a context, and the user made it nonblocking. *)
Lemma accepted_connection tid lfd fd s r k :
  (0 <= lfd <= int_max)%Z -> lookup_fd s.(h_fds) lfd = None -> on_worker tid s -> 2 ≤ length (m_datas s.(h_fds)) ->
  libc (accept_call lfd) s.(h_fds).(kernel) = (r, k) -> r.(rc) = fd -> (0 <= fd <= int_max)%Z ->
  lookup_fd s.(h_fds) fd = None -> fstat k fd = Some true ->
  ∃ p ctx s1, (accept on_timeout saved tid lfd addr len ≫= λ r,
      match r with
      | None => mret None
      | Some fd => test_accept_rest accept_cb reader_cb tid lfd fd;; mret (Some tt)
      end) s =
    (watch_read tid fd (reader_cb fd);; watch_read tid lfd accept_cb;; mret (Some tt)) s1 ∧
    connection s1 fd p ctx ∧ h_io s1 = h_io s ∧
    ∀ fd' p' ctx', connection s fd' p' ctx' -> connection s1 fd' p' ctx'.
Proof.
  intros Hl Hn Hwk Hlen Hc Hrc Hfd Hnew Hstat. set (s0 := after_call r k s).
  assert (h_fds s0 = set_kernel k (h_fds s)) as Hf0 by apply after_call_fds.
  destruct (get_ctx_create fd (h_fds s0)) as (p & f1 & Hget & Hp & Hother & _ & Hcr); [by rewrite Hf0|done|].
  assert (lookup_fd (h_fds s0) fd = None) as Hn0 by by rewrite Hf0. rewrite Hn0 in Hcr.
  destruct Hcr as [-> (c & Hcs & (_ & Hcl & _ & _ & _ & _ & Hsock & Hsys & _ & _ & _ & Hfs))].
  rewrite Hf0 in Hcs, Hsock, Hfs, Hp, Hother. cbn in Hcs, Hsock, Hfs, Hp. rewrite Hstat in Hsock. cbn in Hsock.
  set (s1 := set_h_fds f1 s0).
  destruct (fcntl_nonblock_run fd s1 (length (ctxs (h_fds s))) c) as (s2 & Hset & Hconn & Hio & Hd & Hcs2); try done.
  { split; [done|]. cbn. rewrite Hcs. by apply list_lookup_middle. }
  { by rewrite Hsys. }
  { cbn. by rewrite Hfs. }
  exists (length (ctxs (h_fds s))), (setUserNonblock true c), s2. split_and!; [|done|by rewrite Hio; apply after_call_io|].
  - erewrite bind_run.
    2:{ erewrite accept_run by done. unfold accepted. rewrite Hrc, bool_decide_true by lia.
        unfold on_fds. by erewrite bind_run by (apply zoom_run; exact Hget). }
    cbv iota. fold s0 s1. unfold test_accept_rest. rewrite bool_decide_false by lia.
    rewrite !prog_bind_assoc. by erewrite bind_run by exact Hset.
  - intros fd' p' ctx' ([Hp' Hc'] & ? & ?). split; [|done].
    assert (fd' ≠ fd) as Hne by congruence. assert (p' < length (ctxs (h_fds s))) by by eapply lookup_lt_Some.
    split.
    + unfold lookup_fd. rewrite Hd. change (lookup_fd f1 fd' = Some p'). by rewrite Hother by done.
    + rewrite Hcs2. cbn. rewrite list_lookup_insert_ne by lia. rewrite Hcs. by rewrite lookup_app_l by lia.
Qed.

Lemma connection_io io s fd p ctx : connection s fd p ctx -> connection (set_h_io io s) fd p ctx.
Proof. done. Qed.

End facts.

(** ** The theorem *)

Section theorems.
Context {W E K : Type} {HE : Epoll E} {HK : Kernel K} {HC : Libc K}.
Context {HL : EpollLaws E} {HKl : KernelLaws K} {HLc : LibcLaws K}.
Context (accept_cb : callback W) (reader_cb : Z -> callback W).
Context (buffer response addr len : Z).
Context (on_timeout : callback W) (saved : context W).
Implicit Types (s : hooked W E K) (tid fd : Z).

Abbreviation the_reader := (reader (W := W) (E := E) (K := K) buffer response on_timeout saved).

(** C37. A connection of the demonstration of the fibers, from [accept] to [close],
    while [epoll_ctl] does not fail. When [test_accept] gets a new socket, its
    reader and [test_accept] itself are registered for the next event of the
    socket and of the listening one, and the connections there are stay as they
    are. When the reader runs, on any thread, [recv] is called until it would
    not block; if there was data the whole answer is sent, once, and in every
    case the descriptor is closed: no event of it is registered and it has no
    context. No call waits. But the reader does not give its thread back while
    nothing arrives: as long as [recv] would block it goes round, and no number
    of rounds is enough. *)
Theorem fiber_server_serves tfd tid lfd fd s r k :
  io_ok tfd s.(h_io) -> on_worker tid s -> 2 ≤ length (m_datas s.(h_fds)) ->
  (∀ op fd' mask e, (epoll_ctl op fd' mask e).1 = true) ->
  (0 <= lfd <= int_max)%Z -> lfd ≠ tfd -> lookup_fd s.(h_fds) lfd = None -> unregistered s.(h_io) lfd READ ->
  libc (accept_call addr len lfd) s.(h_fds).(kernel) = (r, k) -> r.(rc) = fd ->
  (0 <= fd <= int_max)%Z -> fd ≠ tfd -> fd ≠ lfd -> lookup_fd s.(h_fds) fd = None -> unregistered s.(h_io) fd READ ->
  fstat k fd = Some true ->
  ∃ s1 p ctx, test_accept accept_cb reader_cb addr len on_timeout saved tid lfd s = (Ret (Some tt), s1) ∧
    io_ok tfd s1.(h_io) ∧ connection s1 fd p ctx ∧
    registered_as s1.(h_io) fd READ (reader_cb fd) ∧ registered_as s1.(h_io) lfd READ accept_cb ∧
    (∀ fd' p' ctx', connection s fd' p' ctx' -> connection s1 fd' p' ctx') ∧
    ∀ tid' s2, io_ok tfd s2.(h_io) -> on_worker tid' s2 -> connection s2 fd p ctx ->
      (∀ n r k fuel, polled buffer fd n s2.(h_fds).(kernel) r k -> n ≤ fuel ->
        ∃ s3, the_reader fuel tid' fd s2 = (Ret (Some tt), s3) ∧
          released tfd fd s2 s3 ∧ kernel s3.(h_fds) = answered response fd r k) ∧
      (∀ fuel, blocks buffer fd (S fuel) s2.(h_fds).(kernel) -> (the_reader fuel tid' fd s2).1 = Halt Diverged).
Proof.
  intros Hok Hwk Hlen Hctl Hl Hlt Hln Hlun Hc Hrc Hfd Hft Hne Hn Hun Hstat.
  destruct (accepted_connection accept_cb reader_cb addr len on_timeout saved tid lfd fd s r k) as
    (p & ctx & s1 & Hacc & Hconn & Hio & Hkeep); try done.
  assert (on_worker tid s1) as Hwk1 by (destruct Hwk; split; by rewrite Hio).
  destruct (watch_read_run tfd tid fd (reader_cb fd) s1) as (io2 & Hrun2 & Hok2 & HP2 & Hk2 & Hf2 & Hreg2);
    [by rewrite Hio|lia|done|done|]. rewrite Hio in Hreg2, Hk2, Hf2, HP2. specialize (Hreg2 Hctl Hun).
  assert (on_worker tid (set_h_io io2 s1)) as Hwk2 by (destruct Hwk; split; cbn; by rewrite HP2).
  destruct (watch_read_run tfd tid lfd accept_cb (set_h_io io2 s1)) as (io3 & Hrun3 & Hok3 & _ & Hk3 & _ & Hreg3); [done|lia|done|done|].
  exists (set_h_io io3 (set_h_io io2 s1)), p, ctx. split_and!.
  - unfold test_accept. etrans; [exact Hacc|]. erewrite bind_run by exact Hrun2. by erewrite bind_run by exact Hrun3.
  - done.
  - by apply connection_io.
  - destruct Hreg2 as (c & Hcc & ?). exists c. split; [|done]. apply Hk3; [lia|done].
  - apply Hreg3; [done|]. intros c Hcc. cbn in Hcc. destruct (m_fdContexts (h_io s) !! Z.to_nat lfd) as [c'|] eqn:Hc'.
    + rewrite (Hk2 _ c') in Hcc by (lia || done). injection Hcc as <-. by apply Hlun.
    + by rewrite (Hf2 (Z.to_nat lfd) c) by (lia || done).
  - intros fd' p' ctx' ?. by apply connection_io, connection_io, Hkeep.
  - intros tid' s2 Hok' Hwk' Hconn'. split.
    + intros n r' k' fuel Hpoll Hfuel. by eapply reader_run.
    + intros fuel Hb. by eapply reader_spins.
Qed.

End theorems.

(** ** A concrete run

    [sample_kernel] with the answers of [recv]; [accept] gives socket 40. *)
Record demo_kernel := mkDemo { dk_files : sample_kernel; dk_answers : list sys_result }.

#[export] Instance demo_kernel_ops : Kernel demo_kernel := {|
  fstat k fd := fstat k.(dk_files) fd;
  getfl k fd := getfl k.(dk_files) fd;
  setfl fd v k := mkDemo (setfl fd v k.(dk_files)) k.(dk_answers)
|}.
#[export] Instance demo_kernel_laws : KernelLaws demo_kernel.
Proof.
  split.
  - intros k fd v b. apply (getfl_setfl k.(dk_files)).
  - intros k fd fd' v. apply (getfl_setfl_ne k.(dk_files)).
  - intros k fd fd' v. apply (fstat_setfl k.(dk_files)).
Defined.

Definition demo_libc (c : syscall) (k : demo_kernel) : sys_result * demo_kernel :=
  match c with
  | IoCall accept_f _ _ => (mkResult 40 0 0, k)
  | IoCall recv_f _ _ =>
      match k.(dk_answers) with
      | [] => (mkResult 0 0 0, k)
      | r :: l => (mkResult r.(rc) (if bool_decide (r.(err) = EINTR) then 0 else r.(err)) 0, mkDemo k.(dk_files) l)
      end
  | _ => let '(r, f) := sample_libc c k.(dk_files) in (r, mkDemo f k.(dk_answers))
  end.
#[export] Instance demo_libc_ops : Libc demo_kernel := {| libc := demo_libc; interrupts _ := 0 |}.

#[export] Instance demo_libc_laws : LibcLaws demo_kernel.
Proof.
  split.
  - intros k fd b Hstat. destruct (getfl_call k.(dk_files) fd b Hstat) as (? & e & o & Hc). split; [done|]. exists e, o.
    cbn [libc sample_libc_ops] in Hc. unfold libc, demo_libc_ops, demo_libc. rewrite Hc. by destruct k.
  - intros k fd v b Hstat. destruct (setfl_call k.(dk_files) fd v b Hstat) as (e & o & Hc). exists e, o.
    cbn [libc sample_libc_ops] in Hc. unfold libc, demo_libc_ops, demo_libc. by rewrite Hc.
  - intros c k r k' Hc Hrc He. exfalso. destruct (sample_libc c (dk_files k)) as [r0 f] eqn:Hs.
    assert (r0.(rc) = (-1)%Z -> r0.(err) ≠ EINTR) as Hno.
    { intros H1 H2. pose proof (libc_interrupted _ _ _ _ Hs H1 H2) as Hlt. cbn in Hlt. lia. }
    destruct c as [[] ? ?|?|?|? ?|? ? ?|? ? ?|?|? ? ?|? ? ?|? ? ?|? ? ? ?]; unfold libc, demo_libc_ops, demo_libc in Hc;
      rewrite ?Hs in Hc; try (injection Hc as <- _; by apply Hno); try (by injection Hc as <- _).
    destruct (dk_answers k); [by injection Hc as <- _|]. injection Hc as <- _. cbn in He. by case_bool_decide.
Defined.

(** Thread 7 of [sample_io], hooked; the second [recv] has 5 bytes. *)
Definition demo_start : hooked (list nat) sample_epoll demo_kernel :=
  (set_hook_enable_flag 7 true (mkHooked sample_io
    (new_FdManager (mkDemo (replicate 64 0%Z) [mkResult (-1) EAGAIN 0; mkResult 5 0 0])) 0 [])).2.

(** A client connects, and is answered in the second round of its reader. *)
Lemma fiber_server_serves_witness :
  let cb := log 1 Return in
  ∃ s1 p ctx s3, test_accept cb (λ _, cb) 0 0 Return InResume 7 9 demo_start = (Ret (Some tt), s1) ∧
    connection s1 40 p ctx ∧ registered_as s1.(h_io) 40 READ cb ∧ registered_as s1.(h_io) 9 READ cb ∧
    reader 0 0 Return InResume 1 7 40 s1 = (Ret (Some tt), s3) ∧ released 3 40 s1 s3.
Proof.
  intros cb.
  destruct (fiber_server_serves cb (λ _, cb) 0 0 0 0 Return InResume 3 7 9 40 demo_start (mkResult 40 0 0) demo_start.(h_fds).(kernel))
    as (s1 & p & ctx & Hrun & Hok & Hconn & Hreg & Hreg9 & _ & Hread).
  - eapply io_ok_same; [exact sample_io_ok|]. split_and!; vm_compute; reflexivity.
  - split; vm_compute; reflexivity.
  - vm_compute. lia.
  - reflexivity.
  - split; discriminate.
  - discriminate.
  - vm_compute. reflexivity.
  - intros c Hc. vm_compute in Hc. injection Hc as <-. reflexivity.
  - reflexivity.
  - reflexivity.
  - split; discriminate.
  - discriminate.
  - discriminate.
  - vm_compute. reflexivity.
  - intros c Hc. vm_compute in Hc. discriminate.
  - vm_compute. reflexivity.
  - assert (s1 = (test_accept cb (λ _, cb) 0 0 Return InResume 7 9 demo_start).2) as Hs1 by (rewrite Hrun; reflexivity).
    destruct (Hread 7%Z s1 Hok) as [Hdone _]; [rewrite Hs1; split; vm_compute; reflexivity|exact Hconn|].
    destruct (Hdone 1 (mkResult 5 0 0) (mkDemo s1.(h_fds).(kernel).(dk_files) []) 1) as (s3 & Hrun3 & Hrel & _); [|lia|].
    + rewrite Hs1. eapply polled_again; [vm_compute; reflexivity|split; reflexivity|].
      apply polled_done; [vm_compute; reflexivity|discriminate|intros [? _]; discriminate].
    + exists s1, p, ctx, s3. split; [exact Hrun|]. split; [exact Hconn|]. split; [exact Hreg|]. split; [exact Hreg9|].
      split; [exact Hrun3|exact Hrel].
Defined.

(** [main] on a system where every call succeeds: the listening socket, number
    0, has no context and waits for connections. *)
#[export] Instance demo_listening : Listening demo_kernel := {| bind_f _ _ k := (0%Z, k); listen_f _ _ k := (0%Z, k) |}.

Example server_starts :
  let start := mkHooked sample_before (new_FdManager (mkDemo (replicate 64 0%Z) [])) 0 [] in
  let '(o, s) := test_iomanager_begin (log 1 Return) 7 3 [8; 9; 10; 11; 12; 13; 14]%Z start in
  o = Ret (Some 0%Z) ∧ lookup_fd s.(h_fds) 0 = None ∧ registered_as s.(h_io) 0 READ (log 1 Return) ∧
  m_threads (sch (io_process s.(h_io))) = [8; 9; 10; 11; 12; 13; 14]%Z.
Proof. vm_compute. split_and!; [done|done| |done]. by eexists. Qed.
